(* ===== verification/_CoqProject ===== *)
-Q . S2P
Prelude.v
Memory.v
MemoryInv.v
MemoryOps.v
MemoryCopy.v
MemoryFault.v
Task.v
Sched.v
SchedProofs.v
Timers.v
WaitQueue.v
Vsprintf.v
Startup.v
TtyData.v
Console.v
VideoRam.v
ConsoleProofs.v
Kernel.v
Blk.v
Elevator.v
Buffer.v
BufferRing.v
BufferHash.v
BufferInv.v
BufferInit.v
CacheExamples.v
Posix.v
Motor.v
Bitmap.v
BitmapSearch.v
Inode.v
TtyIo.v
Super.v
FileDev.v
Pipe.v
Namei.v
Link.v
CharDev.v
Files.v
Malloc.v
MallocHeap.v
MallocProofs.v
Sys.v
Exit.v
Signal.v
Fork.v
Exec.v
PageFault.v
SysCalls.v
TtyProofs.v
UserMem.v
Termios.v
DiskInode.v
TaskProofs.v
CallTypes.v
FileCounts.v
PipeProofs.v
FileBlocks.v
FileRead.v
FileWrite.v
FileIoExamples.v
ExecStack.v
Ports.v
Hd.v
HdProofs.v
Cpu.v
CString.v
CStringProofs.v
CStringMore.v
Floppy.v
FloppyProofs.v
Gates.v
Traps.v
SystemCall.v
Unistd.v
Main.v
InodeTable.v
Directory.v
DirectoryAdd.v
MainExamples.v
