(* ===== verification/Prelude.v ===== *)
(** * A verification development for the Linux 0.11 kernel

    The program is the kernel under src/linux-0.11: memory management (mm/),
    tasks, scheduling, signals and fork (kernel/), the file system with its
    buffer cache, pipes, names, open files and program start (fs/), the block
    devices (kernel/blk_drv/), the terminals and the screen (kernel/chr_drv/),
    and the parts of lib/ and init/ these use. The paths below are relative to
    src/linux-0.11.

    ** How the program is modelled

    A C routine is a function of the kernel monad [M S A] of this file, from a
    state to an [outcome]: it returns, panics, ends the task in do_exit, commits
    a [Fault] (an access outside every C object), or is [Blocked] (it sleeps and
    is not woken again in the run considered, or loops for ever). The routines
    keep the names, the order of effects, the early returns and the conditions
    of the source. Integers are [Z], with the wrap-around of their C type
    written where a value is stored ([u8], [u16], [u32], [s32]); a pointer into
    a table is an index, [None] is the null pointer; records are structs, with
    the field updates.

    State is kept where the source keeps it:
    - mm/memory.c: [mm] of Memory, with physical memory as words at addresses,
      the counts [memory_map] and the page directory at address 0;
    - kernel/sched.c: [sched] of Task and Sched, with the 64 task structures,
      the timer list, jiffies and the floppy motors;
    - fs/, the block devices and the terminals: [kernel] of Kernel, which
      contains an [mm], a [sched] and the screen of Console, and reaches them by
      [on_memory] and [on_sched]; the current task's memory behind fs is a map
      from addresses to bytes;
    - the hard disk and floppy drivers: [hd_kernel] of Hd and [fd_kernel] of
      Floppy, the kernel and the driver's own variables;
    - include/string.h, which is inline assembly: [cpu] of Cpu, registers, flags
      and bytes of memory;
    - interrupts: [tables] of Gates, the gates and what passed through the ports;
    - programs: [program] of Unistd, the kernel and the program's [errno].

    ** Sleeping, interrupts and hardware

    What runs while a routine sleeps is the argument [interfere] of the class
    [Env] of Kernel: any function on the state. Theorems say what they need of
    it: nothing, or that it keeps an invariant (the class [Cooperative] of
    BufferInv). Sleepers and their queues one by one, with the tmp variables
    that chain them, are in WaitQueue, as a step relation on systems of sleeping
    tasks. Ports are read through [Env] or [Machine], and what is written is
    recorded. [Machine] of Ports lets what a port gives depend on all accesses
    before; the laws of an AT disk controller are the class [AtDisk] of HdProofs,
    with a controller that satisfies them; those of the two 8259s
    are [Controllers] of Gates. Where buffers lie, which decides how the floppy's
    DMA reaches them, is [Placement] of Floppy; the DMA chip moves the data in a
    step of its own, [dma_done]. The clock chip in Startup, the memory behind %s
    in Vsprintf, in SystemCall the three calls whose arguments are not in the
    table ([elsewhere]) and in Unistd the program's signal handlers are
    parameters as well.

    ** The parts

    Each component has a file with its state and operations, named after the
    source, and files with its theorems.
    - mm/memory.c: Memory and PageFault; MemoryInv (the counts are exact),
      MemoryOps, MemoryCopy, MemoryFault.
    - include/linux/sched.h, include/signal.h: Task.
    - kernel/sched.c: Sched; SchedProofs, Timers, WaitQueue.
    - kernel/fork.c, exit.c, signal.c, sys.c, include/linux/sys.h: Fork, Exit,
      Signal, Sys, SysCalls; TaskProofs, CallTypes.
    - kernel/system_call.s, include/unistd.h, lib/, init() of init/main.c:
      SystemCall, Unistd, Main.
    - kernel/traps.c, printk.c, panic.c, kernel/math/, asm.s, the gates of
      include/asm/system.h: Gates, Traps.
    - kernel/vsprintf.c: Vsprintf; mktime.c, init/main.c: Startup, both with
      their theorems.
    - kernel/blk_drv/ll_rw_blk.c, blk.h, ramdisk.c: Blk (loading an image into
      the ram disk is with sys_setup in Hd); Elevator.
    - kernel/blk_drv/hd.c: Ports and Hd; HdProofs.
    - kernel/blk_drv/floppy.c: Motor (what the kernel calls) and Floppy;
      FloppyProofs.
    - fs/buffer.c: Buffer; BufferRing (free list), BufferHash (hash chains),
      BufferInv, BufferInit.
    - fs/bitmap.c, truncate.c, inode.c, super.c: Bitmap, Inode, Super;
      BitmapSearch, DiskInode, InodeTable.
    - fs/file_dev.c, block_dev.c, pipe.c, namei.c, open.c, read_write.c, stat.c,
      fcntl.c, char_dev.c, ioctl.c: FileDev, Pipe, Namei, Link, Files, CharDev;
      PipeProofs, FileCounts, FileBlocks, FileRead, FileWrite, Directory,
      DirectoryAdd.
    - fs/exec.c: Exec; UserMem, ExecStack.
    - kernel/chr_drv/console.c, tty_io.c, tty_ioctl.c, serial.c, lib/ctype.c:
      Console, TtyData, TtyIo, CharDev; VideoRam, ConsoleProofs,
      TtyProofs, Termios.
    - lib/malloc.c: Malloc; MallocHeap (the heap its pointers stand for),
      MallocProofs.
    - include/string.h: Cpu and CString; CStringProofs, CStringMore.
    The files named ...Examples, and the last sections of the others, hold
    concrete machines for the witnesses, and
    runs of the program that show where it does not do what it means to.

    How they call each other: [getblk] and [bread] (Buffer) are below everything
    that touches a device, and call [ll_rw_block] (Blk), whose requests go to the
    ram disk here, or to an interrupt driver: [start_driver] of [Env] stands for
    it in the kernel, Hd and Floppy are the two there are. Inodes (Inode) are above
    the cache and below names, files and pipes; [sync_dev] closes the circle
    from the cache to the inodes, with [nesting] for its depth. Terminals use
    the screen, tasks are reached by signals from the terminals and by all calls.
    A program comes in through [system_call] and goes out through
    [ret_from_sys_call], where its signals wait.

    ** What the theorems show

    - Memory: the reference counts are exact and every routine keeps them so;
      fork shares pages copy-on-write; a write fault gives a private copy.
    - Scheduling: [schedule] runs the right task; timers fire when they are due;
      wake_up frees all sleepers of a queue, and one interleaving where a wake-up
      is lost.
    - Tasks: the calls that only touch tasks keep every field in the range of
      its type; who may signal whom, and who may become whom; process numbers;
      a pending signal reaches its handler with the whole frame on the stack.
    - Cache and disk: no block is in two buffers, under any interference that
      keeps the cache in order; requests stay in elevator order; a block is read
      from the right place of a hard disk, and written there and nowhere else; an
      inode is read back from the disk as it was written; the search of the
      bitmaps finds the first free bit; no inode is in the table twice, under the
      same kind of interference; every path of the floppy driver ends, and the
      sectors it names are on the disk.
    - Files: reading gives the bytes of the file, and what was written is read
      back; a name is found in a directory, also after it was entered;
      descriptors and counts agree; a pipe is a bounded queue of bytes;
      [create_tables] builds the stack of a new program.
    - Terminals: no output leads outside the screen's memory; scrolling is the
      same on every card; the queues are queues; settings are read back.
    - malloc: a block lies apart from all others, is as large as asked for and
      keeps its contents; free_s gives it, and a page with no other, back.
    - Strings: what the routines of string.h compute on the bytes of memory, and
      where they are not those of the C library.
    - Printing, time and start-up: [vsprintf] and [number], the calendar, the
      clock and the layout of memory; the gates and masks when interrupts are
      switched on; the descriptors a shell starts with.

    ** Bounds

    A loop that is not structural has fuel. Where the loop ends for a reason in
    its own data, the fuel is that bound: the length of a table, chain or
    request queue, the bytes left to copy, the 8192 bits of a block, the 1024
    characters of a queue, and for strings and paths of the user the number of
    bytes of his memory that are not zero. Running out is then [Blocked], which
    is what an endless loop of the code does, and theorems that say a routine
    returns show that it does not happen. Waits are bounded by [patience] of
    [Env] and the mutual calls of the cache and the inodes by [nesting]; both
    are arbitrary, a theorem holds for all of them. The routines of CString have
    their fuel as an argument, and their theorems say how much is enough. The
    floppy driver calls itself through its request routine at most twice in one
    interrupt, goes through at most NR_REQUEST requests, and polls its controller
    10000 times, as the code does. [init] and the idle loop never end, and have
    the number of rounds as an argument.

    ** Not modelled

    - Assembly (boot/, page.s, rs_io.s, kb.S): the loader, and the entries of
      the serial lines and the keyboard; what they call in C is modelled. In
      system_call.s and asm.s the registers saved are arguments of definitions.
    - Where a routine panics, [panic] is an outcome; what it prints and syncs is
      [kernel_panic] of Traps. What printk prints is modelled there as well;
      elsewhere it has no effect on the state.
    - tools/ and demo/.
    - The memory behind fs is not the paged memory of mm/: [verify_area] and page
      faults change page tables, and user bytes are read and written as such.

    ** Open

    Modelled, with no theorem of their own yet: the reference counts of the inode
    table under [iget] and [iput] together, and a block read from a floppy disk end
    to end. *)

From Stdlib Require Import ZArith Lia.
From stdpp Require Import base numbers list strings.

#[global] Open Scope Z_scope.

(** ** Machine integers

    A C integer is a [Z] in the range of its type; the conversions below are
    what the compiler inserts when a value is stored in a narrower object. *)

Definition u8 (x : Z) : Z := x mod 256.
Definition u16 (x : Z) : Z := x mod 65536.
Definition u32 (x : Z) : Z := x mod 4294967296.

(** Two's-complement reading of the low 32 (16, 8) bits. *)
Definition s32 (x : Z) : Z := (x + 2147483648) mod 4294967296 - 2147483648.
Definition s16 (x : Z) : Z := (x + 32768) mod 65536 - 32768.
Definition s8 (x : Z) : Z := (x + 128) mod 256 - 128.

Definition is_u8 (x : Z) : Prop := 0 <= x < 256.
Definition is_u16 (x : Z) : Prop := 0 <= x < 65536.
Definition is_u32 (x : Z) : Prop := 0 <= x < 4294967296.
Definition is_s32 (x : Z) : Prop := -2147483648 <= x < 2147483648.

(** C truth values: [istrue x] is the condition [if (x)]. *)
Definition istrue (x : Z) : bool := negb (x =? 0).
Definition b2z (b : bool) : Z := if b then 1 else 0.

(** ** Arrays indexed by integers

    A C array is a list; an index outside it has no value, and the model says
    at each access what happens then. *)

Definition getz {A} (l : list A) (i : Z) : option A :=
  if i <? 0 then None else l !! Z.to_nat i.

Definition setz {A} (l : list A) (i : Z) (x : A) : list A :=
  if i <? 0 then l else <[Z.to_nat i := x]> l.

Definition lenz {A} (l : list A) : Z := Z.of_nat (length l).

(** ** The kernel monad

    A kernel routine runs on a state and either returns, or never returns to
    its caller: [panic] loops for ever, [do_exit] gives the processor away for
    good, a [Fault] is an access outside every C object (its effect is not
    defined by the language), and [Blocked] is a task that sleeps and is not
    woken any more in the run under consideration. *)

Inductive outcome (S A : Type) : Type :=
| Ok (a : A) (s : S)
| Panic (msg : string) (s : S)
| Exit (code : Z) (s : S)
| Fault (s : S)
| Blocked (s : S).
Arguments Ok {S A} a s.
Arguments Panic {S A} msg s.
Arguments Exit {S A} code s.
Arguments Fault {S A} s.
Arguments Blocked {S A} s.

Definition M (S A : Type) : Type := S -> outcome S A.

Definition ret {S A} (a : A) : M S A := fun s => Ok a s.

Definition bind {S A B} (m : M S A) (k : A -> M S B) : M S B := fun s =>
  match m s with
  | Ok a s' => k a s'
  | Panic msg s' => Panic msg s'
  | Exit c s' => Exit c s'
  | Fault s' => Fault s'
  | Blocked s' => Blocked s'
  end.

Definition gets {S A} (f : S -> A) : M S A := fun s => Ok (f s) s.
Definition modify {S} (f : S -> S) : M S unit := fun s => Ok tt (f s).
Definition panic {S A} (msg : string) : M S A := fun s => Panic msg s.
Definition exit_with {S A} (code : Z) : M S A := fun s => Exit code s.
Definition fault {S A} : M S A := fun s => Fault s.
Definition blocked {S A} : M S A := fun s => Blocked s.

(** A value that must be there: reading outside an array is a fault. *)
Definition valid {S A} (o : option A) : M S A :=
  match o with Some a => ret a | None => fault end.

Declare Scope kernel_scope.
Delimit Scope kernel_scope with kernel.
Notation "'let!' x := m 'in' k" := (bind m (fun x => k))
  (at level 10, x name, m at level 100, k at level 200) : kernel_scope.
Notation "'let!' ' p := m 'in' k" := (bind m (fun p => k))
  (at level 10, p pattern, m at level 100, k at level 200) : kernel_scope.
Notation "'do!' m 'in' k" := (bind m (fun _ => k))
  (at level 10, m at level 100, k at level 200) : kernel_scope.
#[global] Open Scope kernel_scope.

Definition when {S} (b : bool) (m : M S unit) : M S unit := if b then m else ret tt.

(** [for (i = lo; n-- > 0; i++) body(i)] *)
Fixpoint for_range {S} (lo : Z) (n : nat) (body : Z -> M S unit) : M S unit :=
  match n with
  | O => ret tt
  | Datatypes.S n' => do! body lo in for_range (lo + 1) n' body
  end.

(** Running a component's routine on the part of a larger state it owns. *)
Definition zoom {S T A} (get : S -> T) (put : T -> S -> S) (m : M T A) : M S A := fun s =>
  match m (get s) with
  | Ok a t => Ok a (put t s)
  | Panic msg t => Panic msg (put t s)
  | Exit c t => Exit c (put t s)
  | Fault t => Fault (put t s)
  | Blocked t => Blocked (put t s)
  end.

(** ** Program logic

    [wp m Q s]: from [s] the routine returns, and then [Q] holds of the result
    and the new state.  [wlp m Q s]: if it returns, [Q] holds. *)

Definition wp {S A} (m : M S A) (Q : A -> S -> Prop) (s : S) : Prop :=
  match m s with Ok a s' => Q a s' | _ => False end.

Definition wlp {S A} (m : M S A) (Q : A -> S -> Prop) (s : S) : Prop :=
  match m s with Ok a s' => Q a s' | _ => True end.

(** As [wp], where the routine may also end in [do_exit], which [X] describes. *)
Definition wpx {S A} (m : M S A) (Q : A -> S -> Prop) (X : Z -> S -> Prop) (s : S) : Prop :=
  match m s with Ok a s' => Q a s' | Exit c s' => X c s' | _ => False end.

Definition is_ok {S A} (o : outcome S A) : bool :=
  match o with Ok _ _ => true | _ => false end.

Definition final {S A} (o : outcome S A) : S :=
  match o with Ok _ s | Panic _ s | Exit _ s | Fault s | Blocked s => s end.

(** ** Lemmas on the monad *)

Section monad_lemmas.
Context {S A B : Type}.
Implicit Types (s : S) (m : M S A).

Lemma wp_ret (a : A) (Q : A -> S -> Prop) s : Q a s -> wp (ret a) Q s.
Proof. done. Qed.

Lemma wp_bind m (k : A -> M S B) (Q : B -> S -> Prop) s :
  wp m (fun a s' => wp (k a) Q s') s -> wp (bind m k) Q s.
Proof. unfold wp, bind. by destruct (m s). Qed.

Lemma wlp_bind m (k : A -> M S B) (Q : B -> S -> Prop) s :
  wlp m (fun a s' => wlp (k a) Q s') s -> wlp (bind m k) Q s.
Proof. unfold wlp, bind. by destruct (m s). Qed.

Lemma wpx_bind m (k : A -> M S B) (Q : B -> S -> Prop) (X : Z -> S -> Prop) s :
  wpx m (fun a s' => wpx (k a) Q X s') X s -> wpx (bind m k) Q X s.
Proof. unfold wpx, bind. by destruct (m s). Qed.

Lemma wp_wpx m (Q : A -> S -> Prop) (X : Z -> S -> Prop) s : wp m Q s -> wpx m Q X s.
Proof. unfold wp, wpx. by destruct (m s). Qed.

Lemma wpx_mono m (Q Q' : A -> S -> Prop) (X X' : Z -> S -> Prop) s :
  wpx m Q X s -> (forall a s', Q a s' -> Q' a s') -> (forall c s', X c s' -> X' c s') ->
  wpx m Q' X' s.
Proof. unfold wpx. intros H HQ HX. destruct (m s); auto. Qed.

(** The state at the end, when one invariant holds on both ways out. *)
Lemma wpx_final m (I : S -> Prop) s :
  wpx m (fun _ s' => I s') (fun _ s' => I s') s -> I (final (m s)).
Proof. unfold wpx. by destruct (m s). Qed.

Lemma wp_mono m (Q Q' : A -> S -> Prop) s :
  wp m Q s -> (forall a s', Q a s' -> Q' a s') -> wp m Q' s.
Proof. unfold wp. destruct (m s); naive_solver. Qed.

Lemma wlp_mono m (Q Q' : A -> S -> Prop) s :
  wlp m Q s -> (forall a s', Q a s' -> Q' a s') -> wlp m Q' s.
Proof. unfold wlp. destruct (m s); naive_solver. Qed.

Lemma wp_wlp m (Q : A -> S -> Prop) s : wp m Q s -> wlp m Q s.
Proof. unfold wp, wlp. by destruct (m s). Qed.

Lemma wlp_returns m (Q : A -> S -> Prop) s : is_ok (m s) = true -> wlp m Q s -> exists a s', m s = Ok a s' /\ Q a s'.
Proof. unfold wlp. destruct (m s) as [a s'| | | |]; try discriminate. by exists a, s'. Qed.

Lemma wp_ok m (Q : A -> S -> Prop) s :
  wp m Q s <-> exists a s', m s = Ok a s' /\ Q a s'.
Proof.
  unfold wp. split; [destruct (m s); [eauto|done..]|].
  by intros (a & s' & -> & HQ).
Qed.

Lemma wlp_ok m (Q : A -> S -> Prop) s :
  wlp m Q s <-> forall a s', m s = Ok a s' -> Q a s'.
Proof. unfold wlp. destruct (m s); naive_solver. Qed.

Lemma bind_ok m (k : A -> M S B) s a s' : m s = Ok a s' -> bind m k s = k a s'.
Proof. unfold bind. by intros ->. Qed.

Lemma bind_ok_inv m (k : A -> M S B) s b s'' :
  bind m k s = Ok b s'' -> exists a s', m s = Ok a s' /\ k a s' = Ok b s''.
Proof. unfold bind. destruct (m s); naive_solver. Qed.
End monad_lemmas.

Lemma bind_assoc {S A B C} (m : M S A) (f : A -> M S B) (g : B -> M S C) s :
  bind (bind m f) g s = bind m (fun a => bind (f a) g) s.
Proof. unfold bind. by destruct (m s). Qed.

Lemma wp_gets {S A} (f : S -> A) (Q : A -> S -> Prop) s : Q (f s) s -> wp (gets f) Q s.
Proof. done. Qed.

Lemma wp_modify {S} (f : S -> S) (Q : unit -> S -> Prop) s : Q tt (f s) -> wp (modify f) Q s.
Proof. done. Qed.

Lemma wlp_ret {S A} (a : A) (Q : A -> S -> Prop) s : Q a s -> wlp (ret a) Q s.
Proof. done. Qed.

Lemma wlp_gets {S A} (f : S -> A) (Q : A -> S -> Prop) s : Q (f s) s -> wlp (gets f) Q s.
Proof. done. Qed.

Lemma wlp_modify {S} (f : S -> S) (Q : unit -> S -> Prop) s : Q tt (f s) -> wlp (modify f) Q s.
Proof. done. Qed.

Lemma wp_when {S} (b : bool) (m : M S unit) (Q : unit -> S -> Prop) s :
  (b = true -> wp m Q s) -> (b = false -> Q tt s) -> wp (when b m) Q s.
Proof. destruct b; simpl; unfold wp, when; naive_solver. Qed.

Lemma wlp_when {S} (b : bool) (m : M S unit) (Q : unit -> S -> Prop) s :
  (b = true -> wlp m Q s) -> (b = false -> Q tt s) -> wlp (when b m) Q s.
Proof. destruct b; simpl; unfold wlp, when; naive_solver. Qed.

Lemma wp_valid {S A} (o : option A) (Q : A -> S -> Prop) s a :
  o = Some a -> Q a s -> wp (valid o) Q s.
Proof. by intros ->. Qed.

Lemma wlp_valid {S A} (o : option A) (Q : A -> S -> Prop) s :
  (forall a, o = Some a -> Q a s) -> wlp (valid o) Q s.
Proof. destruct o; unfold wlp; simpl; naive_solver. Qed.

(** The invariant rules of counting loops. *)
Lemma wp_for_range {S} (I : Z -> S -> Prop) (body : Z -> M S unit) n lo s :
  I lo s ->
  (forall i s', lo <= i < lo + Z.of_nat n -> I i s' -> wp (body i) (fun _ s'' => I (i + 1) s'') s') ->
  wp (for_range lo n body) (fun _ s' => I (lo + Z.of_nat n) s') s.
Proof.
  revert lo s. induction n as [|n IH]; intros lo s HI Hb.
  - simpl. by replace (lo + Z.of_nat 0) with lo by lia.
  - simpl. apply wp_bind. eapply wp_mono; [apply Hb; [lia|done]|].
    intros [] s1 H1. replace (lo + Z.of_nat (Datatypes.S n)) with (lo + 1 + Z.of_nat n) by lia.
    apply IH; [done|]. intros i s' Hi. apply Hb. lia.
Qed.

Lemma wlp_for_range {S} (I : Z -> S -> Prop) (body : Z -> M S unit) n lo s :
  I lo s ->
  (forall i s', lo <= i < lo + Z.of_nat n -> I i s' -> wlp (body i) (fun _ s'' => I (i + 1) s'') s') ->
  wlp (for_range lo n body) (fun _ s' => I (lo + Z.of_nat n) s') s.
Proof.
  revert lo s. induction n as [|n IH]; intros lo s HI Hb.
  - simpl. by replace (lo + Z.of_nat 0) with lo by lia.
  - simpl. apply wlp_bind. eapply wlp_mono; [apply Hb; [lia|done]|].
    intros [] s1 H1. replace (lo + Z.of_nat (Datatypes.S n)) with (lo + 1 + Z.of_nat n) by lia.
    apply IH; [done|]. intros i s' Hi. apply Hb. lia.
Qed.

Lemma wp_zoom {S T A} (get : S -> T) (put : T -> S -> S) (m : M T A) (Q : A -> S -> Prop) s :
  wp m (fun a t => Q a (put t s)) (get s) -> wp (zoom get put m) Q s.
Proof. unfold wp, zoom. by destruct (m (get s)). Qed.

Lemma wlp_zoom {S T A} (get : S -> T) (put : T -> S -> S) (m : M T A) (Q : A -> S -> Prop) s :
  wlp m (fun a t => Q a (put t s)) (get s) -> wlp (zoom get put m) Q s.
Proof. unfold wlp, zoom. by destruct (m (get s)). Qed.

(** ** Lemmas on integer-indexed arrays *)

Section arrays.
Context {A : Type}.
Implicit Types (l : list A) (i j : Z) (x : A).

Lemma getz_Some_lt l i x : getz l i = Some x -> 0 <= i < lenz l.
Proof.
  unfold getz, lenz. destruct (Z.ltb_spec i 0); [done|].
  intros ?%lookup_lt_Some. lia.
Qed.

Lemma getz_is_Some l i : 0 <= i < lenz l -> exists x, getz l i = Some x.
Proof.
  unfold getz, lenz. intros Hi. destruct (Z.ltb_spec i 0); [lia|].
  apply lookup_lt_is_Some. lia.
Qed.

Lemma getz_None l i : getz l i = None <-> i < 0 \/ lenz l <= i.
Proof.
  unfold getz, lenz. destruct (Z.ltb_spec i 0); [naive_solver|].
  rewrite lookup_ge_None. lia.
Qed.

Lemma getz_setz_eq l i x : 0 <= i < lenz l -> getz (setz l i x) i = Some x.
Proof.
  unfold getz, setz, lenz. intros Hi. destruct (Z.ltb_spec i 0); [lia|].
  apply list_lookup_insert_eq. lia.
Qed.

Lemma getz_setz_ne l i j x : i <> j -> getz (setz l i x) j = getz l j.
Proof.
  unfold getz, setz. intros Hij.
  destruct (Z.ltb_spec j 0), (Z.ltb_spec i 0); try done.
  apply list_lookup_insert_ne. lia.
Qed.

Lemma lenz_setz l i x : lenz (setz l i x) = lenz l.
Proof. unfold lenz, setz. case_match; [done|]. by rewrite length_insert. Qed.

Lemma setz_setz l i x y : setz (setz l i x) i y = setz l i y.
Proof. unfold setz. case_match; [done|]. apply list_insert_insert_eq. Qed.

Lemma setz_id l i x : getz l i = Some x -> setz l i x = l.
Proof. unfold getz, setz. case_match; [done|]. apply list_insert_id. Qed.

Lemma getz_ext l1 l2 :
  lenz l1 = lenz l2 -> (forall i, 0 <= i < lenz l1 -> getz l1 i = getz l2 i) -> l1 = l2.
Proof.
  unfold lenz, getz. intros Hlen Heq. apply list_eq. intros i.
  destruct (decide (i < length l1)%nat) as [Hi|Hi].
  - specialize (Heq (Z.of_nat i)). rewrite Nat2Z.id in Heq.
    destruct (Z.ltb_spec (Z.of_nat i) 0); [lia|]. apply Heq. lia.
  - rewrite !lookup_ge_None_2 by lia. done.
Qed.

Lemma getz_replicate n x i : 0 <= i < Z.of_nat n -> getz (replicate n x) i = Some x.
Proof.
  unfold getz. intros Hi. destruct (Z.ltb_spec i 0); [lia|].
  apply lookup_replicate. split; [done|lia].
Qed.

Lemma lenz_replicate n x : lenz (replicate n x) = Z.of_nat n.
Proof. unfold lenz. by rewrite length_replicate. Qed.

Lemma lenz_nonneg l : 0 <= lenz l.
Proof. unfold lenz. lia. Qed.

Lemma lenz_app l1 l2 : lenz (l1 ++ l2) = lenz l1 + lenz l2.
Proof. unfold lenz. rewrite length_app. lia. Qed.

Lemma lenz_cons x l : lenz (x :: l) = 1 + lenz l.
Proof. unfold lenz. simpl. lia. Qed.

Lemma getz_cons_S x l i : 0 < i -> getz (x :: l) i = getz l (i - 1).
Proof.
  intros Hi. unfold getz. destruct (Z.ltb_spec i 0), (Z.ltb_spec (i - 1) 0); try lia.
  by replace (Z.to_nat i) with (Datatypes.S (Z.to_nat (i - 1))) by lia.
Qed.

Lemma getz_end l : getz l (lenz l) = None.
Proof.
  unfold getz, lenz. destruct (Z.ltb_spec (Z.of_nat (length l)) 0); [done|]. rewrite Nat2Z.id. by apply lookup_ge_None_2.
Qed.

Lemma getz_Forall (P : A -> Prop) l i x : Forall P l -> getz l i = Some x -> P x.
Proof. unfold getz. case_match; [done|]. intros HP Hi. by eapply Forall_lookup_1. Qed.

Lemma setz_Forall (P : A -> Prop) l i x : Forall P l -> P x -> Forall P (setz l i x).
Proof. unfold setz. case_match; [done|]. intros. by apply Forall_insert. Qed.
End arrays.

Lemma lenz_fmap {A B} (f : A -> B) (l : list A) : lenz (f <$> l) = lenz l.
Proof. unfold lenz. by rewrite length_fmap. Qed.

Create HintDb karray.
#[export] Hint Rewrite @lenz_setz @lenz_replicate @lenz_app @lenz_cons @lenz_fmap @setz_setz : karray.
#[export] Hint Resolve lenz_nonneg getz_setz_eq setz_Forall : karray.

(** ** Lists linked through an array

    The entries of the array [l] reached from [link] through the field [next]
    are those of the indices [idx], in this order. *)

Section chains.
Context {T : Type} (next : T -> option Z).

Fixpoint chain (l : list T) (link : option Z) (idx : list Z) : Prop :=
  match idx with
  | [] => link = None
  | i :: idx => link = Some i /\ exists t, getz l i = Some t /\ chain l (next t) idx
  end.

Lemma chain_ext l l' link idx :
  (forall i, i ∈ idx -> getz l' i = getz l i) -> chain l link idx -> chain l' link idx.
Proof.
  revert link. induction idx as [|i idx IH]; intros link Heq; [done|].
  intros (-> & t & Ht & Hc). split; [done|]. exists t. rewrite Heq by left. split; [done|].
  apply IH; [|done]. intros k Hk. apply Heq. by right.
Qed.

Lemma chain_getz l link idx i : chain l link idx -> i ∈ idx -> exists t, getz l i = Some t.
Proof.
  revert link. induction idx as [|k idx IH]; intros link Hc Hi; [by apply elem_of_nil in Hi|].
  destruct Hc as (-> & t & Ht & Hc). apply elem_of_cons in Hi as [->|Hi]; [by exists t|eauto].
Qed.
End chains.

Lemma getz_setz_notin {A} (l : list A) i x k (idx : list Z) :
  i ∉ idx -> k ∈ idx -> getz (setz l i x) k = getz l k.
Proof. intros Hi Hk. apply getz_setz_ne. by intros ->. Qed.

(** ** Lemmas on machine integers *)

Lemma u32_id x : is_u32 x -> u32 x = x.
Proof. apply Z.mod_small. Qed.
Lemma u16_id x : is_u16 x -> u16 x = x.
Proof. apply Z.mod_small. Qed.
Lemma u8_id x : is_u8 x -> u8 x = x.
Proof. apply Z.mod_small. Qed.
Lemma s32_id x : is_s32 x -> s32 x = x.
Proof. unfold s32, is_s32. intros. rewrite Z.mod_small; lia. Qed.
Lemma u32_range x : is_u32 (u32 x).
Proof. unfold u32, is_u32. apply Z.mod_pos_bound. lia. Qed.
Lemma u16_range x : is_u16 (u16 x).
Proof. unfold u16, is_u16. apply Z.mod_pos_bound. lia. Qed.
Lemma u8_range x : is_u8 (u8 x).
Proof. unfold u8, is_u8. apply Z.mod_pos_bound. lia. Qed.
Lemma s32_range x : is_s32 (s32 x).
Proof. unfold s32, is_s32. pose proof (Z.mod_pos_bound (x + 2147483648) 4294967296). lia. Qed.

Create HintDb kint.
#[export] Hint Resolve u32_range u16_range u8_range s32_range : kint.

(** ** Arithmetic modulo 2^32

    Wrap-around is a congruence: [s32] and [u32] can be pushed to the outside
    of sums and products by setoid rewriting. *)

Definition eqm32 (a b : Z) : Prop := exists k, a = b + k * 4294967296.
Infix "≡₃₂" := eqm32 (at level 70) : kernel_scope.

#[global] Instance eqm32_equivalence : Equivalence eqm32.
Proof.
  split.
  - intros a. exists 0. lia.
  - intros a b [k ->]. exists (- k). lia.
  - intros a b c [k ->] [l ->]. exists (l + k). lia.
Qed.

#[global] Instance add_eqm32 : Proper (eqm32 ==> eqm32 ==> eqm32) Z.add.
Proof. intros a a' [k ->] b b' [l ->]. exists (k + l). lia. Qed.

#[global] Instance sub_eqm32 : Proper (eqm32 ==> eqm32 ==> eqm32) Z.sub.
Proof. intros a a' [k ->] b b' [l ->]. exists (k - l). lia. Qed.

#[global] Instance opp_eqm32 : Proper (eqm32 ==> eqm32) Z.opp.
Proof. intros a a' [k ->]. exists (- k). lia. Qed.

#[global] Instance mul_eqm32 : Proper (eqm32 ==> eqm32 ==> eqm32) Z.mul.
Proof. intros a a' [k ->] b b' [l ->]. exists (a' * l + k * b' + k * l * 4294967296). lia. Qed.

Lemma s32_eqm32 a : s32 a ≡₃₂ a.
Proof.
  exists (- ((a + 2147483648) / 4294967296)). unfold s32.
  pose proof (Z.div_mod (a + 2147483648) 4294967296). lia.
Qed.

Lemma u32_eqm32 a : u32 a ≡₃₂ a.
Proof. exists (- (a / 4294967296)). unfold u32. pose proof (Z.div_mod a 4294967296). lia. Qed.

#[global] Instance s32_proper : Proper (eqm32 ==> eq) s32.
Proof.
  intros a b [k ->]. unfold s32. f_equal. rewrite <- (Z_mod_plus_full (b + 2147483648) k).
  f_equal. lia.
Qed.

#[global] Instance u32_proper : Proper (eqm32 ==> eq) u32.
Proof. intros a b [k ->]. unfold u32. apply Z_mod_plus_full. Qed.

(** A bit mask of low ones is a remainder. *)
Lemma land_low (x n : Z) : 0 <= n -> Z.land x (2 ^ n - 1) = x mod 2 ^ n.
Proof.
  intros Hn. replace (2 ^ n - 1) with (Z.ones n).
  - by apply Z.land_ones.
  - rewrite Z.ones_equiv. lia.
Qed.

(** The values of [x & 1]. *)
Lemma land_1 (x : Z) : Z.land x 1 = x mod 2.
Proof. apply (land_low x 1). lia. Qed.

(** ** Finite sums over an interval of integers *)

Fixpoint sumZ (f : Z -> Z) (lo : Z) (n : nat) : Z :=
  match n with
  | O => 0
  | Datatypes.S n' => f lo + sumZ f (lo + 1) n'
  end.

Section sums.
Implicit Types (f g : Z -> Z) (lo j : Z) (n : nat).

Lemma sumZ_ext f g lo n :
  (forall i, lo <= i < lo + Z.of_nat n -> f i = g i) -> sumZ f lo n = sumZ g lo n.
Proof.
  revert lo. induction n as [|n IH]; intros lo Hfg; [done|]. simpl.
  rewrite Hfg by lia. rewrite IH; [done|]. intros i Hi. apply Hfg. lia.
Qed.

Lemma sumZ_nonneg f lo n :
  (forall i, lo <= i < lo + Z.of_nat n -> 0 <= f i) -> 0 <= sumZ f lo n.
Proof.
  revert lo. induction n as [|n IH]; intros lo Hf; simpl; [lia|].
  pose proof (Hf lo ltac:(lia)). pose proof (IH (lo + 1) ltac:(intros; apply Hf; lia)). lia.
Qed.

Lemma sumZ_zero f lo n :
  (forall i, lo <= i < lo + Z.of_nat n -> f i = 0) -> sumZ f lo n = 0.
Proof.
  revert lo. induction n as [|n IH]; intros lo Hf; simpl; [lia|].
  rewrite Hf by lia. rewrite IH; [lia|]. intros. apply Hf. lia.
Qed.

Lemma sumZ_split f lo n m : sumZ f lo (n + m) = sumZ f lo n + sumZ f (lo + Z.of_nat n) m.
Proof.
  revert lo. induction n as [|n IH]; intros lo.
  - simpl. by rewrite Z.add_0_r.
  - cbn [sumZ Nat.add]. rewrite IH. replace (lo + 1 + Z.of_nat n) with (lo + Z.of_nat (Datatypes.S n)) by lia. lia.
Qed.

Lemma sumZ_snoc f lo n : sumZ f lo (Datatypes.S n) = sumZ f lo n + f (lo + Z.of_nat n).
Proof. replace (Datatypes.S n) with (n + 1)%nat by lia. rewrite sumZ_split. simpl. lia. Qed.

Lemma sumZ_sub f lo m a n :
  (forall i, lo <= i < lo + Z.of_nat m -> 0 <= f i) ->
  lo <= a -> a + Z.of_nat n <= lo + Z.of_nat m -> sumZ f a n <= sumZ f lo m.
Proof.
  intros Hf Ha Hn.
  replace m with (Z.to_nat (a - lo) + (n + (m - Z.to_nat (a - lo) - n)))%nat by lia.
  rewrite !sumZ_split. replace (lo + Z.of_nat (Z.to_nat (a - lo))) with a by lia.
  pose proof (sumZ_nonneg f lo (Z.to_nat (a - lo)) ltac:(intros; apply Hf; lia)).
  pose proof (sumZ_nonneg f (a + Z.of_nat n) (m - Z.to_nat (a - lo) - n) ltac:(intros; apply Hf; lia)).
  lia.
Qed.

Lemma sumZ_mono f g lo n :
  (forall i, lo <= i < lo + Z.of_nat n -> f i <= g i) -> sumZ f lo n <= sumZ g lo n.
Proof.
  revert lo. induction n as [|n IH]; intros lo Hfg; simpl; [lia|].
  pose proof (Hfg lo ltac:(lia)). pose proof (IH (lo + 1) ltac:(intros; apply Hfg; lia)). lia.
Qed.

(** Changing one summand. *)
Lemma sumZ_update f g lo n j :
  lo <= j < lo + Z.of_nat n ->
  (forall i, lo <= i < lo + Z.of_nat n -> i <> j -> f i = g i) ->
  sumZ g lo n = sumZ f lo n - f j + g j.
Proof.
  revert lo. induction n as [|n IH]; intros lo Hj Hfg; [lia|]. simpl.
  destruct (decide (lo = j)) as [->|Hne].
  - rewrite (sumZ_ext f g (j + 1) n); [lia|]. intros i Hi. apply Hfg; lia.
  - rewrite (IH (lo + 1)); [|lia|intros; apply Hfg; lia].
    rewrite (Hfg lo); lia.
Qed.

(** A summand, and two different summands, are bounded by the sum. *)
Lemma sumZ_member f lo n j :
  (forall i, lo <= i < lo + Z.of_nat n -> 0 <= f i) ->
  lo <= j < lo + Z.of_nat n -> f j <= sumZ f lo n.
Proof.
  intros Hf Hj. set (g := fun i => if i =? j then 0 else f i).
  assert (sumZ g lo n = sumZ f lo n - f j + g j) as H.
  { apply sumZ_update; [done|]. intros i Hi Hij. unfold g. by rewrite (proj2 (Z.eqb_neq i j)). }
  assert (g j = 0) as E1 by (unfold g; by rewrite Z.eqb_refl).
  assert (0 <= sumZ g lo n); [|lia].
  apply sumZ_nonneg. intros i Hi. unfold g. destruct (i =? j); [lia|auto].
Qed.

Lemma sumZ_two f lo n j k :
  (forall i, lo <= i < lo + Z.of_nat n -> 0 <= f i) ->
  lo <= j < lo + Z.of_nat n -> lo <= k < lo + Z.of_nat n -> j <> k ->
  f j + f k <= sumZ f lo n.
Proof.
  intros Hf Hj Hk Hne. set (g := fun i => if i =? j then 0 else f i).
  assert (sumZ g lo n = sumZ f lo n - f j + g j) as H.
  { apply sumZ_update; [done|]. intros i Hi Hij. unfold g. by rewrite (proj2 (Z.eqb_neq i j)). }
  assert (g k <= sumZ g lo n) as H0.
  { apply sumZ_member; [|done]. intros i Hi. unfold g. destruct (i =? j); [lia|auto]. }
  assert (g j = 0) as E1 by (unfold g; by rewrite Z.eqb_refl).
  assert (g k = f k) as E2 by (unfold g; by rewrite (proj2 (Z.eqb_neq k j)) by lia).
  lia.
Qed.
End sums.

(** ** Tactics of the development *)

(** Symbolic execution of one step of a total-correctness goal. *)
Ltac wp_step :=
  lazymatch goal with
  | |- wp (bind _ _) _ _ => apply wp_bind
  | |- wp (when _ _) _ _ => apply wp_when; intros
  | |- wp (ret _) _ _ => apply wp_ret
  | |- wp (gets _) _ _ => apply wp_gets
  | |- wp (modify _) _ _ => apply wp_modify
  | |- wlp (bind _ _) _ _ => apply wlp_bind
  | |- wlp (when _ _) _ _ => apply wlp_when; intros
  | |- wlp (ret _) _ _ => apply wlp_ret
  | |- wlp (gets _) _ _ => apply wlp_gets
  | |- wlp (modify _) _ _ => apply wlp_modify
  | |- wlp (panic _) _ _ => exact I
  | |- wlp (exit_with _) _ _ => exact I
  | |- wlp fault _ _ => exact I
  | |- wlp blocked _ _ => exact I
  end.
Ltac wp_steps := repeat (wp_step; cbn beta).

(** Linear arithmetic with division and remainder by constants. *)
Ltac dmlia := Z.div_mod_to_equations; lia.

(** Case analysis on the boolean comparisons of integers in the goal. *)
Ltac zcases :=
  repeat match goal with
  | |- context [?x =? ?y] => destruct (Z.eqb_spec x y)
  | |- context [?x <? ?y] => destruct (Z.ltb_spec x y)
  | |- context [?x <=? ?y] => destruct (Z.leb_spec x y)
  end.

(** The same for hypotheses [test = true] and [test = false]. *)
Ltac breflect :=
  repeat match goal with
  | H : istrue _ = true |- _ => unfold istrue in H
  | H : istrue _ = false |- _ => unfold istrue in H
  | H : negb _ = true |- _ => apply negb_true_iff in H
  | H : negb _ = false |- _ => apply negb_false_iff in H
  | H : _ && _ = true |- _ => apply andb_true_iff in H as [? ?]
  | H : _ || _ = false |- _ => apply orb_false_iff in H as [? ?]
  | H : _ && _ = false |- _ => apply andb_false_iff in H
  | H : _ || _ = true |- _ => apply orb_true_iff in H
  | H : (_ =? _) = true |- _ => apply Z.eqb_eq in H
  | H : (_ =? _) = false |- _ => apply Z.eqb_neq in H
  | H : (_ <? _) = true |- _ => apply Z.ltb_lt in H
  | H : (_ <? _) = false |- _ => apply Z.ltb_ge in H
  | H : (_ <=? _) = true |- _ => apply Z.leb_le in H
  | H : (_ <=? _) = false |- _ => apply Z.leb_gt in H
  end.

(** ** Updating one field of a record

    [s <| f := v |>] is the record [s] with the field [f] replaced.  A record
    type declares its eta-expansion as an instance of [Fields], and each field
    gets an instance of [Setter] computed from it by [solve_setter]. *)

Class Fields (R : Type) := eta : R -> R.
Class Setter {R T : Type} (proj : R -> T) := over : (T -> T) -> R -> R.
Arguments over {R T} proj {Setter} f r : simpl never.

(** Replaces [proj x] by [f (proj x)] in the eta-expansion of [x]. *)
Ltac solve_setter :=
  lazymatch goal with
  | |- @Setter ?R ?T ?proj =>
    unfold Setter; intros f x;
    let e := eval cbv beta delta [eta] in (eta x) in
    let e := lazymatch e with ?h x => eval unfold h in e | _ => e end in
    let e := eval cbv beta in e in
    let g := eval pattern (proj x) in e in
    lazymatch g with ?h (proj x) => let r := eval cbv beta in (h (f (proj x))) in exact r end
  end.

Declare Scope update_scope.
Delimit Scope update_scope with update.
Notation "s <| f := v |>" := (over f (fun _ => v) s)
  (at level 1, f at next level, left associativity) : update_scope.
Notation "s <| f ::= g |>" := (over f g s)
  (at level 1, f at next level, left associativity) : update_scope.
#[global] Open Scope update_scope.

(** Reads a field through the updates: of the field itself, or of another. *)
Ltac upd_term p q f s :=
  let _ := constr:(_ : Setter p) in
  first [ change (p (over q f s)) with (p s) | change (p (over q f s)) with (f (p s)) ].
Ltac upd := repeat match goal with |- context [?p (over ?q ?f ?s)] => progress (upd_term p q f s) end; cbv beta.
Ltac upd_in H :=
  repeat match type of H with context [?p (over ?q ?f ?s)] =>
    let _ := constr:(_ : Setter p) in
    first [ change (p (over q f s)) with (p s) in H | change (p (over q f s)) with (f (p s)) in H ]
  end; cbv beta in H.

(** ** Ring buffers

    The queues of the terminals and the pages of the pipes are rings: the
    contents of the [n] cells from [tail] on, modulo the size of the ring. *)

Section ring.
Context {A : Type} (N : Z) (HN : 0 < N).
Implicit Types (get : Z -> A) (tail n : Z).

Definition ring get tail n : list A := (fun k => get ((tail + k) mod N)) <$> seqZ 0 n.

Lemma ring_length get tail n : 0 <= n -> lenz (ring get tail n) = n.
Proof. intros Hn. unfold ring. rewrite lenz_fmap. unfold lenz. rewrite length_seqZ. lia. Qed.

Lemma ring_ext get get' tail n :
  (forall k, 0 <= k < n -> get ((tail + k) mod N) = get' ((tail + k) mod N)) -> ring get tail n = ring get' tail n.
Proof. intros H. apply list_fmap_ext. intros i k Hk. apply lookup_seqZ in Hk. apply H. lia. Qed.

Lemma ring_app get tail n m :
  0 <= n -> 0 <= m -> ring get tail (n + m) = ring get tail n ++ ring get ((tail + n) mod N) m.
Proof.
  intros Hn Hm. unfold ring. rewrite seqZ_app by done. rewrite fmap_app. f_equal.
  rewrite Z.add_0_l. replace (seqZ n m) with (Z.add n <$> seqZ 0 m) by (rewrite fmap_add_seqZ; f_equal; lia).
  rewrite <- list_fmap_compose. apply list_fmap_ext. intros i k _. cbn.
  rewrite Z.add_mod_idemp_l by lia. f_equal. f_equal. lia.
Qed.

Lemma ring_one get k : 0 <= k < N -> ring get k 1 = [get k].
Proof.
  intros Hk. unfold ring. change (seqZ 0 1) with [0]. rewrite list_fmap_singleton, Z.add_0_r.
  by rewrite Z.mod_small.
Qed.

Lemma ring_snoc get tail n :
  0 <= n -> ring get tail (n + 1) = ring get tail n ++ [get ((tail + n) mod N)].
Proof.
  intros Hn. rewrite ring_app by lia. rewrite ring_one by (apply Z.mod_pos_bound; lia). done.
Qed.

Lemma ring_cons get tail n :
  0 <= tail < N -> 0 < n -> ring get tail n = get tail :: ring get ((tail + 1) mod N) (n - 1).
Proof.
  intros Ht Hn. replace n with (1 + (n - 1)) at 1 by lia. rewrite ring_app by lia. by rewrite ring_one.
Qed.

(** The cells beyond the last one are different from those before. *)
Lemma ring_apart tail n k j :
  0 <= k < n -> n <= j < N -> (tail + k) mod N <> (tail + j) mod N.
Proof.
  intros Hk Hj H. assert ((j - k) mod N = 0) as Hz.
  { replace (j - k) with ((tail + j) - (tail + k)) by lia. rewrite Zminus_mod, H, Z.sub_diag. apply Z.mod_0_l. lia. }
  rewrite Z.mod_small in Hz by lia. lia.
Qed.

(** The number of cells from [tail] to [head]. *)
Lemma ring_distance tail head :
  0 <= head < N -> 0 <= tail < N -> (tail + (head - tail) mod N) mod N = head.
Proof. intros Hh Ht. rewrite Z.add_mod_idemp_r by lia. replace (tail + (head - tail)) with head by lia. by apply Z.mod_small. Qed.

End ring.
