(* ===== verification/Memory.v ===== *)
(** * Physical pages and page tables: mm/memory.c

    The state is physical memory, read and written by aligned 32-bit words,
    the array [memory_map] of reference counts and [HIGH_MEMORY].  The page
    directory is at physical address 0, so a directory entry of the linear
    address [a] is the word at [(a >> 22) * 4]. *)

From Stdlib Require Import ZArith Lia.
From stdpp Require Import base numbers list gmap strings.
From S2P Require Import Prelude.

Definition LOW_MEM : Z := 0x100000.
Definition PAGING_MEMORY : Z := 15 * 1024 * 1024.
Definition TOTAL_PAGES : Z := Z.shiftr PAGING_MEMORY 12.
Definition MAP_NR (addr : Z) : Z := Z.shiftr (u32 (addr - LOW_MEM)) 12.
Definition USED : Z := 100.
Definition UNUSED : Z := 0.
Definition SIGSEGV : Z := 11.

(** [phys] maps the index of a word (its address divided by 4) to its value;
    [tlb_flushes] counts the reloads of cr3. *)
Record mm := MM {
  phys : gmap Z Z;
  memory_map : list Z;
  HIGH_MEMORY : Z;
  tlb_flushes : Z
}.

Definition set_phys (f : gmap Z Z) (s : mm) : mm :=
  MM f (memory_map s) (HIGH_MEMORY s) (tlb_flushes s).
Definition set_memory_map (l : list Z) (s : mm) : mm :=
  MM (phys s) l (HIGH_MEMORY s) (tlb_flushes s).

Definition word (s : mm) (a : Z) : Z := default 0 (phys s !! (a / 4)).
Definition load (a : Z) : M mm Z := gets (fun s => word s a).
Definition store (a v : Z) : M mm unit :=
  modify (fun s => set_phys (<[a / 4 := v]> (phys s)) s).

(** Bytes of words (the machine is little endian). *)
Definition get_byte (w k : Z) : Z := u8 (Z.shiftr w (8 * k)).
Definition put_byte (w k v : Z) : Z :=
  Z.lor (Z.ldiff w (Z.shiftl 255 (8 * k))) (Z.shiftl (u8 v) (8 * k)).
Definition load_byte (a : Z) : M mm Z := let! w := load a in ret (get_byte w (a mod 4)).
Definition store_byte (a v : Z) : M mm unit :=
  let! w := load a in store a (put_byte w (a mod 4) v).

Definition refresh_TLB : M mm unit :=
  modify (fun s => MM (phys s) (memory_map s) (HIGH_MEMORY s) (tlb_flushes s + 1)).

(** [memory_map[i]] and the assignment to it; outside the array is a fault. *)
Definition map_get (i : Z) : M mm Z :=
  let! l := gets memory_map in valid (getz l i).
Definition map_set (i v : Z) : M mm unit :=
  let! l := gets memory_map in
  match getz l i with
  | Some _ => modify (set_memory_map (setz l i (u8 v)))
  | None => fault
  end.

Definition oom {A} : M mm A := exit_with SIGSEGV.

(** [cld; rep; movsl] with a count of 1024. *)
Definition copy_page (from to : Z) : M mm unit :=
  for_range 0 1024 (fun i => let! w := load (from + 4 * i) in store (to + 4 * i) w).

(** [std; repne; scasb] from the last byte of the array down to the first:
    [n] is the content of ecx, the result is its value when a zero is met. *)
Fixpoint scasb (map : list Z) (n : nat) : option Z :=
  match n with
  | O => None
  | Datatypes.S n' =>
    match map !! n' with
    | Some 0 => Some (Z.of_nat n')
    | _ => scasb map n'
    end
  end.

(** [std; rep; stosl] of zeroes: the 1024 words of a page from the last. *)
Definition clear_page (addr : Z) : M mm unit :=
  for_range 0 1024 (fun i => store (addr + 4092 - 4 * i) 0).

Definition get_free_page : M mm Z :=
  let! map := gets memory_map in
  match scasb map (Z.to_nat TOTAL_PAGES) with
  | None => ret 0
  | Some k =>
    do! map_set k 1 in
    let addr := u32 (Z.shiftl k 12 + LOW_MEM) in
    do! clear_page addr in
    ret addr
  end.

Definition free_page (addr : Z) : M mm unit :=
  if addr <? LOW_MEM then ret tt else
  let! high := gets HIGH_MEMORY in
  if u32 high <=? addr then panic "trying to free nonexistent page" else
  let i := Z.shiftr (addr - LOW_MEM) 12 in
  let! c := map_get i in
  if istrue c then map_set i (c - 1)
  else do! map_set i 0 in panic "trying to free free page".

Definition frame (e : Z) : Z := Z.land 0xfffff000 e.
Definition present (e : Z) : bool := istrue (Z.land 1 e).

(** One iteration of the inner loop of [free_page_tables], and the loop. *)
Definition free_entry (pg_table nr : Z) : M mm unit :=
  let! e := load (pg_table + 4 * nr) in
  do! when (present e) (free_page (frame e)) in
  store (pg_table + 4 * nr) 0.

Definition free_table_entries (pg_table : Z) : M mm unit :=
  for_range 0 1024 (free_entry pg_table).

(** One iteration of the outer loop, on the directory entry at [dir]. *)
Definition free_dir (dir : Z) : M mm unit :=
  let! e := load dir in
  when (present e)
    (do! free_table_entries (frame e) in
     let! e := load dir in
     do! free_page (frame e) in
     store dir 0).

Definition free_page_tables (from size : Z) : M mm Z :=
  if istrue (Z.land from 0x3fffff) then panic "free_page_tables called with wrong alignment" else
  if negb (istrue from) then panic "Trying to free up swapper(kernel) memory space" else
  let n := Z.shiftr (u32 (size + 0x3fffff)) 22 in
  let dir := Z.shiftr from 22 * 4 in
  do! for_range 0 (Z.to_nat n) (fun i => free_dir (dir + 4 * i)) in
  do! refresh_TLB in
  ret 0.

(** One iteration of the inner loop of [copy_page_tables]. *)
Definition copy_entry (from_page_table to_page_table nr : Z) : M mm unit :=
  let! this_page := load (from_page_table + 4 * nr) in
  if negb (present this_page) then ret tt else
  let this_page := Z.land this_page (u32 (Z.lnot 2)) in
  do! store (to_page_table + 4 * nr) this_page in
  when (LOW_MEM <? this_page)
    (do! store (from_page_table + 4 * nr) this_page in
     let i := Z.shiftr (this_page - LOW_MEM) 12 in
     let! c := map_get i in
     map_set i (c + 1)).

(** The outer loop of [copy_page_tables]; [Some r] is a return from inside. *)
Fixpoint copy_dirs (from from_dir to_dir : Z) (size : nat) : M mm (option Z) :=
  match size with
  | O => ret None
  | Datatypes.S size' =>
    let! td := load to_dir in
    if present td then panic "copy_page_tables: already exist" else
    let! fd := load from_dir in
    if negb (present fd) then copy_dirs from (from_dir + 4) (to_dir + 4) size' else
    let from_page_table := frame fd in
    let! to_page_table := get_free_page in
    if negb (istrue to_page_table) then ret (Some (-1)) else
    do! store to_dir (Z.lor to_page_table 7) in
    let nr := if from =? 0 then 0xa0%nat else 1024%nat in
    do! for_range 0 nr (copy_entry from_page_table to_page_table) in
    copy_dirs from (from_dir + 4) (to_dir + 4) size'
  end.

Definition copy_page_tables (from to size : Z) : M mm Z :=
  if istrue (Z.land from 0x3fffff) || istrue (Z.land to 0x3fffff)
  then panic "copy_page_tables called with wrong alignment" else
  let from_dir := Z.shiftr from 22 * 4 in
  let to_dir := Z.shiftr to 22 * 4 in
  let size := Z.shiftr (u32 (size + 0x3fffff)) 22 in
  let! r := copy_dirs from from_dir to_dir (Z.to_nat size) in
  match r with
  | Some r => ret r
  | None => do! refresh_TLB in ret 0
  end.

(** The two warnings of [put_page] print and change nothing; the second one
    still reads [memory_map]. *)
Definition put_page (page address : Z) : M mm Z :=
  do! map_get (MAP_NR page) in
  let pdt_entry := Z.shiftr address 22 * 4 in
  let! pde := load pdt_entry in
  let! pgt_entry :=
    if present pde then ret (Some (frame pde)) else
    let! tmp := get_free_page in
    if negb (istrue tmp) then ret None else
    do! store pdt_entry (Z.lor tmp 7) in ret (Some tmp) in
  match pgt_entry with
  | None => ret 0
  | Some pgt_entry =>
    do! store (pgt_entry + 4 * Z.land (Z.shiftr address 12) 0x3ff) (Z.lor page 7) in
    ret page
  end.

Definition un_wp_page (page_addr : Z) : M mm unit :=
  let! e := load page_addr in
  let old_page := frame e in
  let! private :=
    if LOW_MEM <=? old_page then
      let! c := map_get (MAP_NR old_page) in ret (c =? 1)
    else ret false in
  if private : bool then
    do! store page_addr (Z.lor e 2) in
    refresh_TLB
  else
    let! new_page := get_free_page in
    if negb (istrue new_page) then oom else
    do! when (LOW_MEM <=? old_page)
      (let! c := map_get (MAP_NR old_page) in map_set (MAP_NR old_page) (c - 1)) in
    do! store page_addr (Z.lor new_page 7) in
    do! refresh_TLB in
    copy_page old_page new_page.

Definition do_wp_page (error_code address : Z) : M mm unit :=
  let! d := load (Z.land (Z.shiftr address 22) 0x3ff * 4) in
  let pgt_addr := Z.land d 0xfffff000 in
  let pgt_entry_offset := Z.land (Z.shiftr address 12) 0x3ff * 4 in
  un_wp_page (pgt_addr + pgt_entry_offset).

Definition write_verify (address : Z) : M mm unit :=
  let! pgt_addr := load (Z.shiftr address 22 * 4) in
  if negb (istrue (Z.land pgt_addr 1)) then ret tt else
  let page_addr := Z.land pgt_addr 0xfffff000 + Z.land (Z.shiftr address 12) 0x3ff * 4 in
  let! e := load page_addr in
  when (Z.land e 3 =? 1) (un_wp_page page_addr).

Definition get_empty_page (address : Z) : M mm unit :=
  let! tmp := get_free_page in
  let! done :=
    if negb (istrue tmp) then ret false else
    let! r := put_page tmp address in ret (istrue r) in
  if done : bool then ret tt else do! free_page tmp in oom.

(** [p_start] and [cur_start] are the [start_code] of the task [p] and of
    the current one. *)
Definition try_to_share (address p_start cur_start : Z) : M mm Z :=
  let off := Z.land (Z.shiftr address 20) 0xffc in
  let from_page := off + Z.land (Z.shiftr p_start 20) 0xffc in
  let to_page := off + Z.land (Z.shiftr cur_start 20) 0xffc in
  let! from := load from_page in
  if negb (istrue (Z.land from 1)) then ret 0 else
  let from_page := Z.land from 0xfffff000 + Z.land (Z.shiftr address 10) 0xffc in
  let! phys_addr := load from_page in
  if negb (Z.land phys_addr 0x41 =? 0x01) then ret 0 else
  let phys_addr := Z.land phys_addr 0xfffff000 in
  let! high := gets HIGH_MEMORY in
  if (u32 high <=? phys_addr) || (phys_addr <? LOW_MEM) then ret 0 else
  let! to := load to_page in
  let! to :=
    if istrue (Z.land to 1) then ret to else
    let! new := get_free_page in
    if negb (istrue new) then oom else
    do! store to_page (Z.lor new 7) in ret new in
  let to_page := Z.land to 0xfffff000 + Z.land (Z.shiftr address 10) 0xffc in
  let! t := load to_page in
  if istrue (Z.land 1 t) then panic "try_to_share: to_page already exists" else
  let! f := load from_page in
  do! store from_page (Z.land f (u32 (Z.lnot 2))) in
  let! f := load from_page in
  do! store to_page f in
  do! refresh_TLB in
  let i := Z.shiftr (phys_addr - LOW_MEM) 12 in
  let! c := map_get i in
  do! map_set i (c + 1) in
  ret 1.

(** [i] counts the pages from the one of [memory_start]. *)
Definition memory_init (memory_start memory_end : Z) : M mm unit :=
  do! modify (fun s => MM (phys s) (memory_map s) memory_end (tlb_flushes s)) in
  do! for_range 0 (Z.to_nat TOTAL_PAGES) (fun i => map_set i USED) in
  let i := MAP_NR memory_start in
  let n := Z.shiftr (memory_end - memory_start) 12 in
  for_range i (Z.to_nat n) (fun i => map_set i UNUSED).

(** [calc_mem] prints the number of free pages, and of each page table from
    entry 2 of the directory on the number of pages it maps. *)
Definition calc_mem_free (s : mm) : Z :=
  lenz (filter (fun c => c = 0) (take (Z.to_nat TOTAL_PAGES) (memory_map s))).
Definition calc_mem_table (s : mm) (pg_tbl : Z) : Z :=
  lenz (filter (fun j => istrue (Z.land (word s (pg_tbl + 4 * j)) 1) = true) (seqZ 0 1024)).
Definition calc_mem (s : mm) : Z * list (Z * Z) :=
  (calc_mem_free s,
   (fun i => (i, calc_mem_table s (frame (word s (4 * i))))) <$>
     filter (fun i => present (word s (4 * i)) = true) (seqZ 2 1022)).

(** ** Words of physical memory *)

Lemma word_store (s : mm) a v b :
  word (set_phys (<[a / 4 := v]> (phys s)) s) b = if decide (a / 4 = b / 4) then v else word s b.
Proof. unfold word. simpl. rewrite lookup_insert. by case_decide. Qed.

Lemma word_store_eq (s : mm) a v : word (set_phys (<[a / 4 := v]> (phys s)) s) a = v.
Proof. rewrite word_store. by rewrite decide_True. Qed.

Lemma word_store_ne (s : mm) a v b :
  a / 4 <> b / 4 -> word (set_phys (<[a / 4 := v]> (phys s)) s) b = word s b.
Proof. intros. rewrite word_store. by rewrite decide_False. Qed.

Lemma wp_load a (Q : Z -> mm -> Prop) s : Q (word s a) s -> wp (load a) Q s.
Proof. done. Qed.

Lemma wp_store a v (Q : unit -> mm -> Prop) s :
  Q tt (set_phys (<[a / 4 := v]> (phys s)) s) -> wp (store a v) Q s.
Proof. done. Qed.

Lemma wp_refresh_TLB (Q : unit -> mm -> Prop) s :
  Q tt (MM (phys s) (memory_map s) (HIGH_MEMORY s) (tlb_flushes s + 1)) -> wp refresh_TLB Q s.
Proof. done. Qed.

(** Symbolic execution with the memory operations. *)
Ltac mm_steps :=
  repeat (first [ wp_step
                | lazymatch goal with
                  | |- wp (load _) _ _ => apply wp_load
                  | |- wp (store _ _) _ _ => apply wp_store
                  | |- wp refresh_TLB _ _ => apply wp_refresh_TLB
                  end ]; cbn beta).

(** ** Page table entries *)

Lemma frame_mod e : is_u32 e -> frame e = e - e mod 4096.
Proof.
  unfold is_u32, frame. intros He.
  replace 0xfffff000 with (Z.shiftl (Z.ones 20) 12) by reflexivity.
  apply Z.bits_inj_iff'. intros n Hn.
  rewrite Z.land_spec, Z.shiftl_spec by done.
  assert (e - e mod 4096 = Z.shiftl (Z.shiftr e 12) 12) as ->.
  { rewrite Z.shiftr_div_pow2, Z.shiftl_mul_pow2 by lia. change (2 ^ 12) with 4096.
    pose proof (Z.div_mod e 4096). lia. }
  rewrite Z.shiftl_spec by done.
  destruct (decide (n < 12)).
  { rewrite !(Z.testbit_neg_r _ (n - 12)) by lia. done. }
  rewrite Z.shiftr_spec by lia. replace (n - 12 + 12) with n by lia.
  destruct (decide (n - 12 < 20)).
  { rewrite Z.ones_spec_low by lia. done. }
  rewrite (Z.bits_above_log2 e); [by rewrite andb_false_r|lia|].
  destruct (decide (e = 0)) as [->|]; [simpl; lia|].
  apply Z.log2_lt_pow2; [lia|]. apply Z.lt_le_trans with (2 ^ 32); [lia|].
  apply Z.pow_le_mono_r; lia.
Qed.

Lemma frame_aligned e : is_u32 e -> frame e mod 4096 = 0.
Proof.
  intros He. rewrite frame_mod by done.
  rewrite Zminus_mod, Zmod_mod, Z.sub_diag. done.
Qed.

Lemma frame_range e : is_u32 e -> 0 <= frame e <= e.
Proof.
  intros He. rewrite frame_mod by done. unfold is_u32 in He.
  pose proof (Z.mod_pos_bound e 4096). pose proof (Z.mod_le e 4096). lia.
Qed.

Lemma present_odd e : present e = Z.odd e.
Proof.
  unfold present, istrue. rewrite Z.land_comm, land_1, Zmod_odd. by destruct (Z.odd e).
Qed.

Lemma present_0 : present 0 = false.
Proof. done. Qed.

(** The entries the code builds: a page address with the three low bits. *)
Lemma lor_7 p : p mod 4096 = 0 -> Z.lor p 7 = p + 7.
Proof.
  intros Hp. rewrite <- Z.lxor_lor, Z.add_nocarry_lxor; [done|..].
  all: apply Z.bits_inj_iff'; intros n Hn; rewrite Z.land_spec, Z.bits_0;
    destruct (decide (n < 12));
    [ replace p with (p / 2 ^ 12 * 2 ^ 12) by (change (2 ^ 12) with 4096; pose proof (Z.div_mod p 4096); lia);
      by rewrite Z.mul_pow2_bits_low by lia
    | rewrite (Z.bits_above_log2 7); [by rewrite andb_false_r|lia|simpl; lia] ].
Qed.

Lemma frame_new_entry p : is_u32 p -> p mod 4096 = 0 -> frame (Z.lor p 7) = p.
Proof.
  unfold is_u32. intros Hp Hm. rewrite lor_7, frame_mod by (done || unfold is_u32; dmlia).
  rewrite Zplus_mod, Hm. change ((0 + 7 mod 4096) mod 4096) with 7. lia.
Qed.

Lemma present_new_entry p : p mod 4096 = 0 -> present (Z.lor p 7) = true.
Proof.
  intros Hm. rewrite present_odd, lor_7 by done.
  replace (p + 7) with (1 + 2 * (2048 * (p / 4096) + 3)) by (pose proof (Z.div_mod p 4096); lia).
  by rewrite Z.odd_add_mul_2.
Qed.

(** Write protection changes neither the frame nor the present bit. *)
Lemma frame_wp e : frame (Z.land e (u32 (Z.lnot 2))) = frame e.
Proof.
  unfold frame. rewrite (Z.land_comm e), Z.land_assoc. f_equal.
Qed.

Lemma present_wp e : present (Z.land e (u32 (Z.lnot 2))) = present e.
Proof.
  unfold present. rewrite (Z.land_comm e), Z.land_assoc. f_equal.
Qed.

Lemma land_u32 e m : is_u32 e -> 0 <= m -> is_u32 (Z.land e m).
Proof.
  unfold is_u32. intros He Hm. split; [apply Z.land_nonneg; lia|].
  assert (Z.land e m <= e); [|lia].
  assert (e - Z.land e m = Z.ldiff e m) as H.
  { rewrite <- (Z.lor_ldiff_and e m) at 1. rewrite <- Z.lxor_lor.
    - rewrite <- Z.add_nocarry_lxor; [lia|].
      apply Z.bits_inj_iff'. intros n Hn.
      rewrite !Z.land_spec, Z.ldiff_spec, Z.bits_0. by destruct (Z.testbit e n), (Z.testbit m n).
    - apply Z.bits_inj_iff'. intros n Hn.
      rewrite !Z.land_spec, Z.ldiff_spec, Z.bits_0. by destruct (Z.testbit e n), (Z.testbit m n). }
  assert (0 <= Z.ldiff e m) by (apply Z.ldiff_nonneg; lia). lia.
Qed.

(** Two words of pages: they coincide only when page and offset do. *)
Lemma word_index p q i j :
  p mod 4096 = 0 -> q mod 4096 = 0 -> 0 <= i < 1024 -> 0 <= j < 1024 ->
  (p + 4 * i) / 4 = (q + 4 * j) / 4 -> p = q /\ i = j.
Proof.
  intros Hp Hq Hi Hj H.
  apply Z.mod_divide in Hp as [a ->]; [|lia]. apply Z.mod_divide in Hq as [b ->]; [|lia].
  replace (a * 4096 + 4 * i) with ((a * 1024 + i) * 4) in H by lia.
  replace (b * 4096 + 4 * j) with ((b * 1024 + j) * 4) in H by lia.
  rewrite !Z.div_mul in H by lia. lia.
Qed.

(** ** The scan of [memory_map] *)

Lemma scasb_spec map n :
  match scasb map n with
  | Some k => 0 <= k < Z.of_nat n /\ getz map k = Some 0 /\
              forall j, k < j < Z.of_nat n -> getz map j <> Some 0
  | None => forall j, 0 <= j < Z.of_nat n -> getz map j <> Some 0
  end.
Proof.
  induction n as [|n IH]; cbn [scasb]; [intros j; lia|].
  assert (map !! n = getz map (Z.of_nat n)) as E.
  { unfold getz. rewrite Nat2Z.id. by destruct (Z.ltb_spec (Z.of_nat n) 0); [lia|]. }
  destruct (decide (map !! n = Some 0)) as [H0|H0].
  - rewrite H0. split_and!; [lia..|congruence|intros; lia].
  - assert (match map !! n with Some 0 => Some (Z.of_nat n) | _ => scasb map n end = scasb map n)
      as -> by (destruct (map !! n) as [[]|]; done).
    destruct (scasb map n) as [k|].
    + destruct IH as (? & ? & Hj). split_and!; [lia..|done|].
      intros j ?. destruct (decide (j = Z.of_nat n)) as [->|]; [congruence|apply Hj; lia].
    + intros j ?. destruct (decide (j = Z.of_nat n)) as [->|]; [congruence|apply IH; lia].
Qed.

(** ** Clearing and copying a page *)

(** What a routine that only writes words may change. *)
Definition same_maps (s s' : mm) : Prop :=
  memory_map s' = memory_map s /\ HIGH_MEMORY s' = HIGH_MEMORY s /\ tlb_flushes s' = tlb_flushes s.

Definition in_page (p b : Z) : bool := b / 4096 =? p / 4096.

Lemma clear_page_spec addr s :
  addr mod 4096 = 0 ->
  wp (clear_page addr) (fun _ s' =>
    same_maps s s' /\ forall b, word s' b = if in_page addr b then 0 else word s b) s.
Proof.
  intros Ha. unfold clear_page. eapply wp_mono.
  - apply wp_for_range with (I := fun i s' => same_maps s s' /\ forall b,
      word s' b = if decide (addr / 4 + 1024 - i <= b / 4 < addr / 4 + 1024) then 0 else word s b).
    + split; [done|]. intros b. by rewrite decide_False by lia.
    + intros i s' Hi [Hm Hw]. mm_steps. split; [done|]. intros b. rewrite word_store, Hw.
      repeat case_decide; dmlia.
  - intros [] s' [Hm Hw]. split; [done|]. intros b. rewrite Hw. unfold in_page.
    case_decide; zcases; try done; dmlia.
Qed.

Lemma copy_page_spec from to s :
  from mod 4096 = 0 -> to mod 4096 = 0 -> from <> to ->
  wp (copy_page from to) (fun _ s' =>
    same_maps s s' /\
    forall b, word s' b = if in_page to b then word s (from + b mod 4096) else word s b) s.
Proof.
  intros Hf Ht Hne. unfold copy_page. eapply wp_mono.
  - apply wp_for_range with (I := fun i s' => same_maps s s' /\ forall b,
      word s' b = if decide (to / 4 <= b / 4 < to / 4 + i) then word s (from + (b mod 4096)) else word s b).
    + split; [done|]. intros b. by rewrite decide_False by lia.
    + intros i s' Hi [Hm Hw]. mm_steps. split; [done|]. intros b. rewrite word_store, Hw.
      rewrite (decide_False (P := to / 4 <= (from + 4 * i) / 4 < _)) by dmlia. rewrite Hw.
      case_decide as H1; [rewrite decide_True by dmlia|].
      * unfold word. do 2 f_equal. dmlia.
      * repeat case_decide; try done; dmlia.
  - intros [] s' [Hm Hw]. split; [done|]. intros b. rewrite Hw. unfold in_page.
    case_decide; zcases; try done; dmlia.
Qed.

(** ** Allocation *)

Lemma shiftl_12 k : Z.shiftl k 12 = 4096 * k.
Proof. rewrite Z.shiftl_mul_pow2 by lia. change (2 ^ 12) with 4096. lia. Qed.
Lemma shiftr_12 k : Z.shiftr k 12 = k / 4096.
Proof. by rewrite Z.shiftr_div_pow2 by lia. Qed.

Definition page_address (k : Z) : Z := LOW_MEM + 4096 * k.

Lemma TOTAL_PAGES_eq : TOTAL_PAGES = 3840.
Proof. done. Qed.

Lemma page_address_aligned k : page_address k mod 4096 = 0.
Proof. unfold page_address, LOW_MEM. dmlia. Qed.

Lemma map_get_ok i s c : getz (memory_map s) i = Some c -> map_get i s = Ok c s.
Proof. intros H. unfold map_get, bind, gets. by rewrite H. Qed.

Lemma map_set_ok i v s c :
  getz (memory_map s) i = Some c ->
  map_set i v s = Ok tt (set_memory_map (setz (memory_map s) i (u8 v)) s).
Proof. intros H. unfold map_set, bind, gets. by rewrite H. Qed.

Lemma wp_map_get i s c (Q : Z -> mm -> Prop) :
  getz (memory_map s) i = Some c -> Q c s -> wp (map_get i) Q s.
Proof. intros H HQ. unfold map_get. wp_steps. by eapply wp_valid. Qed.

Lemma wp_map_set i s c v (Q : unit -> mm -> Prop) :
  getz (memory_map s) i = Some c ->
  Q tt (set_memory_map (setz (memory_map s) i (u8 v)) s) -> wp (map_set i v) Q s.
Proof. intros H HQ. unfold map_set. wp_steps. by rewrite H. Qed.

(** The outcome of [get_free_page], in terms of the scan. *)
Lemma get_free_page_scan s :
  lenz (memory_map s) = TOTAL_PAGES ->
  match scasb (memory_map s) (Z.to_nat TOTAL_PAGES) with
  | None => get_free_page s = Ok 0 s
  | Some k => wp get_free_page (fun r s' =>
      r = page_address k /\ memory_map s' = setz (memory_map s) k 1 /\
      HIGH_MEMORY s' = HIGH_MEMORY s /\ tlb_flushes s' = tlb_flushes s /\
      forall b, word s' b = if in_page (page_address k) b then 0 else word s b) s
  end.
Proof.
  intros Hlen. pose proof (scasb_spec (memory_map s) (Z.to_nat TOTAL_PAGES)) as Hs.
  destruct (scasb _ _) as [k|] eqn:E.
  - destruct Hs as (Hk & Hz & _). rewrite Z2Nat.id in Hk by done.
    unfold get_free_page. wp_steps. rewrite E. wp_steps. eapply wp_map_set; [done|].
    assert (u32 (Z.shiftl k 12 + LOW_MEM) = page_address k) as ->.
    { rewrite shiftl_12. unfold page_address. rewrite u32_id; [lia|].
      rewrite TOTAL_PAGES_eq in Hk. unfold is_u32, LOW_MEM. lia. }
    wp_steps. eapply wp_mono; [apply clear_page_spec, page_address_aligned|].
    intros [] s' [(E1 & E2 & E3) Hw]. wp_steps. rewrite E1, E2, E3.
    split_and!; [reflexivity..|exact Hw].
  - unfold get_free_page, bind, gets. rewrite E. reflexivity.
Qed.

(** A page of the pool and its index in [memory_map]. *)
Definition pool_page (p : Z) : Prop := exists k, 0 <= k < TOTAL_PAGES /\ p = page_address k.

Lemma MAP_NR_page k : 0 <= k < TOTAL_PAGES -> MAP_NR (page_address k) = k.
Proof.
  rewrite TOTAL_PAGES_eq. intros Hk. unfold MAP_NR, page_address. rewrite shiftr_12.
  rewrite u32_id by (unfold is_u32, LOW_MEM; lia). dmlia.
Qed.

(** [get_free_page] returns 0 and changes nothing when no byte of
    [memory_map] is 0; otherwise it returns the address of the last page with
    a zero count, sets that count to 1, clears exactly that page, and leaves
    every other count and every other word of memory alone. *)
Theorem get_free_page_spec s :
  lenz (memory_map s) = TOTAL_PAGES ->
  exists r s', get_free_page s = Ok r s' /\
    ((r = 0 /\ s' = s /\ forall k, 0 <= k < TOTAL_PAGES -> getz (memory_map s) k <> Some 0) \/
     (exists k, 0 <= k < TOTAL_PAGES /\ r = page_address k /\
        getz (memory_map s) k = Some 0 /\
        (forall j, k < j < TOTAL_PAGES -> getz (memory_map s) j <> Some 0) /\
        memory_map s' = setz (memory_map s) k 1 /\
        HIGH_MEMORY s' = HIGH_MEMORY s /\
        forall b, word s' b = if in_page r b then 0 else word s b)).
Proof.
  intros Hlen. pose proof (get_free_page_scan s Hlen) as H.
  pose proof (scasb_spec (memory_map s) (Z.to_nat TOTAL_PAGES)) as Hs.
  rewrite Z2Nat.id in Hs by done. destruct (scasb _ _) as [k|].
  - apply wp_ok in H as (r & s' & Heq & -> & Hm & Hh & _ & Hw). destruct Hs as (? & ? & ?).
    eexists _, s'. split; [done|]. right. exists k. done.
  - eexists 0, s. split; [done|]. by left.
Qed.

(** The branches of [free_page]. *)
Lemma free_page_low addr s : addr < LOW_MEM -> free_page addr s = Ok tt s.
Proof. intros H. unfold free_page. by rewrite (proj2 (Z.ltb_lt _ _)). Qed.

Lemma wp_free_page_low addr s (Q : unit -> mm -> Prop) :
  addr < LOW_MEM -> Q tt s -> wp (free_page addr) Q s.
Proof. intros H HQ. apply wp_ok. exists tt, s. split; [by apply free_page_low|done]. Qed.

Lemma wp_free_page k c s (Q : unit -> mm -> Prop) :
  0 <= k -> page_address k < u32 (HIGH_MEMORY s) ->
  getz (memory_map s) k = Some c -> 0 < c < 256 ->
  Q tt (set_memory_map (setz (memory_map s) k (c - 1)) s) ->
  wp (free_page (page_address k)) Q s.
Proof.
  intros Hk Hh Hc Hpos HQ. unfold free_page.
  rewrite (proj2 (Z.ltb_ge _ _)) by (unfold page_address; lia).
  mm_steps. rewrite (proj2 (Z.leb_gt _ _)) by done.
  rewrite shiftr_12. replace ((page_address k - LOW_MEM) / 4096) with k by (unfold page_address; dmlia).
  mm_steps. eapply wp_map_get; [done|].
  unfold istrue. rewrite (proj2 (Z.eqb_neq c 0)) by lia. simpl.
  eapply wp_map_set; [done|]. rewrite u8_id by (unfold is_u8; lia). done.
Qed.

(** A page that [get_free_page] hands out can be given back with
    [free_page], and then [memory_map] is what it was before. *)
Theorem get_free_page_free_page s r s' :
  lenz (memory_map s) = TOTAL_PAGES ->
  HIGH_MEMORY s = LOW_MEM + PAGING_MEMORY ->
  get_free_page s = Ok r s' -> r <> 0 ->
  wp (free_page r) (fun _ s'' => memory_map s'' = memory_map s) s'.
Proof.
  intros Hlen Hh Heq Hr. destruct (get_free_page_spec s Hlen) as (r1 & s1 & Heq1 & H).
  rewrite Heq in Heq1. simplify_eq.
  destruct H as [(-> & _)|(k & Hk & -> & Hz & _ & Hm & Hh1 & _)]; [done|].
  rewrite TOTAL_PAGES_eq in *.
  eapply (wp_free_page k 1); [lia|..|lia|].
  - rewrite Hh1, Hh. unfold page_address, u32, LOW_MEM, PAGING_MEMORY. dmlia.
  - rewrite Hm. apply getz_setz_eq. lia.
  - simpl. rewrite Hm, setz_setz. by apply setz_id.
Qed.

(** [free_page] on a page whose count is already 0 panics, and so does an
    address at or above [HIGH_MEMORY]; no count changes. *)
Theorem free_page_errors s k :
  0 <= k < TOTAL_PAGES -> lenz (memory_map s) = TOTAL_PAGES ->
  0 <= HIGH_MEMORY s < 4294967296 ->
  (HIGH_MEMORY s <= page_address k ->
     free_page (page_address k) s = Panic "trying to free nonexistent page" s) /\
  (page_address k < HIGH_MEMORY s -> getz (memory_map s) k = Some 0 ->
     exists s', free_page (page_address k) s = Panic "trying to free free page" s' /\
       memory_map s' = memory_map s).
Proof.
  rewrite TOTAL_PAGES_eq. intros Hk Hlen Hh. unfold free_page.
  rewrite (proj2 (Z.ltb_ge _ _)) by (unfold page_address; lia).
  unfold bind, gets. rewrite u32_id by done. split.
  - intros H. by rewrite (proj2 (Z.leb_le _ _)).
  - intros H Hz. rewrite (proj2 (Z.leb_gt _ _)) by done. rewrite shiftr_12.
    replace ((page_address k - LOW_MEM) / 4096) with k by (unfold page_address; dmlia).
    fold (@gets mm _ HIGH_MEMORY). rewrite (map_get_ok _ _ 0) by done. simpl.
    rewrite (map_set_ok _ 0 _ 0) by done. eexists. split; [reflexivity|].
    simpl. by apply setz_id.
Qed.
