(* ===== verification/MemoryInv.v ===== *)
(** * The reference counts of physical pages are exact

    [page_inv K s] says that in the state [s] of mm/memory.c every byte of
    [memory_map] is the number of present entries of user page directories and
    page tables that name its page, plus [K], the number of references held
    by the kernel itself (task structures, pipe buffers, pages just taken from
    [get_free_page]).  The routines of memory.c move references between [K]
    and the tables but never lose or invent one. *)

From Stdlib Require Import ZArith Lia.
From stdpp Require Import base numbers list gmap strings.
From S2P Require Import Prelude Memory.

(** Entries 16 to 1023 of the page directory belong to tasks 1 to 63: each task
    has a 64 MB slot of linear addresses, and task 0 is the kernel's. *)
Definition user_dir (d : Z) : Prop := 16 <= d < 1024.

Definition pde (s : mm) (d : Z) : Z := word s (4 * d).
Definition pte (s : mm) (f i : Z) : Z := word s (f + 4 * i).

(** 1 when the entry [e] is present and names the page [p]. *)
Definition ref (p e : Z) : Z := b2z (present e && (frame e =? p)).

Definition table_refs (s : mm) (f p : Z) : Z := sumZ (fun i => ref p (pte s f i)) 0 1024.

Definition dir_refs (s : mm) (p d : Z) : Z :=
  if present (pde s d) then ref p (pde s d) + table_refs s (frame (pde s d)) p else 0.

Definition refs (s : mm) (p : Z) : Z := sumZ (dir_refs s p) 16 1008.

#[global] Arguments table_refs : simpl never.
#[global] Arguments refs : simpl never.

Definition managed (s : mm) (k : Z) : Prop := 0 <= k /\ page_address k < HIGH_MEMORY s.

Record page_inv (K : Z -> Z) (s : mm) : Prop := PageInv {
  inv_len : lenz (memory_map s) = TOTAL_PAGES;
  inv_high : 0 <= HIGH_MEMORY s <= page_address TOTAL_PAGES;
  inv_words : forall a, is_u32 (word s a);
  inv_tables : forall d, user_dir d -> present (pde s d) = true ->
    exists k, managed s k /\ frame (pde s d) = page_address k /\ refs s (page_address k) + K k = 1;
  inv_entries : forall d i, user_dir d -> present (pde s d) = true -> 0 <= i < 1024 ->
    present (pte s (frame (pde s d)) i) = true ->
    frame (pte s (frame (pde s d)) i) < HIGH_MEMORY s;
  inv_kernel : forall k, 0 <= K k;
  inv_count : forall k, managed s k ->
    getz (memory_map s) k = Some (refs s (page_address k) + K k) /\
    refs s (page_address k) + K k < 256;
  inv_reserved : forall k, HIGH_MEMORY s <= page_address k -> getz (memory_map s) k <> Some 0
}.

Definition upd (K : Z -> Z) (k v : Z) : Z -> Z := fun j => if j =? k then v else K j.

(** ** Counting references *)

Lemma ref_range p e : 0 <= ref p e <= 1.
Proof. unfold ref, b2z. destruct (_ && _); lia. Qed.

Lemma ref_eq p e : present e = true -> frame e = p -> ref p e = 1.
Proof. unfold ref. intros -> ->. by rewrite Z.eqb_refl. Qed.

Lemma ref_absent p e : present e = false -> ref p e = 0.
Proof. unfold ref. by intros ->. Qed.

Lemma ref_ne p e : frame e <> p -> ref p e = 0.
Proof. unfold ref. intros H. rewrite (proj2 (Z.eqb_neq _ _)) by done. by rewrite andb_false_r. Qed.

Lemma ref_wp p e : ref p (Z.land e (u32 (Z.lnot 2))) = ref p e.
Proof. unfold ref. by rewrite present_wp, frame_wp. Qed.

Lemma table_refs_nonneg s f p : 0 <= table_refs s f p.
Proof. apply sumZ_nonneg. intros. apply ref_range. Qed.

Lemma dir_refs_nonneg s p d : 0 <= dir_refs s p d.
Proof.
  unfold dir_refs. destruct (present _); [|lia].
  pose proof (ref_range p (pde s d)). pose proof (table_refs_nonneg s (frame (pde s d)) p). lia.
Qed.

Lemma refs_nonneg s p : 0 <= refs s p.
Proof. apply sumZ_nonneg. intros. apply dir_refs_nonneg. Qed.

Lemma table_refs_pte s f p i : 0 <= i < 1024 -> ref p (pte s f i) <= table_refs s f p.
Proof.
  intros Hi. apply (sumZ_member (fun i => ref p (pte s f i))); [intros; apply ref_range|lia].
Qed.

Lemma refs_dir s p d : user_dir d -> dir_refs s p d <= refs s p.
Proof.
  unfold user_dir. intros Hd. apply sumZ_member; [intros; apply dir_refs_nonneg|lia].
Qed.

Lemma refs_two_dirs s p d d' :
  user_dir d -> user_dir d' -> d <> d' -> dir_refs s p d + dir_refs s p d' <= refs s p.
Proof.
  unfold user_dir. intros Hd Hd' Hne. apply sumZ_two; [intros; apply dir_refs_nonneg|lia..].
Qed.

Lemma dir_refs_pde s d : present (pde s d) = true -> 1 <= dir_refs s (frame (pde s d)) d.
Proof.
  intros Hp. unfold dir_refs. rewrite Hp, ref_eq by done.
  pose proof (table_refs_nonneg s (frame (pde s d)) (frame (pde s d))). lia.
Qed.

Lemma dir_refs_pte s d i :
  present (pde s d) = true -> 0 <= i < 1024 -> present (pte s (frame (pde s d)) i) = true ->
  1 <= dir_refs s (frame (pte s (frame (pde s d)) i)) d.
Proof.
  intros Hp Hi He. unfold dir_refs. rewrite Hp.
  pose proof (table_refs_pte s (frame (pde s d)) (frame (pte s (frame (pde s d)) i)) i Hi) as H.
  rewrite (ref_eq _ (pte _ _ _)) in H by done.
  pose proof (ref_range (frame (pte s (frame (pde s d)) i)) (pde s d)). lia.
Qed.

(** Two states with the same directory and the same tables count alike. *)
Lemma refs_agree s s' p :
  (forall d, user_dir d -> pde s' d = pde s d) ->
  (forall d i, user_dir d -> present (pde s d) = true -> 0 <= i < 1024 ->
     pte s' (frame (pde s d)) i = pte s (frame (pde s d)) i) ->
  refs s' p = refs s p.
Proof.
  intros Hd Ht. apply sumZ_ext. intros d Hr. assert (user_dir d) by (unfold user_dir; lia).
  unfold dir_refs. rewrite Hd by done. destruct (present (pde s d)) eqn:E; [|done].
  f_equal. apply sumZ_ext. intros i Hi. rewrite Ht by (done || lia). done.
Qed.

(** ** Consequences of the invariant *)

Section consequences.
Context {K : Z -> Z} {s : mm} (Hinv : page_inv K s).

Lemma inv_managed_lt k : managed s k -> 0 <= k < TOTAL_PAGES.
Proof.
  intros [Hk Hh]. pose proof (inv_high _ _ Hinv) as H. unfold page_address in *. lia.
Qed.

Lemma inv_high_u32 : u32 (HIGH_MEMORY s) = HIGH_MEMORY s.
Proof.
  pose proof (inv_high _ _ Hinv) as H. apply u32_id. unfold is_u32.
  unfold page_address, LOW_MEM in H. rewrite TOTAL_PAGES_eq in H. lia.
Qed.

(** The page of a page table is named by its directory entry only. *)
Lemma inv_table_unique d d' :
  user_dir d -> user_dir d' -> present (pde s d) = true -> present (pde s d') = true ->
  frame (pde s d) = frame (pde s d') -> d = d'.
Proof.
  intros Hd Hd' Hp Hp' E. destruct (decide (d = d')) as [|Hne]; [done|].
  destruct (inv_tables _ _ Hinv d Hd Hp) as (k & _ & Hk & H1).
  pose proof (refs_two_dirs s (page_address k) d d' Hd Hd' Hne) as H2.
  pose proof (dir_refs_pde s d Hp) as H3. pose proof (dir_refs_pde s d' Hp') as H4.
  rewrite <- E, Hk in H4. rewrite Hk in H3. pose proof (inv_kernel _ _ Hinv k). lia.
Qed.

(** No page table entry names a page table. *)
Lemma inv_pte_not_table d d' i :
  user_dir d -> user_dir d' -> present (pde s d) = true -> present (pde s d') = true ->
  0 <= i < 1024 -> present (pte s (frame (pde s d)) i) = true ->
  frame (pte s (frame (pde s d)) i) <> frame (pde s d').
Proof.
  intros Hd Hd' Hp Hp' Hi He E.
  destruct (inv_tables _ _ Hinv d' Hd' Hp') as (k & _ & Hk & H1).
  pose proof (inv_kernel _ _ Hinv k) as HK.
  destruct (decide (d = d')) as [<-|Hne].
  - pose proof (refs_dir s (page_address k) d Hd) as H2. unfold dir_refs in H2.
    rewrite Hp, ref_eq in H2 by done.
    pose proof (table_refs_pte s (frame (pde s d)) (page_address k) i Hi) as H3.
    rewrite (ref_eq _ (pte _ _ _)) in H3 by (done || congruence). lia.
  - pose proof (refs_two_dirs s (page_address k) d d' Hd Hd' Hne) as H2.
    pose proof (dir_refs_pte s d i Hp Hi He) as H3. pose proof (dir_refs_pde s d' Hp') as H4.
    rewrite E, Hk in H3. rewrite Hk in H4. lia.
Qed.

(** A page with no reference is not a table. *)
Lemma inv_free_not_table k d :
  refs s (page_address k) = 0 -> user_dir d -> present (pde s d) = true ->
  frame (pde s d) <> page_address k.
Proof.
  intros H0 Hd Hp E. pose proof (refs_dir s (page_address k) d Hd) as H1.
  pose proof (dir_refs_pde s d Hp) as H2. rewrite E in H2. lia.
Qed.

Lemma inv_frame_aligned a : frame (word s a) mod 4096 = 0.
Proof. apply frame_aligned, Hinv. Qed.

Lemma inv_table_low d : user_dir d -> present (pde s d) = true -> LOW_MEM <= frame (pde s d).
Proof.
  intros Hd Hp. destruct (inv_tables _ _ Hinv d Hd Hp) as (k & [Hk _] & -> & _).
  unfold page_address. lia.
Qed.

(** The page of a present entry: below [LOW_MEM], or counted. *)
Lemma inv_entry_page d i :
  user_dir d -> present (pde s d) = true -> 0 <= i < 1024 ->
  present (pte s (frame (pde s d)) i) = true ->
  frame (pte s (frame (pde s d)) i) < LOW_MEM \/
  exists k, managed s k /\ frame (pte s (frame (pde s d)) i) = page_address k /\
    1 <= refs s (page_address k).
Proof.
  intros Hd Hp Hi He. set (e := pte s (frame (pde s d)) i) in *.
  destruct (Z.lt_ge_cases (frame e) LOW_MEM) as [|Hge]; [by left|right].
  exists ((frame e - LOW_MEM) / 4096).
  assert (frame e = page_address ((frame e - LOW_MEM) / 4096)) as E.
  { pose proof (inv_frame_aligned (frame (pde s d) + 4 * i)) as Ha. fold (pte s (frame (pde s d)) i) in Ha.
    fold e in Ha. unfold page_address, LOW_MEM in *. dmlia. }
  split_and!.
  - split; [unfold LOW_MEM in *; dmlia|]. rewrite <- E. by apply (inv_entries _ _ Hinv).
  - done.
  - rewrite <- E. pose proof (dir_refs_pte s d i Hp Hi He). fold e in H.
    pose proof (refs_dir s (frame e) d Hd). lia.
Qed.
End consequences.

(** ** One page table entry changes *)

(** [s'] differs from [s] in one word, and possibly in [memory_map]. *)
Definition stored (a v : Z) (s s' : mm) : Prop :=
  HIGH_MEMORY s' = HIGH_MEMORY s /\
  forall b, word s' b = if decide (a / 4 = b / 4) then v else word s b.

Lemma stored_refl_store a v s : stored a v s (set_phys (<[a / 4 := v]> (phys s)) s).
Proof. split; [done|]. intros b. apply word_store. Qed.

Section store_pte.
Context {K : Z -> Z} {s : mm} (Hinv : page_inv K s).
Context (d i v : Z) (s' : mm).
Context (Hd : user_dir d) (Hp : present (pde s d) = true) (Hi : 0 <= i < 1024).
Context (Hst : stored (frame (pde s d) + 4 * i) v s s').

Lemma stored_pde d' : user_dir d' -> pde s' d' = pde s d'.
Proof using Hinv Hd Hp Hi Hst.
  unfold user_dir. intros Hd'. unfold pde at 1. rewrite (proj2 Hst). rewrite decide_False; [done|].
  pose proof (inv_table_low Hinv d Hd Hp). unfold LOW_MEM in *. dmlia.
Qed.

Lemma stored_pte_ne d' i' :
  user_dir d' -> present (pde s d') = true -> 0 <= i' < 1024 -> d <> d' \/ i <> i' ->
  pte s' (frame (pde s d')) i' = pte s (frame (pde s d')) i'.
Proof using Hinv Hd Hp Hi Hst.
  intros Hd' Hp' Hi' Hne. unfold pte. rewrite (proj2 Hst). rewrite decide_False; [done|].
  intros E. apply word_index in E as [E ->]; [|apply (inv_frame_aligned Hinv)..|done|done].
  apply (inv_table_unique Hinv) in E; [|done..]. naive_solver.
Qed.

Lemma stored_pte_eq : pte s' (frame (pde s d)) i = v.
Proof using Hst. unfold pte. rewrite (proj2 Hst). by rewrite decide_True. Qed.

Lemma refs_store_pte p :
  refs s' p = refs s p - ref p (pte s (frame (pde s d)) i) + ref p v.
Proof using Hinv Hd Hp Hi Hst.
  unfold user_dir in *. unfold refs.
  rewrite (sumZ_update (dir_refs s p) (dir_refs s' p) 16 1008 d); [|lia|].
  - assert (dir_refs s' p d = dir_refs s p d - ref p (pte s (frame (pde s d)) i) + ref p v); [|lia].
    unfold dir_refs. rewrite stored_pde by done. rewrite Hp. unfold table_refs.
    rewrite (sumZ_update (fun i => ref p (pte s (frame (pde s d)) i))
      (fun i => ref p (pte s' (frame (pde s d)) i)) 0 1024 i); [|lia|].
    + rewrite stored_pte_eq. lia.
    + intros j Hj Hne. f_equal. symmetry. apply stored_pte_ne; [done|done|lia|naive_solver].
  - intros d' Hr Hne. assert (user_dir d') by (unfold user_dir; lia).
    unfold dir_refs. rewrite stored_pde by done. destruct (present (pde s d')) eqn:E; [|done].
    f_equal. apply sumZ_ext. intros j Hj. f_equal. symmetry.
    apply stored_pte_ne; [done|done|lia|naive_solver].
Qed.

(** The invariant holds again when the counts follow the entry. *)
Lemma inv_store_pte K' :
  is_u32 v ->
  lenz (memory_map s') = TOTAL_PAGES ->
  (forall k, 0 <= K' k) ->
  (forall d', user_dir d' -> present (pde s d') = true ->
     (present v = true -> frame v <> frame (pde s d')) /\
     forall k, frame (pde s d') = page_address k -> K' k = K k) ->
  (present v = true -> frame v < HIGH_MEMORY s) ->
  (forall k, managed s k ->
     let c := refs s (page_address k) - ref (page_address k) (pte s (frame (pde s d)) i)
              + ref (page_address k) v + K' k in
     getz (memory_map s') k = Some c /\ c < 256) ->
  (forall k, HIGH_MEMORY s <= page_address k -> getz (memory_map s') k <> Some 0) ->
  page_inv K' s'.
Proof using Hinv Hd Hp Hi Hst.
  intros Hv Hlen HK Htab Hhigh Hcnt Hres. pose proof (proj1 Hst) as HH. split.
  - done.
  - rewrite HH. apply Hinv.
  - intros b. rewrite (proj2 Hst). case_decide; [done|apply Hinv].
  - intros d' Hd' Hp'. rewrite stored_pde in Hp' |- * by done.
    destruct (inv_tables _ _ Hinv d' Hd' Hp') as (k & Hk & Hf & H1).
    exists k. unfold managed. rewrite HH. split_and!; [apply Hk..|done|].
    destruct (Htab d' Hd' Hp') as [Hv1 HK1].
    rewrite (HK1 k Hf), refs_store_pte, <- Hf.
    assert (ref (frame (pde s d')) v = 0) as ->.
    { destruct (present v) eqn:E; [apply ref_ne; auto|by apply ref_absent]. }
    assert (ref (frame (pde s d')) (pte s (frame (pde s d)) i) = 0) as ->.
    { destruct (present (pte s (frame (pde s d)) i)) eqn:E; [|by apply ref_absent].
      apply ref_ne. by apply (inv_pte_not_table Hinv). }
    rewrite Hf. lia.
  - intros d' j Hd' Hp' Hj. rewrite stored_pde in Hp' |- * by done. rewrite HH.
    destruct (decide (d = d' /\ i = j)) as [[<- <-]|Hne].
    + rewrite stored_pte_eq. auto.
    + rewrite stored_pte_ne by (done || lia). by apply (inv_entries _ _ Hinv).
  - done.
  - intros k Hk. rewrite refs_store_pte. apply Hcnt. unfold managed in *. by rewrite HH in Hk.
  - by rewrite HH.
Qed.
End store_pte.

(** ** Pages that are not tables *)

(** [s'] differs from [s] inside the page [page_address k] only. *)
Definition outside_same (k : Z) (s s' : mm) : Prop :=
  HIGH_MEMORY s' = HIGH_MEMORY s /\
  forall b, in_page (page_address k) b = false -> word s' b = word s b.

Lemma in_page_dir k d : 0 <= k -> 0 <= d < 1024 -> in_page (page_address k) (4 * d) = false.
Proof. intros Hk Hd. unfold in_page, page_address, LOW_MEM. zcases; [dmlia|done]. Qed.

Lemma in_page_table k f i :
  f mod 4096 = 0 -> 0 <= i < 1024 -> f <> page_address k -> in_page (page_address k) (f + 4 * i) = false.
Proof.
  intros Hf Hi Hne. unfold in_page. pose proof (page_address_aligned k). zcases; [dmlia|done].
Qed.

Section outside.
Context {K : Z -> Z} {s : mm} (Hinv : page_inv K s).
Context (k : Z) (s' : mm) (Hk : 0 <= k) (Hout : outside_same k s s').
Context (Hnt : forall d, user_dir d -> present (pde s d) = true -> frame (pde s d) <> page_address k).

Lemma outside_pde d : user_dir d -> pde s' d = pde s d.
Proof using Hk Hout.
  unfold user_dir. intros Hd. unfold pde. apply (proj2 Hout). apply in_page_dir; lia.
Qed.

Lemma outside_pte d i :
  user_dir d -> present (pde s d) = true -> 0 <= i < 1024 ->
  pte s' (frame (pde s d)) i = pte s (frame (pde s d)) i.
Proof using Hinv Hout Hnt.
  intros Hd Hp Hi. apply (proj2 Hout). apply in_page_table; [apply (inv_frame_aligned Hinv)|done|auto].
Qed.

Lemma outside_refs p : refs s' p = refs s p.
Proof using Hinv Hk Hout Hnt.
  apply refs_agree; [apply outside_pde|apply outside_pte].
Qed.

Lemma inv_outside K' :
  (forall b, is_u32 (word s' b)) ->
  lenz (memory_map s') = TOTAL_PAGES ->
  (forall j, 0 <= K' j) ->
  (forall j, j <> k -> K' j = K j) ->
  (forall j, managed s j ->
     getz (memory_map s') j = Some (refs s (page_address j) + K' j) /\
     refs s (page_address j) + K' j < 256) ->
  (forall j, HIGH_MEMORY s <= page_address j -> getz (memory_map s') j <> Some 0) ->
  page_inv K' s'.
Proof using Hinv Hk Hout Hnt.
  intros Hw Hlen HK HKne Hcnt Hres. pose proof (proj1 Hout) as HH. split.
  - done.
  - rewrite HH. apply Hinv.
  - done.
  - intros d Hd Hp. rewrite outside_pde in Hp |- * by done.
    destruct (inv_tables _ _ Hinv d Hd Hp) as (j & Hj & Hf & H1).
    exists j. unfold managed. rewrite HH, outside_refs. split_and!; [apply Hj..|done|].
    rewrite HKne; [done|]. intros ->. by apply (Hnt d).
  - intros d i Hd Hp Hi. rewrite outside_pde in Hp |- * by done. rewrite HH, outside_pte by done.
    by apply (inv_entries _ _ Hinv).
  - done.
  - intros j Hj. rewrite outside_refs. apply Hcnt. unfold managed in *. by rewrite HH in Hj.
  - by rewrite HH.
Qed.
End outside.

Lemma upd_eq K k v : upd K k v k = v.
Proof. unfold upd. by rewrite Z.eqb_refl. Qed.
Lemma upd_ne K k v j : j <> k -> upd K k v j = K j.
Proof. unfold upd. intros H. by rewrite (proj2 (Z.eqb_neq j k)). Qed.

(** ** Allocation and release by the kernel *)

Lemma inv_get_free_page K s :
  page_inv K s ->
  wp get_free_page (fun r s' =>
    (r = 0 /\ s' = s /\ forall k, 0 <= k < TOTAL_PAGES -> getz (memory_map s) k <> Some 0) \/
    exists k, managed s k /\ r = page_address k /\ K k = 0 /\ refs s r = 0 /\
      page_inv (upd K k 1) s' /\ HIGH_MEMORY s' = HIGH_MEMORY s /\
      memory_map s' = setz (memory_map s) k 1 /\
      (forall p, refs s' p = refs s p) /\
      forall b, word s' b = if in_page r b then 0 else word s b) s.
Proof.
  intros Hinv. destruct (get_free_page_spec s (inv_len _ _ Hinv)) as (r & s' & Heq & H).
  apply wp_ok. exists r, s'. split; [done|].
  destruct H as [(-> & -> & Hfull)|(k & Hk & -> & Hz & _ & Hm & Hh & Hw)]; [by left|right].
  assert (managed s k) as Hmg.
  { split; [lia|]. destruct (Z.lt_ge_cases (page_address k) (HIGH_MEMORY s)) as [|Hge]; [done|].
    exfalso. by apply (inv_reserved _ _ Hinv k Hge). }
  destruct (inv_count _ _ Hinv k Hmg) as [Hc _]. rewrite Hz in Hc. injection Hc as Hc.
  pose proof (refs_nonneg s (page_address k)). pose proof (inv_kernel _ _ Hinv k).
  assert (outside_same k s s') as Hout.
  { split; [done|]. intros b Hb. by rewrite Hw, Hb. }
  assert (forall d, user_dir d -> present (pde s d) = true -> frame (pde s d) <> page_address k) as Hnt.
  { intros d. apply (inv_free_not_table (s := s) k d). lia. }
  exists k. split_and!; [done|done|lia|lia| |done|done| |done].
  - apply (inv_outside Hinv k s' (proj1 Hmg) Hout Hnt).
    + intros b. rewrite Hw. destruct (in_page _ b); [done|apply Hinv].
    + rewrite Hm, lenz_setz. apply Hinv.
    + intros j. unfold upd. destruct (j =? k); [lia|apply Hinv].
    + intros j Hj. by apply upd_ne.
    + intros j Hj. rewrite Hm. destruct (decide (j = k)) as [->|Hne].
      * rewrite getz_setz_eq, upd_eq by (rewrite (inv_len _ _ Hinv); lia). split; [f_equal; lia|lia].
      * rewrite getz_setz_ne, upd_ne by done. by apply (inv_count _ _ Hinv).
    + intros j Hj. rewrite Hm. rewrite getz_setz_ne; [by apply (inv_reserved _ _ Hinv)|].
      intros <-. destruct Hmg. lia.
  - intros p. by apply (outside_refs Hinv k s' (proj1 Hmg) Hout Hnt).
Qed.

Lemma inv_free_page K s k :
  page_inv K s -> managed s k -> 1 <= K k ->
  (forall d, user_dir d -> present (pde s d) = true -> frame (pde s d) <> page_address k) ->
  wp (free_page (page_address k)) (fun _ s' =>
    page_inv (upd K k (K k - 1)) s' /\ HIGH_MEMORY s' = HIGH_MEMORY s /\
    forall b, word s' b = word s b) s.
Proof.
  intros Hinv Hk HK Hnt. destruct (inv_count _ _ Hinv k Hk) as [Hc Hlt].
  pose proof (refs_nonneg s (page_address k)). pose proof (inv_managed_lt Hinv k Hk) as Hkt.
  eapply wp_free_page; [apply Hk| |done|lia|].
  { rewrite (inv_high_u32 Hinv). apply Hk. }
  split_and!; [|done|done].
  apply (inv_outside Hinv k); [apply Hk|done|exact Hnt|apply Hinv|..]; simpl.
  - rewrite lenz_setz. apply Hinv.
  - intros j. unfold upd. destruct (j =? k); [lia|apply Hinv].
  - intros j Hj. by apply upd_ne.
  - intros j Hj. destruct (decide (j = k)) as [->|Hne].
    + rewrite getz_setz_eq, upd_eq by (rewrite (inv_len _ _ Hinv); lia). split; [f_equal; lia|lia].
    + rewrite getz_setz_ne, upd_ne by done. by apply (inv_count _ _ Hinv).
  - intros j Hj. rewrite getz_setz_ne; [by apply (inv_reserved _ _ Hinv)|].
    intros <-. destruct Hk. lia.
Qed.

(** ** A page table appears or disappears *)

Section new_table.
Context {K : Z -> Z} {s : mm} (Hinv : page_inv K s).
Context (d k : Z) (s' : mm) (Hd : user_dir d) (Habs : present (pde s d) = false).
Context (Hk : managed s k) (HK : K k = 1) (H0 : refs s (page_address k) = 0).
Context (Hz : forall i, 0 <= i < 1024 -> pte s (page_address k) i = 0).
Context (Hst : stored (4 * d) (Z.lor (page_address k) 7) s s').
Context (Hm : memory_map s' = memory_map s).

Lemma new_table_u32 : is_u32 (page_address k).
Proof using Hinv Hk.
  pose proof (inv_managed_lt Hinv k Hk) as H. rewrite TOTAL_PAGES_eq in H.
  unfold is_u32, page_address, LOW_MEM. lia.
Qed.

Lemma new_table_pde : pde s' d = Z.lor (page_address k) 7.
Proof using Hst. unfold pde. rewrite (proj2 Hst). by rewrite decide_True. Qed.

Lemma new_table_pde_ne d' : d' <> d -> pde s' d' = pde s d'.
Proof using Hst. intros. unfold pde at 1. rewrite (proj2 Hst), decide_False by dmlia. done. Qed.

Lemma new_table_pte f i :
  f mod 4096 = 0 -> LOW_MEM <= f -> 0 <= i < 1024 -> pte s' f i = pte s f i.
Proof using Hst Hd.
  unfold user_dir in Hd. intros Hf Hl Hi. unfold pte. rewrite (proj2 Hst). rewrite decide_False; [done|].
  unfold LOW_MEM in Hl. dmlia.
Qed.

Lemma new_table_frame : frame (pde s' d) = page_address k /\ present (pde s' d) = true.
Proof using Hinv Hk Hst.
  rewrite new_table_pde. split.
  - apply frame_new_entry; [apply new_table_u32|apply page_address_aligned].
  - apply present_new_entry, page_address_aligned.
Qed.

Lemma new_table_empty i : 0 <= i < 1024 -> pte s' (page_address k) i = 0.
Proof using Hinv Hd Hk Hz Hst.
  intros Hi. rewrite new_table_pte; [by apply Hz|apply page_address_aligned| |done].
  destruct Hk. unfold page_address. lia.
Qed.

Lemma refs_new_table p : refs s' p = refs s p + (if p =? page_address k then 1 else 0).
Proof using Hinv Hd Habs Hk Hz Hst.
  destruct new_table_frame as [Hf Hp]. unfold user_dir in *. unfold refs.
  rewrite (sumZ_update (dir_refs s p) (dir_refs s' p) 16 1008 d); [|lia|].
  - assert (dir_refs s p d = 0) as -> by (unfold dir_refs; by rewrite Habs).
    assert (dir_refs s' p d = if p =? page_address k then 1 else 0) as ->; [|lia].
    unfold dir_refs. rewrite Hp, Hf. unfold table_refs. rewrite sumZ_zero.
    + unfold ref. rewrite Hp, Hf. simpl. rewrite Z.eqb_sym. unfold b2z. by destruct (_ =? _).
    + intros i Hi. rewrite new_table_empty by lia. by apply ref_absent.
  - intros d' Hr Hne. assert (user_dir d') by (unfold user_dir; lia).
    unfold dir_refs. rewrite new_table_pde_ne by done. destruct (present (pde s d')) eqn:E; [|done].
    f_equal. apply sumZ_ext. intros i Hi. f_equal.
    symmetry. apply new_table_pte; [apply (inv_frame_aligned Hinv)|by apply (inv_table_low Hinv)|lia].
Qed.

Lemma inv_new_table : page_inv (upd K k 0) s'.
Proof using Hinv Hd Habs Hk HK H0 Hz Hst Hm.
  pose proof (proj1 Hst) as HH. destruct new_table_frame as [Hf Hp]. split.
  - rewrite Hm. apply Hinv.
  - rewrite HH. apply Hinv.
  - intros b. rewrite (proj2 Hst). case_decide; [|apply Hinv].
    rewrite lor_7 by apply page_address_aligned.
    pose proof (inv_managed_lt Hinv k Hk) as Hb. rewrite TOTAL_PAGES_eq in Hb.
    unfold is_u32, page_address, LOW_MEM. lia.
  - intros d' Hd' Hp'. unfold managed. rewrite HH. destruct (decide (d' = d)) as [->|Hne].
    + exists k. rewrite Hf, refs_new_table, Z.eqb_refl, upd_eq. split_and!; [apply Hk..|done|lia].
    + rewrite new_table_pde_ne in Hp' |- * by done.
      destruct (inv_tables _ _ Hinv d' Hd' Hp') as (j & Hj & Hfj & H1).
      exists j. split_and!; [apply Hj..|done|].
      assert (j <> k) as Hjk.
      { intros ->. by apply (inv_free_not_table (s := s) k d'). }
      rewrite upd_ne by done. rewrite refs_new_table, (proj2 (Z.eqb_neq _ _)); [lia|].
      unfold page_address. lia.
  - intros d' i Hd' Hp' Hi. rewrite HH. destruct (decide (d' = d)) as [->|Hne].
    + rewrite Hf, new_table_empty by done. done.
    + rewrite new_table_pde_ne in Hp' |- * by done.
      rewrite new_table_pte; [by apply (inv_entries _ _ Hinv)|apply (inv_frame_aligned Hinv)| |done].
      by apply (inv_table_low Hinv).
  - intros j. unfold upd. destruct (j =? k); [lia|apply Hinv].
  - intros j Hj. unfold managed in Hj. rewrite HH in Hj. rewrite Hm, refs_new_table.
    destruct (inv_count _ _ Hinv j Hj) as [Hc Hlt]. destruct (decide (j = k)) as [->|Hne].
    + rewrite Z.eqb_refl, upd_eq. split; [rewrite Hc; f_equal; lia|lia].
    + rewrite upd_ne by done. rewrite (proj2 (Z.eqb_neq _ _)) by (unfold page_address; lia).
      split; [rewrite Hc; f_equal; lia|lia].
  - rewrite HH, Hm. apply Hinv.
Qed.
End new_table.

(** A directory entry is cleared after its table has been emptied and freed. *)
Section clear_table.
Context {K : Z -> Z} {s : mm} (Hinv : page_inv K s).
Context (d k : Z) (s' : mm) (Hd : user_dir d) (Hp : present (pde s d) = true).
Context (Hf : frame (pde s d) = page_address k).
Context (Hz : forall i, 0 <= i < 1024 -> present (pte s (page_address k) i) = false).
Context (Hst : stored (4 * d) 0 s s').
Context (Hm : memory_map s' = setz (memory_map s) k 0).

Lemma clear_table_managed : managed s k /\ refs s (page_address k) = 1 /\ K k = 0.
Proof using Hinv Hd Hp Hf.
  destruct (inv_tables _ _ Hinv d Hd Hp) as (k' & Hk & Hf' & H1).
  assert (k' = k) as -> by (rewrite Hf in Hf'; unfold page_address in Hf'; lia).
  pose proof (dir_refs_pde s d Hp) as H2. pose proof (refs_dir s (page_address k) d Hd) as H3.
  rewrite Hf in H2. pose proof (inv_kernel _ _ Hinv k). split; [done|lia].
Qed.

Lemma clear_table_pde : pde s' d = 0.
Proof using Hst. unfold pde. rewrite (proj2 Hst). by rewrite decide_True. Qed.

Lemma clear_table_pde_ne d' : d' <> d -> pde s' d' = pde s d'.
Proof using Hst. intros. unfold pde at 1. rewrite (proj2 Hst), decide_False by dmlia. done. Qed.

Lemma clear_table_pte f i : LOW_MEM <= f -> 0 <= i < 1024 -> pte s' f i = pte s f i.
Proof using Hst Hd.
  unfold user_dir in Hd. intros Hl Hi. unfold pte. rewrite (proj2 Hst). rewrite decide_False; [done|].
  unfold LOW_MEM in Hl. dmlia.
Qed.

Lemma refs_clear_table p : refs s' p = refs s p - (if p =? page_address k then 1 else 0).
Proof using Hinv Hd Hp Hf Hz Hst.
  unfold refs. rewrite (sumZ_update (dir_refs s p) (dir_refs s' p) 16 1008 d);
    [|unfold user_dir in Hd; lia|].
  - assert (dir_refs s' p d = 0) as -> by (unfold dir_refs; by rewrite clear_table_pde).
    assert (dir_refs s p d = if p =? page_address k then 1 else 0) as ->; [|lia].
    unfold dir_refs. rewrite Hp, Hf. unfold table_refs. rewrite sumZ_zero.
    + unfold ref. rewrite Hp, Hf. simpl. rewrite Z.eqb_sym. unfold b2z. by destruct (_ =? _).
    + intros i Hi. apply ref_absent. apply Hz. lia.
  - intros d' Hr Hdne. assert (user_dir d') by (unfold user_dir; lia).
    unfold dir_refs. rewrite clear_table_pde_ne by done. destruct (present (pde s d')) eqn:E; [|done].
    f_equal. apply sumZ_ext. intros i Hi. f_equal. symmetry. apply clear_table_pte; [|lia].
    by apply (inv_table_low Hinv).
Qed.

Lemma inv_clear_table : page_inv K s'.
Proof using Hinv Hd Hp Hf Hz Hst Hm.
  pose proof (proj1 Hst) as HH. destruct clear_table_managed as (Hk & Hr1 & HK0). split.
  - rewrite Hm, lenz_setz. apply Hinv.
  - rewrite HH. apply Hinv.
  - intros b. rewrite (proj2 Hst). case_decide; [done|apply Hinv].
  - intros d' Hd' Hp'. unfold managed. rewrite HH. destruct (decide (d' = d)) as [->|Hdne].
    { by rewrite clear_table_pde in Hp'. }
    rewrite clear_table_pde_ne in Hp' |- * by done.
    destruct (inv_tables _ _ Hinv d' Hd' Hp') as (j & Hj & Hfj & Hj1).
    exists j. split_and!; [apply Hj..|done|]. rewrite refs_clear_table, (proj2 (Z.eqb_neq _ _)); [lia|].
    intros E. apply Hdne. apply (inv_table_unique Hinv); congruence.
  - intros d' i Hd' Hp' Hi. rewrite HH. destruct (decide (d' = d)) as [->|Hdne].
    { by rewrite clear_table_pde in Hp'. }
    rewrite clear_table_pde_ne in Hp' |- * by done.
    rewrite clear_table_pte by (done || by apply (inv_table_low Hinv)).
    by apply (inv_entries _ _ Hinv).
  - apply Hinv.
  - intros j Hj. unfold managed in Hj. rewrite HH in Hj. rewrite Hm, refs_clear_table.
    destruct (inv_count _ _ Hinv j Hj) as [Hc Hlt]. destruct (decide (j = k)) as [->|Hjk].
    + pose proof (inv_managed_lt Hinv k Hk). rewrite getz_setz_eq by (rewrite (inv_len _ _ Hinv); lia).
      rewrite Z.eqb_refl. split; [f_equal; lia|lia].
    + rewrite getz_setz_ne by done. rewrite (proj2 (Z.eqb_neq _ _)) by (unfold page_address; lia).
      split; [rewrite Hc; f_equal; lia|lia].
  - rewrite HH, Hm. intros j Hj. rewrite getz_setz_ne; [by apply (inv_reserved _ _ Hinv)|].
    intros <-. destruct Hk. lia.
Qed.
End clear_table.
