(* ===== verification/MemoryOps.v ===== *)
(** * The routines of mm/memory.c keep the reference counts exact

    Every operation on page tables is run from a state with [page_inv]; the
    theorems say that it returns (or runs out of memory), what it does to the
    mappings, and that [page_inv] holds again. *)

From Stdlib Require Import ZArith Lia.
From stdpp Require Import base numbers list gmap strings.
From S2P Require Import Prelude Memory MemoryInv.

(** The invariant depends on the words, the counts and [HIGH_MEMORY] only. *)
Lemma page_inv_same K K' s s' :
  (forall k, K' k = K k) -> (forall b, word s' b = word s b) ->
  memory_map s' = memory_map s -> HIGH_MEMORY s' = HIGH_MEMORY s ->
  page_inv K s -> page_inv K' s'.
Proof.
  intros HK Hw Hm Hh Hinv.
  assert (forall p, refs s' p = refs s p) as Hr.
  { intros p. apply refs_agree; intros; apply Hw. }
  assert (forall d, pde s' d = pde s d) as Hpd by (intros; apply Hw).
  assert (forall f i, pte s' f i = pte s f i) as Hpt by (intros; apply Hw).
  split.
  - rewrite Hm. exact (inv_len _ _ Hinv).
  - rewrite Hh. exact (inv_high _ _ Hinv).
  - intros a. rewrite Hw. exact (inv_words _ _ Hinv a).
  - intros d Hd Hp. rewrite Hpd in *. destruct (inv_tables _ _ Hinv d Hd Hp) as (k & Hk & Hf & H1).
    exists k. rewrite Hr, HK. unfold managed in *. rewrite Hh. exact (conj Hk (conj Hf H1)).
  - intros d i Hd Hp Hi. rewrite Hpd in *. rewrite Hpt, Hh. exact (inv_entries _ _ Hinv d i Hd Hp Hi).
  - intros k. rewrite HK. exact (inv_kernel _ _ Hinv k).
  - intros k Hk. unfold managed in Hk. rewrite Hh in Hk. rewrite Hm, Hr, HK.
    exact (inv_count _ _ Hinv k Hk).
  - rewrite Hm, Hh. exact (inv_reserved _ _ Hinv).
Qed.

Lemma page_inv_ext K K' s : (forall k, K' k = K k) -> page_inv K s -> page_inv K' s.
Proof. intros HK. by apply page_inv_same. Qed.

(** Only the number of TLB flushes differs. *)
Lemma page_inv_flush K s n :
  page_inv K s -> page_inv K (MM (phys s) (memory_map s) (HIGH_MEMORY s) n).
Proof. by apply page_inv_same. Qed.

(** ** Freeing one entry, one table, a range of tables *)

(** The slot [d] of the directory maps what it mapped. *)
Definition same_mapping (s s' : mm) (d : Z) : Prop :=
  pde s' d = pde s d /\
  (present (pde s d) = true -> forall i, 0 <= i < 1024 ->
     pte s' (frame (pde s d)) i = pte s (frame (pde s d)) i).

Definition others_same (s s' : mm) (d : Z) : Prop :=
  forall d', user_dir d' -> d' <> d -> same_mapping s s' d'.

Lemma same_mapping_trans s1 s2 s3 d :
  same_mapping s1 s2 d -> same_mapping s2 s3 d -> same_mapping s1 s3 d.
Proof.
  intros [H1 H2] [H3 H4]. split; [congruence|]. intros Hp i Hi.
  rewrite H1 in H4. rewrite H4 by done. by apply H2.
Qed.

Lemma others_same_trans s1 s2 s3 d :
  others_same s1 s2 d -> others_same s2 s3 d -> others_same s1 s3 d.
Proof. intros H1 H2 d' Hd Hne. eapply same_mapping_trans; [by apply H1|by apply H2]. Qed.

Lemma others_same_refl s d : others_same s s d.
Proof. by intros d'. Qed.

Definition entry_gone (d i : Z) (s s' : mm) : Prop :=
  pde s' d = pde s d /\ HIGH_MEMORY s' = HIGH_MEMORY s /\ others_same s s' d /\
  pte s' (frame (pde s d)) i = 0 /\
  forall j, 0 <= j < 1024 -> j <> i -> pte s' (frame (pde s d)) j = pte s (frame (pde s d)) j.

Section free_entry.
Context {K : Z -> Z} {s : mm} (Hinv : page_inv K s).
Context (d i : Z) (Hd : user_dir d) (Hp : present (pde s d) = true) (Hi : 0 <= i < 1024).

Lemma stored_entry_gone s' :
  stored (frame (pde s d) + 4 * i) 0 s s' -> entry_gone d i s s'.
Proof using Hinv Hd Hp Hi.
  intros Hst. split_and!.
  - by apply (stored_pde Hinv d i 0 s' Hd Hp Hi Hst).
  - apply Hst.
  - intros d' Hd' Hne. split; [by apply (stored_pde Hinv d i 0 s' Hd Hp Hi Hst)|].
    intros Hp' j Hj. apply (stored_pte_ne Hinv d i 0 s' Hd Hp Hi Hst); [done..|left; congruence].
  - apply (stored_pte_eq d i 0 s' Hst).
  - intros j Hj Hne. apply (stored_pte_ne Hinv d i 0 s' Hd Hp Hi Hst); [done..|naive_solver].
Qed.

(** The counts after the entry has been cleared. *)
Lemma inv_cleared_entry s' :
  stored (frame (pde s d) + 4 * i) 0 s s' ->
  lenz (memory_map s') = TOTAL_PAGES ->
  (forall k, managed s k -> getz (memory_map s') k =
     Some (refs s (page_address k) - ref (page_address k) (pte s (frame (pde s d)) i) + K k)) ->
  (forall k, HIGH_MEMORY s <= page_address k -> getz (memory_map s') k <> Some 0) ->
  page_inv K s'.
Proof using Hinv Hd Hp Hi.
  intros Hst Hlen Hc Hres. apply (inv_store_pte Hinv d i 0 s' Hd Hp Hi Hst);
    [done|done|apply Hinv|done|done| |done].
  intros k Hk. rewrite (Hc k Hk), (ref_absent _ 0) by done.
  destruct (inv_count _ _ Hinv k Hk) as [_ Hlt].
  pose proof (ref_range (page_address k) (pte s (frame (pde s d)) i)).
  split; [f_equal; lia|lia].
Qed.

(** The entry names no counted page. *)
Lemma store_uncounted_entry :
  (forall k, managed s k -> ref (page_address k) (pte s (frame (pde s d)) i) = 0) ->
  wp (store (frame (pde s d) + 4 * i) 0)
     (fun _ s' => page_inv K s' /\ entry_gone d i s s') s.
Proof using Hinv Hd Hp Hi.
  intros H0. apply wp_store.
  pose proof (stored_refl_store (frame (pde s d) + 4 * i) 0 s) as Hst.
  split; [|by apply stored_entry_gone].
  apply inv_cleared_entry; [done|apply Hinv| |apply Hinv].
  intros k Hk. simpl. rewrite (proj1 (inv_count _ _ Hinv k Hk)), H0 by done. f_equal; lia.
Qed.

(** The entry names the page [k], which is freed first. *)
Lemma free_counted_entry k :
  managed s k -> present (pte s (frame (pde s d)) i) = true ->
  frame (pte s (frame (pde s d)) i) = page_address k -> 1 <= refs s (page_address k) ->
  wp (do! free_page (page_address k) in store (frame (pde s d) + 4 * i) 0)
     (fun _ s' => page_inv K s' /\ entry_gone d i s s') s.
Proof using Hinv Hd Hp Hi.
  intros Hk Hpe Hf Hr. destruct (inv_count _ _ Hinv k Hk) as [Hc Hlt].
  pose proof (inv_kernel _ _ Hinv k) as HK0. apply wp_bind.
  eapply wp_free_page; [apply Hk| |exact Hc|lia|].
  { rewrite (inv_high_u32 Hinv). apply Hk. }
  apply wp_store. set (s' := set_phys _ _).
  assert (stored (frame (pde s d) + 4 * i) 0 s s') as Hst.
  { split; [done|]. intros b. apply (stored_refl_store (frame (pde s d) + 4 * i) 0 s). }
  split; [|by apply stored_entry_gone].
  apply inv_cleared_entry; [done|simpl; rewrite lenz_setz; apply Hinv|..]; simpl.
  - intros j Hj. destruct (decide (j = k)) as [->|Hne].
    + rewrite getz_setz_eq, ref_eq; [f_equal; lia|done|done|].
      rewrite (inv_len _ _ Hinv). apply (inv_managed_lt Hinv k Hk).
    + rewrite getz_setz_ne, ref_ne by (done || rewrite Hf; unfold page_address; lia).
      rewrite (proj1 (inv_count _ _ Hinv j Hj)). f_equal. lia.
  - intros j Hj. rewrite getz_setz_ne; [by apply (inv_reserved _ _ Hinv)|].
    intros <-. destruct Hk. lia.
Qed.

Lemma wp_free_entry :
  wp (free_entry (frame (pde s d)) i)
     (fun _ s' => page_inv K s' /\ entry_gone d i s s') s.
Proof using Hinv Hd Hp Hi.
  unfold free_entry. apply wp_bind, wp_load. fold (pte s (frame (pde s d)) i).
  destruct (present (pte s (frame (pde s d)) i)) eqn:Hpe; simpl.
  - destruct (inv_entry_page Hinv d i Hd Hp Hi Hpe) as [Hlow|(k & Hk & Hf & Hr)].
    + apply wp_bind, wp_free_page_low; [done|]. apply store_uncounted_entry.
      intros k Hk. apply ref_ne. destruct Hk. unfold page_address. lia.
    + rewrite Hf. by apply free_counted_entry.
  - apply store_uncounted_entry. intros k Hk. by apply ref_absent.
Qed.
End free_entry.

Lemma wp_free_table_entries K s d :
  page_inv K s -> user_dir d -> present (pde s d) = true ->
  wp (free_table_entries (frame (pde s d))) (fun _ s' =>
    page_inv K s' /\ pde s' d = pde s d /\ HIGH_MEMORY s' = HIGH_MEMORY s /\ others_same s s' d /\
    forall i, 0 <= i < 1024 -> pte s' (frame (pde s d)) i = 0) s.
Proof.
  intros Hinv Hd Hp. unfold free_table_entries. eapply wp_mono.
  - apply wp_for_range with (I := fun n s' =>
      page_inv K s' /\ pde s' d = pde s d /\ HIGH_MEMORY s' = HIGH_MEMORY s /\ others_same s s' d /\
      forall i, 0 <= i < n -> pte s' (frame (pde s d)) i = 0).
    + split_and!; [done..|apply others_same_refl|lia].
    + intros i s' Hi (Hinv' & Hpd & Hh & Ho & Hz). rewrite <- Hpd.
      eapply wp_mono; [apply (wp_free_entry Hinv' d i Hd); [by rewrite Hpd|lia]|].
      intros [] s'' (Hinv'' & Hpd' & Hh' & Ho' & Hi' & Hne). rewrite Hpd in *.
      split_and!; [done|congruence|congruence|by eapply others_same_trans|].
      intros j Hj. destruct (decide (j = i)) as [->|]; [done|]. rewrite Hne by lia. apply Hz. lia.
  - intros [] s' H. exact H.
Qed.

(** One directory entry: the table is emptied, its page given back, the entry
    cleared. *)
Lemma wp_free_dir K s d :
  page_inv K s -> user_dir d ->
  wp (free_dir (4 * d)) (fun _ s' =>
    page_inv K s' /\ present (pde s' d) = false /\ HIGH_MEMORY s' = HIGH_MEMORY s /\
    others_same s s' d) s.
Proof.
  intros Hinv Hd. unfold free_dir. apply wp_bind, wp_load. fold (pde s d).
  apply wp_when; [|intros Hp; split_and!; [done..|apply others_same_refl]].
  intros Hp. apply wp_bind. eapply wp_mono; [by apply wp_free_table_entries|].
  intros [] s1 (Hinv1 & Hpd & Hh & Ho & Hz). apply wp_bind, wp_load. fold (pde s1 d).
  destruct (inv_tables _ _ Hinv1 d Hd) as (k & Hk & Hf & H1); [by rewrite Hpd|].
  assert (managed s1 k /\ refs s1 (page_address k) = 1 /\ K k = 0) as (_ & Hr1 & HK0).
  { by apply (clear_table_managed Hinv1 d k Hd); [rewrite Hpd|]. }
  assert (forall i, 0 <= i < 1024 -> present (pte s1 (page_address k) i) = false) as Habs.
  { intros i Hi. rewrite <- Hf, Hpd, Hz by done. done. }
  rewrite Hf. destruct (inv_count _ _ Hinv1 k Hk) as [Hc _]. apply wp_bind.
  eapply wp_free_page; [apply Hk| |exact Hc|lia|].
  { rewrite (inv_high_u32 Hinv1). apply Hk. }
  apply wp_store. set (s2 := set_phys _ _).
  assert (stored (4 * d) 0 s1 s2) as Hst.
  { split; [done|]. intros b. apply (stored_refl_store (4 * d) 0 s1). }
  split_and!.
  - apply (inv_clear_table Hinv1 d k s2 Hd); [by rewrite Hpd|done|done|done|].
    simpl. by rewrite Hr1, HK0.
  - by rewrite (clear_table_pde d s2 Hst).
  - done.
  - eapply others_same_trans; [exact Ho|]. intros d' Hd' Hne. split.
    + by apply (clear_table_pde_ne d s2 Hst).
    + intros Hp' i Hi. apply (clear_table_pte (s := s1) d s2 Hd Hst); [by apply (inv_table_low Hinv1)|done].
Qed.

(** The number of directory entries of a size in bytes. *)
Definition dirs_of (size : Z) : Z := Z.shiftr (u32 (size + 0x3fffff)) 22.

Lemma dirs_of_range size : 0 <= dirs_of size < 1024.
Proof.
  unfold dirs_of. pose proof (u32_range (size + 0x3fffff)) as H. unfold is_u32 in H.
  rewrite Z.shiftr_div_pow2 by lia. change (2 ^ 22) with 4194304. dmlia.
Qed.

(** The test of a 4 MB boundary. *)
Lemma aligned_4MB d : istrue (Z.land (4194304 * d) 0x3fffff) = false.
Proof.
  change 0x3fffff with (2 ^ 22 - 1). rewrite land_low by lia. change (2 ^ 22) with 4194304.
  unfold istrue. rewrite Z.mul_comm, Z.mod_mul by lia. done.
Qed.

Lemma dir_address d : Z.shiftr (4194304 * d) 22 * 4 = 4 * d.
Proof. rewrite Z.shiftr_div_pow2 by lia. change (2 ^ 22) with 4194304. dmlia. Qed.

(** C18: [free_page_tables] on a 4 MB aligned range of user addresses returns 0
    and leaves no directory entry of the range present.  The counts stay
    exact: every reference the range held to a page or to a page table is
    given back once, and the other directory entries and their tables are
    untouched. *)
Theorem free_page_tables_spec K s d size :
  page_inv K s -> 16 <= d -> d + dirs_of size <= 1024 ->
  wp (free_page_tables (4194304 * d) size) (fun r s' =>
    r = 0 /\ page_inv K s' /\
    (forall d', d <= d' < d + dirs_of size -> present (pde s' d') = false) /\
    (forall d', user_dir d' -> ~ d <= d' < d + dirs_of size -> same_mapping s s' d')) s.
Proof.
  intros Hinv Hd Hn. unfold free_page_tables. rewrite aligned_4MB.
  assert (negb (istrue (4194304 * d)) = false) as ->.
  { unfold istrue. by rewrite (proj2 (Z.eqb_neq _ _)) by lia. }
  rewrite dir_address. fold (dirs_of size). pose proof (dirs_of_range size) as Hr.
  apply wp_bind. eapply wp_mono.
  - apply wp_for_range with (I := fun n s' => page_inv K s' /\
      (forall d', d <= d' < d + n -> present (pde s' d') = false) /\
      (forall d', user_dir d' -> ~ d <= d' < d + n -> same_mapping s s' d')).
    + split_and!; [done|lia|done].
    + intros i s' Hi (Hinv' & Hgone & Hsame). replace (4 * d + 4 * i) with (4 * (d + i)) by lia.
      eapply wp_mono; [apply (wp_free_dir K s' (d + i) Hinv'); unfold user_dir; lia|].
      intros [] s'' (Hinv'' & Habs & Hh & Ho). split_and!; [done|..].
      * intros d' Hd'. destruct (decide (d' = d + i)) as [->|Hne]; [done|].
        rewrite (proj1 (Ho d' ltac:(unfold user_dir; lia) Hne)). apply Hgone. lia.
      * intros d' Hu Hd'. eapply same_mapping_trans; [apply Hsame; [done|lia]|].
        apply Ho; [done|lia].
  - intros [] s1 (Hinv1 & Hgone & Hsame). rewrite Z2Nat.id in Hgone, Hsame by lia.
    mm_steps. split_and!; [done|by apply page_inv_flush|exact Hgone|exact Hsame].
Qed.
