(* ===== verification/MemoryCopy.v ===== *)
(** * fork's copy of the page tables

    [copy_page_tables] of mm/memory.c: the child maps the same pages as the
    parent, write-protected, and every shared page is counted once more. *)

From Stdlib Require Import ZArith Lia.
From stdpp Require Import base numbers list gmap strings.
From S2P Require Import Prelude Memory MemoryInv MemoryOps.

(** ** A new page table *)

Definition new_table_post (K : Z -> Z) (s : mm) (d r : Z) (s' : mm) : Prop :=
  page_inv K s' /\ present (pde s' d) = true /\ frame (pde s' d) = r /\
  (forall i, 0 <= i < 1024 -> pte s' r i = 0) /\
  HIGH_MEMORY s' = HIGH_MEMORY s /\ others_same s s' d /\
  (forall p, refs s' p = refs s p + (if p =? r then 1 else 0)) /\
  (exists k, managed s k /\ r = page_address k /\ K k = 0) /\ refs s r = 0 /\
  (forall b, in_page r b = false -> b / 4 <> d -> word s' b = word s b).

(** The word of memory at [d]'s directory entry, after storing [v]. *)
Definition set_pde (d v : Z) (s : mm) : mm := set_phys (<[4 * d / 4 := v]> (phys s)) s.

Lemma wp_alloc_table K s d (Q : Z -> mm -> Prop) :
  page_inv K s -> user_dir d -> present (pde s d) = false ->
  (Q 0 s) ->
  (forall r s1, r <> 0 -> new_table_post K s d r (set_pde d (Z.lor r 7) s1) -> Q r s1) ->
  wp get_free_page Q s.
Proof.
  intros Hinv Hd Habs HQ0 HQ. eapply wp_mono; [by apply inv_get_free_page|].
  intros r s1 [(-> & -> & _)|(k & Hk & -> & HK & Hr0 & Hinv1 & Hh & Hm & Hrefs & Hw)]; [done|].
  apply HQ; [unfold page_address, LOW_MEM; destruct Hk; lia|].
  assert (pde s1 d = pde s d) as Hpd.
  { unfold user_dir in Hd. unfold pde. rewrite Hw, in_page_dir; [done|apply Hk|lia]. }
  assert (managed s1 k) as Hk1 by (unfold managed in *; by rewrite Hh).
  assert (forall i, 0 <= i < 1024 -> pte s1 (page_address k) i = 0) as Hz.
  { intros i Hi. unfold pte. rewrite Hw. pose proof (page_address_aligned k).
    unfold in_page. by rewrite (proj2 (Z.eqb_eq _ _)) by dmlia. }
  set (s2 := set_pde d (Z.lor (page_address k) 7) s1).
  assert (stored (4 * d) (Z.lor (page_address k) 7) s1 s2) as Hst by apply stored_refl_store.
  assert (present (pde s1 d) = false) as Habs1 by (by rewrite Hpd).
  destruct (new_table_frame Hinv1 d k s2 Hk1 Hst) as [Hf Hp].
  assert (refs s1 (page_address k) = 0) as Hr1 by (by rewrite Hrefs).
  split_and!; [|done|done| |done| | | |done|].
  - eapply page_inv_ext; [|apply (inv_new_table Hinv1 d k s2 Hd Habs1 Hk1); [apply upd_eq|done..]].
    intros j. unfold upd. destruct (Z.eqb_spec j k) as [->|]; done.
  - intros i Hi. by apply (new_table_empty Hinv1 d k s2 Hd Hk1 Hz Hst).
  - intros d' Hd' Hne. split.
    + rewrite (new_table_pde_ne d k s2 Hst) by done.
      unfold user_dir in Hd'. unfold pde. rewrite Hw, in_page_dir; [done|apply Hk|lia].
    + intros Hp' i Hi. unfold s2, set_pde.
      rewrite (new_table_pte d k s2 Hd Hst); [|apply (inv_frame_aligned Hinv)|by apply (inv_table_low Hinv)|done].
      unfold pte. rewrite Hw, in_page_table; [done|apply (inv_frame_aligned Hinv)|done|].
      by apply (inv_free_not_table (s := s) k d').
  - intros p. rewrite <- (Hrefs p). by apply (refs_new_table Hinv1 d k s2).
  - by exists k.
  - intros b Hb Hbd. rewrite (proj2 Hst), decide_False by dmlia. by rewrite Hw, Hb.
Qed.

(** ** One entry *)

(** The entry as the child sees it, and what becomes of the parent's. *)
Definition child_entry (e : Z) : Z := if present e then Z.land e (u32 (Z.lnot 2)) else 0.
Definition parent_entry (e : Z) : Z :=
  if present e && (LOW_MEM <=? frame e) then Z.land e (u32 (Z.lnot 2)) else e.

Lemma ref_child p e : ref p (child_entry e) = ref p e.
Proof.
  unfold child_entry. destruct (present e) eqn:E; [apply ref_wp|]. by rewrite !ref_absent.
Qed.

Lemma child_u32 e : is_u32 e -> is_u32 (Z.land e (u32 (Z.lnot 2))).
Proof. intros H. by apply land_u32. Qed.

(** The test [this_page > LOW_MEM] on a present entry looks at its page only. *)
Lemma above_low_mem e :
  is_u32 e -> present e = true -> (LOW_MEM <? e) = (LOW_MEM <=? frame e).
Proof.
  intros He Hp. rewrite frame_mod by done. rewrite present_odd in Hp.
  apply Z.odd_spec in Hp as [m ->]. unfold LOW_MEM. zcases; (done || dmlia).
Qed.

(** The index computed from the whole entry is that of its page. *)
Lemma entry_index e k :
  is_u32 e -> frame e = page_address k -> Z.shiftr (e - LOW_MEM) 12 = k.
Proof.
  intros He Hf. rewrite shiftr_12. rewrite frame_mod in Hf by done. unfold page_address in Hf.
  assert (e = LOW_MEM + 4096 * k + e mod 4096) by lia.
  pose proof (Z.mod_pos_bound e 4096). unfold LOW_MEM in *. dmlia.
Qed.

Definition entry_copied (ds dt i : Z) (s s' : mm) : Prop :=
  pde s' ds = pde s ds /\ pde s' dt = pde s dt /\ HIGH_MEMORY s' = HIGH_MEMORY s /\
  (forall d, user_dir d -> d <> ds -> d <> dt -> same_mapping s s' d) /\
  pte s' (frame (pde s dt)) i = child_entry (pte s (frame (pde s ds)) i) /\
  pte s' (frame (pde s ds)) i = parent_entry (pte s (frame (pde s ds)) i) /\
  (forall j, 0 <= j < 1024 -> j <> i ->
     pte s' (frame (pde s dt)) j = pte s (frame (pde s dt)) j /\
     pte s' (frame (pde s ds)) j = pte s (frame (pde s ds)) j) /\
  (forall p, refs s' p = refs s p + ref p (pte s (frame (pde s ds)) i)).

Section copy_entry.
Context {K : Z -> Z} {s : mm} (Hinv : page_inv K s).
Context (ds dt i : Z) (Hds : user_dir ds) (Hdt : user_dir dt) (Hne : ds <> dt).
Context (Hps : present (pde s ds) = true) (Hpt : present (pde s dt) = true).
Context (Hi : 0 <= i < 1024) (Hz : pte s (frame (pde s dt)) i = 0).

Let e := pte s (frame (pde s ds)) i.
Let src := frame (pde s ds) + 4 * i.
Let dst := frame (pde s dt) + 4 * i.

Lemma copy_absent : present e = false -> entry_copied ds dt i s s.
Proof using Hz.
  intros He. unfold entry_copied, child_entry, parent_entry. fold e. rewrite He. simpl.
  split_and!; try done. intros p. rewrite ref_absent by done. lia.
Qed.

(** The parent's entry is write-protected, or left alone. *)
Context (He : present e = true).
Let v := Z.land e (u32 (Z.lnot 2)).

Lemma copy_v_facts : is_u32 v /\ present v = true /\ frame v = frame e /\ forall p, ref p v = ref p e.
Proof using Hinv He.
  unfold v. rewrite present_wp, frame_wp. split_and!; [|done|done|intros p; apply ref_wp].
  apply child_u32. apply (inv_words _ _ Hinv).
Qed.

(** After the parent's word has been rewritten with [w], one of [e] and [v]. *)
Lemma inv_parent_word w s1 :
  w = e \/ w = v -> stored src w s s1 -> memory_map s1 = memory_map s -> page_inv K s1.
Proof using Hinv Hds Hps Hi He dst.
  intros Hw Hst Hm. destruct copy_v_facts as (Hv & Hvp & Hvf & Hvr).
  assert (is_u32 w /\ frame w = frame e /\ forall p, ref p w = ref p e) as (Hwu & Hwf & Hwr).
  { destruct Hw as [-> | ->]; [|done]. split; [apply (inv_words _ _ Hinv)|done]. }
  apply (inv_store_pte Hinv ds i w s1 Hds Hps Hi Hst); [done|rewrite Hm; apply Hinv|apply Hinv|..].
  - intros d' Hd' Hp'. split; [|done]. intros _. rewrite Hwf. by apply (inv_pte_not_table Hinv).
  - intros _. rewrite Hwf. by apply (inv_entries _ _ Hinv).
  - intros k Hk. rewrite Hm, Hwr. fold e. destruct (inv_count _ _ Hinv k Hk) as [Hc Hlt].
    split; [rewrite Hc; f_equal; lia|lia].
  - rewrite Hm. apply Hinv.
Qed.

(** Both words are written and the count follows. *)
Lemma inv_copied_entry w s1 s2 :
  w = e \/ w = v -> stored src w s s1 -> memory_map s1 = memory_map s -> stored dst v s1 s2 ->
  lenz (memory_map s2) = TOTAL_PAGES ->
  (forall k, managed s k -> getz (memory_map s2) k =
     Some (refs s (page_address k) + K k + ref (page_address k) e) /\
     refs s (page_address k) + K k + ref (page_address k) e < 256) ->
  (forall k, HIGH_MEMORY s <= page_address k -> getz (memory_map s2) k <> Some 0) ->
  page_inv K s2 /\ forall p, refs s2 p = refs s p + ref p e.
Proof using Hinv Hds Hdt Hne Hps Hpt Hi Hz He.
  intros Hw Hst Hm Hst2 Hlen Hc Hres. destruct copy_v_facts as (Hv & Hvp & Hvf & Hvr).
  pose proof (inv_parent_word w s1 Hw Hst Hm) as Hinv1.
  assert (forall p, refs s1 p = refs s p) as Hr1.
  { intros p. rewrite (refs_store_pte Hinv ds i w s1 Hds Hps Hi Hst). fold e.
    destruct Hw as [-> | ->]; [lia|]. rewrite Hvr. lia. }
  assert (forall d, user_dir d -> pde s1 d = pde s d) as Hpd by
    (intros d Hd; by apply (stored_pde Hinv ds i w s1 Hds Hps Hi Hst)).
  unfold dst in Hst2. rewrite <- (Hpd dt Hdt) in Hst2.
  assert (present (pde s1 dt) = true) as Hpt1 by (by rewrite Hpd).
  assert (pte s1 (frame (pde s1 dt)) i = 0) as Hz1.
  { rewrite Hpd by done. rewrite (stored_pte_ne Hinv ds i w s1 Hds Hps Hi Hst); [done..|by left]. }
  assert (forall p, refs s2 p = refs s p + ref p e) as Hr2.
  { intros p. rewrite (refs_store_pte Hinv1 dt i v s2 Hdt Hpt1 Hi Hst2).
    rewrite Hz1, (ref_absent p 0), Hr1, Hvr by done. lia. }
  split; [|done].
  apply (inv_store_pte Hinv1 dt i v s2 Hdt Hpt1 Hi Hst2); [done|done|apply Hinv|..].
  - intros d' Hd' Hp'. split; [|done]. intros _. rewrite Hvf. rewrite Hpd in Hp' |- * by done.
    by apply (inv_pte_not_table Hinv).
  - intros _. rewrite Hvf, (proj1 Hst). by apply (inv_entries _ _ Hinv).
  - intros k Hk. unfold managed in Hk. rewrite (proj1 Hst) in Hk. destruct (Hc k Hk) as [Hc1 Hc2].
    rewrite Hz1, (ref_absent _ 0), Hvr, Hr1 by done. split; [rewrite Hc1; f_equal; lia|lia].
  - by rewrite (proj1 Hst).
Qed.

Lemma copied_words w s1 s2 :
  w = parent_entry e -> stored src w s s1 -> memory_map s1 = memory_map s -> stored dst v s1 s2 ->
  (forall p, refs s2 p = refs s p + ref p e) -> entry_copied ds dt i s s2.
Proof using Hinv Hds Hdt Hne Hps Hpt Hi Hz He.
  intros Hw Hst Hm Hst2 Hr. assert (w = e \/ w = v) as Hwev.
  { rewrite Hw. unfold parent_entry. destruct (_ && _); [by right|by left]. }
  pose proof (inv_parent_word w s1 Hwev Hst Hm) as Hinv1.
  assert (forall d, user_dir d -> pde s1 d = pde s d) as Hpd by
    (intros d Hd; by apply (stored_pde Hinv ds i w s1 Hds Hps Hi Hst)).
  unfold dst in Hst2. rewrite <- (Hpd dt Hdt) in Hst2.
  assert (present (pde s1 dt) = true) as Hpt1 by (by rewrite Hpd).
  assert (forall d, user_dir d -> pde s2 d = pde s d) as Hpd2.
  { intros d Hd. rewrite (stored_pde Hinv1 dt i v s2 Hdt Hpt1 Hi Hst2 d Hd). by apply Hpd. }
  assert (forall d j, user_dir d -> present (pde s d) = true -> 0 <= j < 1024 ->
    ds <> d \/ i <> j -> dt <> d \/ i <> j ->
    pte s2 (frame (pde s d)) j = pte s (frame (pde s d)) j) as Hpte.
  { intros d j Hd Hp Hj N1 N2. rewrite <- (Hpd d Hd).
    rewrite (stored_pte_ne Hinv1 dt i v s2 Hdt Hpt1 Hi Hst2 d j Hd); [|by rewrite Hpd|done|done].
    rewrite Hpd by done. by apply (stored_pte_ne Hinv ds i w s1 Hds Hps Hi Hst). }
  split_and!; [by apply Hpd2|by apply Hpd2| | | | | |done].
  - rewrite (proj1 Hst2). apply Hst.
  - intros d Hd N1 N2. split; [by apply Hpd2|]. intros Hp j Hj. apply Hpte; auto.
  - unfold child_entry. fold e. rewrite He. rewrite <- (Hpd dt Hdt).
    apply (stored_pte_eq dt i v s2 Hst2).
  - fold e. rewrite <- Hw, <- (Hpd ds Hds).
    rewrite (stored_pte_ne Hinv1 dt i v s2 Hdt Hpt1 Hi Hst2 ds i Hds);
      [|by rewrite Hpd|done|left; congruence].
    rewrite Hpd by done. apply (stored_pte_eq ds i w s1 Hst).
  - intros j Hj Hji. split; apply Hpte; auto.
Qed.

Context (Hb : forall k, managed s k ->
  refs s (page_address k) + K k + ref (page_address k) e < 256).

(** The page is counted: the parent's entry loses its write bit as well. *)
Lemma copy_counted k :
  managed s k -> frame e = page_address k -> 1 <= refs s (page_address k) ->
  wp (do! store src v in
      let i := Z.shiftr (v - LOW_MEM) 12 in
      let! c := map_get i in map_set i (c + 1))
     (fun _ s' => page_inv K s' /\ entry_copied ds dt i s s')
     (set_phys (<[dst / 4 := v]> (phys s)) s).
Proof using Hinv Hds Hdt Hne Hps Hpt Hi Hz He Hb.
  intros Hk Hf Hr. destruct copy_v_facts as (Hv & Hvp & Hvf & Hvr).
  assert (parent_entry e = v) as Hpe.
  { unfold parent_entry. rewrite He, Hf. destruct Hk as [Hk _]. simpl.
    by rewrite (proj2 (Z.leb_le _ _)) by (unfold page_address; lia). }
  apply wp_bind, wp_store. rewrite (entry_index v k Hv) by congruence.
  destruct (inv_count _ _ Hinv k Hk) as [Hc Hlt]. pose proof (Hb k Hk) as Hbk.
  rewrite ref_eq in Hbk by done. pose proof (inv_kernel _ _ Hinv k) as HK0.
  apply wp_bind. eapply wp_map_get; [exact Hc|]. eapply wp_map_set; [exact Hc|].
  rewrite u8_id by (unfold is_u8; lia).
  set (s1 := set_phys (<[src / 4 := v]> (phys s)) s). set (s2 := set_memory_map _ _).
  assert (stored src v s s1) as Hst by apply stored_refl_store.
  assert (stored dst v s1 s2) as Hst2.
  { split; [done|]. intros b. change (word s2 b) with
      (word (set_phys (<[src / 4 := v]> (<[dst / 4 := v]> (phys s))) s) b).
    unfold s1. rewrite (word_store s src). unfold word, set_phys. simpl.
    rewrite !lookup_insert. by repeat case_decide. }
  assert (forall j, getz (memory_map s2) j =
    if decide (j = k) then Some (refs s (page_address k) + K k + 1) else getz (memory_map s) j) as Hm2.
  { intros j. simpl. case_decide as Hj; [subst j; apply getz_setz_eq|by apply getz_setz_ne].
    rewrite (inv_len _ _ Hinv). apply (inv_managed_lt Hinv k Hk). }
  destruct (inv_copied_entry v s1 s2) as [H1 H2];
    [by right|done|done|done|simpl; rewrite lenz_setz; apply Hinv|..].
  - intros j Hj. rewrite Hm2. split; [|by apply Hb]. case_decide as Hjk.
    + subst j. rewrite ref_eq by done. done.
    + rewrite ref_ne by (rewrite Hf; unfold page_address; lia).
      rewrite (proj1 (inv_count _ _ Hinv j Hj)). f_equal. lia.
  - intros j Hj. rewrite Hm2. case_decide as Hjk; [subst j; destruct Hk; lia|by apply (inv_reserved _ _ Hinv)].
  - split; [done|]. by apply (copied_words v s1).
Qed.

(** The page lies in the first megabyte, which is not counted. *)
Lemma copy_uncounted :
  frame e < LOW_MEM ->
  let s' := set_phys (<[dst / 4 := v]> (phys s)) s in
  page_inv K s' /\ entry_copied ds dt i s s'.
Proof using Hinv Hds Hdt Hne Hps Hpt Hi Hz He Hb.
  intros Hlow s2.
  assert (parent_entry e = e) as Hpe.
  { unfold parent_entry. rewrite He. simpl. by rewrite (proj2 (Z.leb_gt _ _)). }
  assert (stored src e s s) as Hst.
  { split; [done|]. intros b. case_decide as Hb'; [|done]. unfold e, pte, word. by rewrite <- Hb'. }
  assert (stored dst v s s2) as Hst2 by apply stored_refl_store.
  destruct (inv_copied_entry e s s2) as [H1 H2];
    [by left|done|done|done|apply Hinv| |apply Hinv|].
  - intros j Hj. split; [|by apply Hb]. rewrite ref_ne.
    + simpl. rewrite (proj1 (inv_count _ _ Hinv j Hj)). f_equal. lia.
    + destruct Hj. unfold page_address. lia.
  - split; [done|]. by apply (copied_words e s).
Qed.
End copy_entry.

Lemma wp_copy_entry K s ds dt i :
  page_inv K s -> user_dir ds -> user_dir dt -> ds <> dt ->
  present (pde s ds) = true -> present (pde s dt) = true ->
  0 <= i < 1024 -> pte s (frame (pde s dt)) i = 0 ->
  (forall k, managed s k ->
     refs s (page_address k) + K k + ref (page_address k) (pte s (frame (pde s ds)) i) < 256) ->
  wp (copy_entry (frame (pde s ds)) (frame (pde s dt)) i)
     (fun _ s' => page_inv K s' /\ entry_copied ds dt i s s') s.
Proof.
  intros Hinv Hds Hdt Hne Hps Hpt Hi Hz Hb. unfold copy_entry. apply wp_bind, wp_load.
  fold (pte s (frame (pde s ds)) i).
  destruct (present (pte s (frame (pde s ds)) i)) eqn:He; simpl.
  2: { apply wp_ret. split; [done|]. by apply copy_absent. }
  destruct (copy_v_facts Hinv ds i He) as (Hv & Hvp & Hvf & _). apply wp_bind, wp_store.
  destruct (inv_entry_page Hinv ds i Hds Hps Hi He) as [Hlow|(k & Hk & Hf & Hr)].
  - apply wp_when; intros Htest; [|by apply copy_uncounted].
    rewrite above_low_mem, Hvf in Htest by done. apply Z.leb_le in Htest. lia.
  - apply wp_when; intros Htest; [by apply (copy_counted Hinv ds dt i) with (k := k)|].
    rewrite above_low_mem, Hvf, Hf in Htest by done. apply Z.leb_gt in Htest.
    destruct Hk. unfold page_address in *. lia.
Qed.

(** ** One page table *)

Definition table_copied (ds dt : Z) (s s' : mm) : Prop :=
  pde s' ds = pde s ds /\ pde s' dt = pde s dt /\ HIGH_MEMORY s' = HIGH_MEMORY s /\
  (forall d, user_dir d -> d <> ds -> d <> dt -> same_mapping s s' d) /\
  (forall j, 0 <= j < 1024 ->
     pte s' (frame (pde s dt)) j = child_entry (pte s (frame (pde s ds)) j) /\
     pte s' (frame (pde s ds)) j = parent_entry (pte s (frame (pde s ds)) j)) /\
  (forall p, refs s' p = refs s p + table_refs s (frame (pde s ds)) p).

(** The loop invariant after [n] entries. *)
Definition table_copying (ds dt n : Z) (s s' : mm) : Prop :=
  pde s' ds = pde s ds /\ pde s' dt = pde s dt /\ HIGH_MEMORY s' = HIGH_MEMORY s /\
  (forall d, user_dir d -> d <> ds -> d <> dt -> same_mapping s s' d) /\
  (forall j, 0 <= j < n ->
     pte s' (frame (pde s dt)) j = child_entry (pte s (frame (pde s ds)) j) /\
     pte s' (frame (pde s ds)) j = parent_entry (pte s (frame (pde s ds)) j)) /\
  (forall j, n <= j < 1024 ->
     pte s' (frame (pde s dt)) j = 0 /\
     pte s' (frame (pde s ds)) j = pte s (frame (pde s ds)) j) /\
  (forall p, refs s' p =
     refs s p + sumZ (fun j => ref p (pte s (frame (pde s ds)) j)) 0 (Z.to_nat n)).

Lemma table_copying_step ds dt n s s1 s2 :
  0 <= n < 1024 -> table_copying ds dt n s s1 -> entry_copied ds dt n s1 s2 ->
  table_copying ds dt (n + 1) s s2.
Proof.
  intros Hn (A1 & A2 & A3 & A4 & A5 & A6 & A7) (B1 & B2 & B3 & B4 & B5 & B6 & B7 & B8).
  rewrite A1, A2 in *. destruct (A6 n ltac:(lia)) as [A6d A6s]. rewrite A6s in *.
  split_and!; [congruence|congruence|congruence|..].
  - intros d Hd N1 N2. eapply same_mapping_trans; [by apply A4|by apply B4].
  - intros j Hj. destruct (decide (j = n)) as [->|Hne]; [done|].
    destruct (B7 j ltac:(lia) Hne) as [-> ->]. apply A5. lia.
  - intros j Hj. destruct (B7 j ltac:(lia) ltac:(lia)) as [-> ->]. apply A6. lia.
  - intros p. rewrite B8, A7. replace (Z.to_nat (n + 1)) with (Datatypes.S (Z.to_nat n)) by lia.
    rewrite sumZ_snoc. replace (0 + Z.of_nat (Z.to_nat n)) with n by lia. lia.
Qed.

(** The number of references of the first [n] entries is part of the whole. *)
Lemma partial_table_refs s f p n :
  0 <= n < 1024 ->
  sumZ (fun j => ref p (pte s f j)) 0 (Z.to_nat n) + ref p (pte s f n) <= table_refs s f p.
Proof.
  intros Hn.
  assert (sumZ (fun j => ref p (pte s f j)) 0 (Datatypes.S (Z.to_nat n)) <= table_refs s f p) as H.
  { apply sumZ_sub; [intros; apply ref_range|lia|lia]. }
  rewrite sumZ_snoc in H. by replace (0 + Z.of_nat (Z.to_nat n)) with n in H by lia.
Qed.

Lemma wp_copy_table K s ds dt :
  page_inv K s -> user_dir ds -> user_dir dt -> ds <> dt ->
  present (pde s ds) = true -> present (pde s dt) = true ->
  (forall j, 0 <= j < 1024 -> pte s (frame (pde s dt)) j = 0) ->
  (forall k, managed s k ->
     refs s (page_address k) + K k + table_refs s (frame (pde s ds)) (page_address k) < 256) ->
  wp (for_range 0 1024 (copy_entry (frame (pde s ds)) (frame (pde s dt))))
     (fun _ s' => page_inv K s' /\ table_copied ds dt s s') s.
Proof.
  intros Hinv Hds Hdt Hne Hps Hpt Hz Hb. eapply wp_mono.
  - apply wp_for_range with (I := fun n s' => page_inv K s' /\ table_copying ds dt n s s').
    + split; [done|]. split_and!; [done|done|done|done|lia|auto|]. intros p. simpl. lia.
    + intros n s1 Hn [Hinv1 Hc]. pose proof Hc as (A1 & A2 & A3 & A4 & A5 & A6 & A7).
      destruct (A6 n ltac:(lia)) as [A6d A6s]. rewrite <- A1, <- A2.
      eapply wp_mono; [apply (wp_copy_entry K s1 ds dt n Hinv1 Hds Hdt Hne)|].
      * by rewrite A1.
      * by rewrite A2.
      * lia.
      * by rewrite A2.
      * intros k Hk. rewrite A1, A6s, A7. unfold managed in Hk. rewrite A3 in Hk.
        pose proof (Hb k Hk). pose proof (partial_table_refs s (frame (pde s ds)) (page_address k) n). lia.
      * intros [] s2 [Hinv2 He]. split; [done|]. eapply table_copying_step; [lia|done|done].
  - intros [] s' [Hinv' (A1 & A2 & A3 & A4 & A5 & _ & A7)]. split; [done|].
    split_and!; [done|done|done|done|exact A5|exact A7].
Qed.

(** ** The range of directory entries *)

(** The references of the table that the slot [d] of the directory maps. *)
Definition slot_refs (s : mm) (p d : Z) : Z :=
  if present (pde s d) then table_refs s (frame (pde s d)) p else 0.

(** The slot [dt] of [s'] is the child's copy of the slot [ds] of [s]. *)
Definition slot_copied (s s' : mm) (ds dt : Z) : Prop :=
  pde s' ds = pde s ds /\
  if present (pde s ds) then
    present (pde s' dt) = true /\
    forall j, 0 <= j < 1024 ->
      pte s' (frame (pde s' dt)) j = child_entry (pte s (frame (pde s ds)) j) /\
      pte s' (frame (pde s ds)) j = parent_entry (pte s (frame (pde s ds)) j)
  else present (pde s' dt) = false.

Lemma slot_copied_pre s s1 s' ds dt :
  same_mapping s s1 ds -> slot_copied s1 s' ds dt -> slot_copied s s' ds dt.
Proof.
  intros [H1 H2] [H3 H4]. rewrite H1 in *. split; [done|].
  destruct (present (pde s ds)); [|done]. destruct H4 as [H4 H5]. split; [done|].
  intros j Hj. rewrite <- (H2 eq_refl j Hj). auto.
Qed.

Lemma slot_copied_post s s1 s' ds dt :
  same_mapping s1 s' ds -> same_mapping s1 s' dt -> slot_copied s s1 ds dt -> slot_copied s s' ds dt.
Proof.
  intros [H1 H2] [H3 H4] [H5 H6]. split; [congruence|]. rewrite H3.
  destruct (present (pde s ds)) eqn:E; [|done]. destruct H6 as [H6 H7]. split; [done|].
  intros j Hj. rewrite H4 by done. rewrite H5 in H2. rewrite H2 by done. auto.
Qed.

Lemma slot_refs_nonneg s p d : 0 <= slot_refs s p d.
Proof. unfold slot_refs. destruct (present _); [apply table_refs_nonneg|lia]. Qed.

Lemma slot_refs_le s p d : user_dir d -> slot_refs s p d <= refs s p.
Proof.
  intros Hd. etrans; [|by apply refs_dir]. unfold slot_refs, dir_refs.
  destruct (present _); [|lia]. pose proof (ref_range p (pde s d)). lia.
Qed.

Lemma slot_refs_same s s' p d : same_mapping s s' d -> slot_refs s' p d = slot_refs s p d.
Proof.
  intros [H1 H2]. unfold slot_refs. rewrite H1. destruct (present (pde s d)); [|done].
  apply sumZ_ext. intros i Hi. by rewrite H2 by (done || lia).
Qed.

(** The counts that the copies still to be made may reach. *)
Definition room (K : Z -> Z) (s : mm) (ds : Z) (n : nat) : Prop :=
  forall k, managed s k ->
    refs s (page_address k) + K k + sumZ (slot_refs s (page_address k)) ds n < 256.

(** One present slot: a new table is taken and filled. *)
Definition slot_step (K : Z -> Z) (s s' : mm) (ds dt : Z) (n : nat) : Prop :=
  page_inv K s' /\ slot_copied s s' ds dt /\
  (forall d, user_dir d -> d <> ds -> d <> dt -> same_mapping s s' d) /\
  (16 <= ds -> ds + Z.of_nat (Datatypes.S n) <= 1024 -> (dt < ds \/ ds + Z.of_nat (Datatypes.S n) <= dt) ->
   room K s ds (Datatypes.S n) -> room K s' (ds + 1) n).

Lemma slot_step_absent K s ds dt n :
  page_inv K s -> present (pde s ds) = false -> present (pde s dt) = false ->
  slot_step K s s ds dt n.
Proof.
  intros Hinv Hps Hpt. split_and!; [done| |done|].
  - split; [done|]. by rewrite Hps.
  - intros _ _ _ Hr k Hk. specialize (Hr k Hk). cbn [sumZ] in Hr.
    pose proof (slot_refs_nonneg s (page_address k) ds). lia.
Qed.

Lemma wp_slot_step K s ds dt n r s1 :
  page_inv K s -> user_dir ds -> user_dir dt -> ds <> dt ->
  present (pde s ds) = true ->
  (forall k, managed s k -> refs s (page_address k) + K k + slot_refs s (page_address k) ds < 256) ->
  new_table_post K s dt r s1 ->
  wp (for_range 0 1024 (copy_entry (frame (pde s ds)) r))
     (fun _ s' => slot_step K s s' ds dt n) s1.
Proof.
  intros Hinv Hds Hdt Hne Hps Hb (Hinv1 & Hp1 & Hf1 & Hz1 & Hh1 & Ho1 & Hr1 & (k0 & Hk0 & E0 & HK0) & Hr0 & _).
  rewrite E0 in *. clear r E0. pose proof (Ho1 ds Hds Hne) as [Hpd Hpt].
  assert (forall d, user_dir d -> slot_refs s (page_address k0) d = 0) as Hs0.
  { intros d Hd. pose proof (slot_refs_le s (page_address k0) d Hd).
    pose proof (slot_refs_nonneg s (page_address k0) d). lia. }
  rewrite <- Hpd, <- Hf1. eapply wp_mono.
  - apply (wp_copy_table K s1 ds dt Hinv1 Hds Hdt Hne); [by rewrite Hpd|done|by rewrite Hf1|].
    intros k Hk. unfold managed in Hk. rewrite Hh1 in Hk.
    assert (table_refs s1 (frame (pde s1 ds)) (page_address k) = slot_refs s (page_address k) ds) as ->.
    { rewrite <- (slot_refs_same s s1) by (apply Ho1; done). unfold slot_refs. by rewrite Hpd, Hps. }
    rewrite Hr1. destruct (Z.eqb_spec (page_address k) (page_address k0)) as [E|E].
    + rewrite E, (Hs0 ds Hds), Hr0.
      assert (k = k0) as -> by (unfold page_address in E; lia). lia.
    + pose proof (Hb k Hk). lia.
  - intros [] s' [Hinv' (A1 & A2 & A3 & A4 & A5 & A7)].
    assert (forall d, user_dir d -> d <> ds -> d <> dt -> same_mapping s s' d) as Hsame.
    { intros d Hd N1 N2. eapply same_mapping_trans; [by apply Ho1|by apply A4]. }
    split_and!; [done| |done|].
    + split; [congruence|]. rewrite Hps. rewrite A2. split; [done|]. intros j Hj.
      destruct (A5 j Hj) as [-> B]. rewrite Hpd in B |- *. rewrite B, (Hpt Hps j Hj). done.
    + intros Hd16 Hd1024 Hdis Hr k Hk. unfold managed in Hk. rewrite A3, Hh1 in Hk.
      specialize (Hr k Hk). cbn [sumZ] in Hr.
      rewrite (sumZ_ext _ (slot_refs s (page_address k))).
      2: { intros d Hd. apply slot_refs_same, Hsame; [unfold user_dir; lia|lia..]. }
      rewrite A7, Hr1.
      assert (table_refs s1 (frame (pde s1 ds)) (page_address k) = slot_refs s (page_address k) ds) as ->.
      { rewrite <- (slot_refs_same s s1) by (apply Ho1; done). unfold slot_refs. by rewrite Hpd, Hps. }
      destruct (Z.eqb_spec (page_address k) (page_address k0)) as [E|E]; [|lia].
      rewrite E, Hr0. rewrite (Hs0 ds Hds), sumZ_zero.
      * assert (k = k0) as -> by (unfold page_address in E; lia). lia.
      * intros d Hd. apply Hs0. unfold user_dir. lia.
Qed.

Definition in_range (d0 : Z) (n : nat) (d : Z) : Prop := d0 <= d < d0 + Z.of_nat n.

Definition copy_result (K : Z -> Z) (s : mm) (ds dt : Z) (n : nat) (r : option Z) (s' : mm) : Prop :=
  page_inv K s' /\
  (forall d, user_dir d -> ~ in_range ds n d -> ~ in_range dt n d -> same_mapping s s' d) /\
  (r = Some (-1) \/
   r = None /\ forall i, 0 <= i < Z.of_nat n -> slot_copied s s' (ds + i) (dt + i)).

(** A first slot and the rest of the range. *)
Lemma copy_result_cons K s s1 s2 ds dt n r :
  slot_step K s s1 ds dt n ->
  (16 <= ds -> 16 <= dt -> ds + Z.of_nat (Datatypes.S n) <= 1024 -> dt + Z.of_nat (Datatypes.S n) <= 1024 ->
   ds + Z.of_nat (Datatypes.S n) <= dt \/ dt + Z.of_nat (Datatypes.S n) <= ds ->
   copy_result K s1 (ds + 1) (dt + 1) n r s2 -> copy_result K s ds dt (Datatypes.S n) r s2).
Proof.
  unfold in_range. intros (_ & Hc & Ho & _) H1 H2 H3 H4 Hdis (Hinv2 & Ho2 & Hr2). split_and!; [done|..].
  - unfold in_range in *. intros d Hd N1 N2. eapply same_mapping_trans; [apply Ho; [done|lia..]|].
    apply Ho2; [done|lia..].
  - destruct Hr2 as [->|[-> Hall]]; [by left|right]. split; [done|]. intros i Hi.
    destruct (decide (i = 0)) as [->|Hne].
    + rewrite !Z.add_0_r. eapply slot_copied_post; [..|exact Hc];
        (apply Ho2; unfold user_dir, in_range; lia).
    + replace (ds + i) with (ds + 1 + (i - 1)) by lia. replace (dt + i) with (dt + 1 + (i - 1)) by lia.
      eapply slot_copied_pre; [apply Ho; unfold user_dir; lia|]. apply Hall. lia.
Qed.

Lemma wp_copy_dirs K from n ds dt s :
  from <> 0 -> page_inv K s ->
  16 <= ds -> 16 <= dt -> ds + Z.of_nat n <= 1024 -> dt + Z.of_nat n <= 1024 ->
  ds + Z.of_nat n <= dt \/ dt + Z.of_nat n <= ds ->
  (forall i, 0 <= i < Z.of_nat n -> present (pde s (dt + i)) = false) ->
  room K s ds n ->
  wp (copy_dirs from (4 * ds) (4 * dt) n) (copy_result K s ds dt n) s.
Proof.
  intros Hfrom. revert ds dt s. induction n as [|n IH]; intros ds dt s Hinv H1 H2 H3 H4 Hdis Habs Hroom.
  { apply wp_ret. split_and!; [done|done|right; split; [done|lia]]. }
  cbn [copy_dirs]. apply wp_bind, wp_load. fold (pde s dt).
  assert (present (pde s dt) = false) as Habs0.
  { specialize (Habs 0 ltac:(lia)). by rewrite Z.add_0_r in Habs. }
  rewrite Habs0. apply wp_bind, wp_load. fold (pde s ds).
  replace (4 * ds + 4) with (4 * (ds + 1)) by lia. replace (4 * dt + 4) with (4 * (dt + 1)) by lia.
  assert (forall s1 d, slot_step K s s1 ds dt n -> d = dt + 1 ->
    forall i, 0 <= i < Z.of_nat n -> present (pde s1 (d + i)) = false) as Habs'.
  { intros s1 d (_ & _ & Ho & _) -> i Hi. rewrite (proj1 (Ho (dt + 1 + i) ltac:(unfold user_dir; lia)
      ltac:(lia) ltac:(lia))). rewrite <- Z.add_assoc. apply Habs. lia. }
  assert (forall s1, slot_step K s s1 ds dt n ->
    wp (copy_dirs from (4 * (ds + 1)) (4 * (dt + 1)) n) (copy_result K s ds dt (Datatypes.S n)) s1) as Hrest.
  { intros s1 Hstep. eapply wp_mono.
    - apply IH; [apply Hstep|lia..|by apply Habs'|]. destruct Hstep as (_ & _ & _ & Hr). apply Hr; [done|done|lia|done].
    - intros r s2 Hr. eapply copy_result_cons; [done|done|lia|lia|lia|lia|done]. }
  destruct (present (pde s ds)) eqn:Hps; cbn [negb].
  2: { apply Hrest. by apply slot_step_absent. }
  assert (user_dir ds /\ user_dir dt /\ ds <> dt) as (Hds & Hdt & Hne) by (unfold user_dir; lia).
  apply wp_bind. apply (wp_alloc_table K s dt); [done|done|done|..].
  - simpl. apply wp_ret. split_and!; [done|done|by left].
  - intros r s1 Hr Hpost. unfold istrue. rewrite (proj2 (Z.eqb_neq r 0)) by done. cbn [negb].
    apply wp_bind, wp_store. rewrite (proj2 (Z.eqb_neq from 0)) by done. apply wp_bind.
    eapply wp_mono; [apply (wp_slot_step K s ds dt n r); [done..| |exact Hpost]|].
    + intros k Hk. pose proof (Hroom k Hk) as Hb. cbn [sumZ] in Hb.
      pose proof (sumZ_nonneg (slot_refs s (page_address k)) (ds + 1) n
        ltac:(intros; apply slot_refs_nonneg)). lia.
    + intros [] s2 Hstep. by apply Hrest.
Qed.

(** C1: [copy_page_tables] between two disjoint ranges of user addresses, the
    target empty, shares the pages copy-on-write.  It returns 0, or -1 when a
    page table cannot be allocated.  When it returns 0, every directory slot
    of the target maps what the source slot mapped, entry by entry, with the
    write bit off; the source entries of counted pages lose their write bit
    too; all other slots are untouched.  In both cases the counts of
    [memory_map] are exact afterwards (no count wraps, since at most half of a
    byte is in use before). *)
Theorem copy_page_tables_spec K s d1 d2 size :
  page_inv K s ->
  16 <= d1 -> 16 <= d2 -> d1 + dirs_of size <= 1024 -> d2 + dirs_of size <= 1024 ->
  d1 + dirs_of size <= d2 \/ d2 + dirs_of size <= d1 ->
  (forall d, d2 <= d < d2 + dirs_of size -> present (pde s d) = false) ->
  (forall k, managed s k -> 2 * refs s (page_address k) + K k < 256) ->
  wp (copy_page_tables (4194304 * d1) (4194304 * d2) size) (fun r s' =>
    page_inv K s' /\
    (forall d, user_dir d -> ~ d1 <= d < d1 + dirs_of size -> ~ d2 <= d < d2 + dirs_of size ->
       same_mapping s s' d) /\
    (r = -1 \/
     r = 0 /\ forall i, 0 <= i < dirs_of size -> slot_copied s s' (d1 + i) (d2 + i))) s.
Proof.
  intros Hinv H1 H2 H3 H4 Hdis Habs Hb. unfold copy_page_tables. rewrite !aligned_4MB. simpl orb.
  rewrite !dir_address. fold (dirs_of size). pose proof (dirs_of_range size) as Hn.
  assert (Z.of_nat (Z.to_nat (dirs_of size)) = dirs_of size) as En by lia.
  apply wp_bind. eapply wp_mono.
  - apply wp_copy_dirs with (K := K); [lia|done|done|done|lia|lia|lia|..].
    + intros i Hi. apply Habs. lia.
    + intros k Hk. pose proof (Hb k Hk).
      assert (sumZ (slot_refs s (page_address k)) d1 (Z.to_nat (dirs_of size)) <= refs s (page_address k)); [|lia].
      etrans; [|apply (sumZ_sub (dir_refs s (page_address k)) 16 1008 d1 (Z.to_nat (dirs_of size)))];
        [|intros; apply dir_refs_nonneg|lia|lia].
      apply sumZ_mono. intros d Hd. unfold slot_refs, dir_refs. destruct (present _); [|lia].
      pose proof (ref_range (page_address k) (pde s d)). lia.
  - unfold copy_result, in_range. rewrite En.
    intros r s1 (Hinv1 & Ho & Hr). destruct Hr as [->|[-> Hall]].
    + apply wp_ret. split_and!; [done|exact Ho|by left].
    + mm_steps. split_and!; [by apply page_inv_flush|exact Ho|right; split; [done|exact Hall]].
Qed.
