(* ===== verification/MemoryFault.v ===== *)
(** * Write faults and new mappings

    [un_wp_page], [write_verify] and [put_page] of mm/memory.c, run on an entry
    of a user page table. *)

From Stdlib Require Import ZArith Lia.
From stdpp Require Import base numbers list gmap strings.
From S2P Require Import Prelude Memory MemoryInv MemoryOps MemoryCopy.

Definition writable (e : Z) : bool := Z.testbit e 1.

Lemma lor_2 e : is_u32 e -> is_u32 (Z.lor e 2) /\ present (Z.lor e 2) = present e /\
  frame (Z.lor e 2) = frame e /\ writable (Z.lor e 2) = true.
Proof.
  intros He. split_and!.
  - unfold is_u32 in *. split; [apply Z.lor_nonneg; lia|].
    destruct (decide (e = 0)) as [->|]; [done|].
    apply (Z.log2_lt_cancel _ (2 ^ 32)). rewrite Z.log2_lor, Z.log2_pow2 by lia.
    assert (Z.log2 e < 32) by (apply Z.log2_lt_pow2; lia).
    change (Z.log2 2) with 1. lia.
  - unfold present. rewrite Z.land_lor_distr_r. change (Z.land 1 2) with 0. by rewrite Z.lor_0_r.
  - unfold frame. rewrite Z.land_lor_distr_r. change (Z.land 0xfffff000 2) with 0. by rewrite Z.lor_0_r.
  - unfold writable. by rewrite Z.lor_spec, orb_true_r.
Qed.

Lemma writable_new_entry p : writable (Z.lor p 7) = true.
Proof. unfold writable. by rewrite Z.lor_spec, orb_true_r. Qed.

(** Everything in the user's tables except the entry [i] of the slot [d]. *)
Definition other_entries_same (d i : Z) (s s' : mm) : Prop :=
  (forall d', user_dir d' -> pde s' d' = pde s d') /\
  forall d' j, user_dir d' -> present (pde s d') = true -> 0 <= j < 1024 -> d <> d' \/ i <> j ->
    pte s' (frame (pde s d')) j = pte s (frame (pde s d')) j.

(** The entry is present and writable, its page is counted once, and the page
    holds what the old one held. *)
Definition private_copy (d i : Z) (s s' : mm) : Prop :=
  let e := pte s (frame (pde s d)) i in
  let e' := pte s' (frame (pde s d)) i in
  present e' = true /\ writable e' = true /\
  (exists k, managed s k /\ frame e' = page_address k /\ getz (memory_map s') k = Some 1) /\
  (forall j, 0 <= j < 1024 -> word s' (frame e' + 4 * j) = word s (frame e + 4 * j)).

Lemma got_page_nonzero s k : managed s k -> negb (istrue (page_address k)) = false.
Proof.
  intros [Hk _]. unfold istrue. by rewrite (proj2 (Z.eqb_neq _ _)) by (unfold page_address, LOW_MEM; lia).
Qed.

Section un_wp.
Context {K : Z -> Z} {s : mm} (Hinv : page_inv K s).
Context (d i : Z) (Hd : user_dir d) (Hp : present (pde s d) = true) (Hi : 0 <= i < 1024).
Let e := pte s (frame (pde s d)) i.
Let addr := frame (pde s d) + 4 * i.
Context (He : present e = true).

Lemma stored_others v s' : stored addr v s s' -> other_entries_same d i s s'.
Proof using Hinv Hd Hp Hi.
  intros Hst. split.
  - intros d' Hd'. by apply (stored_pde Hinv d i v s' Hd Hp Hi Hst).
  - intros d' j Hd' Hp' Hj Hne. by apply (stored_pte_ne Hinv d i v s' Hd Hp Hi Hst).
Qed.

(** The words of a user page are not page table words. *)
Lemma page_word_stored v s' f j :
  f mod 4096 = 0 -> 0 <= j < 1024 -> f <> frame (pde s d) -> stored addr v s s' ->
  word s' (f + 4 * j) = word s (f + 4 * j).
Proof using Hinv Hi.
  intros Hf Hj Hne Hst. rewrite (proj2 Hst). rewrite decide_False; [done|].
  unfold addr. intros E. apply word_index in E as [E _]; [congruence|apply (inv_frame_aligned Hinv)|done..].
Qed.

Lemma un_wp_private k s' :
  managed s k -> frame e = page_address k -> getz (memory_map s) k = Some 1 ->
  stored addr (Z.lor e 2) s s' -> memory_map s' = memory_map s ->
  page_inv K s' /\ private_copy d i s s' /\ other_entries_same d i s s'.
Proof using Hinv Hd Hp Hi He.
  intros Hk Hf Hc Hst Hm. destruct (lor_2 e) as (Hv & Hvp & Hvf & Hvw); [apply (inv_words _ _ Hinv)|].
  assert (forall p, ref p (Z.lor e 2) = ref p e) as Hr by (intros p; unfold ref; by rewrite Hvp, Hvf).
  split_and!; [| |by apply stored_others with (v := Z.lor e 2)].
  - apply (inv_store_pte Hinv d i (Z.lor e 2) s' Hd Hp Hi Hst); [done|rewrite Hm; apply Hinv|apply Hinv|..].
    + intros d' Hd' Hp'. split; [|done]. intros _. rewrite Hvf. by apply (inv_pte_not_table Hinv).
    + intros _. rewrite Hvf. by apply (inv_entries _ _ Hinv).
    + intros j Hj. rewrite Hm, Hr. fold e. destruct (inv_count _ _ Hinv j Hj) as [Hcj Hlt].
      split; [rewrite Hcj; f_equal; lia|lia].
    + rewrite Hm. apply Hinv.
  - unfold private_copy. rewrite (stored_pte_eq d i (Z.lor e 2) s' Hst). rewrite Hvp, Hvf.
    split_and!; [done|done|exists k; rewrite Hm; done|].
    intros j Hj. apply (page_word_stored (Z.lor e 2)); [apply (inv_frame_aligned Hinv)|done| |done].
    by apply (inv_pte_not_table Hinv).
Qed.

(** What [get_free_page] has done when it returns the page [k]. *)
Definition got_page (k : Z) (s1 : mm) : Prop :=
  managed s k /\ K k = 0 /\ refs s (page_address k) = 0 /\ page_inv (upd K k 1) s1 /\
  HIGH_MEMORY s1 = HIGH_MEMORY s /\ memory_map s1 = setz (memory_map s) k 1 /\
  (forall p, refs s1 p = refs s p) /\
  forall b, word s1 b = if in_page (page_address k) b then 0 else word s b.

Lemma got_page_dirs k s1 : got_page k s1 ->
  (forall d', user_dir d' -> pde s1 d' = pde s d') /\
  (forall d' j, user_dir d' -> present (pde s d') = true -> 0 <= j < 1024 ->
     pte s1 (frame (pde s d')) j = pte s (frame (pde s d')) j).
Proof using Hinv addr e.
  intros (Hk & HK & Hr0 & _ & _ & _ & _ & Hw). split.
  - intros d' Hd'. unfold user_dir in Hd'. unfold pde. rewrite Hw, in_page_dir; [done|apply Hk|lia].
  - intros d' j Hd' Hp' Hj. unfold pte. rewrite Hw, in_page_table; [done|apply (inv_frame_aligned Hinv)|done|].
    by apply (inv_free_not_table (s := s) k d').
Qed.

(** The counts once the old page has lost a reference. *)
Definition moved_counts (k : Z) (m : list Z) : Prop :=
  lenz m = TOTAL_PAGES /\
  (forall j, managed s j -> getz m j =
     Some (refs s (page_address j) + upd K k 1 j - ref (page_address j) e)) /\
  (forall j, HIGH_MEMORY s <= page_address j -> getz m j <> Some 0).

Lemma un_wp_moved k s1 s2 :
  got_page k s1 -> stored addr (Z.lor (page_address k) 7) s1 s2 -> moved_counts k (memory_map s2) ->
  page_inv K s2 /\ other_entries_same d i s s2 /\
  pte s2 (frame (pde s d)) i = Z.lor (page_address k) 7 /\
  getz (memory_map s2) k = Some 1 /\ HIGH_MEMORY s2 = HIGH_MEMORY s /\
  (forall d', user_dir d' -> present (pde s2 d') = true -> frame (pde s2 d') <> page_address k).
Proof using Hinv Hd Hp Hi He.
  intros Hgot Hst (Hlen & Hc & Hres). destruct (got_page_dirs k s1 Hgot) as [Hpd1 Hpt1].
  destruct Hgot as (Hk & HK & Hr0 & Hinv1 & Hh1 & Hm1 & Hr1 & Hw1).
  unfold addr in Hst. rewrite <- (Hpd1 d Hd) in Hst.
  assert (present (pde s1 d) = true) as Hp1 by (by rewrite Hpd1).
  pose proof (page_address_aligned k) as Hal.
  assert (is_u32 (page_address k)) as Hu by apply (new_table_u32 Hinv k Hk).
  pose proof (frame_new_entry _ Hu Hal) as Hfr. pose proof (present_new_entry _ Hal) as Hpr.
  assert (forall d', user_dir d' -> present (pde s d') = true -> frame (pde s d') <> page_address k) as Hnt.
  { intros d'. by apply (inv_free_not_table (s := s) k d'). }
  assert (forall d', user_dir d' -> pde s2 d' = pde s d') as Hpd2.
  { intros d' Hd'. rewrite (stored_pde Hinv1 d i _ s2 Hd Hp1 Hi Hst d' Hd'). by apply Hpd1. }
  assert (ref (page_address k) e = 0) as Hre.
  { pose proof (dir_refs_pte s d i Hp Hi He). pose proof (refs_dir s (frame e) d Hd) as H1. fold e in H.
    apply ref_ne. intros E. rewrite E in *. lia. }
  split_and!.
  - apply (inv_store_pte Hinv1 d i _ s2 Hd Hp1 Hi Hst); [|done|apply Hinv|..].
    + rewrite lor_7 by done. unfold is_u32 in *. pose proof (inv_managed_lt Hinv k Hk) as Hb.
      rewrite TOTAL_PAGES_eq in Hb. unfold page_address, LOW_MEM. lia.
    + intros d' Hd' Hp'. rewrite Hpd1 in Hp' |- * by done. rewrite Hfr. split; [intros _ E; by apply (Hnt d')|].
      intros j Hj. rewrite upd_ne; [done|]. intros ->. by apply (Hnt d').
    + intros _. rewrite Hfr, Hh1. apply Hk.
    + intros j Hj. unfold managed in Hj. rewrite Hh1 in Hj.
      rewrite (Hpd1 d Hd), (Hpt1 d i Hd Hp Hi). fold e. rewrite (Hc j Hj), Hr1.
      destruct (inv_count _ _ Hinv j Hj) as [_ Hlt]. pose proof (ref_range (page_address j) e).
      unfold upd. destruct (Z.eqb_spec j k) as [->|Hne].
      * rewrite (ref_eq _ (Z.lor _ _)) by done. split; [f_equal; lia|lia].
      * rewrite (ref_ne _ (Z.lor _ _)) by (rewrite Hfr; unfold page_address; lia). split; [f_equal; lia|lia].
    + by rewrite Hh1.
  - split; [done|]. intros d' j Hd' Hp' Hj Hne. rewrite <- (Hpd1 d' Hd').
    rewrite (stored_pte_ne Hinv1 d i _ s2 Hd Hp1 Hi Hst d' j Hd'); [|by rewrite Hpd1|done|done].
    rewrite Hpd1 by done. by apply Hpt1.
  - rewrite <- (Hpd1 d Hd). apply (stored_pte_eq d i _ s2 Hst).
  - rewrite (Hc k Hk), upd_eq, Hre. f_equal. lia.
  - rewrite (proj1 Hst). done.
  - intros d' Hd' Hp'. rewrite Hpd2 in * by done. by apply Hnt.
Qed.

(** The copy of the page comes last. *)
Lemma un_wp_copied k s1 s2 s3 :
  got_page k s1 -> stored addr (Z.lor (page_address k) 7) s1 s2 -> moved_counts k (memory_map s2) ->
  HIGH_MEMORY s3 = HIGH_MEMORY s2 -> memory_map s3 = memory_map s2 ->
  (forall b, word s3 b = if in_page (page_address k) b then word s2 (frame e + b mod 4096) else word s2 b) ->
  page_inv K s3 /\ private_copy d i s s3 /\ other_entries_same d i s s3.
Proof using Hinv Hd Hp Hi He.
  intros Hgot Hst Hmc Hh Hm Hw. destruct (un_wp_moved k s1 s2 Hgot Hst Hmc) as (Hinv2 & [Ho1 Ho2] & Hpte & Hcnt & Hh2 & Hnt).
  destruct (got_page_dirs k s1 Hgot) as [Hpd1 Hpt1].
  destruct Hgot as (Hk & HK & Hr0 & Hinv1 & Hh1 & Hm1 & Hr1 & Hw1).
  assert (outside_same k s2 s3) as Hout by (split; [done|]; intros b Hb; by rewrite Hw, Hb).
  assert (forall d', user_dir d' -> pde s3 d' = pde s2 d') as Hpd3.
  { intros d' Hd'. by apply (outside_pde k s3 (proj1 Hk) Hout). }
  assert (forall d' j, user_dir d' -> present (pde s d') = true -> 0 <= j < 1024 ->
    pte s3 (frame (pde s d')) j = pte s2 (frame (pde s d')) j) as Hpt3.
  { intros d' j Hd' Hp' Hj. rewrite <- (Ho1 d' Hd').
    apply (outside_pte Hinv2 k s3 Hout Hnt); [done|by rewrite Ho1|done]. }
  pose proof (page_address_aligned k) as Hal.
  assert (is_u32 (page_address k)) as Hu by apply (new_table_u32 Hinv k Hk).
  assert (frame e <> page_address k) as Hek.
  { intros E. pose proof (dir_refs_pte s d i Hp Hi He). pose proof (refs_dir s (frame e) d Hd).
    fold e in H. rewrite E in *. lia. }
  split_and!.
  - apply (inv_outside Hinv2 k s3 (proj1 Hk) Hout Hnt); [..|by rewrite Hm; apply Hinv2].
    + intros b. rewrite Hw. destruct (in_page _ b); apply Hinv2.
    + rewrite Hm. apply Hinv2.
    + apply Hinv.
    + done.
    + rewrite Hm. apply (inv_count _ _ Hinv2).
  - unfold private_copy. rewrite Hpt3 by done. rewrite Hpte, frame_new_entry by done.
    split_and!; [by apply present_new_entry|apply writable_new_entry|exists k; by rewrite Hm|].
    intros j Hj. rewrite Hw.
    assert (in_page (page_address k) (page_address k + 4 * j) = true) as ->
      by (unfold in_page; apply Z.eqb_eq; dmlia).
    replace ((page_address k + 4 * j) mod 4096) with (4 * j) by dmlia.
    rewrite (proj2 Hst). rewrite decide_False.
    + rewrite Hw1, in_page_table; [done|apply (inv_frame_aligned Hinv)|done|done].
    + intros E. apply word_index in E as [E _]; [|apply (inv_frame_aligned Hinv)..|done|done].
      by apply (inv_pte_not_table Hinv d d i).
  - split; [intros d' Hd'; by rewrite Hpd3, Ho1|]. intros d' j Hd' Hp' Hj Hne.
    rewrite Hpt3 by done. by apply Ho2.
Qed.

(** The end of [un_wp_page], from the state where the counts are moved. *)
Lemma wp_un_wp_finish k s1 m :
  got_page k s1 -> frame e <> page_address k -> moved_counts k m ->
  wp (do! store addr (Z.lor (page_address k) 7) in
      do! refresh_TLB in
      copy_page (frame e) (page_address k))
     (fun _ s' => page_inv K s' /\ private_copy d i s s' /\ other_entries_same d i s s')
     (set_memory_map m s1).
Proof using Hinv Hd Hp Hi He.
  intros Hgot Hne Hmc. apply wp_bind, wp_store. apply wp_bind, wp_refresh_TLB. set (s2 := MM _ _ _ _).
  eapply wp_mono; [apply copy_page_spec; [apply (inv_frame_aligned Hinv)|apply page_address_aligned|done]|].
  intros [] s3 [(Hm3 & Hh3 & _) Hw3]. apply (un_wp_copied k s1 s2); [done| |exact Hmc|done..].
  split; [done|]. intros b. apply (stored_refl_store addr (Z.lor (page_address k) 7) s1).
Qed.

Lemma moved_counts_low k : managed s k -> refs s (page_address k) = 0 -> frame e < LOW_MEM ->
  moved_counts k (setz (memory_map s) k 1).
Proof using Hinv.
  intros Hk Hr0 Hlow. split_and!; [rewrite lenz_setz; apply Hinv|..].
  - intros j Hj. rewrite ref_ne by (destruct Hj; unfold page_address; lia).
    destruct (decide (j = k)) as [->|Hne].
    + rewrite getz_setz_eq, upd_eq, Hr0; [done|].
      rewrite (inv_len _ _ Hinv). apply (inv_managed_lt Hinv k Hk).
    + rewrite getz_setz_ne, upd_ne by done. rewrite (proj1 (inv_count _ _ Hinv j Hj)). f_equal. lia.
  - intros j Hj. rewrite getz_setz_ne; [by apply (inv_reserved _ _ Hinv)|]. intros <-. destruct Hk. lia.
Qed.

Lemma moved_counts_shared k j0 :
  managed s k -> refs s (page_address k) = 0 -> managed s j0 -> frame e = page_address j0 ->
  j0 <> k ->
  moved_counts k (setz (setz (memory_map s) k 1) j0 (refs s (page_address j0) + K j0 - 1)).
Proof using Hinv He.
  intros Hk Hr0 Hj0 Hf Hne0. pose proof (inv_managed_lt Hinv k Hk). pose proof (inv_managed_lt Hinv j0 Hj0).
  split_and!; [rewrite !lenz_setz; apply Hinv|..].
  - intros j Hj. destruct (decide (j = j0)) as [->|Hnj].
    + rewrite getz_setz_eq, upd_ne, ref_eq by (done || rewrite lenz_setz, (inv_len _ _ Hinv); lia). done.
    + rewrite getz_setz_ne, ref_ne by (done || rewrite Hf; unfold page_address; lia).
      destruct (decide (j = k)) as [->|Hnk].
      * rewrite getz_setz_eq, upd_eq, Hr0 by (rewrite (inv_len _ _ Hinv); lia). done.
      * rewrite getz_setz_ne, upd_ne by done. rewrite (proj1 (inv_count _ _ Hinv j Hj)). f_equal. lia.
  - intros j Hj. rewrite !getz_setz_ne; [by apply (inv_reserved _ _ Hinv)|..];
      intros <-; destruct Hk, Hj0; lia.
Qed.

(** The ways through [un_wp_page]. *)
Lemma wpx_un_wp_page :
  wpx (un_wp_page addr)
    (fun _ s' => page_inv K s' /\ private_copy d i s s' /\ other_entries_same d i s s')
    (fun c s' => c = SIGSEGV /\ s' = s /\
       forall k, 0 <= k < TOTAL_PAGES -> getz (memory_map s) k <> Some 0) s.
Proof using Hinv Hd Hp Hi He.
  unfold un_wp_page. apply wpx_bind, wp_wpx, wp_load. change (word s addr) with e.
  pose proof (inv_entry_page Hinv d i Hd Hp Hi He) as Hpage. fold e in Hpage.
  destruct Hpage as [Hlow|(j0 & Hj0 & Hf & Hr)].
  - rewrite (proj2 (Z.leb_gt _ _)) by done. apply wpx_bind, wp_wpx, wp_ret. cbv beta iota.
    apply wpx_bind, wp_wpx. eapply wp_mono; [by apply inv_get_free_page|].
    intros r s1 [(-> & -> & Hfull)|(k & Hk & -> & HK & Hr0 & Hrest)]; [done|].
    rewrite (got_page_nonzero s k Hk). apply wp_wpx, wp_bind, wp_ret.
    assert (s1 = set_memory_map (setz (memory_map s) k 1) s1) as ->.
    { destruct Hrest as (_ & _ & <- & _). by destruct s1. }
    apply (wp_un_wp_finish k s1); [done| |by apply moved_counts_low].
    destruct Hk. unfold page_address. lia.
  - assert (LOW_MEM <= frame e) as Hle by (destruct Hj0; rewrite Hf; unfold page_address; lia).
    rewrite (proj2 (Z.leb_le _ _)) by done. rewrite Hf, MAP_NR_page by apply (inv_managed_lt Hinv _ Hj0).
    destruct (inv_count _ _ Hinv j0 Hj0) as [Hc Hlt]. pose proof (inv_kernel _ _ Hinv j0) as HK0.
    apply wpx_bind, wp_wpx, wp_bind. eapply wp_map_get; [exact Hc|]. apply wp_ret. cbv beta.
    destruct (Z.eqb_spec (refs s (page_address j0) + K j0) 1) as [H1|H1].
    + apply wp_wpx. apply wp_bind, wp_store, wp_refresh_TLB.
      apply (un_wp_private j0); [done|done|by rewrite Hc, H1| |done].
      split; [done|]. intros b. apply (stored_refl_store addr (Z.lor e 2) s).
    + apply wpx_bind, wp_wpx. eapply wp_mono; [by apply inv_get_free_page|].
      intros r s1 [(-> & -> & Hfull)|(k & Hk & -> & HK & Hr0k & Hrest)]; [done|].
      rewrite (got_page_nonzero s k Hk). rewrite <- Hf. apply wp_wpx.
      assert (j0 <> k) as Hne by (intros ->; lia).
      assert (getz (memory_map s1) j0 = Some (refs s (page_address j0) + K j0)) as Hc1.
      { destruct Hrest as (_ & _ & -> & _). by rewrite getz_setz_ne. }
      apply wp_bind. unfold when. apply wp_bind. eapply wp_map_get; [exact Hc1|].
      eapply wp_map_set; [exact Hc1|]. rewrite u8_id by (unfold is_u8; lia).
      apply (wp_un_wp_finish k s1); [done|rewrite Hf; unfold page_address; lia|].
      destruct Hrest as (_ & _ & -> & _). by apply moved_counts_shared.
Qed.
End un_wp.

(** ** Linear addresses *)

Definition dir_of (address : Z) : Z := Z.shiftr address 22.
Definition entry_of (address : Z) : Z := Z.land (Z.shiftr address 12) 0x3ff.

Lemma entry_of_range a : 0 <= entry_of a < 1024.
Proof.
  unfold entry_of. change 0x3ff with (2 ^ 10 - 1). rewrite land_low by lia.
  apply Z.mod_pos_bound. lia.
Qed.

(** A user address is one whose directory entry belongs to a task. *)
Definition user_address (a : Z) : Prop := user_dir (dir_of a).

(** C19: writing to a present page of a user table through [un_wp_page] (the
    write-fault handler [do_wp_page]) gives the task a page of its own: the
    entry becomes present and writable, its page is counted exactly once and
    holds the 1024 words of the old page, no other entry of any user table
    changes, and the counts stay exact.  The only other outcome is
    [do_exit(SIGSEGV)] with memory unchanged, when no page is free. *)
Theorem un_wp_page_spec K s d i :
  page_inv K s -> user_dir d -> present (pde s d) = true -> 0 <= i < 1024 ->
  present (pte s (frame (pde s d)) i) = true ->
  wpx (un_wp_page (frame (pde s d) + 4 * i))
    (fun _ s' => page_inv K s' /\ private_copy d i s s' /\ other_entries_same d i s s')
    (fun c s' => c = SIGSEGV /\ s' = s /\
       forall k, 0 <= k < TOTAL_PAGES -> getz (memory_map s) k <> Some 0) s.
Proof. intros Hinv Hd Hp Hi He. apply (wpx_un_wp_page Hinv d i Hd Hp Hi He). Qed.

Lemma do_wp_page_un_wp code a s :
  user_address a ->
  do_wp_page code a s = un_wp_page (frame (pde s (dir_of a)) + 4 * entry_of a) s.
Proof.
  unfold user_address, user_dir. intros Hd. unfold do_wp_page.
  assert (Z.land (Z.shiftr a 22) 0x3ff * 4 = 4 * dir_of a) as ->.
  { change 0x3ff with (2 ^ 10 - 1). rewrite land_low by lia. fold (dir_of a).
    rewrite Z.mod_small by lia. lia. }
  unfold bind, load, gets. fold (pde s (dir_of a)). fold (entry_of a).
  unfold frame. by rewrite (Z.land_comm _ 0xfffff000), (Z.mul_comm _ 4).
Qed.

Lemma land_3 e : (Z.land e 3 =? 1) = present e && negb (writable e).
Proof.
  change 3 with (2 ^ 2 - 1). rewrite land_low by lia. change (2 ^ 2) with 4.
  rewrite present_odd. unfold writable. rewrite <- Z.bit0_odd.
  rewrite !Z.testbit_eqb by lia. change (2 ^ 0) with 1. change (2 ^ 1) with 2.
  rewrite Z.div_1_r. zcases; simpl; try done; dmlia.
Qed.

(** After [write_verify] a user page that is present is writable: a page
    table that is absent, an absent page and a writable page are left as they
    are, a write-protected page is replaced as in [un_wp_page]. *)
Theorem write_verify_spec K s a :
  page_inv K s -> user_address a ->
  let e := pte s (frame (pde s (dir_of a))) (entry_of a) in
  match write_verify a s with
  | Ok _ s' =>
      if present (pde s (dir_of a)) && present e && negb (writable e)
      then page_inv K s' /\ private_copy (dir_of a) (entry_of a) s s' /\
           other_entries_same (dir_of a) (entry_of a) s s'
      else s' = s
  | Exit c s' => c = SIGSEGV /\ s' = s
  | _ => False
  end.
Proof.
  intros Hinv Ha e.
  assert (write_verify a s =
    if present (pde s (dir_of a)) && present e && negb (writable e)
    then un_wp_page (frame (pde s (dir_of a)) + 4 * entry_of a) s else Ok tt s) as ->.
  { unfold write_verify, bind at 1, load, gets.
    replace (Z.shiftr a 22 * 4) with (4 * dir_of a) by (unfold dir_of; lia). fold (pde s (dir_of a)).
    rewrite (Z.land_comm _ 1). fold (present (pde s (dir_of a))).
    destruct (present (pde s (dir_of a))); [|done]. cbn [negb].
    assert (Z.land (pde s (dir_of a)) 0xfffff000 + Z.land (Z.shiftr a 12) 0x3ff * 4 =
      frame (pde s (dir_of a)) + 4 * entry_of a) as ->.
    { unfold frame, entry_of. rewrite (Z.land_comm 0xfffff000). lia. }
    unfold bind. fold (pte s (frame (pde s (dir_of a))) (entry_of a)). fold e. rewrite land_3.
    cbn [andb]. by destruct (present e && negb (writable e)). }
  destruct (present (pde s (dir_of a)) && present e && negb (writable e)) eqn:E; [|done].
  apply andb_true_iff in E as [E _]. apply andb_true_iff in E as [E1 E2].
  pose proof (wpx_un_wp_page Hinv (dir_of a) (entry_of a) Ha E1 (entry_of_range a) E2) as H.
  unfold wpx in H. destruct (un_wp_page _ s); naive_solver.
Qed.

(** ** Mapping a page *)

Section put_entry.
Context {K : Z -> Z} {s : mm} (Hinv : page_inv K s).
Context (d i k : Z) (Hd : user_dir d) (Hp : present (pde s d) = true) (Hi : 0 <= i < 1024).
Context (Habs : present (pte s (frame (pde s d)) i) = false).
Context (Hk : managed s k) (HK : 1 <= K k).
Context (Hnt : forall d', user_dir d' -> present (pde s d') = true -> frame (pde s d') <> page_address k).

(** The kernel's reference becomes the entry's. *)
Lemma inv_put_entry s' :
  stored (frame (pde s d) + 4 * i) (Z.lor (page_address k) 7) s s' ->
  memory_map s' = memory_map s ->
  page_inv (upd K k (K k - 1)) s' /\ other_entries_same d i s s' /\
  pte s' (frame (pde s' d)) i = Z.lor (page_address k) 7.
Proof using Hinv Hd Hp Hi Habs Hk HK Hnt.
  intros Hst Hm. pose proof (page_address_aligned k) as Hal.
  pose proof (new_table_u32 Hinv k Hk) as Hu.
  pose proof (frame_new_entry _ Hu Hal) as Hfr. pose proof (present_new_entry _ Hal) as Hpr.
  split_and!.
  - apply (inv_store_pte Hinv d i _ s' Hd Hp Hi Hst).
    + rewrite lor_7 by done. pose proof (inv_managed_lt Hinv k Hk) as Hb. rewrite TOTAL_PAGES_eq in Hb.
      unfold is_u32, page_address, LOW_MEM. lia.
    + rewrite Hm. apply Hinv.
    + intros j. unfold upd. destruct (j =? k); [lia|apply Hinv].
    + intros d' Hd' Hp'. rewrite Hfr. split; [intros _ E; by apply (Hnt d')|].
      intros j Hj. apply upd_ne. intros ->. by apply (Hnt d').
    + intros _. rewrite Hfr. apply Hk.
    + intros j Hj. rewrite Hm, (ref_absent _ (pte _ _ _)) by done.
      destruct (inv_count _ _ Hinv j Hj) as [Hc Hlt]. unfold upd.
      destruct (Z.eqb_spec j k) as [->|Hne].
      * rewrite ref_eq by done. rewrite Hc. split; [f_equal; lia|lia].
      * rewrite ref_ne by (rewrite Hfr; unfold page_address; lia). rewrite Hc. split; [f_equal; lia|lia].
    + rewrite Hm. apply Hinv.
  - split.
    + intros d' Hd'. by apply (stored_pde Hinv d i _ s' Hd Hp Hi Hst).
    + intros d' j Hd' Hp' Hj Hne. by apply (stored_pte_ne Hinv d i _ s' Hd Hp Hi Hst).
  - rewrite (stored_pde Hinv d i _ s' Hd Hp Hi Hst d Hd). apply (stored_pte_eq d i _ s' Hst).
Qed.
End put_entry.

(** What [put_page] leaves when it maps the page [k] at the address [a]. *)
Definition mapped (K : Z -> Z) (a k : Z) (s s' : mm) : Prop :=
  page_inv (upd K k (K k - 1)) s' /\ HIGH_MEMORY s' = HIGH_MEMORY s /\
  present (pde s' (dir_of a)) = true /\
  pte s' (frame (pde s' (dir_of a))) (entry_of a) = Z.lor (page_address k) 7 /\
  others_same s s' (dir_of a) /\
  (forall j, 0 <= j < 1024 -> word s' (page_address k + 4 * j) = word s (page_address k + 4 * j)).

(** The page at [a] is not mapped yet. *)
Definition unmapped (s : mm) (a : Z) : Prop :=
  present (pde s (dir_of a)) = true -> present (pte s (frame (pde s (dir_of a))) (entry_of a)) = false.

Lemma mapped_from K a k s s1 s2 :
  page_inv K s1 -> user_address a -> present (pde s1 (dir_of a)) = true ->
  unmapped s1 a -> managed s1 k -> 1 <= K k -> HIGH_MEMORY s1 = HIGH_MEMORY s ->
  (forall d', user_dir d' -> present (pde s1 d') = true -> frame (pde s1 d') <> page_address k) ->
  others_same s s1 (dir_of a) ->
  (forall j, 0 <= j < 1024 -> word s1 (page_address k + 4 * j) = word s (page_address k + 4 * j)) ->
  stored (frame (pde s1 (dir_of a)) + 4 * entry_of a) (Z.lor (page_address k) 7) s1 s2 ->
  memory_map s2 = memory_map s1 ->
  mapped K a k s s2.
Proof.
  intros Hinv1 Ha Hp Hun Hk HK Hh Hnt Ho Hw Hst Hm.
  destruct (inv_put_entry Hinv1 (dir_of a) (entry_of a) k Ha Hp (entry_of_range a) (Hun Hp) Hk HK Hnt s2 Hst Hm)
    as (Hinv2 & [Ho1 Ho2] & Hpte).
  split_and!; [done|by rewrite (proj1 Hst)|by rewrite Ho1|done|..].
  - eapply others_same_trans; [exact Ho|]. intros d' Hd' Hne. split; [by apply Ho1|].
    intros Hp' j Hj. apply Ho2; [done..|left; congruence].
  - intros j Hj. rewrite (proj2 Hst). rewrite decide_False; [by apply Hw|].
    intros E. apply word_index in E as [E _];
      [|apply (inv_frame_aligned Hinv1)|apply page_address_aligned|apply entry_of_range|done].
    by apply (Hnt (dir_of a)).
Qed.

Lemma wp_put_page K s a k :
  page_inv K s -> user_address a -> unmapped s a ->
  managed s k -> 1 <= K k -> refs s (page_address k) = 0 ->
  wp (put_page (page_address k) a) (fun r s' =>
    (r = 0 /\ s' = s) \/ (r = page_address k /\ mapped K a k s s')) s.
Proof.
  intros Hinv Ha Hun Hk HK Hr0. unfold put_page.
  rewrite (MAP_NR_page k) by apply (inv_managed_lt Hinv k Hk).
  apply wp_bind. eapply wp_map_get; [apply (inv_count _ _ Hinv k Hk)|].
  replace (Z.shiftr a 22 * 4) with (4 * dir_of a) by (unfold dir_of; lia).
  apply wp_bind, wp_load. fold (pde s (dir_of a)). fold (entry_of a).
  assert (forall d', user_dir d' -> present (pde s d') = true -> frame (pde s d') <> page_address k) as Hnt.
  { intros d'. by apply (inv_free_not_table (s := s) k d'). }
  apply wp_bind. destruct (present (pde s (dir_of a))) eqn:Hp.
  - apply wp_ret, wp_bind, wp_store, wp_ret. right. split; [done|].
    eapply (mapped_from K a k s s); [done..|apply others_same_refl|done|apply stored_refl_store|done].
  - apply wp_bind. apply (wp_alloc_table K s (dir_of a)); [done..| |].
    + apply wp_ret, wp_ret. by left.
    + intros r s1 Hrne Hpost. unfold istrue. rewrite (proj2 (Z.eqb_neq r 0)) by done. cbn [negb].
      apply wp_bind, wp_store, wp_ret, wp_bind, wp_store, wp_ret. right. split; [done|].
      fold (set_pde (dir_of a) (Z.lor r 7) s1).
      destruct Hpost as (Hinv1 & Hp1 & Hf1 & Hz1 & Hh1 & Ho1 & Hr1 & (k0 & Hk0 & E0 & HK0) & Hrr & Hw).
      assert (k0 <> k) as Hkk by (intros ->; lia).
      eapply mapped_from; [exact Hinv1|done|done| |by unfold managed in *; rewrite Hh1|done|done| |exact Ho1| | |done].
      * intros _. rewrite Hf1, Hz1 by apply entry_of_range. done.
      * intros d' Hd' Hp' E.
        destruct (decide (d' = dir_of a)) as [->|Hne].
        -- rewrite Hf1, E0 in E. unfold page_address in E. lia.
        -- rewrite (proj1 (Ho1 d' Hd' Hne)) in *. by apply (Hnt d').
      * intros j Hj. apply Hw.
        -- rewrite E0. apply in_page_table; [apply page_address_aligned|done|unfold page_address; lia].
        -- unfold user_address, user_dir in Ha. destruct Hk as [Hk _]. unfold page_address, LOW_MEM. dmlia.
      * rewrite Hf1. apply stored_refl_store.
Qed.

Lemma wpx_get_empty_page K s a :
  page_inv K s -> user_address a -> unmapped s a ->
  wpx (get_empty_page a)
    (fun _ s' =>
      page_inv K s' /\ others_same s s' (dir_of a) /\
      present (pde s' (dir_of a)) = true /\
      let e := pte s' (frame (pde s' (dir_of a))) (entry_of a) in
      present e = true /\ writable e = true /\
      forall j, 0 <= j < 1024 -> word s' (frame e + 4 * j) = 0)
    (fun c s' => c = SIGSEGV /\ page_inv K s') s.
Proof.
  intros Hinv Ha Hun.
  unfold get_empty_page. apply wpx_bind, wp_wpx. eapply wp_mono; [by apply inv_get_free_page|].
  intros r s1 [(-> & -> & _)|(k & Hk & -> & HK & Hr0 & Hinv1 & Hh & Hm & Hr & Hw)].
  { apply wpx_bind, wp_wpx, wp_ret. apply wpx_bind, wp_wpx, wp_free_page_low; [done|]. by split. }
  assert (got_page (K := K) (s := s) k s1) as Hgot by (split_and!; [exact Hk|done..]).
  destruct (got_page_dirs Hinv 0 0 k s1 Hgot) as [Hpd Hpt].
  assert (managed s1 k) as Hk1 by (unfold managed in *; by rewrite Hh).
  assert (unmapped s1 a) as Hun1.
  { intros Hp. rewrite Hpd in * by done. rewrite Hpt by (done || apply entry_of_range). by apply Hun. }
  rewrite (got_page_nonzero s k Hk). apply wpx_bind, wp_wpx, wp_bind.
  eapply wp_mono; [apply (wp_put_page (upd K k 1) s1 a k); [done..|rewrite upd_eq; lia|by rewrite Hr]|].
  intros r s2 [[-> ->]|[-> (Hinv2 & Hh2 & Hp2 & Hpte2 & Ho2 & Hw2)]]; apply wp_ret.
  - cbv beta. change (istrue 0) with false. cbv iota. apply wpx_bind, wp_wpx. eapply wp_mono.
    + apply (inv_free_page (upd K k 1) s1 k); [done|done|rewrite upd_eq; lia|].
      intros d. by apply (inv_free_not_table (s := s1) k d); rewrite Hr.
    + intros [] s2 (Hinv2 & _ & _). split; [done|]. eapply page_inv_ext; [|exact Hinv2].
      intros j. unfold upd. destruct (Z.eqb_spec j k) as [->|]; [rewrite Z.eqb_refl; lia|done].
  - pose proof (got_page_nonzero s k Hk) as Hnz. apply negb_false_iff in Hnz. cbv beta. rewrite Hnz.
    apply wp_wpx, wp_ret. pose proof (page_address_aligned k) as Hal.
    pose proof (new_table_u32 Hinv k Hk) as Hu.
    split_and!; [| |done|..].
    + eapply page_inv_ext; [|exact Hinv2].
      intros j. unfold upd. destruct (Z.eqb_spec j k) as [->|]; [rewrite Z.eqb_refl; lia|done].
    + eapply others_same_trans; [|exact Ho2]. intros d' Hd' _. split; [by apply Hpd|].
      intros Hp' j Hj. by apply Hpt.
    + rewrite Hpte2. by apply present_new_entry.
    + rewrite Hpte2. apply writable_new_entry.
    + intros j Hj. rewrite Hpte2, frame_new_entry by done. rewrite Hw2 by done. rewrite Hw.
      unfold in_page. by rewrite (proj2 (Z.eqb_eq _ _)) by dmlia.
Qed.

(** [get_empty_page] (the page-fault handler for a page without file
    contents) maps a page that is present, writable and all zero at an
    unmapped user address; the counts stay exact and no other directory slot
    changes.  When memory runs out, in the page or in the page table, it ends
    in [do_exit(SIGSEGV)] with exact counts: the page it had taken is free
    again. *)
Theorem get_empty_page_spec K s a :
  page_inv K s -> user_address a -> unmapped s a ->
  wpx (get_empty_page a)
    (fun _ s' =>
      page_inv K s' /\ others_same s s' (dir_of a) /\
      present (pde s' (dir_of a)) = true /\
      let e := pte s' (frame (pde s' (dir_of a))) (entry_of a) in
      present e = true /\ writable e = true /\
      forall j, 0 <= j < 1024 -> word s' (frame e + 4 * j) = 0)
    (fun c s' => c = SIGSEGV /\ page_inv K s') s.
Proof. apply wpx_get_empty_page. Qed.

(** ** Concrete runs of mm/memory.c

    The hypotheses of the theorems on page tables hold of states the code
    itself reaches: an empty 16 MB machine, the same after a page fault of
    task 1, and after task 1 has forked. *)

Definition empty_machine : mm := MM ∅ (replicate (Z.to_nat TOTAL_PAGES) 0) 0x1000000 0.
Definition no_kernel_pages (k : Z) : Z := 0.

Lemma word_empty a : word empty_machine a = 0.
Proof. unfold word, empty_machine. simpl. by rewrite lookup_empty. Qed.

Lemma refs_empty p : refs empty_machine p = 0.
Proof.
  apply sumZ_zero. intros d _. unfold dir_refs, pde. by rewrite word_empty.
Qed.

Lemma page_inv_empty : page_inv no_kernel_pages empty_machine.
Proof.
  assert (lenz (memory_map empty_machine) = TOTAL_PAGES) as Hlen.
  { unfold empty_machine, lenz. cbn [memory_map]. rewrite length_replicate. by rewrite Z2Nat.id. }
  split.
  - done.
  - cbn [HIGH_MEMORY empty_machine]. rewrite TOTAL_PAGES_eq. unfold page_address, LOW_MEM. lia.
  - intros a. by rewrite word_empty.
  - intros d _ Hp. unfold pde in Hp. by rewrite word_empty in Hp.
  - intros d i _ Hp. unfold pde in Hp. by rewrite word_empty in Hp.
  - done.
  - intros k Hk. rewrite refs_empty. split; [|done]. cbn [memory_map empty_machine].
    apply getz_replicate. rewrite Z2Nat.id by done. rewrite TOTAL_PAGES_eq.
    destruct Hk as [H1 H2]. cbn [HIGH_MEMORY empty_machine] in H2. unfold page_address, LOW_MEM in H2. lia.
  - intros k Hk Hz. apply getz_Some_lt in Hz. rewrite Hlen, TOTAL_PAGES_eq in Hz.
    cbn [HIGH_MEMORY empty_machine] in Hk. unfold page_address, LOW_MEM in Hk. lia.
Qed.

(** Task 1 touches its second page. *)
Definition touched : Z := 0x4001000.
Definition faulted_machine : mm := final (get_empty_page touched empty_machine).

Lemma touched_user : user_address touched.
Proof. split; vm_compute; congruence. Qed.

Lemma touched_unmapped : unmapped empty_machine touched.
Proof. intros Hp. unfold pde in Hp. by rewrite word_empty in Hp. Qed.

Lemma page_inv_faulted : page_inv no_kernel_pages faulted_machine.
Proof.
  unfold faulted_machine. apply wpx_final. eapply wpx_mono; [apply (wpx_get_empty_page no_kernel_pages)|..].
  - exact page_inv_empty.
  - exact touched_user.
  - exact touched_unmapped.
  - intros a s' H. exact (proj1 H).
  - intros c s' H. exact (proj2 H).
Qed.

(** The counts of a concrete machine bound the references of every page. *)
Lemma counts_below K s b :
  page_inv K s -> forallb (fun c => c <? b) (memory_map s) = true ->
  forall k, managed s k -> refs s (page_address k) + K k < b.
Proof.
  intros Hinv Hall k Hk. destruct (inv_count _ _ Hinv k Hk) as [Hc _].
  assert (Forall (fun c => c < b) (memory_map s)) as HF.
  { apply Forall_forall. intros x Hx. rewrite forallb_forall in Hall.
    apply Z.ltb_lt, Hall. by apply list_elem_of_In. }
  by eapply (getz_Forall (fun c => c < b)) in Hc.
Qed.

Lemma free_page_tables_spec_witness :
  wp (free_page_tables (4194304 * 16) 4194304)
     (fun r s' => r = 0 /\ page_inv no_kernel_pages s') faulted_machine.
Proof.
  eapply wp_mono; [apply (free_page_tables_spec no_kernel_pages faulted_machine 16 4194304 page_inv_faulted)|].
  - lia.
  - vm_compute. congruence.
  - intros r s' (Hr & Hinv & _). exact (conj Hr Hinv).
Defined.

Lemma copy_page_tables_spec_witness :
  wp (copy_page_tables (4194304 * 16) (4194304 * 32) 4194304)
     (fun r s' => page_inv no_kernel_pages s') faulted_machine.
Proof.
  assert (dirs_of 4194304 = 1) as E by reflexivity.
  eapply wp_mono; [apply (copy_page_tables_spec no_kernel_pages faulted_machine 16 32 4194304 page_inv_faulted)|];
    rewrite ?E; try lia.
  - intros d Hd. assert (d = 32) as -> by lia. vm_compute. reflexivity.
  - intros k Hk. pose proof (counts_below no_kernel_pages faulted_machine 2 page_inv_faulted) as H.
    assert (forallb (fun c => c <? 2) (memory_map faulted_machine) = true) as Hall by (vm_compute; reflexivity).
    specialize (H Hall k Hk). pose proof (refs_nonneg faulted_machine (page_address k)).
    unfold no_kernel_pages in *. lia.
  - intros r s' H. exact (proj1 H).
Defined.

Lemma un_wp_page_spec_witness :
  wpx (un_wp_page (frame (pde faulted_machine 16) + 4 * 1))
    (fun _ s' => page_inv no_kernel_pages s') (fun c _ => c = SIGSEGV) faulted_machine.
Proof.
  eapply wpx_mono;
    [apply (un_wp_page_spec no_kernel_pages faulted_machine 16 1 page_inv_faulted)|..].
  - split; lia.
  - vm_compute. reflexivity.
  - lia.
  - vm_compute. reflexivity.
  - intros a s' H. exact (proj1 H).
  - intros c s' H. exact (proj1 H).
Defined.

Lemma write_verify_spec_witness :
  match write_verify touched faulted_machine with
  | Ok _ s' => s' = faulted_machine
  | _ => False
  end.
Proof.
  pose proof (write_verify_spec no_kernel_pages faulted_machine touched page_inv_faulted touched_user) as H.
  assert (is_ok (write_verify touched faulted_machine) = true) as E by (vm_compute; reflexivity).
  assert (writable (pte faulted_machine (frame (pde faulted_machine (dir_of touched)))
    (entry_of touched)) = true) as W by (vm_compute; reflexivity).
  cbv zeta in H. rewrite W, andb_false_r in H.
  destruct (write_verify touched faulted_machine); [exact H|discriminate E..].
Defined.

Lemma get_empty_page_spec_witness :
  wpx (get_empty_page touched)
    (fun _ s' => present (pde s' 16) = true) (fun c _ => c = SIGSEGV) empty_machine.
Proof.
  eapply wpx_mono;
    [apply (get_empty_page_spec no_kernel_pages empty_machine touched
              page_inv_empty touched_user touched_unmapped)|..].
  - intros a s' (_ & _ & H & _). exact H.
  - intros c s' H. exact (proj1 H).
Defined.

Lemma get_free_page_spec_witness :
  exists s', get_free_page empty_machine = Ok 0xfff000 s'.
Proof.
  destruct (get_free_page_spec empty_machine) as (r & s' & Heq & _); [apply page_inv_empty|].
  exists s'. assert (is_ok (get_free_page empty_machine) = true /\
    match get_free_page empty_machine with Ok r _ => r | _ => 0 end = 0xfff000) as [_ Hr]
    by (vm_compute; split; reflexivity).
  rewrite Heq in *. by rewrite Hr.
Defined.

Lemma get_free_page_free_page_witness :
  wp (free_page 0xfff000) (fun _ s'' => memory_map s'' = memory_map empty_machine)
    (final (get_free_page empty_machine)).
Proof.
  apply (get_free_page_free_page empty_machine 0xfff000);
    [apply page_inv_empty|reflexivity| |lia].
  vm_compute. reflexivity.
Defined.

Lemma free_page_errors_witness :
  exists s', free_page (page_address 7) empty_machine = Panic "trying to free free page" s' /\
    memory_map s' = memory_map empty_machine.
Proof.
  apply (free_page_errors empty_machine 7);
    [rewrite TOTAL_PAGES_eq; lia|apply page_inv_empty|simpl; lia|reflexivity|reflexivity].
Defined.
