(* ===== verification/Task.v ===== *)
(** * Task structures: include/linux/sched.h, include/signal.h

    A pointer to a [task_struct] is the index of the task's slot in [task[]];
    pointers to inodes and open files are indices into [inode_table] and
    [file_table].  Segment descriptors keep their two words bit by bit. *)

From Stdlib Require Import ZArith Lia.
From stdpp Require Import base numbers list.
From S2P Require Import Prelude.

Definition NR_TASKS : Z := 64.
Definition HZ : Z := 100.
Definition NR_OPEN : Z := 20.

Definition TASK_RUNNING : Z := 0.
Definition TASK_INTERRUPTIBLE : Z := 1.
Definition TASK_UNINTERRUPTIBLE : Z := 2.
Definition TASK_ZOMBIE : Z := 3.
Definition TASK_STOPPED : Z := 4.

(** ** Signals and errors *)

Definition SIGHUP : Z := 1.
Definition SIGINT : Z := 2.
Definition SIGQUIT : Z := 3.
Definition SIGKILL : Z := 9.
Definition SIGPIPE : Z := 13.
Definition SIGALRM : Z := 14.
Definition SIGCHLD : Z := 17.
Definition SIGSTOP : Z := 19.
Definition SA_NOMASK : Z := 0x40000000.
Definition SA_ONESHOT : Z := 0x80000000.

Definition EPERM : Z := 1.
Definition ENOENT : Z := 2.
Definition ESRCH : Z := 3.
Definition EINTR : Z := 4.
Definition EIO : Z := 5.
Definition EBADF : Z := 9.
Definition ECHILD : Z := 10.
Definition EAGAIN : Z := 11.
Definition ENOMEM : Z := 12.
Definition EINVAL : Z := 22.
Definition EMFILE : Z := 24.
Definition ERROR : Z := 99.
Definition ENOSYS : Z := 38.

(** A signal set is a 32-bit word; signal [sig] is its bit [sig - 1]. *)
Definition sigbit (sig : Z) : Z := u32 (Z.shiftl 1 (sig - 1)).

Record sigaction_t := SigAction { sa_handler : Z; sa_mask : Z; sa_flags : Z; sa_restorer : Z }.
#[global] Instance sigaction_t_fields : Fields sigaction_t := fun x =>
  SigAction (sa_handler x) (sa_mask x) (sa_flags x) (sa_restorer x).
#[global] Instance set_sa_handler : Setter sa_handler := ltac:(solve_setter).
#[global] Instance set_sa_mask : Setter sa_mask := ltac:(solve_setter).
#[global] Instance set_sa_flags : Setter sa_flags := ltac:(solve_setter).
#[global] Instance set_sa_restorer : Setter sa_restorer := ltac:(solve_setter).

(** ** Descriptors *)

(** [struct descriptor_struct], 8 bytes; [a] holds the bytes 0 to 3. *)
Record descriptor := Desc { desc_a : Z; desc_b : Z }.

(** The 64 bits of a descriptor, and the byte at an offset. *)
Definition desc_bits (d : descriptor) : Z := desc_a d + desc_b d * 4294967296.
Definition desc_of_bits (x : Z) : descriptor := Desc (u32 x) (u32 (x / 4294967296)).
Definition desc_byte (d : descriptor) (i : Z) : Z := u8 (Z.shiftr (desc_bits d) (8 * i)).
Definition desc_store_byte (d : descriptor) (i v : Z) : descriptor :=
  desc_of_bits (Z.lor (Z.ldiff (desc_bits d) (Z.shiftl 255 (8 * i))) (Z.shiftl (u8 v) (8 * i))).

(** [movw dx, 2(addr); rorl 16; movb dl, 4(addr); movb dh, 7(addr)] *)
Definition set_base (d : descriptor) (base : Z) : descriptor :=
  let d := desc_store_byte d 2 base in
  let d := desc_store_byte d 3 (Z.shiftr base 8) in
  let d := desc_store_byte d 4 (Z.shiftr base 16) in
  desc_store_byte d 7 (Z.shiftr base 24).

Definition get_base (d : descriptor) : Z :=
  desc_byte d 2 + desc_byte d 3 * 256 + desc_byte d 4 * 65536 + desc_byte d 7 * 16777216.

(** [lsll; incl]: the limit in bytes of a descriptor, from its 20-bit limit
    field and its granularity bit. *)
Definition get_limit (d : descriptor) : Z :=
  let l := desc_byte d 0 + desc_byte d 1 * 256 + Z.land (desc_byte d 6) 15 * 65536 in
  u32 ((if istrue (Z.land (desc_byte d 6) 128) then l * 4096 + 4095 else l) + 1).

(** [_LDT(n)], the selector of the LDT of task [n]. *)
Definition FIRST_TSS_ENTRY : Z := 4.
Definition FIRST_LDT_ENTRY : Z := FIRST_TSS_ENTRY + 1.
Definition LDT_of (n : Z) : Z := u32 (Z.shiftl FIRST_LDT_ENTRY 3 + Z.shiftl n 3 * 2).

(** ** The task structure *)

Record tss_struct := Tss {
  back_link : Z; esp0 : Z; ss0 : Z; esp1 : Z; ss1 : Z; esp2 : Z; ss2 : Z; cr3 : Z; eip : Z;
  eflags : Z; eax : Z; ecx : Z; edx : Z; ebx : Z; esp : Z; ebp : Z; esi : Z; edi : Z; es : Z;
  cs : Z; ss : Z; ds : Z; fs : Z; gs : Z; ldt_sel : Z; trace_bitmap : Z; i387 : list Z
}.
#[global] Instance tss_struct_fields : Fields tss_struct := fun x => Tss
  (back_link x) (esp0 x) (ss0 x) (esp1 x) (ss1 x) (esp2 x) (ss2 x) (cr3 x) (eip x) (eflags x)
  (eax x) (ecx x) (edx x) (ebx x) (esp x) (ebp x) (esi x) (edi x) (es x) (cs x) (ss x) (ds x)
  (fs x) (gs x) (ldt_sel x) (trace_bitmap x) (i387 x).
#[global] Instance set_back_link : Setter back_link := ltac:(solve_setter).
#[global] Instance set_esp0 : Setter esp0 := ltac:(solve_setter).
#[global] Instance set_ss0 : Setter ss0 := ltac:(solve_setter).
#[global] Instance set_esp1 : Setter esp1 := ltac:(solve_setter).
#[global] Instance set_ss1 : Setter ss1 := ltac:(solve_setter).
#[global] Instance set_esp2 : Setter esp2 := ltac:(solve_setter).
#[global] Instance set_ss2 : Setter ss2 := ltac:(solve_setter).
#[global] Instance set_cr3 : Setter cr3 := ltac:(solve_setter).
#[global] Instance set_eip : Setter eip := ltac:(solve_setter).
#[global] Instance set_eflags : Setter eflags := ltac:(solve_setter).
#[global] Instance set_eax : Setter eax := ltac:(solve_setter).
#[global] Instance set_ecx : Setter ecx := ltac:(solve_setter).
#[global] Instance set_edx : Setter edx := ltac:(solve_setter).
#[global] Instance set_ebx : Setter ebx := ltac:(solve_setter).
#[global] Instance set_esp : Setter esp := ltac:(solve_setter).
#[global] Instance set_ebp : Setter ebp := ltac:(solve_setter).
#[global] Instance set_esi : Setter esi := ltac:(solve_setter).
#[global] Instance set_edi : Setter edi := ltac:(solve_setter).
#[global] Instance set_es : Setter es := ltac:(solve_setter).
#[global] Instance set_cs : Setter cs := ltac:(solve_setter).
#[global] Instance set_ss : Setter ss := ltac:(solve_setter).
#[global] Instance set_ds : Setter ds := ltac:(solve_setter).
#[global] Instance set_fs : Setter fs := ltac:(solve_setter).
#[global] Instance set_gs : Setter gs := ltac:(solve_setter).
#[global] Instance set_ldt_sel : Setter ldt_sel := ltac:(solve_setter).
#[global] Instance set_trace_bitmap : Setter trace_bitmap := ltac:(solve_setter).
#[global] Instance set_i387 : Setter i387 := ltac:(solve_setter).

Record task_struct := Task {
  state : Z; counter : Z; priority : Z; signal : Z; sigaction : list sigaction_t; blocked : Z;
  exit_code : Z; start_code : Z; end_code : Z; end_data : Z; brk : Z; start_stack : Z; pid : Z;
  father : Z; pgrp : Z; session : Z; leader : Z; uid : Z; euid : Z; suid : Z; gid : Z;
  egid : Z; sgid : Z; alarm : Z; utime : Z; stime : Z; cutime : Z; cstime : Z; start_time : Z;
  used_math : Z; tty : Z; umask : Z; pwd : option Z; root : option Z; executable : option Z;
  close_on_exec : Z; filp : list (option Z); ldt : list descriptor; tss : tss_struct
}.
#[global] Instance task_struct_fields : Fields task_struct := fun x => Task
  (state x) (counter x) (priority x) (signal x) (sigaction x) (blocked x) (exit_code x)
  (start_code x) (end_code x) (end_data x) (brk x) (start_stack x) (pid x) (father x) (pgrp x)
  (session x) (leader x) (uid x) (euid x) (suid x) (gid x) (egid x) (sgid x) (alarm x)
  (utime x) (stime x) (cutime x) (cstime x) (start_time x) (used_math x) (tty x) (umask x)
  (pwd x) (root x) (executable x) (close_on_exec x) (filp x) (ldt x) (tss x).
#[global] Instance set_state : Setter state := ltac:(solve_setter).
#[global] Instance set_counter : Setter counter := ltac:(solve_setter).
#[global] Instance set_priority : Setter priority := ltac:(solve_setter).
#[global] Instance set_signal : Setter signal := ltac:(solve_setter).
#[global] Instance set_sigaction : Setter sigaction := ltac:(solve_setter).
#[global] Instance set_blocked : Setter blocked := ltac:(solve_setter).
#[global] Instance set_exit_code : Setter exit_code := ltac:(solve_setter).
#[global] Instance set_start_code : Setter start_code := ltac:(solve_setter).
#[global] Instance set_end_code : Setter end_code := ltac:(solve_setter).
#[global] Instance set_end_data : Setter end_data := ltac:(solve_setter).
#[global] Instance set_brk : Setter brk := ltac:(solve_setter).
#[global] Instance set_start_stack : Setter start_stack := ltac:(solve_setter).
#[global] Instance set_pid : Setter pid := ltac:(solve_setter).
#[global] Instance set_father : Setter father := ltac:(solve_setter).
#[global] Instance set_pgrp : Setter pgrp := ltac:(solve_setter).
#[global] Instance set_session : Setter session := ltac:(solve_setter).
#[global] Instance set_leader : Setter leader := ltac:(solve_setter).
#[global] Instance set_uid : Setter uid := ltac:(solve_setter).
#[global] Instance set_euid : Setter euid := ltac:(solve_setter).
#[global] Instance set_suid : Setter suid := ltac:(solve_setter).
#[global] Instance set_gid : Setter gid := ltac:(solve_setter).
#[global] Instance set_egid : Setter egid := ltac:(solve_setter).
#[global] Instance set_sgid : Setter sgid := ltac:(solve_setter).
#[global] Instance set_alarm : Setter alarm := ltac:(solve_setter).
#[global] Instance set_utime : Setter utime := ltac:(solve_setter).
#[global] Instance set_stime : Setter stime := ltac:(solve_setter).
#[global] Instance set_cutime : Setter cutime := ltac:(solve_setter).
#[global] Instance set_cstime : Setter cstime := ltac:(solve_setter).
#[global] Instance set_start_time : Setter start_time := ltac:(solve_setter).
#[global] Instance set_used_math : Setter used_math := ltac:(solve_setter).
#[global] Instance set_tty : Setter tty := ltac:(solve_setter).
#[global] Instance set_umask : Setter umask := ltac:(solve_setter).
#[global] Instance set_pwd : Setter pwd := ltac:(solve_setter).
#[global] Instance set_root : Setter root := ltac:(solve_setter).
#[global] Instance set_executable : Setter executable := ltac:(solve_setter).
#[global] Instance set_close_on_exec : Setter close_on_exec := ltac:(solve_setter).
#[global] Instance set_filp : Setter filp := ltac:(solve_setter).
#[global] Instance set_ldt : Setter ldt := ltac:(solve_setter).
#[global] Instance set_tss : Setter tss := ltac:(solve_setter).

Definition KERNEL_DATA_SEG : Z := 0x10.
Definition TASK_DATA_SEG : Z := 0x17.
Definition PAGE_SIZE : Z := 4096.

(** [INIT_TASK]; [stack] is the address of the union that holds the task and
    [pg_dir] that of the page directory. *)
Definition INIT_TASK (stack pg_dir : Z) : task_struct :=
  Task 0 15 15 0 (replicate 32 (SigAction 0 0 0 0)) 0 0 0 0 0 0 0
    0 (-1) 0 0 0 0 0 0 0 0 0 0 0 0 0 0 0 0
    (-1) 18 None None None 0 (replicate 20 None)
    [Desc 0 0; Desc 0x009f 0x00c0fa00; Desc 0x009f 0x00c0f200]
    (Tss 0 (u32 (stack + PAGE_SIZE)) KERNEL_DATA_SEG 0 0 0 0 pg_dir 0 0 0 0 0 0 0 0 0 0
       TASK_DATA_SEG TASK_DATA_SEG TASK_DATA_SEG TASK_DATA_SEG TASK_DATA_SEG TASK_DATA_SEG
       (LDT_of 0) 0x80000000 (replicate 27 0)).

(** ** Lemmas on descriptors *)

Lemma desc_of_bits_mod x : desc_bits (desc_of_bits x) = x mod 2 ^ 64.
Proof. unfold desc_bits, desc_of_bits, u32. simpl. change (2 ^ 64) with 18446744073709551616. dmlia. Qed.

Lemma u8_bits x n : 0 <= n -> Z.testbit (u8 x) n = (n <? 8) && Z.testbit x n.
Proof.
  intros Hn. unfold u8. change 256 with (2 ^ 8). destruct (Z.ltb_spec n 8).
  - by rewrite Z.mod_pow2_bits_low by lia.
  - by rewrite Z.mod_pow2_bits_high by lia.
Qed.

(** The bytes of a descriptor are independent. *)
Lemma desc_byte_store d i j v :
  0 <= i < 8 -> 0 <= j < 8 ->
  desc_byte (desc_store_byte d i v) j = if i =? j then u8 v else desc_byte d j.
Proof.
  intros Hi Hj. unfold desc_byte at 1, desc_store_byte. rewrite desc_of_bits_mod.
  apply Z.bits_inj_iff'. intros n Hn. rewrite u8_bits by done.
  destruct (Z.ltb_spec n 8) as [Hn8|Hn8]; cbn [andb].
  2: { destruct (i =? j); [|unfold desc_byte]; rewrite u8_bits by done;
       by rewrite (proj2 (Z.ltb_ge _ _) Hn8). }
  rewrite Z.shiftr_spec, Z.mod_pow2_bits_low, Z.lor_spec, Z.ldiff_spec, !Z.shiftl_spec by lia.
  change 255 with (Z.ones 8). destruct (Z.eqb_spec i j) as [->|Hne].
  - replace (n + 8 * j - 8 * j) with n by lia. rewrite Z.ones_spec_low by lia.
    by rewrite andb_false_r.
  - unfold desc_byte. rewrite (u8_bits _ n) by done. rewrite (proj2 (Z.ltb_lt n 8) Hn8), Z.shiftr_spec by lia.
    destruct (decide (i < j)).
    + rewrite Z.ones_spec_high by lia. rewrite u8_bits by lia.
      rewrite (proj2 (Z.ltb_ge (n + 8 * j - 8 * i) 8)) by lia. cbn. by rewrite andb_true_r, orb_false_r.
    + rewrite !(Z.testbit_neg_r _ (n + 8 * j - 8 * i)) by lia. cbn. by rewrite andb_true_r, orb_false_r.
Qed.

Lemma get_base_set_base d base : is_u32 base -> get_base (set_base d base) = base.
Proof.
  unfold is_u32. intros Hb. unfold get_base, set_base. rewrite !desc_byte_store by lia. cbn.
  unfold u8. rewrite !Z.shiftr_div_pow2 by lia.
  change (2 ^ 8) with 256. change (2 ^ 16) with 65536. change (2 ^ 24) with 16777216. dmlia.
Qed.

Lemma get_limit_set_base d base : get_limit (set_base d base) = get_limit d.
Proof. unfold get_limit, set_base. rewrite !desc_byte_store by lia. done. Qed.
