(* ===== verification/Sched.v ===== *)
(** * Scheduling and timers: kernel/sched.c

    A wait queue is a [struct task_struct *] variable; [waitq] maps the queue's
    address to the slot it points to, and leaves out the null pointers.  The
    routines a timer calls back are recorded in [calls] by their address; so
    are the values written to the floppy's output register, in
    [wait_motor_out]. *)

From Stdlib Require Import ZArith Lia.
From stdpp Require Import base numbers list gmap strings.
From S2P Require Import Prelude Task.

(** [struct timer_list]; the null [fn] marks a free entry. *)
Record timer := Timer { t_jiffies : Z; t_fn : Z; t_next : option Z }.

Record sched := Sched {
  task : list (option task_struct); task_page : list Z; current : Z;
  last_task_used_math : option Z; fpu : list Z; jiffies : Z; startup_time : Z; last_pid : Z;
  waitq : gmap Z Z; wait_motor_out : list Z; mon_timer : list Z; moff_timer : list Z;
  current_DOR : Z; selected : Z; timer_list : list timer; next_timer : option Z;
  calls : list Z; beepcount : Z; gdt : list descriptor
}.
#[global] Instance sched_fields : Fields sched := fun x => Sched
  (task x) (task_page x) (current x) (last_task_used_math x) (fpu x) (jiffies x)
  (startup_time x) (last_pid x) (waitq x) (wait_motor_out x) (mon_timer x) (moff_timer x)
  (current_DOR x) (selected x) (timer_list x) (next_timer x) (calls x) (beepcount x) (gdt x).
#[global] Instance set_task : Setter task := ltac:(solve_setter).
#[global] Instance set_task_page : Setter task_page := ltac:(solve_setter).
#[global] Instance set_current : Setter current := ltac:(solve_setter).
#[global] Instance set_last_task_used_math : Setter last_task_used_math := ltac:(solve_setter).
#[global] Instance set_fpu : Setter fpu := ltac:(solve_setter).
#[global] Instance set_jiffies : Setter jiffies := ltac:(solve_setter).
#[global] Instance set_startup_time : Setter startup_time := ltac:(solve_setter).
#[global] Instance set_last_pid : Setter last_pid := ltac:(solve_setter).
#[global] Instance set_waitq : Setter waitq := ltac:(solve_setter).
#[global] Instance set_wait_motor_out : Setter wait_motor_out := ltac:(solve_setter).
#[global] Instance set_mon_timer : Setter mon_timer := ltac:(solve_setter).
#[global] Instance set_moff_timer : Setter moff_timer := ltac:(solve_setter).
#[global] Instance set_current_DOR : Setter current_DOR := ltac:(solve_setter).
#[global] Instance set_selected : Setter selected := ltac:(solve_setter).
#[global] Instance set_timer_list : Setter timer_list := ltac:(solve_setter).
#[global] Instance set_next_timer : Setter next_timer := ltac:(solve_setter).
#[global] Instance set_calls : Setter calls := ltac:(solve_setter).
#[global] Instance set_beepcount : Setter beepcount := ltac:(solve_setter).
#[global] Instance set_gdt : Setter gdt := ltac:(solve_setter).

Definition _BLOCKABLE : Z := u32 (Z.lnot (Z.lor (sigbit SIGKILL) (sigbit SIGSTOP))).
Definition TIME_REQUESTS : Z := 64.

(** [task[i]], none when the slot is empty; and [current]. *)
Definition task_at (s : sched) (i : Z) : option task_struct := getz (task s) i ≫= id.
Definition current_task (s : sched) : option task_struct := task_at s (current s).

Definition get_current : M sched task_struct :=
  let! t := gets current_task in valid t.

(** [*p] for the task of a slot. *)
Definition update_task (i : Z) (f : task_struct -> task_struct) : M sched unit :=
  let! t := gets (fun s => task_at s i) in
  let! t := valid t in
  modify (fun s => s <| task ::= fun l => setz l i (Some (f t)) |>).

Definition update_current (f : task_struct -> task_struct) : M sched unit :=
  let! i := gets current in update_task i f.

Definition suser (s : sched) : bool :=
  match current_task s with Some t => euid t =? 0 | None => false end.

Definition CURRENT_TIME (s : sched) : Z := s32 (startup_time s + jiffies s ÷ HZ).

(** ** The scheduler *)

(** The body of the first loop of [schedule]. *)
Definition schedule_signals (jiffies : Z) (p : task_struct) : task_struct :=
  let p :=
    if istrue (alarm p) && (alarm p <? jiffies)
    then p <| signal ::= fun x => Z.lor x (sigbit SIGALRM) |> <| alarm := 0 |>
    else p in
  if istrue (Z.land (signal p) (Z.land _BLOCKABLE (u32 (Z.lnot (blocked p))))) &&
     (state p =? TASK_INTERRUPTIBLE)
  then p <| state := TASK_RUNNING |>
  else p.

(** The loops over the slots from the last down to the one after the first
    change one task at a time. *)
Definition map_tasks (f : task_struct -> task_struct) (l : list (option task_struct))
  : list (option task_struct) :=
  match l with
  | [] => []
  | t :: l => t :: map (option_map f) l
  end.

(** The search from slot [n] down to slot 1. *)
Fixpoint schedule_scan (l : list (option task_struct)) (n : nat) (c next : Z) : Z * Z :=
  match n with
  | O => (c, next)
  | Datatypes.S n' =>
    match getz l (Z.of_nat n) ≫= id with
    | Some p =>
      if (state p =? TASK_RUNNING) && (c <? counter p)
      then schedule_scan l n' (counter p) (Z.of_nat n)
      else schedule_scan l n' c next
    | None => schedule_scan l n' c next
    end
  end.

Definition recharge (p : task_struct) : task_struct :=
  p <| counter := s32 (Z.shiftr (counter p) 1 + priority p) |>.

(** [while (1)], with a bound on the number of rounds. *)
Fixpoint schedule_loop (fuel : nat) (l : list (option task_struct))
  : option (list (option task_struct) * Z) :=
  match fuel with
  | O => None
  | Datatypes.S fuel' =>
    let '(c, next) := schedule_scan l (Z.to_nat (NR_TASKS - 1)) (-1) 0 in
    if istrue c then Some (l, next) else schedule_loop fuel' (map_tasks recharge l)
  end.

Definition switch_to (n : Z) : M sched unit := modify (fun s => s <| current := n |>).

(** Two rounds are enough when the priorities are positive (lemma
    [schedule_loop_ok]); a third would change nothing. *)
Definition schedule_rounds : nat := 2.

Definition schedule : M sched unit :=
  do! modify (fun s => s <| task ::= map_tasks (schedule_signals (jiffies s)) |>) in
  let! l := gets task in
  match schedule_loop schedule_rounds l with
  | Some (l, next) => do! modify (fun s => s <| task := l |>) in switch_to next
  | None => Prelude.blocked  (* the loop does not end *)
  end.

Definition sys_pause : M sched Z :=
  do! update_current (fun t => t <| state := TASK_INTERRUPTIBLE |>) in
  do! schedule in
  ret 0.

(** ** Sleeping and waking

    A routine that gives the processor away is cut where it does: [sleep_on]
    is what happens up to and including its call of [schedule], with [tmp] as
    its result, and [sleep_on_resume] what happens when the task runs again.
    [p] is the address of the queue, 0 for none. *)

Definition sleep_with (st p : Z) : M sched (option Z) :=
  let! c := gets current in
  if c =? 0 then panic "task[0] trying to sleep" else
  let! tmp := gets (fun s => waitq s !! p) in
  do! modify (fun s => s <| waitq ::= fun m => <[p := c]> m |>) in
  do! update_current (fun t => t <| state := st |>) in
  do! schedule in
  ret tmp.

Definition sleep_on (p : Z) : M sched (option Z) :=
  if p =? 0 then ret None else sleep_with TASK_UNINTERRUPTIBLE p.

Definition make_running (i : Z) : M sched unit :=
  update_task i (fun t => t <| state := TASK_RUNNING |>).

Definition set_queue (p : Z) (v : option Z) (s : sched) : sched :=
  s <| waitq ::= fun m => match v with Some i => <[p := i]> m | None => delete p m end |>.

Definition sleep_on_resume (p : Z) (tmp : option Z) : M sched unit :=
  if p =? 0 then ret tt else
  do! modify (set_queue p tmp) in
  match tmp with Some i => make_running i | None => ret tt end.

Definition interruptible_sleep_on (p : Z) : M sched (option Z) :=
  if p =? 0 then ret None else sleep_with TASK_INTERRUPTIBLE p.

(** After [schedule] returns: [true] when the task gives the processor away
    again (it went back to [repeat] and called [schedule]). *)
Definition interruptible_sleep_on_resume (p : Z) (tmp : option Z) : M sched bool :=
  if p =? 0 then ret false else
  let! c := gets current in
  let! q := gets (fun s => waitq s !! p) in
  match q with
  | Some i =>
    if negb (i =? c) then
      do! make_running i in
      do! update_current (fun t => t <| state := TASK_INTERRUPTIBLE |>) in
      do! schedule in
      ret true
    else
      do! modify (set_queue p tmp) in
      do! (match tmp with Some i => make_running i | None => ret tt end) in
      ret false
  | None =>
    do! modify (set_queue p tmp) in
    do! (match tmp with Some i => make_running i | None => ret tt end) in
    ret false
  end.

Definition wake_up (p : Z) : M sched unit :=
  let! q := gets (fun s => waitq s !! p) in
  match q with
  | Some i => if p =? 0 then ret tt else do! make_running i in modify (set_queue p None)
  | None => ret tt
  end.

(** ** The floating-point unit *)

(** [fnsave] into the old owner, [frstor] or [fninit] for the new one;
    [fninit_state] is the state of the unit after [fninit]. *)
Definition math_state_restore (fninit_state : list Z) : M sched unit :=
  let! last := gets last_task_used_math in
  let! c := gets current in
  if bool_decide (last = Some c) then ret tt else
  let! regs := gets fpu in
  do! (match last with
       | Some l => update_task l (fun t => t <| tss ::= fun x => x <| i387 := regs |> |>)
       | None => ret tt
       end) in
  do! modify (fun s => s <| last_task_used_math := Some c |>) in
  let! t := get_current in
  if istrue (used_math t) then modify (fun s => s <| fpu := i387 (tss t) |>)
  else
    do! modify (fun s => s <| fpu := fninit_state |>) in
    update_current (fun t => t <| used_math := 1 |>).

(** ** Timers *)

(** The first free entry of [timer_list], from entry [i] on. *)
Fixpoint free_timer (l : list timer) (i : Z) : option Z :=
  match l with
  | [] => None
  | t :: l => if t_fn t =? 0 then Some i else free_timer l (i + 1)
  end.

(** The loop of [add_timer], from the entry [p]; one unit of fuel for each
    entry of the list. *)
Fixpoint add_timer_loop (fuel : nat) (l : list timer) (p : Z) : option (list timer) :=
  match fuel with
  | O => None
  | Datatypes.S fuel' =>
    tp ← getz l p;
    match t_next tp with
    | None => Some l
    | Some q =>
      tq ← getz l q;
      if t_jiffies tq <? t_jiffies tp then
        let rest := s32 (t_jiffies tp - t_jiffies tq) in
        let l := setz l p (Timer (t_jiffies tq) (t_fn tq) (t_next tp)) in
        let l := setz l q (Timer rest (t_fn tp) (t_next tq)) in
        add_timer_loop fuel' l q
      else Some l
    end
  end.

Definition add_timer (jiffies fn : Z) : M sched unit :=
  if fn =? 0 then ret tt else
  if jiffies <=? 0 then modify (fun s => s <| calls ::= fun c => c ++ [fn] |>) else
  let! l := gets timer_list in
  match free_timer l 0 with
  | None => panic "No more time requests free"
  | Some p =>
    let! next := gets next_timer in
    let l := setz l p (Timer jiffies fn next) in
    let! l := valid (add_timer_loop (Datatypes.S (length l)) l p) in
    modify (fun s => s <| timer_list := l |> <| next_timer := Some p |>)
  end.

(** [while (next_timer && next_timer->jiffies <= 0)] of [do_timer]. *)
Fixpoint run_timers (fuel : nat) : M sched unit :=
  match fuel with
  | O => Prelude.blocked
  | Datatypes.S fuel' =>
    let! next := gets next_timer in
    match next with
    | None => ret tt
    | Some p =>
      let! l := gets timer_list in
      let! t := valid (getz l p) in
      if t_jiffies t <=? 0 then
        do! modify (fun s => s <| timer_list := setz l p (Timer (t_jiffies t) 0 (t_next t)) |>
                               <| next_timer := t_next t |>
                               <| calls ::= fun c => c ++ [t_fn t] |>) in
        run_timers fuel'
      else ret tt
    end
  end.

(** [if (next_timer) { ... }] of [do_timer]. *)
Definition timer_tick : M sched unit :=
  let! next := gets next_timer in
  match next with
  | None => ret tt
  | Some p =>
    let! l := gets timer_list in
    let! t := valid (getz l p) in
    do! modify (fun s => s <| timer_list :=
          setz l p (Timer (s32 (t_jiffies t - 1)) (t_fn t) (t_next t)) |>) in
    run_timers (Datatypes.S (length l))
  end.

(** ** The floppy motors *)

Definition FLOPPY_QUEUE : Z := 1.
Definition wait_motor (nr : Z) : Z := FLOPPY_QUEUE + nr.

Definition ticks_to_floppy_on (nr : Z) : M sched Z :=
  let mask := u8 (Z.shiftl 0x10 nr) in
  if 3 <? nr then panic "floppy_on: nr>3" else
  do! modify (fun s => s <| moff_timer ::= fun l => setz l nr 10000 |>) in
  let! dor := gets current_DOR in
  let mask := Z.lor mask dor in
  let! sel := gets selected in
  let mask := if negb (istrue sel) then Z.lor (Z.land mask 0xFC) nr else mask in
  let! mon := gets mon_timer in
  let! now := valid (getz mon nr) in
  do! when (negb (mask =? dor))
    (do! modify (fun s => s <| wait_motor_out ::= fun l => l ++ [mask] |>) in
     do! modify (fun s => s <| mon_timer ::= fun l =>
           if istrue (Z.land (Z.lxor mask dor) 0xf0) then setz l nr (HZ ÷ 2)
           else if now <? 2 then setz l nr 2 else l |>) in
     modify (fun s => s <| current_DOR := mask |>)) in
  let! mon := gets mon_timer in
  valid (getz mon nr).

(** [floppy_on] up to its next sleep: the queue's old head when it sleeps, to
    ask again when it is woken, and nothing when the motor is running. *)
Definition floppy_on (nr : Z) : M sched (option (option Z)) :=
  let! t := ticks_to_floppy_on nr in
  if istrue t then let! tmp := sleep_on (wait_motor nr) in ret (Some tmp) else ret None.

Definition floppy_off (nr : Z) : M sched unit :=
  modify (fun s => s <| moff_timer ::= fun l => setz l nr (3 * HZ) |>).

(** The body of the loop of [do_floppy_timer] for drive [i]. *)
Definition do_floppy_timer_body (i : Z) : M sched unit :=
  let mask := u8 (Z.shiftl 0x10 i) in
  let! dor := gets current_DOR in
  if negb (istrue (Z.land mask dor)) then ret tt else
  let! mon := gets mon_timer in
  let! m := valid (getz mon i) in
  let! moff := gets moff_timer in
  let! o := valid (getz moff i) in
  if istrue m then
    do! modify (fun s => s <| mon_timer := setz mon i (s32 (m - 1)) |>) in
    when (s32 (m - 1) =? 0) (wake_up (wait_motor i))
  else if negb (istrue o) then
    do! modify (fun s => s <| current_DOR := Z.land dor (u8 (Z.lnot mask)) |>) in
    modify (fun s => s <| wait_motor_out ::= fun l => l ++ [Z.land dor (u8 (Z.lnot mask))] |>)
  else modify (fun s => s <| moff_timer := setz moff i (s32 (o - 1)) |>).

Definition do_floppy_timer : M sched unit := for_range 0 4 do_floppy_timer_body.

(** ** The clock tick *)

(** [sysbeepstop] of the console is called by its address. *)
Definition sysbeepstop_fn : Z := 1.

Definition do_timer (cpl : Z) : M sched unit :=
  let! b := gets beepcount in
  do! when (istrue b)
    (do! modify (fun s => s <| beepcount := s32 (b - 1) |>) in
     when (s32 (b - 1) =? 0) (modify (fun s => s <| calls ::= fun c => c ++ [sysbeepstop_fn] |>))) in
  do! (if istrue cpl then update_current (fun t => t <| utime ::= fun x => s32 (x + 1) |>)
       else update_current (fun t => t <| stime ::= fun x => s32 (x + 1) |>)) in
  do! timer_tick in
  let! dor := gets current_DOR in
  do! when (istrue (Z.land dor 0xf0)) do_floppy_timer in
  do! update_current (fun t => t <| counter ::= fun x => s32 (x - 1) |>) in
  let! t := get_current in
  if 0 <? counter t then ret tt else
  do! update_current (fun t => t <| counter := 0 |>) in
  if negb (istrue cpl) then ret tt else schedule.

(** ** System calls *)

Definition sys_alarm (seconds : Z) : M sched Z :=
  let! t := get_current in
  let! j := gets jiffies in
  let old := alarm t in
  let old := if istrue old then s32 (old - j) ÷ HZ else old in
  do! update_current (fun t => t <| alarm := if 0 <? seconds then s32 (j + HZ * seconds) else 0 |>) in
  ret old.

Definition sys_getpid : M sched Z := let! t := get_current in ret (pid t).
Definition sys_getppid : M sched Z := let! t := get_current in ret (father t).
Definition sys_getuid : M sched Z := let! t := get_current in ret (uid t).
Definition sys_geteuid : M sched Z := let! t := get_current in ret (euid t).
Definition sys_getgid : M sched Z := let! t := get_current in ret (gid t).
Definition sys_getegid : M sched Z := let! t := get_current in ret (egid t).

Definition sys_nice (increment : Z) : M sched Z :=
  let! t := get_current in
  do! when (0 <? s32 (priority t - increment))
    (update_current (fun t => t <| priority ::= fun x => s32 (x - increment) |>)) in
  ret 0.
