(* ===== verification/SchedProofs.v ===== *)
(** * The scheduler picks the right task

    The choice of [schedule], and the end of its loop. *)

From Stdlib Require Import ZArith Lia.
From stdpp Require Import base numbers list gmap strings.
From S2P Require Import Prelude Task Sched.

(** The task of slot [i], among those [schedule] chooses from. *)
Definition runnable (l : list (option task_struct)) (i : Z) (t : task_struct) : Prop :=
  1 <= i < NR_TASKS /\ getz l i ≫= id = Some t /\ state t = TASK_RUNNING.

(** Counters and priorities as [do_timer], [sys_nice] and [fork] keep them. *)
Definition sane (t : task_struct) : Prop :=
  0 <= counter t < 1073741824 /\ 1 <= priority t <= 536870912.
Definition sane_tasks (l : list (option task_struct)) : Prop :=
  lenz l = NR_TASKS /\ Forall (fun o => match o with Some t => sane t | None => True end) l.

Lemma map_tasks_getz f l i :
  1 <= i -> getz (map_tasks f l) i = option_map (option_map f) (getz l i).
Proof.
  intros Hi. unfold getz. rewrite (proj2 (Z.ltb_ge _ _)) by lia. unfold map_tasks.
  destruct l as [|t l]; [done|]. destruct (Z.to_nat i) as [|n] eqn:E; [lia|]. simpl.
  rewrite list_lookup_fmap. done.
Qed.

Lemma map_tasks_0 f l : getz (map_tasks f l) 0 = getz l 0.
Proof. by destruct l. Qed.

Lemma map_tasks_length f l : lenz (map_tasks f l) = lenz l.
Proof. destruct l; [done|]. unfold lenz. simpl. by rewrite length_map. Qed.

Lemma map_tasks_Some f l i t :
  1 <= i -> getz (map_tasks f l) i ≫= id = Some t ->
  exists t0, getz l i ≫= id = Some t0 /\ t = f t0.
Proof. intros Hi. rewrite map_tasks_getz by done. destruct (getz l i) as [[]|]; naive_solver. Qed.

Lemma map_tasks_sane f l :
  (forall t, sane t -> sane (f t)) -> sane_tasks l -> sane_tasks (map_tasks f l).
Proof.
  intros Hf [Hlen Hall]. split; [by rewrite map_tasks_length|].
  destruct l as [|t l]; [done|]. inversion_clear Hall as [|?? Ht Hl]. constructor; [done|].
  apply Forall_fmap. eapply Forall_impl; [exact Hl|]. intros [t'|]; simpl; auto.
Qed.

Lemma sane_lookup l i t : sane_tasks l -> getz l i ≫= id = Some t -> sane t.
Proof.
  intros [_ Hall] Ht. destruct (getz l i) as [[t'|]|] eqn:E; try discriminate Ht.
  injection Ht as ->. exact (getz_Forall _ _ _ _ Hall E).
Qed.

Lemma schedule_scan_spec l n c next c' next' :
  schedule_scan l n c next = (c', next') ->
  (forall i t, 1 <= i <= Z.of_nat n -> getz l i ≫= id = Some t -> state t = TASK_RUNNING -> counter t <= c') /\
  ((c' = c /\ next' = next) \/
   (c < c' /\ 1 <= next' <= Z.of_nat n /\
    (exists t, getz l next' ≫= id = Some t /\ state t = TASK_RUNNING /\ counter t = c') /\
    (forall i t, next' < i <= Z.of_nat n -> getz l i ≫= id = Some t -> state t = TASK_RUNNING ->
       counter t < c'))).
Proof.
  revert c next. induction n as [|n IH]; intros c next Hs.
  { injection Hs as <- <-. split; [lia|by left]. }
  assert (forall c next, schedule_scan l n c next = (c', next') -> c <= c') as Hmono.
  { intros c1 next1 H1. destruct (IH _ _ H1) as [_ [[-> _]|[? _]]]; lia. }
  cbn [schedule_scan] in Hs.
  destruct (getz l (Z.of_nat (Datatypes.S n)) ≫= id) as [p|] eqn:Hp.
  - destruct ((state p =? TASK_RUNNING) && (c <? counter p)) eqn:Hc.
    + apply andb_true_iff in Hc as [Hrun Hc]. breflect.
      specialize (Hmono _ _ Hs). destruct (IH _ _ Hs) as [Hall Hor]. split.
      * intros i t Hi Ht Hst. destruct (decide (i = Z.of_nat (Datatypes.S n))) as [->|]; [|apply (Hall i); (done || lia)].
        rewrite Hp in Ht. injection Ht as <-. lia.
      * right. destruct Hor as [[-> ->]|(H1 & H2 & H3 & H4)].
        { split; [lia|]. split; [lia|]. split; [by exists p|]. intros i t Hi. lia. }
        { split; [lia|]. split; [lia|]. split; [done|]. intros i t Hi Ht Hst.
          destruct (decide (i = Z.of_nat (Datatypes.S n))) as [->|]; [|apply (H4 i); (done || lia)].
          rewrite Hp in Ht. injection Ht as <-. lia. }
    + apply andb_false_iff in Hc. specialize (Hmono _ _ Hs). destruct (IH _ _ Hs) as [Hall Hor]. split.
      * intros i t Hi Ht Hst. destruct (decide (i = Z.of_nat (Datatypes.S n))) as [->|]; [|apply (Hall i); (done || lia)].
        rewrite Hp in Ht. injection Ht as <-. destruct Hc; breflect; (done || lia).
      * destruct Hor as [?|(H1 & H2 & H3 & H4)]; [by left|right].
        split; [lia|]. split; [lia|]. split; [done|]. intros i t Hi Ht Hst.
        destruct (decide (i = Z.of_nat (Datatypes.S n))) as [->|]; [|apply (H4 i); (done || lia)].
        rewrite Hp in Ht. injection Ht as <-. destruct Hc; breflect; (done || lia).
  - destruct (IH _ _ Hs) as [Hall Hor]. split.
    + intros i t Hi Ht Hst. destruct (decide (i = Z.of_nat (Datatypes.S n))) as [->|]; [congruence|].
      apply (Hall i); (done || lia).
    + destruct Hor as [?|(H1 & H2 & H3 & H4)]; [by left|right].
      split; [lia|]. split; [lia|]. split; [done|]. intros i t Hi Ht Hst.
      destruct (decide (i = Z.of_nat (Datatypes.S n))) as [->|]; [congruence|]. apply (H4 i); (done || lia).
Qed.

(** The choice among the tasks of [l]: the runnable task with the largest
    counter, the highest slot of those; the idle task when none is runnable. *)
Definition chosen (l : list (option task_struct)) (n : Z) : Prop :=
  (n = 0 /\ forall i t, ~ runnable l i t) \/
  (exists t, runnable l n t /\ 0 < counter t /\
     forall i t', runnable l i t' -> counter t' < counter t \/ (counter t' = counter t /\ i <= n)).

Lemma scan_chosen l c next :
  sane_tasks l -> schedule_scan l (Z.to_nat (NR_TASKS - 1)) (-1) 0 = (c, next) ->
  (c = 0 /\ (exists i t, runnable l i t) /\ forall i t, runnable l i t -> counter t = 0) \/
  (c <> 0 /\ chosen l next).
Proof.
  intros Hsane Hs. destruct (schedule_scan_spec _ _ _ _ _ _ Hs) as [Hall Hor].
  rewrite Z2Nat.id in * by (vm_compute; congruence). change (NR_TASKS - 1) with 63 in *.
  assert (forall i t, runnable l i t -> 0 <= counter t <= c) as Hbound.
  { intros i t (Hi & Ht & Hst). change NR_TASKS with 64 in Hi. pose proof (sane_lookup _ _ _ Hsane Ht) as [? _].
    split; [lia|]. apply (Hall i); (done || lia). }
  destruct Hor as [[-> ->]|(H1 & H2 & (t & Ht & Hst & Hc) & H4)].
  - right. split; [done|]. left. split; [done|]. intros i t Hr. specialize (Hbound i t Hr). lia.
  - assert (runnable l next t) as Hr by (split; [change NR_TASKS with 64; lia|done]).
    destruct (decide (c = 0)) as [->|Hne]; [left|right].
    + split; [done|]. split; [by exists next, t|]. intros i t' Hr'. specialize (Hbound i t' Hr'). lia.
    + split; [done|]. right. exists t. split; [done|]. split; [lia|]. intros i t' Hr'.
      pose proof (Hbound i t' Hr') as Hb. destruct Hr' as (Hi & Ht' & Hst'). change NR_TASKS with 64 in Hi.
      destruct (decide (counter t' = counter t)); [|lia]. right. split; [done|].
      destruct (decide (next < i)) as [Hlt|]; [|lia]. specialize (H4 i t' ltac:(lia) Ht' Hst'). lia.
Qed.

Lemma recharge_sane t : sane t -> sane (recharge t) /\ 0 < counter (recharge t).
Proof.
  unfold sane, recharge. upd. rewrite Z.shiftr_div_pow2 by lia. change (2 ^ 1) with 2. intros [Hc Hp].
  rewrite s32_id by (unfold is_s32; dmlia). dmlia.
Qed.

Lemma signals_sane j t : sane t -> sane (schedule_signals j t).
Proof. unfold sane, schedule_signals. repeat case_match; upd; done. Qed.

(** The loop ends within two rounds; the second is needed only when every
    runnable task has used up its time. *)
Lemma schedule_loop_ok l :
  sane_tasks l ->
  exists l' n, schedule_loop schedule_rounds l = Some (l', n) /\ sane_tasks l' /\ chosen l' n /\
    (l' = l \/
     (l' = map_tasks recharge l /\ n <> 0 /\
      (exists i t, runnable l i t) /\ forall i t, runnable l i t -> counter t = 0)).
Proof.
  intros Hl. unfold schedule_rounds. cbn [schedule_loop].
  destruct (schedule_scan l _ _ _) as [c n] eqn:Hs.
  destruct (scan_chosen _ _ _ Hl Hs) as [(-> & (i & t & Hr) & Hz)|[Hne Hch]].
  2: { unfold istrue. rewrite (proj2 (Z.eqb_neq _ _) Hne). cbn. exists l, n. auto. }
  assert (sane_tasks (map_tasks recharge l)) as Hl'.
  { apply map_tasks_sane; [|done]. intros t' Ht'. by apply recharge_sane. }
  cbn [istrue negb Z.eqb]. destruct (schedule_scan (map_tasks recharge l) _ _ _) as [c' n'] eqn:Hs'.
  assert (runnable (map_tasks recharge l) i (recharge t)) as Hr'.
  { destruct Hr as (Hi & Ht & Hst). split; [done|]. split; [|exact Hst].
    rewrite map_tasks_getz by lia. destruct (getz l i) as [[]|]; try discriminate Ht.
    injection Ht as ->. done. }
  assert (0 < counter (recharge t)) as Hpos.
  { apply recharge_sane. exact (sane_lookup _ _ _ Hl (proj1 (proj2 Hr))). }
  destruct (scan_chosen _ _ _ Hl' Hs') as [(-> & _ & Hz')|[Hne Hch]].
  { specialize (Hz' i _ Hr'). lia. }
  unfold istrue. rewrite (proj2 (Z.eqb_neq _ _) Hne). cbn [negb].
  exists (map_tasks recharge l), n'. split; [done|]. split; [done|]. split; [done|]. right.
  split; [done|]. split; [|by eauto].
  destruct Hch as [[-> Hno]|(t' & (Hi & _) & _)]; [by destruct (Hno i _ Hr')|lia].
Qed.

(** The tasks after [schedule] has delivered alarms and woken the tasks that
    got a signal. *)
Definition after_signals (s : sched) : list (option task_struct) :=
  map_tasks (schedule_signals (jiffies s)) (task s).

Lemma schedule_run (s : sched) :
  sane_tasks (task s) ->
  exists l' n, schedule s = Ok tt (s <| task := l' |> <| current := n |>) /\
    sane_tasks l' /\ chosen l' n /\
    (l' = after_signals s \/
     (l' = map_tasks recharge (after_signals s) /\ n <> 0 /\
      (exists i t, runnable (after_signals s) i t) /\
      forall i t, runnable (after_signals s) i t -> counter t = 0)).
Proof.
  intros Hs. assert (sane_tasks (after_signals s)) as Ha.
  { apply map_tasks_sane; [apply signals_sane|done]. }
  destruct (schedule_loop_ok _ Ha) as (l' & n & Hloop & Hrest).
  exists l', n. split; [|done].
  unfold schedule, bind, modify, gets. upd. fold (after_signals s). rewrite Hloop. done.
Qed.

(** C8: [schedule] ends, and gives the processor to the runnable task with the
    most time left (the highest slot among equals), after alarms and signals
    have been delivered; the idle task runs exactly when no other task can; the
    time slices are refilled exactly when all runnable tasks have used theirs
    up, and nothing but the task table and [current] changes. *)
Theorem schedule_spec (s : sched) :
  sane_tasks (task s) ->
  exists l' n, schedule s = Ok tt (s <| task := l' |> <| current := n |>) /\
    sane_tasks l' /\
    (n = 0 <-> forall i t, ~ runnable (after_signals s) i t) /\
    (n <> 0 -> exists t, runnable l' n t /\ 0 < counter t /\
       forall i t', runnable l' i t' -> counter t' < counter t \/ (counter t' = counter t /\ i <= n)) /\
    (l' = after_signals s \/
     (l' = map_tasks recharge (after_signals s) /\
      forall i t, runnable (after_signals s) i t -> counter t = 0)).
Proof.
  intros Hs. destruct (schedule_run s Hs) as (l' & n & Hrun & Hsane & Hch & Hor).
  exists l', n. split; [done|]. split; [done|]. split; [|split].
  - destruct Hor as [->|(-> & Hn & (i & t & Hr) & _)].
    + destruct Hch as [?|(t & Hr & _)]; [naive_solver|].
      destruct Hr as (? & Hr). split; [lia|]. intros Hno. exfalso. by eapply Hno.
    + split; [done|]. intros Hno. by destruct (Hno i t).
  - intros Hn. destruct Hch as [[-> _]|?]; [done|done].
  - destruct Hor as [->|(-> & _ & _ & ?)]; auto.
Qed.
