(* ===== verification/Timers.v ===== *)
(** * The timer list keeps time

    The list hanging off [next_timer] holds the time of each timer as the
    difference to the one before it.  [add_timer] and the clock tick are
    compared with operations on the list of differences. *)

From Stdlib Require Import ZArith Lia.
From stdpp Require Import base numbers list gmap strings.
From S2P Require Import Prelude Task Sched.

Abbreviation chain := (Prelude.chain t_next).

(** The differences and routines at these entries. *)
Definition contents (l : list timer) (idx : list Z) : list (Z * Z) :=
  omap (fun i => t ← getz l i; Some (t_jiffies t, t_fn t)) idx.

Definition good (d : Z * Z) : Prop := 0 < d.1 < 2147483648 /\ d.2 <> 0.

(** The timer list of [s] holds [L]: every entry outside the chain is free. *)
Record timers (s : sched) (idx : list Z) (L : list (Z * Z)) : Prop := {
  timers_length : lenz (timer_list s) = TIME_REQUESTS;
  timers_chain : chain (timer_list s) (next_timer s) idx;
  timers_nodup : NoDup idx;
  timers_contents : contents (timer_list s) idx = L;
  timers_good : Forall good L;
  timers_free : forall i t, i ∉ idx -> getz (timer_list s) i = Some t -> t_fn t = 0
}.

(** ** The list of differences *)

Fixpoint insert_timer (j fn : Z) (L : list (Z * Z)) : list (Z * Z) :=
  match L with
  | [] => [(j, fn)]
  | (d, f) :: L' => if d <? j then (d, f) :: insert_timer (j - d) fn L' else (j, fn) :: L
  end.

(** The tick at which each timer fires, counted from [now]. *)
Fixpoint expiries (now : Z) (L : list (Z * Z)) : list (Z * Z) :=
  match L with
  | [] => []
  | (d, f) :: L => (now + d, f) :: expiries (now + d) L
  end.

Definition total (L : list (Z * Z)) : Z := foldr (fun d n => d.1 + n) 0 L.

Lemma insert_timer_good j fn L : 0 < j < 2147483648 -> fn <> 0 -> Forall good L -> Forall good (insert_timer j fn L).
Proof.
  intros Hj Hfn HL. revert j Hj. induction HL as [|[d f] L Hd HL IH]; intros j Hj; simpl.
  - apply Forall_cons. split; [done|apply Forall_nil; done].
  - destruct Hd as [Hd Hf]. simpl in *. case_match; breflect; apply Forall_cons.
    + split; [done|]. apply IH. lia.
    + split; [done|]. by apply Forall_cons.
Qed.

Lemma expiries_app now L1 L2 : expiries now (L1 ++ L2) = expiries now L1 ++ expiries (now + total L1) L2.
Proof.
  revert now. induction L1 as [|[d f] L1 IH]; intros now; simpl.
  - by rewrite Z.add_0_r.
  - rewrite IH. by replace (now + d + total L1) with (now + (d + total L1)) by lia.
Qed.

Lemma expiries_shift now k L : expiries (now + k) L = (fun e => (e.1 + k, e.2)) <$> expiries now L.
Proof.
  revert now. induction L as [|[d f] L IH]; intros now; [done|]. simpl. f_equal; [f_equal; lia|].
  replace (now + k + d) with (now + d + k) by lia. apply IH.
Qed.

Lemma insert_timer_split j fn L :
  0 < j -> Forall good L ->
  exists L1 L2, L = L1 ++ L2 /\ insert_timer j fn L = L1 ++ (j - total L1, fn) :: L2 /\
    total L1 < j /\ match L2 with [] => True | (d, _) :: _ => j <= total L1 + d end.
Proof.
  intros Hj HL. revert j Hj. induction HL as [|[d f] L Hd HL IH]; intros j Hj; simpl.
  - exists [], []. simpl. rewrite Z.sub_0_r. split_and!; (done || lia).
  - destruct Hd as [Hd _]. simpl in Hd. case_match; breflect.
    + destruct (IH (j - d)) as (L1 & L2 & -> & -> & Ht & HL2); [lia|].
      exists ((d, f) :: L1), L2. simpl. split; [done|]. split; [by replace (j - d - total L1) with (j - (d + total L1)) by lia|].
      split; [lia|]. destruct L2 as [|[d2 f2] L2]; [done|lia].
    + exists [], ((d, f) :: L). simpl. rewrite Z.sub_0_r. split_and!; (done || lia).
Qed.

(** ** Chains under assignment *)

Lemma contents_ext l l' idx :
  (forall i, i ∈ idx -> getz l' i = getz l i) -> contents l' idx = contents l idx.
Proof.
  intros Heq. induction idx as [|i idx IH]; [done|]. unfold contents in *. cbn [omap list_omap].
  rewrite Heq by left. rewrite IH; [done|]. intros k Hk. apply Heq. by right.
Qed.

Lemma contents_cons l i t idx :
  getz l i = Some t -> contents l (i :: idx) = (t_jiffies t, t_fn t) :: contents l idx.
Proof. intros Ht. unfold contents. cbn [omap list_omap]. by rewrite Ht. Qed.

Lemma chain_length l link idx : chain l link idx -> length (contents l idx) = length idx.
Proof.
  revert link. induction idx as [|i idx IH]; intros link; [done|].
  intros (_ & t & Ht & Hc). rewrite (contents_cons _ _ _ _ Ht). simpl. by rewrite (IH _ Hc).
Qed.

(** The loop of [add_timer] moves the new difference down the chain. *)
Lemma add_timer_loop_spec fuel l p idx tp :
  (length idx < fuel)%nat -> getz l p = Some tp -> chain l (t_next tp) idx -> NoDup (p :: idx) ->
  0 < t_jiffies tp < 2147483648 -> Forall good (contents l idx) ->
  exists l', add_timer_loop fuel l p = Some l' /\ lenz l' = lenz l /\
    chain l' (Some p) (p :: idx) /\
    contents l' (p :: idx) = insert_timer (t_jiffies tp) (t_fn tp) (contents l idx) /\
    forall i, i ∉ p :: idx -> getz l' i = getz l i.
Proof.
  revert l p idx tp. induction fuel as [|fuel IH]; intros l p idx tp Hf Hp Hc Hnd Hj Hg; [lia|].
  cbn [add_timer_loop]. rewrite Hp. cbn [mbind option_bind].
  destruct idx as [|q idx]; simpl in Hc.
  { rewrite Hc. exists l. split; [done|]. split; [done|]. split; [|split; [|done]].
    - split; [done|]. exists tp. by rewrite Hc.
    - by rewrite (contents_cons _ _ _ _ Hp). }
  destruct Hc as (Hq & tq & Htq & Hc). rewrite Hq, Htq. cbn [mbind option_bind].
  rewrite (contents_cons _ _ _ _ Htq) in *. inversion_clear Hg as [|?? Hgq Hgl]. destruct Hgq as [Hdq Hfq].
  simpl in Hdq, Hfq. cbn [insert_timer].
  inversion_clear Hnd as [|?? Hpn Hnd']. inversion_clear Hnd' as [|?? Hqn Hnd].
  assert (p <> q) as Hpq by (intros ->; apply Hpn; left).
  destruct (Z.ltb_spec (t_jiffies tq) (t_jiffies tp)) as [Hlt|Hge].
  2: { exists l. split; [done|]. split; [done|]. split; [|split; [|done]].
       - split; [done|]. exists tp. rewrite Hq. split; [done|]. split; [done|]. by exists tq.
       - by rewrite (contents_cons _ _ _ _ Hp), (contents_cons _ _ _ _ Htq). }
  rewrite s32_id by (unfold is_s32; lia).
  set (tp' := Timer (t_jiffies tq) (t_fn tq) (Some q)).
  set (tq' := Timer (t_jiffies tp - t_jiffies tq) (t_fn tp) (t_next tq)).
  set (l1 := setz (setz l p tp') q tq').
  assert (p ∉ idx) as Hp2 by (intros ?; apply Hpn; by right).
  assert (forall i, i <> p -> i <> q -> getz l1 i = getz l i) as Hext.
  { intros i H1 H2. unfold l1. by rewrite !getz_setz_ne. }
  assert (getz l1 p = Some tp') as Hl1p.
  { unfold l1. rewrite getz_setz_ne by done. apply getz_setz_eq. exact (getz_Some_lt _ _ _ Hp). }
  assert (getz l1 q = Some tq') as Hl1q.
  { unfold l1. apply getz_setz_eq. rewrite lenz_setz. exact (getz_Some_lt _ _ _ Htq). }
  assert (forall i, i ∈ idx -> getz l1 i = getz l i) as Hidx.
  { intros i Hi. apply Hext; by intros ->. }
  destruct (IH l1 q idx tq') as (l' & Hl' & Hlen & Hch & Hcont & Hout).
  - simpl in Hf. lia.
  - done.
  - by apply (chain_ext _ l).
  - by constructor.
  - unfold tq'. simpl. lia.
  - by rewrite (contents_ext l) by done.
  - exists l'. split; [exact Hl'|]. split; [by rewrite Hlen; unfold l1; rewrite !lenz_setz|].
    assert (getz l' p = Some tp') as Hl'p.
    { rewrite Hout; [done|]. rewrite not_elem_of_cons. done. }
    split; [|split].
    + split; [done|]. exists tp'. split; [done|]. exact Hch.
    + rewrite (contents_cons _ _ _ _ Hl'p), Hcont. unfold tp', tq'. simpl.
      by rewrite (contents_ext l) by done.
    + intros i Hi. rewrite !not_elem_of_cons in Hi. destruct Hi as (H1 & H2 & H3).
      rewrite Hout; [by apply Hext|]. by rewrite not_elem_of_cons.
Qed.

(** ** Adding a timer *)

Lemma free_timer_spec l i :
  match free_timer l i with
  | Some p => i <= p /\ exists t, getz l (p - i) = Some t /\ t_fn t = 0
  | None => Forall (fun t => t_fn t <> 0) l
  end.
Proof.
  revert i. induction l as [|t l IH]; intros i; simpl; [constructor|].
  destruct (Z.eqb_spec (t_fn t) 0) as [E|E].
  - rewrite Z.sub_diag. split; [lia|]. by exists t.
  - specialize (IH (i + 1)). destruct (free_timer l (i + 1)) as [p|]; [|by constructor].
    destruct IH as (Hp & t' & Ht' & E'). split; [lia|]. exists t'. split; [|done].
    revert Ht'. unfold getz. rewrite !(proj2 (Z.ltb_ge _ _)) by lia.
    replace (Z.to_nat (p - i)) with (Datatypes.S (Z.to_nat (p - (i + 1)))) by lia. done.
Qed.

Lemma nodup_covers (idx : list Z) n :
  NoDup idx -> (forall i, i ∈ idx -> 0 <= i < Z.of_nat n) -> (length idx < n)%nat ->
  exists i, 0 <= i < Z.of_nat n /\ i ∉ idx.
Proof.
  intros Hnd Hr Hlen.
  destruct (decide (Forall (fun i => i ∈ idx) (seqZ 0 (Z.of_nat n)))) as [Hall|Hno].
  - exfalso. assert (length (seqZ 0 (Z.of_nat n)) <= length idx)%nat as H.
    { apply submseteq_length, NoDup_submseteq; [apply NoDup_seqZ|]. by apply Forall_forall. }
    rewrite length_seqZ in H. lia.
  - apply not_Forall_Exists in Hno; [|apply _]. apply Exists_exists in Hno as (i & Hi & Hn).
    exists i. apply elem_of_seqZ in Hi. split; [lia|done].
Qed.

Lemma good_not_free l link idx i t :
  chain l link idx -> Forall good (contents l idx) -> i ∈ idx -> getz l i = Some t -> t_fn t <> 0.
Proof.
  intros Hc Hg Hi Ht. revert link Hc Hg. induction idx as [|k idx IH]; intros link Hc Hg;
    [by apply elem_of_nil in Hi|].
  destruct Hc as (-> & t' & Ht' & Hc). rewrite (contents_cons _ _ _ _ Ht') in Hg.
  inversion_clear Hg as [|?? [_ Hf] Hg']. apply elem_of_cons in Hi as [->|Hi]; [|eauto].
  rewrite Ht in Ht'. by injection Ht' as ->.
Qed.

(** With room in the list, [add_timer] finds an entry outside the chain. *)
Lemma free_timer_ok (s : sched) idx L : timers s idx L -> lenz L < TIME_REQUESTS ->
  exists p t, free_timer (timer_list s) 0 = Some p /\ getz (timer_list s) p = Some t /\ p ∉ idx.
Proof.
  intros [Hlen Hch Hnd Hcont Hgood Hfree] Hroom. pose proof (free_timer_spec (timer_list s) 0) as Hsp.
  destruct (free_timer (timer_list s) 0) as [p|] eqn:Hp.
  - destruct Hsp as (Hp0 & t & Ht & Htf). rewrite Z.sub_0_r in Ht. exists p, t. split; [done|]. split; [done|].
    intros Hin. subst L. by apply (good_not_free _ _ _ _ _ Hch Hgood Hin Ht).
  - exfalso. destruct (nodup_covers idx 64) as (i & Hi & Hni).
    + done.
    + intros i Hi. destruct (chain_getz _ _ _ _ _ Hch Hi) as [t Ht].
      apply getz_Some_lt in Ht. rewrite Hlen in Ht. exact Ht.
    + rewrite <- (chain_length _ _ _ Hch), Hcont. unfold lenz, TIME_REQUESTS in Hroom. lia.
    + destruct (getz_is_Some (timer_list s) i) as [t Ht]; [rewrite Hlen; exact Hi|].
      apply (getz_Forall _ _ _ _ Hsp Ht). by apply (Hfree i).
Qed.

(** C36: [add_timer] puts the new timer in its place, so that it fires after
    exactly the ticks asked for and no earlier timer moves; the timers behind
    it all move back by the new timer's remaining difference, since its
    successor's is not reduced.  With the array full of armed timers it
    panics. *)
Theorem add_timer_spec (s : sched) idx L j fn now :
  timers s idx L -> 0 < j < 2147483648 -> fn <> 0 -> lenz L < TIME_REQUESTS ->
  exists s' idx' L1 L2 shift, add_timer j fn s = Ok tt s' /\
    timers s' idx' (insert_timer j fn L) /\
    s' = s <| timer_list := timer_list s' |> <| next_timer := next_timer s' |> /\
    L = L1 ++ L2 /\ 0 < shift /\
    expiries now (insert_timer j fn L) =
      expiries now L1 ++ (now + j, fn) :: ((fun e => (e.1 + shift, e.2)) <$> expiries (now + total L1) L2).
Proof.
  intros Htm Hj Hfn Hroom. destruct (free_timer_ok s idx L Htm Hroom) as (p & t & Hp & Ht & Hpn).
  destruct Htm as [Hlen Hch Hnd Hcont Hgood Hfree].
  destruct (insert_timer_split j fn L ltac:(lia) Hgood) as (L1 & L2 & HL & Hins & Htot & _).
  set (l1 := setz (timer_list s) p (Timer j fn (next_timer s))).
  assert (forall i, i ∈ idx -> getz l1 i = getz (timer_list s) i) as Hext.
  { intros i Hi. by apply (getz_setz_notin _ _ _ _ idx). }
  destruct (add_timer_loop_spec (Datatypes.S (length l1)) l1 p idx (Timer j fn (next_timer s)))
    as (l' & Hl' & Hlen' & Hch' & Hcont' & Hout).
  - assert (length idx <= length l1)%nat; [|lia].
    pose proof (getz_Some_lt _ _ _ Ht). rewrite <- (chain_length _ _ _ Hch), Hcont. unfold l1, setz. rewrite (proj2 (Z.ltb_ge _ _)) by lia.
    rewrite length_insert. unfold lenz in *. lia.
  - apply getz_setz_eq. exact (getz_Some_lt _ _ _ Ht).
  - by apply (chain_ext _ (timer_list s)).
  - by constructor.
  - done.
  - rewrite (contents_ext (timer_list s)) by done. by rewrite Hcont.
  - exists (s <| timer_list := l' |> <| next_timer := Some p |>), (p :: idx), L1, L2, (j - total L1).
    split.
    { unfold add_timer. rewrite (proj2 (Z.eqb_neq _ _) Hfn), (proj2 (Z.leb_gt _ _)) by lia.
      unfold bind, gets. rewrite Hp. fold l1. rewrite Hl'. done. }
    split.
    { split; upd.
      - rewrite Hlen'. unfold l1. by rewrite lenz_setz.
      - exact Hch'.
      - by constructor.
      - rewrite Hcont'. simpl. by rewrite (contents_ext (timer_list s)), Hcont.
      - by apply insert_timer_good.
      - intros i t' Hi. rewrite Hout by done. rewrite not_elem_of_cons in Hi. destruct Hi as [H1 H2].
        unfold l1. rewrite getz_setz_ne by done. by apply Hfree. }
    split; [by destruct s|]. split; [done|]. split; [lia|].
    rewrite Hins, expiries_app. cbn [expiries]. rewrite <- expiries_shift.
    by replace (now + total L1 + (j - total L1)) with (now + j) by lia.
Qed.

(** ** The tick *)

(** One tick of the list of differences, and the routine that is called. *)
Definition tick_list (L : list (Z * Z)) : list (Z * Z) * list Z :=
  match L with
  | [] => ([], [])
  | (d, f) :: L' => if d =? 1 then (L', [f]) else ((d - 1, f) :: L', [])
  end.

Lemma run_timers_stop fuel (s : sched) idx L :
  chain (timer_list s) (next_timer s) idx -> contents (timer_list s) idx = L -> Forall good L ->
  run_timers (Datatypes.S fuel) s = Ok tt s.
Proof.
  intros Hch Hc Hg. cbn [run_timers]. unfold bind, gets.
  destruct idx as [|p idx]; simpl in Hch; [by rewrite Hch|].
  destruct Hch as (-> & t & Ht & Hch). rewrite Ht. cbn [valid ret].
  rewrite (contents_cons _ _ _ _ Ht) in Hc. subst L. inversion_clear Hg as [|?? [Hd _] _]. simpl in Hd.
  unfold ret. by rewrite (proj2 (Z.leb_gt _ _)) by lia.
Qed.

(** The first timer counts down. *)
Lemma timers_count (s : sched) p idx d f L t :
  timers s (p :: idx) ((d, f) :: L) -> getz (timer_list s) p = Some t -> 1 < d ->
  timers (s <| timer_list := setz (timer_list s) p (Timer (d - 1) f (t_next t)) |>) (p :: idx) ((d - 1, f) :: L).
Proof.
  intros [Hlen Hch Hnd Hcont Hgood Hfree] Ht Hd1. destruct Hch as (Hn & t' & Ht' & Hch). rewrite Ht in Ht'. injection Ht' as <-.
  rewrite (contents_cons _ _ _ _ Ht) in Hcont. injection Hcont as Hd Hf Hcont.
  inversion_clear Hgood as [|?? [Hd2 Hf2] Hg]. simpl in Hd2, Hf2. pose proof Hnd as Hnd0. inversion_clear Hnd as [|?? Hpn Hnd'].
  set (l1 := setz _ _ _). set (t1 := Timer (d - 1) f (t_next t)) in *.
  assert (getz l1 p = Some t1) as Hp by (apply getz_setz_eq; exact (getz_Some_lt _ _ _ Ht)).
  assert (forall i, i ∈ idx -> getz l1 i = getz (timer_list s) i) as Hext
    by (intros i Hi; by apply (getz_setz_notin _ _ _ _ idx)).
  split; upd.
  - unfold l1. by rewrite lenz_setz.
  - split; [done|]. exists t1. split; [done|]. by apply (chain_ext _ (timer_list s)).
  - done.
  - rewrite (contents_cons _ _ _ _ Hp), (contents_ext (timer_list s)) by done. by rewrite Hcont.
  - constructor; [|done]. split; simpl; [lia|done].
  - intros i t' Hi. unfold l1. pose proof Hi as Hi'. rewrite not_elem_of_cons in Hi'. destruct Hi' as [H1 H2].
    rewrite getz_setz_ne by done. by apply Hfree.
Qed.

(** The first timer leaves the list. *)
Lemma timers_fire (s : sched) p idx e L t j c :
  timers s (p :: idx) (e :: L) -> getz (timer_list s) p = Some t ->
  timers (s <| timer_list := setz (timer_list s) p (Timer j 0 (t_next t)) |> <| next_timer := t_next t |> <| calls := c |>) idx L.
Proof.
  intros [Hlen Hch Hnd Hcont Hgood Hfree] Ht. destruct Hch as (Hn & t' & Ht' & Hch). rewrite Ht in Ht'. injection Ht' as <-.
  rewrite (contents_cons _ _ _ _ Ht) in Hcont. injection Hcont as _ Hcont.
  inversion_clear Hgood as [|?? _ Hg]. inversion_clear Hnd as [|?? Hpn Hnd']. set (l1 := setz _ _ _).
  assert (forall i, i ∈ idx -> getz l1 i = getz (timer_list s) i) as Hext
    by (intros i Hi; by apply (getz_setz_notin _ _ _ _ idx)).
  split; upd.
  - unfold l1. by rewrite lenz_setz.
  - by apply (chain_ext _ (timer_list s)).
  - done.
  - by rewrite (contents_ext (timer_list s)).
  - done.
  - intros i t' Hi. unfold l1. destruct (decide (i = p)) as [->|Hne].
    + rewrite getz_setz_eq by exact (getz_Some_lt _ _ _ Ht). by intros [= <-].
    + rewrite getz_setz_ne by done. apply Hfree. by rewrite not_elem_of_cons.
Qed.

Lemma timer_tick_spec (s : sched) idx L :
  timers s idx L ->
  exists s' idx', timer_tick s = Ok tt s' /\ timers s' idx' (tick_list L).1 /\
    calls s' = calls s ++ (tick_list L).2 /\
    s' = s <| timer_list := timer_list s' |> <| next_timer := next_timer s' |> <| calls := calls s' |>.
Proof.
  intros Htm. pose proof Htm as [Hlen Hch Hnd Hcont Hgood Hfree]. unfold timer_tick.
  destruct idx as [|p idx]; simpl in Hch.
  { subst L. exists s, []. unfold bind, gets. rewrite Hch. split; [done|].
    split; [by split|]. split; [cbn; by rewrite app_nil_r|]. destruct s. simpl in Hch. by subst. }
  destruct Hch as (Hn & t & Ht & Hch). rewrite (contents_cons _ _ _ _ Ht) in Hcont. subst L.
  inversion_clear Hgood as [|?? [Hd Hf] Hg]. simpl in Hd, Hf.
  unfold bind, gets, modify. rewrite Hn, Ht. cbn [valid]. unfold ret.
  rewrite (s32_id (t_jiffies t - 1)) by (unfold is_s32; lia).
  set (t1 := Timer (t_jiffies t - 1) (t_fn t) (t_next t)).
  set (l1 := setz (timer_list s) p t1).
  assert (getz l1 p = Some t1) as Hp by (apply getz_setz_eq; exact (getz_Some_lt _ _ _ Ht)).
  set (t2 := Timer (t_jiffies t - 1) 0 (t_next t)).
  cbn [tick_list]. destruct (Z.eqb_spec (t_jiffies t) 1) as [E|E].
  - set (s2 := s <| timer_list := setz l1 p t2 |> <| next_timer := t_next t |> <| calls := calls s ++ [t_fn t] |>).
    assert (timers s2 idx (contents (timer_list s) idx)) as Ht2.
    { unfold s2, l1. rewrite setz_setz. exact (timers_fire s p idx _ _ t _ _ Htm Ht). }
    exists s2, idx. split; [|split; [exact Ht2|split; [done|by destruct s]]].
    cbn [run_timers]. unfold bind, gets, modify. upd. rewrite Hn. cbv beta iota. upd. rewrite Hp. cbn [valid]. unfold ret.
    unfold t1 at 1. cbn [t_jiffies]. rewrite (proj2 (Z.leb_le _ _)) by lia.
    destruct (length (timer_list s)) as [|k] eqn:Hk.
    { unfold lenz in Hlen. rewrite Hk in Hlen. discriminate Hlen. }
    destruct Ht2 as [_ Hc2 _ Hcont2 Hg2 _]. exact (run_timers_stop k s2 _ _ Hc2 Hcont2 Hg2).
  - pose proof (timers_count s p idx _ _ _ t Htm Ht ltac:(lia)) as Ht1.
    exists (s <| timer_list := l1 |>), (p :: idx).
    split; [|split; [exact Ht1|split; [upd; by rewrite app_nil_r|by destruct s]]].
    destruct Ht1 as [_ Hc1 _ Hcont1 Hg1 _]. exact (run_timers_stop _ _ _ _ Hc1 Hcont1 Hg1).
Qed.

(** [n] ticks in a row. *)
Fixpoint ticks (n : nat) : M sched unit :=
  match n with O => ret tt | Datatypes.S n' => do! timer_tick in ticks n' end.

(** A tick moves every waiting timer one tick nearer. *)
Lemma tick_list_expiries L :
  expiries 0 L = ((fun f => (1, f)) <$> (tick_list L).2) ++
                 ((fun e => (e.1 + 1, e.2)) <$> expiries 0 (tick_list L).1).
Proof.
  destruct L as [|[d f] L]; [done|]. unfold tick_list. destruct (Z.eqb_spec d 1) as [->|Hd].
  - cbn [fst snd expiries fmap list_fmap app]. f_equal. apply (expiries_shift 0 1).
  - cbn [fst snd fmap list_fmap app]. rewrite <- expiries_shift. cbn [expiries].
    by replace (0 + 1 + (d - 1)) with (0 + d) by lia.
Qed.

Lemma tick_list_good L : Forall good L -> Forall good (tick_list L).1.
Proof.
  intros HL. inversion HL as [|[d f] L' [Hd Hf] HL']; subst; [done|]. simpl in *. unfold tick_list.
  destruct (Z.eqb_spec d 1); [done|]. apply Forall_cons. split; [split; simpl; [lia|done]|done].
Qed.

Lemma expiries_later now L : Forall good L -> Forall (fun e => now < e.1) (expiries now L).
Proof.
  intros HL. revert now. induction HL as [|[d f] L [Hd Hf] HL IH]; intros now; simpl in *; constructor.
  - simpl. lia.
  - eapply Forall_impl; [apply IH|]. intros e He. simpl in He. lia.
Qed.

Lemma filter_all {A} (P : A -> Prop) `{!forall x, Decision (P x)} l : Forall P l -> filter P l = l.
Proof. intros Hl. induction Hl as [|x l Hx Hl IH]; [done|]. rewrite filter_cons_True by done. by rewrite IH. Qed.

Lemma filter_none {A} (P : A -> Prop) `{!forall x, Decision (P x)} l :
  Forall (fun x => ~ P x) l -> filter P l = [].
Proof. intros Hl. induction Hl as [|x l Hx Hl IH]; [done|]. by rewrite filter_cons_False. Qed.

Lemma filter_shift_le k (l : list (Z * Z)) :
  filter (fun e => e.1 <= k + 1) ((fun e => (e.1 + 1, e.2)) <$> l) =
  (fun e => (e.1 + 1, e.2)) <$> filter (fun e => e.1 <= k) l.
Proof.
  induction l as [|[a b] l IH]; [done|]. rewrite fmap_cons. destruct (decide (a <= k)).
  - rewrite !filter_cons_True by (simpl; lia). by rewrite fmap_cons, IH.
  - rewrite !filter_cons_False by (simpl; lia). by rewrite IH.
Qed.

Lemma filter_shift_gt k (l : list (Z * Z)) :
  filter (fun e => ~ e.1 <= k + 1) ((fun e => (e.1 + 1, e.2)) <$> l) =
  (fun e => (e.1 + 1, e.2)) <$> filter (fun e => ~ e.1 <= k) l.
Proof.
  induction l as [|[a b] l IH]; [done|]. rewrite fmap_cons. destruct (decide (a <= k)).
  - rewrite !filter_cons_False by (simpl; lia). by rewrite IH.
  - rewrite !filter_cons_True by (simpl; lia). by rewrite fmap_cons, IH.
Qed.

(** C35: after [n] ticks exactly the timers due by then have fired, in the
    order of their times, and the others are still waiting for the rest of
    theirs. *)
Theorem ticks_spec n (s : sched) idx L :
  timers s idx L ->
  exists s' idx' L', ticks n s = Ok tt s' /\ timers s' idx' L' /\
    calls s' = calls s ++ (snd <$> filter (fun e => e.1 <= Z.of_nat n) (expiries 0 L)) /\
    expiries (Z.of_nat n) L' = filter (fun e => ~ e.1 <= Z.of_nat n) (expiries 0 L).
Proof.
  revert s idx L. induction n as [|n IH]; intros s idx L HT.
  { exists s, idx, L. pose proof (expiries_later 0 L (timers_good _ _ _ HT)) as Hl.
    rewrite (filter_none (fun e => e.1 <= _)) by (eapply Forall_impl; [exact Hl|]; simpl; lia).
    rewrite (filter_all (fun e => ~ e.1 <= _)) by (eapply Forall_impl; [exact Hl|]; simpl; lia).
    split; [done|]. split; [done|]. split; [by rewrite app_nil_r|done]. }
  destruct (timer_tick_spec s idx L HT) as (s1 & idx1 & H1 & HT1 & Hc1 & _).
  destruct (IH _ _ _ HT1) as (s2 & idx2 & L2 & H2 & HT2 & Hc2 & He2).
  exists s2, idx2, L2. split; [cbn [ticks]; by rewrite (bind_ok _ _ _ _ _ H1)|]. split; [done|].
  rewrite Nat2Z.inj_succ, <- Z.add_1_r. rewrite (tick_list_expiries L), !filter_app.
  rewrite filter_shift_le, filter_shift_gt, <- He2, <- expiries_shift.
  rewrite (filter_all (fun e => e.1 <= _)), (filter_none (fun e => ~ e.1 <= _))
    by (apply Forall_fmap, Forall_true; simpl; lia).
  split; [|done]. rewrite Hc2, Hc1, <- app_assoc. f_equal. rewrite fmap_app, <- !list_fmap_compose. f_equal.
  symmetry. apply list_fmap_id.
Qed.
