(* ===== verification/WaitQueue.v ===== *)
(** * Wait queues

    The tasks sleeping on a queue form a list through the [tmp] variables on
    their kernel stacks.  A system of tasks is a scheduler state with the
    [sleep_on] calls in progress; its steps are the pieces of code between two
    points where the processor changes hands. *)

From Stdlib Require Import ZArith Lia.
From stdpp Require Import base numbers list gmap strings.
From S2P Require Import Prelude Task Sched SchedProofs Timers.

(** [in_sleep] maps a sleeping task to its queue and its [tmp]. *)
Record system := System { sch : sched; in_sleep : gmap Z (Z * option Z) }.
#[global] Instance system_fields : Fields system := fun x => System (sch x) (in_sleep x).
#[global] Instance set_sch : Setter sch := ltac:(solve_setter).
#[global] Instance set_in_sleep : Setter in_sleep := ltac:(solve_setter).

Definition on_sched {A} (m : M sched A) : M system A := zoom sch (fun t s => s <| sch := t |>) m.

Inductive event : Type :=
| Sleep (q : Z)      (** the current task calls [sleep_on] *)
| Resume             (** the current task returns from the call of [schedule] in [sleep_on] *)
| Wake (q : Z)       (** the current task or an interrupt calls [wake_up] *)
| Pause.             (** the current task waits for a signal *)

Definition step (e : event) : M system unit :=
  match e with
  | Sleep q =>
    let! c := gets (fun s => current (sch s)) in
    let! tmp := on_sched (sleep_on q) in
    modify (fun s => s <| in_sleep ::= fun m => <[c := (q, tmp)]> m |>)
  | Resume =>
    let! c := gets (fun s => current (sch s)) in
    let! f := gets (fun s => in_sleep s !! c) in
    let! ' (q, tmp) := valid f in
    do! modify (fun s => s <| in_sleep ::= delete c |>) in
    on_sched (sleep_on_resume q tmp)
  | Wake q => on_sched (wake_up q)
  | Pause => do! on_sched sys_pause in ret tt
  end.

Fixpoint steps (es : list event) : M system unit :=
  match es with [] => ret tt | e :: es => do! step e in steps es end.

(** The tasks [l] sleep on [q], the last to come first: the queue points to
    the first, and each holds the next one in its [tmp]. *)
Fixpoint linked (f : gmap Z (Z * option Z)) (q : Z) (head : option Z) (l : list Z) : Prop :=
  match l with
  | [] => head = None
  | i :: l => head = Some i /\ exists tmp, f !! i = Some (q, tmp) /\ linked f q tmp l
  end.

(** The returns of the sleepers from [sleep_on], in the order of the list. *)
Fixpoint resume_all (f : gmap Z (Z * option Z)) (l : list Z) : M sched unit :=
  match l with
  | [] => ret tt
  | i :: l =>
    let! ' (q, tmp) := valid (f !! i) in
    do! sleep_on_resume q tmp in
    resume_all f l
  end.

Definition wake_and_resume (f : gmap Z (Z * option Z)) (q : Z) (l : list Z) : M sched unit :=
  do! wake_up q in resume_all f l.

(** ** Running tasks *)

Definition run_task (t : task_struct) : task_struct := t <| state := TASK_RUNNING |>.

(** The tasks of [l] are runnable in [s'], the others as in [s]. *)
Definition woken (l : list Z) (s s' : sched) : Prop :=
  forall i, task_at s' i = if decide (i ∈ l) then run_task <$> task_at s i else task_at s i.

Lemma task_at_update (s : sched) i t j :
  task_at s i <> None ->
  task_at (s <| task ::= fun l => setz l i (Some t) |>) j = if decide (j = i) then Some t else task_at s j.
Proof.
  intros Hi. unfold task_at. upd. case_decide as E.
  - subst j. rewrite getz_setz_eq; [done|]. unfold task_at in Hi.
    destruct (getz (task s) i) eqn:E; [exact (getz_Some_lt _ _ _ E)|done].
  - by rewrite getz_setz_ne by done.
Qed.

Lemma make_running_spec (s : sched) i :
  task_at s i <> None ->
  exists s', make_running i s = Ok tt s' /\ woken [i] s s' /\ waitq s' = waitq s.
Proof.
  intros Hi. unfold make_running, update_task, bind, gets.
  destruct (task_at s i) as [t|] eqn:Ht; [|done]. cbn [valid]. unfold ret, modify.
  eexists. split; [reflexivity|]. split; [|by upd]. intros j.
  rewrite task_at_update by (by rewrite Ht). repeat case_decide; subst; try set_solver.
  by rewrite Ht.
Qed.

Lemma woken_in (l : list Z) (s s' : sched) i : woken l s s' -> task_at s i <> None -> task_at s' i <> None.
Proof. intros Hw. rewrite Hw. case_decide; [|done]. by destruct (task_at s i). Qed.

Lemma woken_trans l1 l2 s1 s2 s3 : woken l1 s1 s2 -> woken l2 s2 s3 -> woken (l1 ++ l2) s1 s3.
Proof.
  intros H1 H2 i. rewrite H2, H1. repeat case_decide; try set_solver.
  destruct (task_at s1 i); done.
Qed.

Lemma sleep_on_resume_spec (s : sched) q tmp :
  q <> 0 -> (forall i, tmp = Some i -> task_at s i <> None) ->
  exists s', sleep_on_resume q tmp s = Ok tt s' /\
    woken (match tmp with Some i => [i] | None => [] end) s s' /\
    waitq s' = partial_alter (fun _ => tmp) q (waitq s).
Proof.
  intros Hq Ht. unfold sleep_on_resume. rewrite (proj2 (Z.eqb_neq _ _) Hq).
  unfold bind at 1, modify. destruct tmp as [i|].
  - destruct (make_running_spec (set_queue q (Some i) s) i) as (s' & H1 & H2 & H3); [by apply Ht|].
    exists s'. split; [exact H1|]. split; [exact H2|]. exact H3.
  - eexists. split; [reflexivity|]. split; [|done]. intros i. by case_decide; [set_solver|].
Qed.

Lemma resume_all_spec f q l (s : sched) head :
  q <> 0 -> linked f q head l -> (forall i, i ∈ l -> task_at s i <> None) ->
  exists s', resume_all f l s = Ok tt s' /\ woken (drop 1 l) s s' /\
    waitq s' = match l with [] => waitq s | _ => delete q (waitq s) end.
Proof.
  intros Hq. revert s head. induction l as [|i l IH]; intros s head Hl Hin.
  { exists s. split; [done|]. split; [|done]. intros j. by case_decide; [set_solver|]. }
  destruct Hl as (_ & tmp & Hf & Hl). cbn [resume_all]. unfold bind at 1. rewrite Hf. cbn [valid].
  unfold ret at 1.
  assert (match tmp with Some i => [i] | None => [] end = take 1 l) as Htake.
  { destruct l; simpl in Hl; [by subst|by destruct Hl as [-> _]]. }
  destruct (sleep_on_resume_spec s q tmp Hq) as (s1 & H1 & Hw1 & Hq1).
  { intros j ->. apply Hin. destruct l as [|k l]; [done|]. destruct Hl as [[= ->] _]. set_solver. }
  rewrite Htake in Hw1.
  destruct (IH s1 tmp Hl) as (s2 & H2 & Hw2 & Hq2).
  { intros j Hj. apply (woken_in _ _ _ _ Hw1). set_solver. }
  exists s2. split; [by rewrite (bind_ok _ _ _ _ _ H1)|]. split.
  - cbn [drop]. rewrite drop_0. rewrite <- (take_drop 1 l) at 1. by apply (woken_trans _ _ s s1 s2).
  - rewrite Hq2, Hq1. destruct l as [|k l]; simpl in Hl.
    + by subst tmp.
    + apply map_eq. intros p. destruct (decide (p = q)) as [->|Hne].
      * by rewrite !lookup_delete_eq.
      * by rewrite !lookup_delete_ne, lookup_partial_alter_ne by done.
Qed.

(** C34: one [wake_up] frees the whole queue, as long as nobody goes to sleep
    on it meanwhile: the last task to come is made runnable, each task makes
    the one before it runnable as it returns from [sleep_on], and when the
    last has returned all are runnable, the queue is empty, and no other task
    has changed. *)
Theorem wake_up_chain (s : sched) f q l :
  q <> 0 -> l <> [] -> linked f q (waitq s !! q) l -> (forall i, i ∈ l -> task_at s i <> None) ->
  exists s', wake_and_resume f q l s = Ok tt s' /\ woken l s s' /\ waitq s' = delete q (waitq s).
Proof.
  intros Hq Hne Hl Hin. destruct l as [|i l]; [done|]. pose proof Hl as (Hhead & _).
  destruct (make_running_spec s i) as (s1 & H1 & Hw1 & Hq1); [apply Hin; set_solver|].
  assert (wake_up q s = Ok tt (set_queue q None s1)) as Hwake.
  { unfold wake_up, bind at 1, gets. rewrite Hhead, (proj2 (Z.eqb_neq _ _) Hq).
    by rewrite (bind_ok _ _ _ _ _ H1). }
  destruct (resume_all_spec f q (i :: l) (set_queue q None s1) _ Hq Hl) as (s2 & H2 & Hw2 & Hq2).
  { intros j Hj. apply (woken_in _ _ _ _ Hw1). by apply Hin. }
  exists s2. split; [unfold wake_and_resume; by rewrite (bind_ok _ _ _ _ _ Hwake)|]. split.
  - by apply (woken_trans [i] l s s1 s2).
  - rewrite Hq2. unfold set_queue. upd. by rewrite Hq1, delete_delete_eq.
Qed.

(** ** A wake-up can be lost *)

(** A task with a given time slice, and three of them besides the idle task. *)
Definition plain_task (n cnt : Z) : task_struct :=
  (INIT_TASK 0 0) <| state := TASK_RUNNING |> <| counter := cnt |> <| pid := n |>.
Definition idle_sched (tasks : list (option task_struct)) : sched :=
  Sched (take 64 (tasks ++ replicate 64 None)) (replicate 64 0) 1 None [] 0 0 3 ∅ []
    (replicate 4 0) (replicate 4 0) 0x0c 0 (replicate 64 (Timer 0 0 None)) None [] 0 [].
Definition three_tasks : system :=
  System (idle_sched [Some (plain_task 0 15); Some (plain_task 1 15); Some (plain_task 2 14);
                      Some (plain_task 3 13)]) ∅.

(** Tasks 1 and 2 sleep; the queue is woken; task 3 sleeps on it before
    task 2 has run again; tasks 2 and 1 return. *)
Definition lost_run (q : Z) : list event := [Sleep q; Sleep q; Wake q; Sleep q; Resume; Pause; Resume].

(** The assignment [*p = tmp] after [schedule] in [sleep_on] can overwrite
    a newer sleeper: in this run the queue ends up empty although task 3 sleeps
    on it uninterruptibly, and every later [wake_up] of the queue leaves task 3
    asleep. *)
Theorem sleep_on_lost_wakeup :
  exists s', steps (lost_run 100) three_tasks = Ok tt s' /\
    in_sleep s' !! 3 = Some (100, None) /\
    (exists t, task_at (sch s') 3 = Some t /\ state t = TASK_UNINTERRUPTIBLE) /\
    waitq (sch s') !! 100 = None /\ step (Wake 100) s' = Ok tt s'.
Proof.
  eexists. split; [vm_compute; reflexivity|]. split; [vm_compute; reflexivity|].
  split; [eexists; split; vm_compute; reflexivity|]. split; vm_compute; reflexivity.
Qed.

(** The same three sleepers without the race are all woken. *)
Lemma wake_up_chain_witness :
  let f := <[3 := (100, Some 2)]> (<[2 := (100, Some 1)]> {[1 := (100, None)]}) in
  let s := (sch three_tasks) <| waitq := {[100 := 3]} |> in
  exists s', wake_and_resume f 100 [3; 2; 1] s = Ok tt s' /\ woken [3; 2; 1] s s' /\ waitq s' = delete 100 (waitq s).
Proof.
  intros f s. apply (wake_up_chain s f 100 [3; 2; 1]); [lia|congruence|..].
  - split; [reflexivity|]. eexists. split; [reflexivity|]. split; [reflexivity|].
    eexists. split; [reflexivity|]. split; [reflexivity|]. eexists. split; reflexivity.
  - intros i Hi. assert (i = 3 \/ i = 2 \/ i = 1) as [->|[->| ->]] by set_solver; vm_compute; congruence.
Defined.

(** ** Concrete machines for the scheduler and the timers *)

(** A property of all entries of an array, checked entry by entry. *)
Lemma getz_check {A} (l : list A) (P : Z -> A -> bool) :
  forallb (fun i => match getz l i with Some x => P i x | None => true end) (seqZ 0 (lenz l)) = true ->
  forall i x, getz l i = Some x -> P i x = true.
Proof.
  intros Hall i x Hi. rewrite forallb_forall in Hall. specialize (Hall i). rewrite Hi in Hall.
  apply Hall, list_elem_of_In, elem_of_seqZ. pose proof (getz_Some_lt _ _ _ Hi). lia.
Qed.

(** Task 3 has the most time left. *)
Lemma schedule_spec_witness :
  let s := idle_sched [Some (plain_task 0 15); Some (plain_task 1 3); Some (plain_task 2 0);
                       Some (plain_task 3 8)] in
  exists l' n, schedule s = Ok tt (s <| task := l' |> <| current := n |>) /\ sane_tasks l'.
Proof.
  intros s. destruct (schedule_spec s) as (l' & n & H & Hs & _).
  { split; [reflexivity|]. repeat constructor; vm_compute; congruence. }
  exists l', n. split; [exact H|exact Hs].
Defined.

(** Two timers, due after 5 and 12 ticks. *)
Definition two_timers : sched :=
  (idle_sched [Some (plain_task 0 15); Some (plain_task 1 3)])
    <| timer_list := Timer 7 70 None :: Timer 5 50 (Some 0) :: replicate 62 (Timer 0 0 None) |>
    <| next_timer := Some 1 |>.

Lemma two_timers_ok : timers two_timers [1; 0] [(5, 50); (7, 70)].
Proof.
  split.
  - reflexivity.
  - split; [reflexivity|]. eexists. split; [reflexivity|]. split; [reflexivity|].
    eexists. split; reflexivity.
  - apply (bool_decide_unpack _). vm_compute. exact I.
  - reflexivity.
  - repeat constructor; simpl; lia.
  - intros i t Hi Ht.
    pose proof (getz_check (timer_list two_timers)
      (fun i t => bool_decide (i ∈ [1; 0]) || (t_fn t =? 0)) eq_refl i t Ht) as H.
    apply orb_true_iff in H as [H|H]; [by apply bool_decide_eq_true in H|by apply Z.eqb_eq in H].
Qed.

(** A timer for tick 10 goes between them, and delays the second by 5. *)
Lemma add_timer_spec_witness :
  exists s', add_timer 10 100 two_timers = Ok tt s' /\
    expiries 0 [(5, 50); (5, 100); (7, 70)] = [(5, 50); (10, 100); (17, 70)].
Proof.
  destruct (add_timer_spec two_timers [1; 0] [(5, 50); (7, 70)] 10 100 0 two_timers_ok)
    as (s' & idx & L1 & L2 & k & H & _); [lia|lia|vm_compute; reflexivity|].
  exists s'. split; [exact H|reflexivity].
Defined.

Lemma ticks_spec_witness :
  exists s', ticks 5 two_timers = Ok tt s' /\ calls s' = [50].
Proof.
  destruct (ticks_spec 5 two_timers [1; 0] [(5, 50); (7, 70)] two_timers_ok)
    as (s' & idx & L' & H & _ & Hc & _).
  exists s'. split; [exact H|]. rewrite Hc. reflexivity.
Defined.
