(* ===== verification/Vsprintf.v ===== *)
(** * Formatted output: kernel/vsprintf.c

    Characters are byte values.  The buffer is the list of the characters
    written to it so far, so that [str - buf] is its length.  The variable
    arguments are the list of 32-bit words on the caller's stack, and [mem]
    gives the C string (without its terminator) stored at an address. *)

From Stdlib Require Import ZArith Lia.
From stdpp Require Import base numbers list.
From S2P Require Import Prelude.

Definition is_digit (c : Z) : bool := (48 <=? c) && (c <=? 57).

(** [i * 10 + *s - '0'] in an [int]. *)
Fixpoint skip_atoi_from (i : Z) (s : list Z) : Z * list Z :=
  match s with
  | c :: s' => if is_digit c then skip_atoi_from (s32 (i * 10 + c - 48)) s' else (i, s)
  | [] => (i, [])
  end.
Definition skip_atoi (s : list Z) : Z * list Z := skip_atoi_from 0 s.

Definition ZEROPAD : Z := 1.
Definition SIGN : Z := 2.
Definition PLUS : Z := 4.
Definition SPACE : Z := 8.
Definition LEFT : Z := 16.
Definition SPECIAL : Z := 32.
Definition SMALL : Z := 64.

Definition has (type flag : Z) : bool := istrue (Z.land type flag).

(** ["0123456789ABC..."] or ["0123456789abc..."] at an index. *)
Definition digit_char (small : bool) (d : Z) : Z :=
  if d <? 10 then 48 + d else (if small then 97 else 65) + (d - 10).

(** [while (num != 0) tmp[i++] = digits[do_div(num, base)]]: [divl] divides
    the register as an unsigned number.  [tmp] lists the characters in the
    order they are stored, the low digit first. *)
Fixpoint number_digits (fuel : nat) (small : bool) (num base : Z) : list Z :=
  match fuel with
  | O => []
  | Datatypes.S fuel' =>
    if num =? 0 then []
    else digit_char small (num mod base) :: number_digits fuel' small (num / base) base
  end.

Definition number_tmp (small : bool) (num base : Z) : list Z :=
  if num =? 0 then [48] else number_digits 32 small num base.

(** [while (size-- > 0) *str++ = c]: what is written and the final [size]. *)
Definition pad (c size : Z) : list Z * Z := (replicate (Z.to_nat size) c, Z.min size 0 - 1).

(** The characters [number] writes; [None] when it returns a null pointer. *)
Definition number (num base size precision type : Z) : option (list Z) :=
  let small := has type SMALL in
  let type := if has type LEFT then Z.land type (Z.lnot ZEROPAD) else type in
  if (base <? 2) || (36 <? base) then None else
  let c := if has type ZEROPAD then 48 else 32 in
  let negative := has type SIGN && (num <? 0) in
  let sign := if negative then 45 else
    if has type PLUS then 43 else if has type SPACE then 32 else 0 in
  let num := if negative then s32 (- num) else num in
  let size := if istrue sign then size - 1 else size in
  let size :=
    if has type SPECIAL then
      if base =? 16 then size - 2 else if base =? 8 then size - 1 else size
    else size in
  let tmp := number_tmp small (u32 num) base in
  let i := lenz tmp in
  let precision := if precision <? i then i else precision in
  let size := size - precision in
  let '(out1, size) := if has type (ZEROPAD + LEFT) then ([], size) else pad 32 size in
  let out2 := if istrue sign then [sign] else [] in
  let out3 :=
    if has type SPECIAL then
      if base =? 8 then [48]
      else if base =? 16 then [48; digit_char small 33] else []
    else [] in
  let '(out4, size) := if has type LEFT then ([], size) else pad c size in
  let out5 := replicate (Z.to_nat (precision - i)) 48 in
  let '(out7, _) := pad 32 size in
  Some (out1 ++ out2 ++ out3 ++ out4 ++ out5 ++ rev tmp ++ out7).

(** [repeat: ++fmt; switch ( *fmt) ...], from the character after the ['%']. *)
Definition flag_of (c : Z) : Z :=
  if c =? 45 then LEFT else if c =? 43 then PLUS else if c =? 32 then SPACE
  else if c =? 35 then SPECIAL else if c =? 48 then ZEROPAD else 0.
Fixpoint parse_flags (fmt : list Z) (flags : Z) : list Z * Z :=
  match fmt with
  | c :: fmt' => if flag_of c =? 0 then (fmt, flags) else parse_flags fmt' (Z.lor flags (flag_of c))
  | [] => (fmt, flags)
  end.

(** [va_arg]: the next word, none when the caller passed too few. *)
Definition va_arg (args : list Z) : option (Z * list Z) :=
  match args with a :: args' => Some (a, args') | [] => None end.

Definition parse_width (fmt : list Z) (flags : Z) (args : list Z)
  : option (list Z * Z * Z * list Z) :=
  match fmt with
  | [] => Some (fmt, -1, flags, args)
  | c :: rest =>
    if is_digit c then let '(w, fmt) := skip_atoi fmt in Some (fmt, w, flags, args)
    else if c =? 42 then
      '(w, args) ← va_arg args;
      let w := s32 w in
      if w <? 0 then Some (rest, s32 (- w), Z.lor flags LEFT, args) else Some (rest, w, flags, args)
    else Some (fmt, -1, flags, args)
  end.

(** The number after the point. *)
Definition parse_precision_value (fmt args : list Z) : option (list Z * Z * list Z) :=
  match fmt with
  | [] => Some (fmt, -1, args)
  | c :: rest =>
    if is_digit c then let '(p, fmt) := skip_atoi fmt in Some (fmt, p, args)
    else if c =? 42 then '(p, args) ← va_arg args; Some (rest, s32 p, args)
    else Some (fmt, -1, args)
  end.

Definition parse_precision (fmt args : list Z) : option (list Z * Z * list Z) :=
  match fmt with
  | c :: rest =>
    if c =? 46 then
      '(fmt, p, args) ← parse_precision_value rest args;
      Some (fmt, if p <? 0 then 0 else p, args)
    else Some (fmt, -1, args)
  | [] => Some (fmt, -1, args)
  end.

Definition skip_qualifier (fmt : list Z) : list Z :=
  match fmt with
  | c :: fmt' => if (c =? 104) || (c =? 108) || (c =? 76) then fmt' else fmt
  | [] => []
  end.

(** ["<NULL>"] *)
Definition null_string : list Z := [60; 78; 85; 76; 76; 62].

(** [while (--field_width > 0) *str++ = ' '] *)
Definition pad_c (width : Z) : list Z * Z :=
  (replicate (Z.to_nat (width - 1)) 32, Z.min (width - 1) 0).
(** [while (len < field_width--) *str++ = ' '] *)
Definition pad_s (len width : Z) : list Z * Z :=
  (replicate (Z.to_nat (width - len)) 32, Z.min width len - 1).

Definition conv_char (flags width a : Z) : list Z :=
  let '(out1, width) := if has flags LEFT then ([], width) else pad_c width in
  let '(out2, _) := pad_c width in
  out1 ++ [u8 a] ++ out2.

Definition conv_string (mem : Z -> list Z) (flags width precision a : Z) : list Z :=
  let s := if istrue a then mem a else null_string in
  let len := lenz s in
  let len := if precision <? 0 then len else if precision <? len then precision else len in
  let '(out1, width) := if has flags LEFT then ([], width) else pad_s len width in
  let '(out2, _) := pad_s len width in
  out1 ++ take (Z.to_nat len) s ++ out2.

(** What one conversion does: the characters it writes, the words it stores
    through a [%n] pointer, and the arguments and format that remain. *)
Definition conversion (mem : Z -> list Z) (written : Z) (fmt : list Z)
    (flags width precision : Z) (args : list Z)
  : option (list Z * list (Z * Z) * list Z * list Z) :=
  let with_number base flags width fmt' :=
    '(a, args') ← va_arg args;
    out ← number (s32 a) base width precision flags;
    Some (out, [], args', fmt') in
  match fmt with
  | [] => Some ([37], [], args, [])
  | c :: fmt =>
    if c =? 99 then
      '(a, args) ← va_arg args; Some (conv_char flags width a, [], args, fmt)
    else if c =? 115 then
      '(a, args) ← va_arg args; Some (conv_string mem flags width precision a, [], args, fmt)
    else if c =? 111 then with_number 8 flags width fmt
    else if c =? 112 then
      if width =? -1 then with_number 16 (Z.lor flags ZEROPAD) 8 fmt else with_number 16 flags width fmt
    else if c =? 120 then with_number 16 (Z.lor flags SMALL) width fmt
    else if c =? 88 then with_number 16 flags width fmt
    else if (c =? 100) || (c =? 105) then with_number 10 (Z.lor flags SIGN) width fmt
    else if c =? 117 then with_number 10 flags width fmt
    else if c =? 110 then
      '(a, args) ← va_arg args; Some ([], [(a, written)], args, fmt)
    else if c =? 37 then Some ([37], [], args, fmt)
    else Some ([37; c], [], args, fmt)
  end.

(** The loop of [vsprintf]; one unit of fuel per iteration. *)
Fixpoint vsprintf_loop (fuel : nat) (mem : Z -> list Z) (out : list Z) (stores : list (Z * Z))
    (fmt args : list Z) : option (list Z * list (Z * Z)) :=
  match fuel with
  | O => None
  | Datatypes.S fuel' =>
    match fmt with
    | [] => Some (out, stores)
    | c :: fmt' =>
      if negb (c =? 37) then vsprintf_loop fuel' mem (out ++ [c]) stores fmt' args
      else
        let '(fmt, flags) := parse_flags fmt' 0 in
        '(fmt, width, flags, args) ← parse_width fmt flags args;
        '(fmt, precision, args) ← parse_precision fmt args;
        '(text, st, args, fmt) ←
          conversion mem (lenz out) (skip_qualifier fmt) flags width precision args;
        vsprintf_loop fuel' mem (out ++ text) (stores ++ st) fmt args
    end
  end.

(** The buffer (with its terminator), the stores of [%n] and the result. *)
Definition vsprintf (mem : Z -> list Z) (fmt args : list Z)
  : option (list Z * list (Z * Z) * Z) :=
  '(out, stores) ← vsprintf_loop (Datatypes.S (length fmt)) mem [] [] fmt args;
  Some (out ++ [0], stores, lenz out).

(** ** The digits of a number *)

(** The value of a digit character in any base up to 36. *)
Definition digit_value (c : Z) : Z :=
  if c <=? 57 then c - 48 else if c <=? 90 then c - 55 else c - 87.

(** The number a list of digits denotes, the high digit first. *)
Definition denotes (base : Z) (l : list Z) : Z :=
  foldl (fun v c => v * base + digit_value c) 0 l.

Lemma digit_value_char small d : 0 <= d < 36 -> digit_value (digit_char small d) = d.
Proof. intros Hd. unfold digit_value, digit_char. destruct small; zcases; lia. Qed.

Lemma denotes_snoc base l c : denotes base (l ++ [c]) = denotes base l * base + digit_value c.
Proof. unfold denotes. by rewrite foldl_app. Qed.

Lemma number_digits_denotes small base fuel num :
  2 <= base <= 36 -> 0 <= num < base ^ Z.of_nat fuel ->
  denotes base (rev (number_digits fuel small num base)) = num.
Proof.
  intros Hb. revert num. induction fuel as [|fuel IH]; intros num Hn; cbn [number_digits].
  - simpl in *. change (base ^ Z.of_nat 0) with 1 in Hn. unfold denotes. simpl. lia.
  - destruct (Z.eqb_spec num 0) as [->|Hne]; [done|]. cbn [rev]. rewrite denotes_snoc, IH.
    + rewrite digit_value_char; [pose proof (Z.div_mod num base); lia|].
      pose proof (Z.mod_pos_bound num base). lia.
    + rewrite Nat2Z.inj_succ, Z.pow_succ_r in Hn by lia.
      split; [apply Z.div_pos; lia|apply Z.div_lt_upper_bound; lia].
Qed.

Lemma number_tmp_denotes small base num :
  2 <= base <= 36 -> is_u32 num -> denotes base (rev (number_tmp small num base)) = num.
Proof.
  intros Hb Hn. unfold number_tmp. destruct (Z.eqb_spec num 0) as [->|]; [done|].
  apply number_digits_denotes; [done|]. unfold is_u32 in Hn. split; [lia|].
  apply Z.lt_le_trans with (2 ^ 32); [lia|]. apply (Z.pow_le_mono_l 2 base 32). lia.
Qed.

Lemma number_tmp_length small base num :
  2 <= base <= 36 -> is_u32 num -> 1 <= lenz (number_tmp small num base) <= 32.
Proof.
  intros Hb Hn. unfold number_tmp. destruct (Z.eqb_spec num 0) as [->|Hne]; [done|].
  unfold lenz. split.
  - cbn [number_digits]. rewrite (proj2 (Z.eqb_neq _ _)) by done. cbn [length]. lia.
  - assert (forall f n, (length (number_digits f small n base) <= f)%nat) as H.
    { induction f as [|f IH]; intros n; cbn [number_digits]; [simpl; lia|].
      destruct (n =? 0); simpl; [lia|]. specialize (IH (n / base)). lia. }
    specialize (H 32%nat num). lia.
Qed.

(** ** The shape of the field *)

(** The sign character of a number, 0 for none, and its magnitude. *)
Definition number_sign (num type : Z) : Z :=
  if has type SIGN && (num <? 0) then 45 else
  if has type PLUS then 43 else if has type SPACE then 32 else 0.
Definition number_magnitude (num type : Z) : Z :=
  if has type SIGN && (num <? 0) then - num else u32 num.

(** The characters of the sign and of the [0] or [0x] prefix. *)
Definition sign_text (num type : Z) : list Z :=
  if istrue (number_sign num type) then [number_sign num type] else [].
Definition prefix_text (base type : Z) : list Z :=
  if has type SPECIAL then
    if base =? 8 then [48]
    else if base =? 16 then [48; digit_char (has type SMALL) 33] else []
  else [].

Lemma has_strip type f :
  has f ZEROPAD = false -> 0 <= f -> has (Z.land type (Z.lnot ZEROPAD)) f = has type f.
Proof.
  unfold has, istrue. intros Hf H0. rewrite <- Z.land_assoc. do 2 f_equal. f_equal.
  change ZEROPAD with (2 ^ 0) in *. rewrite Z.land_comm, <- Z.ldiff_land.
  apply Z.bits_inj_iff'. intros n Hn. rewrite Z.ldiff_spec.
  destruct (decide (n = 0)) as [->|Hne].
  - rewrite negb_false_iff, Z.eqb_eq in Hf. apply (f_equal (fun z => Z.testbit z 0)) in Hf.
    rewrite Z.land_spec, Z.bits_0 in Hf. by destruct (Z.testbit f 0).
  - rewrite Z.pow2_bits_false by lia. by rewrite andb_true_r.
Qed.

Lemma has_or type f g : has type (Z.lor f g) = has type f || has type g.
Proof.
  unfold has, istrue. rewrite Z.land_lor_distr_r.
  destruct (Z.eqb_spec (Z.land type f) 0) as [->|Hf]; simpl; [by rewrite Z.lor_0_l|].
  destruct (Z.eqb_spec (Z.lor (Z.land type f) (Z.land type g)) 0) as [E|]; [|done].
  apply Z.lor_eq_0_l in E. done.
Qed.

(** The flags [number] looks at: LEFT cancels ZEROPAD and no other flag. *)
Lemma number_flags type :
  let t := if has type LEFT then Z.land type (Z.lnot ZEROPAD) else type in
  has t SIGN = has type SIGN /\ has t PLUS = has type PLUS /\ has t SPACE = has type SPACE /\
  has t SPECIAL = has type SPECIAL /\ has t LEFT = has type LEFT /\
  has t ZEROPAD = has type ZEROPAD && negb (has type LEFT).
Proof.
  intros t. subst t. destruct (has type LEFT) eqn:HL.
  - rewrite !has_strip by done. rewrite HL, andb_false_r. split_and!; [done..|].
    unfold has. rewrite <- Z.land_assoc. change (Z.land (Z.lnot ZEROPAD) ZEROPAD) with 0.
    by rewrite Z.land_0_r.
  - rewrite HL, andb_true_r. done.
Qed.

Lemma magnitude_u32 num type :
  is_s32 num ->
  u32 (if has type SIGN && (num <? 0) then s32 (- num) else num) = number_magnitude num type.
Proof.
  unfold is_s32, number_magnitude. intros Hn. destruct (has type SIGN && (num <? 0)) eqn:E; [|done].
  apply andb_true_iff in E as [_ E]. apply Z.ltb_lt in E.
  unfold s32, u32. dmlia.
Qed.

Lemma number_magnitude_u32 num type : is_s32 num -> is_u32 (number_magnitude num type).
Proof. intros Hn. rewrite <- magnitude_u32 by done. apply u32_range. Qed.

(** The layout of the field, for a width that already leaves room for the sign,
    the prefix and the digits. *)
Lemma number_layout size (left zero : bool) :
  let c := if zero && negb left then 48 else 32 in
  let '(out1, size1) := if left || (zero && negb left) then ([], size) else pad 32 size in
  let '(out4, size4) := if left then ([], size1) else pad c size1 in
  let '(out7, _) := pad 32 size4 in
  Forall (fun c : Z => c = 32) out1 /\ Forall (fun c : Z => c = 32) out7 /\
  Forall (fun c : Z => c = 32 \/ c = 48) out4 /\
  lenz out1 + lenz out4 + lenz out7 = Z.max size 0.
Proof.
  assert (forall (c : Z) n, Forall (fun x => x = c) (replicate n c)) as Hrep.
  { intros c n. apply Forall_forall. intros x Hx. by apply elem_of_replicate in Hx as [-> _]. }
  assert (forall n, Forall (fun x : Z => x = 32 \/ x = 48) (replicate n 48)) as Hrep0.
  { intros n. eapply Forall_impl; [apply Hrep|]. intros x ->. by right. }
  destruct left, zero; cbn -[Z.max Z.min]; unfold lenz; rewrite ?length_replicate; simpl length.
  all: split_and!; try apply Hrep; try apply Hrep0; try constructor; try lia.
  all: eapply Forall_impl; [apply (Hrep 32)|]; intros x ->; by left.
Qed.

Lemma pad_length c size : lenz (pad c size).1 = Z.max size 0.
Proof. unfold pad. simpl. rewrite lenz_replicate. lia. Qed.



(** ** Printing and scanning *)

Lemma skip_atoi_digits l rest i :
  Forall (fun c => is_digit c = true) l -> 0 <= i ->
  foldl (fun v c => v * 10 + digit_value c) i l < 2147483648 ->
  match rest with c :: _ => is_digit c = false | [] => True end ->
  skip_atoi_from i (l ++ rest) = (foldl (fun v c => v * 10 + digit_value c) i l, rest).
Proof.
  intros Hl. revert i. induction Hl as [|c l Hc Hl IH]; intros i Hi Hb Hr.
  - simpl. destruct rest as [|c rest]; [done|]. simpl. by rewrite Hr.
  - cbn [app skip_atoi_from foldl] in *. rewrite Hc. unfold is_digit in Hc. breflect.
    assert (digit_value c = c - 48) as E by (unfold digit_value; zcases; lia).
    rewrite E in *.
    assert (forall v, 0 <= v -> v <= foldl (fun v c => v * 10 + digit_value c) v l) as Hmono.
    { clear -Hl. induction Hl as [|c l Hc Hl IH]; intros v Hv; simpl; [lia|].
      unfold is_digit in Hc. breflect.
      assert (digit_value c = c - 48) as -> by (unfold digit_value; zcases; lia).
      specialize (IH (v * 10 + (c - 48))). lia. }
    pose proof (Hmono (i * 10 + (c - 48)) ltac:(lia)).
    rewrite s32_id by (unfold is_s32; lia).
    replace (i * 10 + c - 48) with (i * 10 + (c - 48)) by lia. apply IH; [lia|done|done].
Qed.

Lemma number_tmp_decimal small num :
  is_u32 num -> Forall (fun c => is_digit c = true) (rev (number_tmp small num 10)).
Proof.
  intros Hn. unfold number_tmp. destruct (num =? 0); [by repeat constructor|].
  assert (forall fuel n, 0 <= n -> Forall (fun c => is_digit c = true) (number_digits fuel small n 10)) as H.
  { induction fuel as [|fuel IH]; intros n H0; cbn [number_digits]; [constructor|].
    destruct (n =? 0); constructor; [|apply IH; dmlia].
    assert (0 <= n mod 10 < 10) by (apply Z.mod_pos_bound; lia).
    unfold digit_char, is_digit. zcases; try lia; done. }
  apply Forall_rev, H. apply Hn.
Qed.

Lemma number_plain num :
  number num 10 (-1) (-1) 0 = Some (rev (number_tmp false (u32 num) 10)).
Proof.
  unfold number. cbv zeta. change (has 0 LEFT) with false. cbv iota. change (has 0 SMALL) with false.
  change (has 0 SIGN) with false. change (has 0 PLUS) with false. change (has 0 SPACE) with false.
  change (has 0 SPECIAL) with false. change (has 0 ZEROPAD) with false.
  change (has 0 (ZEROPAD + LEFT)) with false. change ((10 <? 2) || (36 <? 10)) with false.
  change (istrue 0) with false. cbn [andb]. cbv beta iota zeta.
  pose proof (number_tmp_length false 10 (u32 num) ltac:(lia) (u32_range num)) as Hl.
  set (tmp := number_tmp false (u32 num) 10) in *.
  rewrite (proj2 (Z.ltb_lt (-1) _)) by lia. rewrite Z.sub_diag. unfold pad.
  change (has 0 LEFT) with false. change (istrue 0) with false. cbv beta iota zeta.
  replace (Z.to_nat (-1 - lenz tmp)) with 0%nat by lia.
  replace (Z.to_nat (Z.min (-1 - lenz tmp) 0 - 1)) with 0%nat by lia.
  replace (Z.to_nat (Z.min (Z.min (-1 - lenz tmp) 0 - 1) 0 - 1)) with 0%nat by lia.
  simpl. by rewrite app_nil_r.
Qed.

(** The scanner [skip_atoi] reads back what [number] prints in base ten,
    for every non-negative [int], and stops at the first character that is
    not a digit. *)
Theorem number_skip_atoi num rest :
  0 <= num < 2147483648 ->
  match rest with c :: _ => is_digit c = false | [] => True end ->
  exists out, number num 10 (-1) (-1) 0 = Some out /\ skip_atoi (out ++ rest) = (num, rest).
Proof.
  intros Hn Hr. eexists. split; [apply number_plain|].
  assert (is_u32 num) as Hu by (unfold is_u32; lia). rewrite (u32_id num Hu).
  pose proof (number_tmp_denotes false 10 num ltac:(lia) Hu) as Hd. unfold denotes in Hd.
  unfold skip_atoi.
  rewrite skip_atoi_digits; [by rewrite Hd|by apply number_tmp_decimal|lia|lia|done].
Qed.

Lemma number_skip_atoi_witness :
  exists out, number 1991 10 (-1) (-1) 0 = Some out /\ skip_atoi (out ++ [46; 49]) = (1991, [46; 49]).
Proof. apply (number_skip_atoi 1991 [46; 49]); [lia|reflexivity]. Defined.

(** ** The loop terminates *)

Lemma skip_atoi_length s i : (length (skip_atoi_from i s).2 <= length s)%nat.
Proof.
  revert i. induction s as [|c s IH]; intros i; simpl; [lia|].
  destruct (is_digit c); simpl; [specialize (IH (s32 (i * 10 + c - 48))); lia|lia].
Qed.

(** A step on the format and the arguments leaves no more format than before,
    and no more format than arguments when there were enough. *)
Definition progress (fmt args fmt' args' : list Z) : Prop :=
  (length fmt' <= length fmt)%nat /\ (length fmt' <= length args')%nat.

Ltac progress_lia := unfold progress in *; simpl in *; lia.

Lemma parse_flags_length fmt flags : (length (parse_flags fmt flags).1 <= length fmt)%nat.
Proof.
  revert flags. induction fmt as [|c fmt IH]; intros flags; [done|]. cbn [parse_flags].
  destruct (flag_of c =? 0); simpl; [lia|]. specialize (IH (Z.lor flags (flag_of c))). lia.
Qed.

Lemma scan_progress (fmt args : list Z) :
  (length fmt <= length args)%nat ->
  let '(w, fmt') := skip_atoi fmt in progress fmt args fmt' args.
Proof.
  intros Hlen. pose proof (skip_atoi_length fmt 0) as H. unfold skip_atoi.
  destruct (skip_atoi_from 0 fmt) as [w fmt']. progress_lia.
Qed.

Lemma parse_width_total fmt flags args :
  (length fmt <= length args)%nat ->
  exists fmt' w f args', parse_width fmt flags args = Some (fmt', w, f, args') /\
    progress fmt args fmt' args'.
Proof.
  intros Hlen. pose proof (scan_progress fmt args Hlen) as Hs. unfold parse_width.
  destruct fmt as [|c rest]; [eexists _, _, _, _; split; [done|progress_lia]|].
  destruct (is_digit c).
  { destruct (skip_atoi _) as [w fmt']. eauto 10. }
  destruct (c =? 42); [|eexists _, _, _, _; split; [done|progress_lia]].
  destruct args as [|a args]; [progress_lia|]. simpl.
  destruct (s32 a <? 0); eexists _, _, _, _; (split; [done|progress_lia]).
Qed.

Lemma parse_precision_total fmt args :
  (length fmt <= length args)%nat ->
  exists fmt' p args', parse_precision fmt args = Some (fmt', p, args') /\ progress fmt args fmt' args'.
Proof.
  intros Hlen. unfold parse_precision. destruct fmt as [|c rest];
    [eexists _, _, _; split; [done|progress_lia]|].
  destruct (c =? 46); [|eexists _, _, _; split; [done|progress_lia]].
  assert (length rest <= length args)%nat as Hr by progress_lia.
  pose proof (scan_progress rest args Hr) as Hs. unfold parse_precision_value.
  destruct rest as [|d rest]; [eexists _, _, _; split; [done|progress_lia]|].
  destruct (is_digit d).
  { destruct (skip_atoi _) as [w fmt']. eexists _, _, _. split; [done|progress_lia]. }
  destruct (d =? 42); [|eexists _, _, _; split; [done|progress_lia]].
  destruct args as [|a args]; [progress_lia|].
  eexists _, _, _. split; [done|progress_lia].
Qed.

Lemma number_total num base size precision type :
  2 <= base <= 36 -> exists out, number num base size precision type = Some out.
Proof.
  intros Hb. unfold number.
  assert ((base <? 2) || (36 <? base) = false) as -> by (apply orb_false_iff; zcases; lia).
  repeat case_match; eauto.
Qed.

Lemma conversion_total mem n fmt flags w p args :
  (length fmt <= length args)%nat ->
  exists text st args' fmt', conversion mem n fmt flags w p args = Some (text, st, args', fmt') /\
    progress fmt args fmt' args'.
Proof.
  intros Hlen. unfold conversion. destruct fmt as [|c fmt];
    [eexists _, _, _, _; split; [done|progress_lia]|].
  destruct args as [|a args]; [progress_lia|]. simpl.
  repeat lazymatch goal with
  | |- context [number ?n ?b ?s ?pr ?t] =>
    let out := fresh in let E := fresh in destruct (number_total n b s pr t) as [out E]; [lia|];
    rewrite E; clear E
  end. simpl.
  repeat case_match; eexists _, _, _, _; (split; [reflexivity|progress_lia]).
Qed.

Lemma skip_qualifier_length fmt : (length (skip_qualifier fmt) <= length fmt)%nat.
Proof. destruct fmt as [|c fmt]; simpl; [lia|]. destruct (_ || _); simpl; lia. Qed.

Lemma vsprintf_loop_total mem fuel out st fmt args :
  (length fmt < fuel)%nat -> (length fmt <= length args)%nat ->
  exists r, vsprintf_loop fuel mem out st fmt args = Some r.
Proof.
  revert out st fmt args. induction fuel as [|fuel IH]; intros out st fmt args Hf Ha; [lia|].
  cbn [vsprintf_loop]. destruct fmt as [|c fmt]; [eauto|]. simpl in Hf, Ha.
  destruct (negb (c =? 37)); [apply IH; lia|].
  pose proof (parse_flags_length fmt 0) as H1. destruct (parse_flags fmt 0) as [fmt1 flags]. simpl in H1.
  destruct (parse_width_total fmt1 flags args) as (fmt2 & w & f & args2 & -> & H2); [lia|]. simpl.
  destruct (parse_precision_total fmt2 args2) as (fmt3 & p & args3 & -> & H3); [progress_lia|]. simpl.
  pose proof (skip_qualifier_length fmt3) as H4.
  destruct (conversion_total mem (lenz out) (skip_qualifier fmt3) f w p args3)
    as (text & st' & args4 & fmt4 & -> & H5); [progress_lia|]. simpl.
  apply IH; progress_lia.
Qed.

Lemma vsprintf_loop_plain mem args fmt fuel out st :
  Forall (fun c => c <> 37) fmt -> (length fmt < fuel)%nat ->
  vsprintf_loop fuel mem out st fmt args = Some (out ++ fmt, st).
Proof.
  intros Hp. revert fuel out. induction Hp as [|c fmt Hc Hp IH];
    intros fuel out Hf; (destruct fuel as [|fuel]; [simpl in Hf; lia|]).
  - cbn. by rewrite app_nil_r.
  - cbn [vsprintf_loop]. rewrite (proj2 (Z.eqb_neq _ _)) by done. cbn [negb]. simpl in Hf.
    rewrite IH by lia. by rewrite <- app_assoc.
Qed.

(** [vsprintf] terminates and produces a result for every format string,
    whatever the characters in it, as soon as the caller passes at least as
    many argument words as the format has characters; a format without a
    percent sign is copied as it is. *)
Theorem vsprintf_total mem fmt args :
  (length fmt <= length args)%nat ->
  (exists buf stores n, vsprintf mem fmt args = Some (buf ++ [0], stores, n) /\ n = lenz buf) /\
  (Forall (fun c => c <> 37) fmt -> vsprintf mem fmt args = Some (fmt ++ [0], [], lenz fmt)).
Proof.
  intros Ha. unfold vsprintf. split.
  - destruct (vsprintf_loop_total mem (Datatypes.S (length fmt)) [] [] fmt args) as [[out st] ->]; [lia|done|].
    simpl. eauto 10.
  - intros Hp. rewrite vsprintf_loop_plain by (lia || done). done.
Qed.

Lemma vsprintf_total_witness :
  vsprintf (fun _ => []) [104; 105] [0; 0] = Some ([104; 105; 0], [], 2).
Proof.
  apply (proj2 (vsprintf_total (fun _ => []) [104; 105] [0; 0] ltac:(simpl; lia))).
  repeat constructor; lia.
Defined.
