(* ===== verification/Startup.v ===== *)
(** * Start of the kernel: init/main.c

    [time_init] reads the real-time clock, a device outside the source: it is
    the parameter [cmos], the byte that the [n]-th read of a clock register
    returns.  [start_kernel] is modelled up to the memory layout it computes
    from the size the BIOS reported; the device initialisation it calls next
    is modelled with the devices. *)

From Stdlib Require Import ZArith Lia.
From stdpp Require Import base numbers list gmap.
From S2P Require Import Prelude Memory.

(** ** Calendar time: kernel/mktime.c

    [kernel_mktime] turns a broken-down UTC time into seconds since 1970.  The
    [int] arithmetic is at its width: the compiled code wraps around modulo
    2^32.  The reference is the Gregorian calendar, defined day by day without
    the routine's arithmetic. *)

(** [struct tm] of include/time.h *)
Record tm := Tm {
  tm_sec : Z; tm_min : Z; tm_hour : Z; tm_mday : Z; tm_mon : Z; tm_year : Z;
  tm_wday : Z; tm_yday : Z; tm_isdst : Z
}.

Definition MINUTE : Z := 60.
Definition HOUR : Z := 60 * MINUTE.
Definition DAY : Z := 24 * HOUR.
Definition YEAR : Z := 365 * DAY.

Definition month : list Z :=
  [0;
   DAY * (31);
   DAY * (31 + 29);
   DAY * (31 + 29 + 31);
   DAY * (31 + 29 + 31 + 30);
   DAY * (31 + 29 + 31 + 30 + 31);
   DAY * (31 + 29 + 31 + 30 + 31 + 30);
   DAY * (31 + 29 + 31 + 30 + 31 + 30 + 31);
   DAY * (31 + 29 + 31 + 30 + 31 + 30 + 31 + 31);
   DAY * (31 + 29 + 31 + 30 + 31 + 30 + 31 + 31 + 30);
   DAY * (31 + 29 + 31 + 30 + 31 + 30 + 31 + 31 + 30 + 31);
   DAY * (31 + 29 + 31 + 30 + 31 + 30 + 31 + 31 + 30 + 31 + 30)].

(** The result and the caller's structure afterwards, whose month and day the
    routine decrements; none when the month indexes outside the table. *)
Definition kernel_mktime (t : tm) : option (Z * tm) :=
  let year := if 70 <=? tm_year t then s32 (tm_year t - 70) else s32 (tm_year t + 100 - 70) in
  let res := s32 (YEAR * year + DAY * (s32 (year + 1) ÷ 4)) in
  let t := Tm (tm_sec t) (tm_min t) (tm_hour t) (s32 (tm_mday t - 1)) (s32 (tm_mon t - 1))
              (tm_year t) (tm_wday t) (tm_yday t) (tm_isdst t) in
  passed ← getz month (tm_mon t);
  let res := s32 (res + passed) in
  let res := if (1 <? tm_mon t) && istrue (Z.rem (s32 (year + 2)) 4) then s32 (res - DAY) else res in
  let res := s32 (res + DAY * tm_mday t) in
  let res := s32 (res + HOUR * tm_hour t) in
  let res := s32 (res + MINUTE * tm_min t) in
  let res := s32 (res + tm_sec t) in
  Some (res, t).

(** ** The calendar *)

Definition leap (y : Z) : bool := (y mod 4 =? 0) && (negb (y mod 100 =? 0) || (y mod 400 =? 0)).
Definition year_days (y : Z) : Z := if leap y then 366 else 365.
Definition month_days (y m : Z) : Z :=
  if m =? 2 then (if leap y then 29 else 28)
  else if (m =? 4) || (m =? 6) || (m =? 9) || (m =? 11) then 30 else 31.

(** The days from the first of January 1970 to the given day, by adding up the
    years and the months gone by. *)
Definition days_before_year (y : Z) : Z :=
  foldr Z.add 0 (year_days <$> seqZ 1970 (y - 1970)).
Definition days_before_month (y m : Z) : Z :=
  foldr Z.add 0 (month_days y <$> seqZ 1 (m - 1)).

Definition utc_seconds (y mo d h mi s : Z) : Z :=
  (((days_before_year y + days_before_month y mo + (d - 1)) * 24 + h) * 60 + mi) * 60 + s.

Record valid_time (y mo d h mi s : Z) : Prop := {
  valid_month : 1 <= mo <= 12;
  valid_day : 1 <= d <= month_days y mo;
  valid_hour : 0 <= h < 24;
  valid_minute : 0 <= mi < 60;
  valid_second : 0 <= s < 60
}.

(** The structure for a time, with the year in two digits or from 1900. *)
Definition tm_of (yy mo d h mi s : Z) : tm := Tm s mi h d mo yy 0 0 0.
Definition tm_full_year (yy : Z) : Z := if 70 <=? yy then 1900 + yy else 2000 + yy.

(** ** The routine and the calendar agree *)

(** The seconds [kernel_mktime] counts for the years and months gone by. *)
Definition mktime_base (yy mo : Z) : option Z :=
  let year := if 70 <=? yy then yy - 70 else yy + 100 - 70 in
  passed ← getz month (mo - 1);
  Some (YEAR * year + DAY * ((year + 1) ÷ 4) + passed -
        (if (1 <? mo - 1) && istrue (Z.rem (year + 2) 4) then DAY else 0)).

Lemma mktime_base_calendar yy mo :
  0 <= yy < 200 -> 1 <= mo <= 12 ->
  mktime_base yy mo =
    Some (DAY * (days_before_year (tm_full_year yy) + days_before_month (tm_full_year yy) mo)).
Proof.
  assert (forallb (fun yy => forallb (fun mo => bool_decide (mktime_base yy mo =
    Some (DAY * (days_before_year (tm_full_year yy) + days_before_month (tm_full_year yy) mo))))
    (seqZ 1 12)) (seqZ 0 200) = true) as H by (vm_compute; reflexivity).
  intros Hy Hm. rewrite forallb_forall in H.
  specialize (H yy). rewrite forallb_forall in H.
  refine (bool_decide_eq_true_1 _ (H _ mo _)); apply list_elem_of_In, elem_of_seqZ; lia.
Qed.

Lemma fold_add_nonneg (f : Z -> Z) l : (forall x, 0 <= f x) -> 0 <= foldr Z.add 0 (f <$> l).
Proof. intros Hf. induction l as [|x l IH]; [done|]. cbn in *. specialize (Hf x). lia. Qed.

Lemma utc_seconds_nonneg y mo d h mi s : valid_time y mo d h mi s -> 0 <= utc_seconds y mo d h mi s.
Proof.
  intros [Hmo Hd Hh Hmi Hs]. unfold utc_seconds.
  assert (0 <= days_before_year y /\ 0 <= days_before_month y mo) as [??].
  { split; apply fold_add_nonneg; intros x; unfold year_days, month_days; repeat case_match; lia. }
  lia.
Qed.

Lemma kernel_mktime_seconds yy mo d h mi s wd yd dst :
  0 <= yy < 200 -> valid_time (tm_full_year yy) mo d h mi s ->
  exists t, kernel_mktime (Tm s mi h d mo yy wd yd dst) =
    Some (s32 (utc_seconds (tm_full_year yy) mo d h mi s), t).
Proof.
  intros Hy [Hmo Hd Hh Hmi Hs].
  assert (d <= 31) as Hd31 by (revert Hd; unfold month_days; repeat case_match; lia).
  pose proof (mktime_base_calendar yy mo Hy Hmo) as HB. unfold mktime_base in HB.
  unfold kernel_mktime. cbn [tm_year tm_mon tm_mday tm_hour tm_min tm_sec].
  assert ((if 70 <=? yy then s32 (yy - 70) else s32 (yy + 100 - 70)) =
          (if 70 <=? yy then yy - 70 else yy + 100 - 70)) as ->
    by (destruct (70 <=? yy); rewrite s32_id; unfold is_s32; lia).
  set (year := if 70 <=? yy then yy - 70 else yy + 100 - 70) in *.
  assert (0 <= year < 200) by (unfold year; zcases; lia).
  rewrite (s32_id (year + 1)), (s32_id (year + 2)), (s32_id (mo - 1)), (s32_id (d - 1))
    by (unfold is_s32; lia).
  destruct (getz month (mo - 1)) as [passed|]; [|discriminate HB]. cbn in HB. cbn [mbind option_bind].
  injection HB as HB. eexists. f_equal. f_equal. unfold utc_seconds, DAY, HOUR, MINUTE in *.
  destruct (_ && _); apply s32_proper; rewrite !s32_eqm32; exists 0; lia.
Qed.

(** C40: for every valid time of the years 1970 to 2099 (in two digits, or
    counted from 1900) [kernel_mktime] returns the number of seconds since the
    epoch in the Gregorian calendar, reduced to a 32-bit [long]; up to
    2038-01-19 03:14:07 that is the exact number. *)
Theorem kernel_mktime_spec yy mo d h mi s :
  0 <= yy < 200 -> valid_time (tm_full_year yy) mo d h mi s ->
  exists t, kernel_mktime (tm_of yy mo d h mi s) =
    Some (s32 (utc_seconds (tm_full_year yy) mo d h mi s), t) /\
  (utc_seconds (tm_full_year yy) mo d h mi s <= 2147483647 ->
   s32 (utc_seconds (tm_full_year yy) mo d h mi s) = utc_seconds (tm_full_year yy) mo d h mi s).
Proof.
  intros Hy Hv. destruct (kernel_mktime_seconds yy mo d h mi s 0 0 0 Hy Hv) as [t Ht].
  exists t. split; [exact Ht|]. intros Hmax. apply s32_id.
  pose proof (utc_seconds_nonneg _ _ _ _ _ _ Hv). unfold is_s32. lia.
Qed.

Lemma kernel_mktime_spec_witness :
  exists t, kernel_mktime (tm_of 116 2 29 12 30 15) = Some (s32 (utc_seconds 2016 2 29 12 30 15), t) /\
  utc_seconds 2016 2 29 12 30 15 = 1456749015.
Proof.
  destruct (kernel_mktime_spec 116 2 29 12 30 15) as (t & H & _); [lia|split; vm_compute; split; congruence|].
  exists t. split; [exact H|vm_compute; reflexivity].
Defined.

Definition BCD_TO_BIN (val : Z) : Z := Z.land val 15 + Z.shiftr val 4 * 10.

Section clock.
Variable cmos : nat -> Z -> Z.

(** One pass of the loop, starting at read number [n]: the six registers, and
    the seconds once more. *)
Definition CMOS_READ (n : nat) (addr : Z) : Z := cmos n addr.

Definition time_init_pass (n : nat) (time : tm) : tm * bool :=
  let sec := CMOS_READ n 0 in
  let min := CMOS_READ (n + 1) 2 in
  let hour := CMOS_READ (n + 2) 4 in
  let mday := CMOS_READ (n + 3) 7 in
  let mon := CMOS_READ (n + 4) 8 in
  let year := CMOS_READ (n + 5) 9 in
  (Tm sec min hour mday mon year (tm_wday time) (tm_yday time) (tm_isdst time),
   negb (CMOS_READ (n + 6) 0 =? sec)).

(** The [do ... while] loop, with a bound on the number of passes. *)
Fixpoint time_init_loop (fuel : nat) (n : nat) (time : tm) : option tm :=
  match fuel with
  | O => None
  | Datatypes.S fuel' =>
    let '(time, again) := time_init_pass n time in
    if again then time_init_loop fuel' (n + 7) time else Some time
  end.

(** The value of [startup_time]. *)
Definition time_init (fuel : nat) (time : tm) : option Z :=
  t ← time_init_loop fuel 0 time;
  let t := Tm (BCD_TO_BIN (tm_sec t)) (BCD_TO_BIN (tm_min t)) (BCD_TO_BIN (tm_hour t))
              (BCD_TO_BIN (tm_mday t)) (BCD_TO_BIN (tm_mon t)) (BCD_TO_BIN (tm_year t))
              (tm_wday t) (tm_yday t) (tm_isdst t) in
  '(res, _) ← kernel_mktime t;
  Some res.
End clock.

(** The variables [start_kernel] sets before it calls [memory_init]. *)
Record memory_layout := Layout { memory_end : Z; buffer_memory_end : Z; memory_start : Z }.

Definition memory_sizes (EXT_MEM_K : Z) : memory_layout :=
  let memory_end := s32 (Z.shiftl 1 20 + s32 (Z.shiftl EXT_MEM_K 10)) in
  let memory_end := s32 (Z.land (u32 memory_end) 0xfffff000) in
  let memory_end := if 16 * 1024 * 1024 <? memory_end then 16 * 1024 * 1024 else memory_end in
  let buffer_memory_end :=
    if 12 * 1024 * 1024 <? memory_end then 4 * 1024 * 1024
    else if 6 * 1024 * 1024 <? memory_end then 2 * 1024 * 1024
    else 1 * 1024 * 1024 in
  Layout memory_end buffer_memory_end buffer_memory_end.

Definition start_kernel_memory (EXT_MEM_K : Z) : M mm unit :=
  let l := memory_sizes EXT_MEM_K in
  memory_init (memory_start l) (memory_end l).

(** ** The clock *)

(** The byte in which the clock stores a number below 100. *)
Definition bcd (v : Z) : Z := (v / 10) * 16 + v mod 10.

Lemma BCD_TO_BIN_bcd v : 0 <= v < 100 -> BCD_TO_BIN (bcd v) = v.
Proof.
  intros Hv. unfold BCD_TO_BIN, bcd. rewrite Z.shiftr_div_pow2 by lia.
  change 15 with (2 ^ 4 - 1). rewrite land_low by lia. change (2 ^ 4) with 16. dmlia.
Qed.

(** During pass [k] the clock does not tick over, and shows the given time;
    during the passes before, the second changes. *)
Definition clock_shows (cmos : nat -> Z -> Z) (k : nat) (yy mo d h mi s : Z) : Prop :=
  (forall j, (j < k)%nat -> cmos (7 * j + 6)%nat 0 <> cmos (7 * j)%nat 0) /\
  cmos (7 * k)%nat 0 = bcd s /\ cmos (7 * k + 1)%nat 2 = bcd mi /\ cmos (7 * k + 2)%nat 4 = bcd h /\
  cmos (7 * k + 3)%nat 7 = bcd d /\ cmos (7 * k + 4)%nat 8 = bcd mo /\
  cmos (7 * k + 5)%nat 9 = bcd yy /\ cmos (7 * k + 6)%nat 0 = bcd s.

Lemma time_init_loop_passes cmos k yy mo d h mi s j fuel time :
  clock_shows cmos k yy mo d h mi s -> (j <= k)%nat -> (k - j < fuel)%nat ->
  time_init_loop cmos fuel (7 * j) time =
    Some (Tm (bcd s) (bcd mi) (bcd h) (bcd d) (bcd mo) (bcd yy)
             (tm_wday time) (tm_yday time) (tm_isdst time)).
Proof.
  intros (Htorn & E0 & E1 & E2 & E3 & E4 & E5 & E6). revert j time.
  induction fuel as [|fuel IH]; intros j time Hj Hf; [lia|].
  cbn [time_init_loop]. unfold time_init_pass, CMOS_READ.
  destruct (decide (j = k)) as [->|Hne].
  - rewrite E0, E1, E2, E3, E4, E5, E6, Z.eqb_refl. done.
  - rewrite (proj2 (Z.eqb_neq _ _) (Htorn j ltac:(lia))). cbn [negb].
    replace (7 * j + 7)%nat with (7 * Datatypes.S j)%nat by lia. rewrite IH by lia. done.
Qed.

(** [time_init] sets [startup_time] to the calendar time the clock shows
    at its first pass that is not torn by a change of the second, however
    many passes were torn before it. *)
Theorem time_init_spec cmos k yy mo d h mi s time :
  0 <= yy < 100 -> valid_time (tm_full_year yy) mo d h mi s ->
  clock_shows cmos k yy mo d h mi s ->
  forall fuel, (k < fuel)%nat ->
  time_init cmos fuel time = Some (s32 (utc_seconds (tm_full_year yy) mo d h mi s)).
Proof.
  intros Hy Hv Hc fuel Hf. unfold time_init.
  change 0%nat with (7 * 0)%nat.
  rewrite (time_init_loop_passes cmos k yy mo d h mi s 0 fuel time Hc) by lia. cbn [mbind option_bind].
  cbn [tm_sec tm_min tm_hour tm_mday tm_mon tm_year tm_wday tm_yday tm_isdst].
  destruct (kernel_mktime_seconds yy mo d h mi s (tm_wday time) (tm_yday time) (tm_isdst time)
              ltac:(lia) Hv) as (t & Ht).
  destruct Hv as [Hmo Hd Hh Hmi Hs].
  assert (d <= 31) by (revert Hd; unfold month_days; repeat case_match; lia).
  rewrite !BCD_TO_BIN_bcd by lia. rewrite Ht. done.
Qed.

Lemma time_init_spec_witness :
  let cmos n addr :=
    if addr =? 0 then (if Nat.ltb n 6 then 0x58 else if Nat.ltb n 7 then 0x59 else 0x00)
    else if addr =? 2 then (if Nat.ltb n 6 then 0x59 else 0x00)
    else if addr =? 4 then 0x08 else if addr =? 7 then 0x04
    else if addr =? 8 then 0x02 else 0x16 in
  time_init cmos 2 (tm_of 0 0 0 0 0 0) = Some (s32 (utc_seconds 2016 2 4 8 0 0)).
Proof.
  intros cmos. apply (time_init_spec cmos 1 16 2 4 8 0 0).
  - lia.
  - split; vm_compute; split; congruence.
  - split; [|vm_compute; tauto]. intros [|j] Hj; [vm_compute; congruence|lia].
  - lia.
Defined.

(** ** The memory layout *)

Lemma memory_map_set_ok i v (s : mm) :
  0 <= i < lenz (memory_map s) ->
  map_set i v s = Ok tt (set_memory_map (setz (memory_map s) i (u8 v)) s).
Proof. intros Hi. unfold map_set, bind, gets. by destruct (getz_is_Some _ _ Hi) as [x ->]. Qed.

(** A loop that stores one value in consecutive entries of [memory_map]. *)
Lemma wp_fill lo n v (s : mm) (Q : unit -> mm -> Prop) :
  0 <= lo -> lo + Z.of_nat n <= lenz (memory_map s) ->
  (forall l, lenz l = lenz (memory_map s) ->
     (forall j, 0 <= j < lenz l ->
        getz l j = if (lo <=? j) && (j <? lo + Z.of_nat n) then Some (u8 v) else getz (memory_map s) j) ->
     Q tt (set_memory_map l s)) ->
  wp (for_range lo n (fun i => map_set i v)) Q s.
Proof.
  intros Hlo Hn HQ. eapply wp_mono.
  - apply (wp_for_range (fun i s' => exists l, s' = set_memory_map l s /\
      lenz l = lenz (memory_map s) /\ forall j, 0 <= j < lenz l ->
        getz l j = if (lo <=? j) && (j <? i) then Some (u8 v) else getz (memory_map s) j)).
    + exists (memory_map s). split; [by destruct s|]. split; [done|]. intros j Hj. zcases; (done || lia).
    + intros i s' Hi (l & -> & Hl & Hj). unfold wp. rewrite memory_map_set_ok by (simpl; lia).
      eexists. split; [reflexivity|]. simpl. rewrite lenz_setz. split; [done|]. intros j Hjl.
      destruct (decide (i = j)) as [->|Hne].
      * rewrite getz_setz_eq by lia. zcases; (done || lia).
      * rewrite getz_setz_ne by done. rewrite Hj by lia. zcases; (done || lia).
  - intros [] s' (l & -> & Hl & Hj). by apply HQ.
Qed.

Lemma memory_sizes_sound EXT_MEM_K :
  is_u16 EXT_MEM_K ->
  let l := memory_sizes EXT_MEM_K in
  memory_end l mod 4096 = 0 /\ memory_start l mod 4096 = 0 /\
  LOW_MEM <= buffer_memory_end l /\ buffer_memory_end l = memory_start l /\
  memory_start l <= memory_end l <= 0x1000000.
Proof.
  unfold is_u16. intros HK. unfold memory_sizes. rewrite (Z.shiftl_mul_pow2 EXT_MEM_K 10) by lia.
  rewrite (s32_id (EXT_MEM_K * 2 ^ 10)) by (unfold is_s32; lia).
  change (Z.shiftl 1 20) with 1048576. rewrite (s32_id (1048576 + _)) by (unfold is_s32; lia).
  rewrite u32_id by (unfold is_u32; lia).
  set (x := 1048576 + EXT_MEM_K * 2 ^ 10).
  assert (1048576 <= x < 68157440) as Hx by (unfold x; lia).
  replace (Z.land x 0xfffff000) with (x - x mod 4096).
  2: { rewrite Z.land_comm. symmetry. apply (frame_mod x). unfold is_u32. lia. }
  rewrite s32_id by (unfold is_s32; dmlia). clearbody x. change LOW_MEM with 1048576.
  cbn [memory_end buffer_memory_end memory_start].
  split_and!; zcases; dmlia.
Qed.

(** For every size the BIOS may report the layout is sound: the limits are
    page-aligned and in order, main memory never exceeds 16 MB, and after
    [memory_init] exactly the pages between the buffer area and the end of
    memory are free. *)
Theorem start_kernel_memory_spec EXT_MEM_K (s : mm) :
  is_u16 EXT_MEM_K -> lenz (memory_map s) = TOTAL_PAGES ->
  let l := memory_sizes EXT_MEM_K in
  memory_end l mod 4096 = 0 /\ memory_start l mod 4096 = 0 /\
  LOW_MEM <= buffer_memory_end l <= memory_start l /\ memory_start l <= memory_end l <= 0x1000000 /\
  wp (start_kernel_memory EXT_MEM_K)
    (fun _ s' => HIGH_MEMORY s' = memory_end l /\ phys s' = phys s /\
       lenz (memory_map s') = TOTAL_PAGES /\
       forall i, 0 <= i < TOTAL_PAGES ->
         getz (memory_map s') i =
           Some (if (memory_start l <=? LOW_MEM + 4096 * i) && (LOW_MEM + 4096 * i <? memory_end l)
                 then UNUSED else USED)) s.
Proof.
  intros HK Hlen l. pose proof (memory_sizes_sound EXT_MEM_K HK) as Hs. cbv zeta in Hs. fold l in Hs.
  destruct Hs as (H1 & H2 & H3 & H4 & H5). change LOW_MEM with 1048576 in *.
  split_and!; [done..|lia|lia|lia|lia|].
  unfold start_kernel_memory, memory_init. fold l. apply wp_bind, wp_modify, wp_bind.
  assert (Z.of_nat (Z.to_nat TOTAL_PAGES) = 3840) as Hn by (rewrite Z2Nat.id; [reflexivity|by vm_compute]).
  assert (lenz (memory_map s) = 3840) as Hlen' by exact Hlen.
  generalize dependent (Z.to_nat TOTAL_PAGES). intros n Hn.
  apply wp_fill; cbn [memory_map]; [lia|lia|]. intros m Hm Hj.
  assert (MAP_NR (memory_start l) = (memory_start l - 1048576) / 4096) as ->.
  { unfold MAP_NR. change LOW_MEM with 1048576. rewrite u32_id by (unfold is_u32; lia).
    by rewrite Z.shiftr_div_pow2 by lia. }
  rewrite Z.shiftr_div_pow2 by lia. change (2 ^ 12) with 4096.
  set (k := (memory_end l - memory_start l) / 4096).
  assert (0 <= k) by (unfold k; dmlia). pose proof (Z2Nat.id k ltac:(lia)) as Hk.
  generalize dependent (Z.to_nat k). intros k' Hk.
  apply wp_fill; cbn [set_memory_map memory_map HIGH_MEMORY phys]; [dmlia|unfold k in *; dmlia|].
  intros m' Hm' Hj'. split; [done|]. split; [done|].
  split; [change TOTAL_PAGES with 3840; lia|]. change TOTAL_PAGES with 3840. intros i Hi.
  rewrite Hj' by lia. rewrite Hj by lia. unfold k in Hk.
  zcases; (reflexivity || dmlia).
Qed.

Lemma start_kernel_memory_spec_witness :
  let s := MM ∅ (replicate 3840 0) 0 0 in
  memory_end (memory_sizes 15360) = 0x1000000 /\
  memory_start (memory_sizes 15360) = 0x400000 /\
  wp (start_kernel_memory 15360) (fun _ s' => getz (memory_map s') 768 = Some UNUSED) s.
Proof.
  intros s. split; [vm_compute; reflexivity|]. split; [vm_compute; reflexivity|].
  assert (lenz (memory_map s) = TOTAL_PAGES) as Hl by (vm_compute; reflexivity).
  pose proof (start_kernel_memory_spec 15360 s ltac:(unfold is_u16; lia) Hl) as H.
  cbv zeta in H. destruct H as (_ & _ & _ & _ & H).
  eapply wp_mono; [exact H|]. intros a s' (_ & _ & _ & Hi).
  assert (0 <= 768 < TOTAL_PAGES) as H768 by (split; [lia|reflexivity]).
  pose proof (Hi 768 H768) as E. clear Hi.
  etransitivity; [exact E|].
  clear H E. vm_compute; reflexivity.
Defined.
