(* ===== verification/TtyData.v ===== *)
(** * Terminals: include/linux/tty.h, include/termios.h

    The data of a terminal, and its queues as ring buffers. *)

From Stdlib Require Import ZArith Lia.
From stdpp Require Import base numbers list.
From S2P Require Import Prelude.

(** ** Character classes: lib/ctype.c, include/ctype.h *)

Definition _U : Z := 0x01.
Definition _L : Z := 0x02.
Definition _D : Z := 0x04.
Definition _C : Z := 0x08.
Definition _P : Z := 0x10.
Definition _S : Z := 0x20.
Definition _X : Z := 0x40.
Definition _SP : Z := 0x80.

(** The table, [_ctype + 1]: the entry of a character. *)
Definition _ctype : list Z :=
  replicate 9 _C ++ replicate 5 (Z.lor _C _S) ++ replicate 18 _C ++
  [Z.lor _S _SP] ++ replicate 15 _P ++ replicate 10 _D ++ replicate 7 _P ++
  replicate 6 (Z.lor _U _X) ++ replicate 20 _U ++ replicate 6 _P ++
  replicate 6 (Z.lor _L _X) ++ replicate 20 _L ++ replicate 4 _P ++ [_C] ++ replicate 128 0.

Definition ctype_is (mask c : Z) : bool :=
  match getz _ctype c with Some x => istrue (Z.land x mask) | None => false end.
Definition isupper : Z -> bool := ctype_is _U.
Definition islower : Z -> bool := ctype_is _L.

(** The argument goes through [_ctmp], an unsigned character. *)
Definition tolower (c : Z) : Z := let t := u8 c in if isupper t then t - (65 - 97) else t.
Definition toupper (c : Z) : Z := let t := u8 c in if islower t then t - (97 - 65) else t.

(** The letters go to the other case and every other character stays. *)
Lemma tolower_spec c :
  tolower c = (if (65 <=? u8 c) && (u8 c <=? 90) then u8 c + 32 else u8 c).
Proof.
  assert (forallb (fun t => Bool.eqb (isupper t) ((65 <=? t) && (t <=? 90))) (seqZ 0 256) = true) as H
    by (vm_compute; reflexivity).
  rewrite forallb_forall in H. specialize (H (u8 c)).
  assert (isupper (u8 c) = (65 <=? u8 c) && (u8 c <=? 90)) as E.
  { apply eqb_prop, H, list_elem_of_In, elem_of_seqZ. pose proof (u8_range c). unfold is_u8 in *. lia. }
  unfold tolower. rewrite E. by destruct (_ && _); [lia|].
Qed.

Definition TTY_BUF_SIZE : Z := 1024.
Definition NCC : Z := 8.
Definition NCCS : Z := 17.

(** ** Flags and indices of control characters *)

Definition VINTR : Z := 0.
Definition VQUIT : Z := 1.
Definition VERASE : Z := 2.
Definition VKILL : Z := 3.
Definition VEOF : Z := 4.
Definition VTIME : Z := 5.
Definition VMIN : Z := 6.
Definition VSTART : Z := 8.
Definition VSTOP : Z := 9.

Definition INLCR : Z := 0x40.
Definition IGNCR : Z := 0x80.
Definition ICRNL : Z := 0x100.
Definition IUCLC : Z := 0x200.
Definition OPOST : Z := 0x1.
Definition OLCUC : Z := 0x2.
Definition ONLCR : Z := 0x4.
Definition OCRNL : Z := 0x8.
Definition ONLRET : Z := 0x20.
Definition B2400 : Z := 0xb.
Definition CS8 : Z := 0x30.
Definition ISIG : Z := 0x1.
Definition ICANON : Z := 0x2.
Definition ECHO : Z := 0x8.
Definition ECHOCTL : Z := 0x200.
Definition ECHOKE : Z := 0x800.

(** ** Data *)

Record termios := Termios {
  c_iflag : Z; c_oflag : Z; c_cflag : Z; c_lflag : Z; c_line : Z; c_cc : list Z
}.
#[global] Instance termios_fields : Fields termios := fun x => Termios
  (c_iflag x) (c_oflag x) (c_cflag x) (c_lflag x) (c_line x) (c_cc x).
#[global] Instance set_c_iflag : Setter c_iflag := ltac:(solve_setter).
#[global] Instance set_c_oflag : Setter c_oflag := ltac:(solve_setter).
#[global] Instance set_c_cflag : Setter c_cflag := ltac:(solve_setter).
#[global] Instance set_c_lflag : Setter c_lflag := ltac:(solve_setter).
#[global] Instance set_c_line : Setter c_line := ltac:(solve_setter).
#[global] Instance set_c_cc : Setter c_cc := ltac:(solve_setter).

(** The buffer holds signed characters. *)
Record tty_queue := TtyQueue { q_data : Z; q_head : Z; q_tail : Z; q_buf : list Z }.
#[global] Instance tty_queue_fields : Fields tty_queue := fun x => TtyQueue
  (q_data x) (q_head x) (q_tail x) (q_buf x).
#[global] Instance set_q_data : Setter q_data := ltac:(solve_setter).
#[global] Instance set_q_head : Setter q_head := ltac:(solve_setter).
#[global] Instance set_q_tail : Setter q_tail := ltac:(solve_setter).
#[global] Instance set_q_buf : Setter q_buf := ltac:(solve_setter).

(** What [write] points to. *)
Inductive tty_driver : Type := console_write | rs_write.

Record tty_struct := Tty {
  tty_termios : termios; tty_pgrp : Z; stopped : Z; write : tty_driver;
  read_q : tty_queue; write_q : tty_queue; secondary : tty_queue
}.
#[global] Instance tty_struct_fields : Fields tty_struct := fun x => Tty
  (tty_termios x) (tty_pgrp x) (stopped x) (write x) (read_q x) (write_q x) (secondary x).
#[global] Instance set_tty_termios : Setter tty_termios := ltac:(solve_setter).
#[global] Instance set_tty_pgrp : Setter tty_pgrp := ltac:(solve_setter).
#[global] Instance set_stopped : Setter stopped := ltac:(solve_setter).
#[global] Instance set_write : Setter write := ltac:(solve_setter).
#[global] Instance set_read_q : Setter read_q := ltac:(solve_setter).
#[global] Instance set_write_q : Setter write_q := ltac:(solve_setter).
#[global] Instance set_secondary : Setter secondary := ltac:(solve_setter).

(** ** The macros on queues *)

Definition INC (a : Z) : Z := Z.land (a + 1) (TTY_BUF_SIZE - 1).
Definition DEC (a : Z) : Z := Z.land (u32 (a - 1)) (TTY_BUF_SIZE - 1).
Definition EMPTY (q : tty_queue) : bool := q_head q =? q_tail q.
Definition LEFT (q : tty_queue) : Z := Z.land (u32 (q_tail q - q_head q - 1)) (TTY_BUF_SIZE - 1).
Definition LAST (q : tty_queue) : option Z := getz (q_buf q) (Z.land (TTY_BUF_SIZE - 1) (u32 (q_head q - 1))).
Definition FULL (q : tty_queue) : bool := negb (istrue (LEFT q)).
Definition CHARS (q : tty_queue) : Z := Z.land (u32 (q_head q - q_tail q)) (TTY_BUF_SIZE - 1).
Definition GETCH (q : tty_queue) : option (Z * tty_queue) :=
  c ← getz (q_buf q) (q_tail q); Some (c, q <| q_tail ::= INC |>).
Definition PUTCH (c : Z) (q : tty_queue) : tty_queue :=
  q <| q_buf ::= fun l => setz l (q_head q) (s8 c) |> <| q_head ::= INC |>.
(** [DEC(queue.head)] *)
Definition unput (q : tty_queue) : tty_queue := q <| q_head ::= DEC |>.

(** A control character of a terminal, and the tests of its flags. *)
Definition cc (i : Z) (tty : tty_struct) : option Z := getz (c_cc (tty_termios tty)) i.
Definition _L_FLAG (f : Z) (tty : tty_struct) : bool := istrue (Z.land (c_lflag (tty_termios tty)) f).
Definition _I_FLAG (f : Z) (tty : tty_struct) : bool := istrue (Z.land (c_iflag (tty_termios tty)) f).
Definition _O_FLAG (f : Z) (tty : tty_struct) : bool := istrue (Z.land (c_oflag (tty_termios tty)) f).

(** ** The initial table: kernel/chr_drv/tty_io.c *)

Definition INIT_C_CC : list Z := [3; 28; 127; 21; 4; 0; 1; 0; 17; 19; 26; 0; 18; 15; 23; 22; 0].

Definition empty_queue (data : Z) : tty_queue := TtyQueue data 0 0 (replicate 1024 0).

Definition init_tty_table : list tty_struct :=
  [Tty (Termios ICRNL (Z.lor OPOST ONLCR) 0
          (Z.lor ISIG (Z.lor ICANON (Z.lor ECHO (Z.lor ECHOCTL ECHOKE)))) 0 INIT_C_CC)
     0 0 console_write (empty_queue 0) (empty_queue 0) (empty_queue 0);
   Tty (Termios 0 0 (Z.lor B2400 CS8) 0 0 INIT_C_CC) 0 0 rs_write
     (empty_queue 0x3f8) (empty_queue 0x3f8) (empty_queue 0);
   Tty (Termios 0 0 (Z.lor B2400 CS8) 0 0 INIT_C_CC) 0 0 rs_write
     (empty_queue 0x2f8) (empty_queue 0x2f8) (empty_queue 0)].
