(* ===== verification/Console.v ===== *)
(** * The screen: kernel/chr_drv/console.c

    The variables of the file and the video memory are one record, and its
    routines functions on it.  What [console_write] does with one character is
    [console_char]; answering a query and the bell need the terminal and the
    clock, and are left to the caller as an action.  The loop of
    [console_write] is in TtyIo. *)

From Stdlib Require Import ZArith Lia.
From stdpp Require Import base numbers list gmap.
From S2P Require Import Prelude.

Definition VIDEO_TYPE_MDA : Z := 0x10.
Definition VIDEO_TYPE_CGA : Z := 0x11.
Definition VIDEO_TYPE_EGAM : Z := 0x20.
Definition VIDEO_TYPE_EGAC : Z := 0x21.
Definition NPAR : Z := 16.

(** [vram] is the memory the file writes to, by bytes; [outs] what was sent to
    the machine's ports, as pairs of port and value, the latest first. *)
Record screen := Screen {
  video_type : Z; video_column_nrs : Z; video_size_per_row : Z; video_row_nrs : Z;
  video_page : Z; video_mem_start : Z; video_mem_end : Z; video_port_reg : Z;
  video_port_val : Z; video_erase_char : Z; origin : Z; scroll_end : Z; con_pos : Z;
  con_x : Z; con_y : Z; con_top : Z; con_bottom : Z; con_state : Z; npar : Z; par : list Z;
  ques : Z; attr : Z; saved_x : Z; saved_y : Z; vram : gmap Z Z; outs : list (Z * Z)
}.
#[global] Instance screen_fields : Fields screen := fun c => Screen
  (video_type c) (video_column_nrs c) (video_size_per_row c) (video_row_nrs c) (video_page c)
  (video_mem_start c) (video_mem_end c) (video_port_reg c) (video_port_val c)
  (video_erase_char c) (origin c) (scroll_end c) (con_pos c) (con_x c) (con_y c) (con_top c)
  (con_bottom c) (con_state c) (npar c) (par c) (ques c) (attr c) (saved_x c) (saved_y c)
  (vram c) (outs c).
#[global] Instance set_video_type : Setter video_type := ltac:(solve_setter).
#[global] Instance set_video_column_nrs : Setter video_column_nrs := ltac:(solve_setter).
#[global] Instance set_video_size_per_row : Setter video_size_per_row := ltac:(solve_setter).
#[global] Instance set_video_row_nrs : Setter video_row_nrs := ltac:(solve_setter).
#[global] Instance set_video_page : Setter video_page := ltac:(solve_setter).
#[global] Instance set_video_mem_start : Setter video_mem_start := ltac:(solve_setter).
#[global] Instance set_video_mem_end : Setter video_mem_end := ltac:(solve_setter).
#[global] Instance set_video_port_reg : Setter video_port_reg := ltac:(solve_setter).
#[global] Instance set_video_port_val : Setter video_port_val := ltac:(solve_setter).
#[global] Instance set_video_erase_char : Setter video_erase_char := ltac:(solve_setter).
#[global] Instance set_origin_field : Setter origin := ltac:(solve_setter).
#[global] Instance set_scroll_end : Setter scroll_end := ltac:(solve_setter).
#[global] Instance set_con_pos : Setter con_pos := ltac:(solve_setter).
#[global] Instance set_con_x : Setter con_x := ltac:(solve_setter).
#[global] Instance set_con_y : Setter con_y := ltac:(solve_setter).
#[global] Instance set_con_top : Setter con_top := ltac:(solve_setter).
#[global] Instance set_con_bottom : Setter con_bottom := ltac:(solve_setter).
#[global] Instance set_con_state : Setter con_state := ltac:(solve_setter).
#[global] Instance set_npar : Setter npar := ltac:(solve_setter).
#[global] Instance set_par : Setter par := ltac:(solve_setter).
#[global] Instance set_ques : Setter ques := ltac:(solve_setter).
#[global] Instance set_attr : Setter attr := ltac:(solve_setter).
#[global] Instance set_saved_x : Setter saved_x := ltac:(solve_setter).
#[global] Instance set_saved_y : Setter saved_y := ltac:(solve_setter).
#[global] Instance set_vram : Setter vram := ltac:(solve_setter).
#[global] Instance set_outs : Setter outs := ltac:(solve_setter).

(** ** The instructions of the routines in assembly

    [d] is the step of the address, which the direction flag gives. *)

Definition peek (m : gmap Z Z) (a : Z) : Z := default 0 (m !! u32 a).
Definition poke (a v : Z) (m : gmap Z Z) : gmap Z Z := <[u32 a := u8 v]> m.

Definition load_word (m : gmap Z Z) (a : Z) : Z := peek m a + peek m (a + 1) * 256.
Definition store_word (a w : Z) (m : gmap Z Z) : gmap Z Z := poke (a + 1) (Z.shiftr w 8) (poke a w m).

(** [rep stosw] *)
Fixpoint stosw (n : nat) (ax edi d : Z) (m : gmap Z Z) : gmap Z Z :=
  match n with
  | O => m
  | Datatypes.S n' => stosw n' ax (u32 (edi + d)) d (store_word edi ax m)
  end.

(** [movsl]: the four bytes are read before any is written. *)
Definition move_long (esi edi : Z) (m : gmap Z Z) : gmap Z Z :=
  store_word (edi + 2) (load_word m (esi + 2)) (store_word edi (load_word m esi) m).
Fixpoint movsl (n : nat) (esi edi d : Z) (m : gmap Z Z) : gmap Z Z :=
  match n with
  | O => m
  | Datatypes.S n' => movsl n' (u32 (esi + d)) (u32 (edi + d)) d (move_long esi edi m)
  end.

Definition outb (v port : Z) (c : screen) : screen := c <| outs ::= cons (port, u8 v) |>.

(** ** Position and scrolling *)

(** The parameters are unsigned. *)
Definition gotoxy (new_x new_y : Z) (c : screen) : screen :=
  if (video_column_nrs c <? new_x) || (video_row_nrs c <=? new_y) then c else
  c <| con_x := new_x |> <| con_y := new_y |>
    <| con_pos := u32 (origin c + new_y * video_size_per_row c + Z.shiftl new_x 1) |>.

Definition set_origin (c : screen) : screen :=
  let c := outb 12 (video_port_reg c) c in
  let c := outb (Z.shiftr (u32 (origin c - video_mem_start c)) 9) (video_port_val c) c in
  let c := outb 13 (video_port_reg c) c in
  outb (Z.shiftr (u32 (origin c - video_mem_start c)) 1) (video_port_val c) c.

(** Lines [con_top + 1] to [con_bottom - 1] move up, the last one is erased. *)
Definition scroll_lines (c : screen) : screen :=
  let n := Z.to_nat (Z.shiftr (u32 (u32 (con_bottom c - con_top c - 1) * video_column_nrs c)) 1) in
  let edi := u32 (origin c + video_size_per_row c * con_top c) in
  let esi := u32 (origin c + video_size_per_row c * (con_top c + 1)) in
  c <| vram ::= fun m =>
    stosw (Z.to_nat (video_column_nrs c)) (video_erase_char c) (u32 (edi + 4 * Z.of_nat n)) 2
      (movsl n esi edi 4 m) |>.

(** The whole screen moves up: the card shows it from the next line on, until
    the end of its memory is reached, and the lines go back to the start. *)
Definition scroll_origin (c : screen) : screen :=
  let c := c <| origin ::= fun a => u32 (a + video_size_per_row c) |>
             <| con_pos ::= fun a => u32 (a + video_size_per_row c) |>
             <| scroll_end ::= fun a => u32 (a + video_size_per_row c) |> in
  let c :=
    if video_mem_end c <? scroll_end c then
      let n := Z.to_nat (Z.shiftr (u32 (u32 (video_row_nrs c - 1) * video_column_nrs c)) 1) in
      let c := c <| vram ::= fun m =>
        stosw (Z.to_nat (video_column_nrs c)) (video_erase_char c) (u32 (video_mem_start c + 4 * Z.of_nat n)) 2
          (movsl n (origin c) (video_mem_start c) 4 m) |> in
      let c := c <| scroll_end ::= fun a => u32 (a - u32 (origin c - video_mem_start c)) |>
                 <| con_pos ::= fun a => u32 (a - u32 (origin c - video_mem_start c)) |> in
      c <| origin := video_mem_start c |>
    else
      c <| vram ::= stosw (Z.to_nat (video_column_nrs c)) (video_erase_char c)
                      (u32 (scroll_end c - video_size_per_row c)) 2 |> in
  set_origin c.

Definition is_ega (c : screen) : bool :=
  (video_type c =? VIDEO_TYPE_EGAC) || (video_type c =? VIDEO_TYPE_EGAM).

Definition scrup (c : screen) : screen :=
  if is_ega c then
    if negb (istrue (con_top c)) && (con_bottom c =? video_row_nrs c) then scroll_origin c else scroll_lines c
  else scroll_lines c.

(** The same code for both kinds of card: with the direction flag set, [edi]
    ends four bytes below the last long moved. *)
Definition scrdown (c : screen) : screen :=
  let n := Z.to_nat (Z.shiftr (u32 (u32 (con_bottom c - con_top c - 1) * video_column_nrs c)) 1) in
  let edi := u32 (origin c + video_size_per_row c * con_bottom c - 4) in
  let esi := u32 (origin c + video_size_per_row c * (con_bottom c - 1) - 4) in
  c <| vram ::= fun m =>
    stosw (Z.to_nat (video_column_nrs c)) (video_erase_char c) (u32 (edi - 4 * Z.of_nat n + 2)) (-2)
      (movsl n esi edi (-4) m) |>.

Definition lf (c : screen) : screen :=
  if u32 (con_y c + 1) <? con_bottom c then
    c <| con_y ::= fun y => u32 (y + 1) |> <| con_pos ::= fun p => u32 (p + video_size_per_row c) |>
  else scrup c.

Definition ri (c : screen) : screen :=
  if con_top c <? con_y c then
    c <| con_y ::= fun y => u32 (y - 1) |> <| con_pos ::= fun p => u32 (p - video_size_per_row c) |>
  else scrdown c.

Definition cr (c : screen) : screen :=
  c <| con_pos ::= fun p => u32 (p - Z.shiftl (con_x c) 1) |> <| con_x := 0 |>.

Definition left_one (c : screen) : screen :=
  c <| con_pos ::= fun p => u32 (p - 2) |> <| con_x ::= fun x => u32 (x - 1) |>.

Definition del (c : screen) : screen :=
  if istrue (con_x c) then
    let c := left_one c in c <| vram ::= store_word (con_pos c) (video_erase_char c) |>
  else c.

(** ** Erasing and moving *)

Definition erase (count start : Z) (c : screen) : screen :=
  c <| vram ::= stosw (Z.to_nat (u32 count)) (video_erase_char c) start 2 |>.

Definition csi_J (par : Z) (c : screen) : screen :=
  if par =? 0 then erase (Z.shiftr (u32 (scroll_end c - con_pos c)) 1) (con_pos c) c
  else if par =? 1 then erase (Z.shiftr (u32 (con_pos c - origin c)) 1) (origin c) c
  else if par =? 2 then erase (video_column_nrs c * video_row_nrs c) (origin c) c
  else c.

Definition csi_K (par : Z) (c : screen) : screen :=
  let line := u32 (con_pos c - Z.shiftl (con_x c) 1) in
  if par =? 0 then
    if video_column_nrs c <=? con_x c then c
    else erase (video_column_nrs c - con_x c) (con_pos c) c
  else if par =? 1 then
    erase (if con_x c <? video_column_nrs c then con_x c else video_column_nrs c) line c
  else if par =? 2 then erase (video_column_nrs c) line c
  else c.

Definition attribute (par attr : Z) : Z :=
  if par =? 0 then 0x07 else if par =? 1 then 0x0f else if par =? 4 then 0x0f
  else if par =? 7 then 0x70 else if par =? 27 then 0x07 else attr.

(** [for (i = 0; i <= npar; i++)] *)
Fixpoint csi_m_loop (n : nat) (i : Z) (c : screen) : option screen :=
  match n with
  | O => Some c
  | Datatypes.S n' => p ← getz (par c) i; csi_m_loop n' (i + 1) (c <| attr ::= attribute p |>)
  end.
Definition csi_m (c : screen) : option screen := csi_m_loop (Z.to_nat (npar c + 1)) 0 c.

Definition set_cursor (c : screen) : screen :=
  let c := outb 14 (video_port_reg c) c in
  let c := outb (Z.shiftr (u32 (con_pos c - video_mem_start c)) 8 / 2) (video_port_val c) c in
  let c := outb 15 (video_port_reg c) c in
  outb (u32 (con_pos c - video_mem_start c) / 2) (video_port_val c) c.

(** [old] goes where [p] points, and what was there to the next place. *)
Fixpoint insert_loop (n : nat) (old p : Z) (m : gmap Z Z) : gmap Z Z :=
  match n with
  | O => m
  | Datatypes.S n' => insert_loop n' (load_word m p) (u32 (p + 2)) (store_word p old m)
  end.
Definition insert_char (c : screen) : screen :=
  c <| vram ::= insert_loop (Z.to_nat (video_column_nrs c - con_x c)) (video_erase_char c) (con_pos c) |>.

(** The rest of the screen from the cursor's line on is scrolled. *)
Definition below (scroll : screen -> screen) (c : screen) : screen :=
  let oldtop := con_top c in
  let oldbottom := con_bottom c in
  let c := scroll (c <| con_top := con_y c |> <| con_bottom := video_row_nrs c |>) in
  c <| con_top := oldtop |> <| con_bottom := oldbottom |>.
Definition insert_line (c : screen) : screen := below scrdown c.
Definition delete_line (c : screen) : screen := below scrup c.

Fixpoint delete_loop (n : nat) (p e : Z) (m : gmap Z Z) : gmap Z Z :=
  match n with
  | O => store_word p e m
  | Datatypes.S n' => delete_loop n' (u32 (p + 2)) e (store_word p (load_word m (p + 2)) m)
  end.
Definition delete_char (c : screen) : screen :=
  if video_column_nrs c <=? con_x c then c
  else c <| vram ::= delete_loop (Z.to_nat (video_column_nrs c - 1 - con_x c)) (con_pos c) (video_erase_char c) |>.

(** [while (nr--) f()], where [nr] is at least 1 and at most [most]. *)
Definition repeated (most nr : Z) (f : screen -> screen) (c : screen) : screen :=
  let nr := if most <? nr then most else if istrue nr then nr else 1 in
  Nat.iter (Z.to_nat nr) f c.
Definition csi_at (nr : Z) (c : screen) : screen := repeated (video_column_nrs c) nr insert_char c.
Definition csi_L (nr : Z) (c : screen) : screen := repeated (video_row_nrs c) nr insert_line c.
Definition csi_P (nr : Z) (c : screen) : screen := repeated (video_column_nrs c) nr delete_char c.
Definition csi_M (nr : Z) (c : screen) : screen := repeated (video_row_nrs c) nr delete_line c.

(** The saved position is of type [int]. *)
Definition save_cur (c : screen) : screen := c <| saved_x := s32 (con_x c) |> <| saved_y := s32 (con_y c) |>.
Definition restore_cur (c : screen) : screen := gotoxy (u32 (saved_x c)) (u32 (saved_y c)) c.

(** ** One character *)

Inductive action : Type := no_action | sysbeep_action | respond_action.

(** The cursor has gone past the end of the line. *)
Definition wrap_line (c : screen) : screen :=
  lf (c <| con_x ::= fun x => u32 (x - video_column_nrs c) |>
        <| con_pos ::= fun p => u32 (p - video_size_per_row c) |>).

Definition put_visible (ch : Z) (c : screen) : screen :=
  let c := if video_column_nrs c <=? con_x c then wrap_line c else c in
  c <| vram ::= store_word (con_pos c) (ch + attr c * 256) |>
    <| con_pos ::= fun p => u32 (p + 2) |> <| con_x ::= fun x => u32 (x + 1) |>.

Definition tab (c : screen) : screen :=
  let n := 8 - Z.land (con_x c) 7 in
  let c := c <| con_x ::= fun x => u32 (x + n) |> <| con_pos ::= fun p => u32 (p + Z.shiftl n 1) |> in
  if video_column_nrs c <? con_x c then wrap_line c else c.

(** State 0; [erase_char] is the terminal's erase character. *)
Definition plain_char (erase_char ch : Z) (c : screen) : screen * action :=
  if (31 <? ch) && (ch <? 127) then (put_visible ch c, no_action)
  else if ch =? 27 then (c <| con_state := 1 |>, no_action)
  else if (ch =? 10) || (ch =? 11) || (ch =? 12) then (lf c, no_action)
  else if ch =? 13 then (cr c, no_action)
  else if ch =? erase_char then (del c, no_action)
  else if ch =? 8 then ((if istrue (con_x c) then left_one c else c), no_action)
  else if ch =? 9 then (tab c, no_action)
  else if ch =? 7 then (c, sysbeep_action)
  else (c, no_action).

(** State 1: after an escape character. *)
Definition escape_char (ch : Z) (c : screen) : screen * action :=
  let c := c <| con_state := 0 |> in
  if ch =? 91 (* [ *) then (c <| con_state := 2 |>, no_action)
  else if ch =? 69 (* E *) then (gotoxy 0 (u32 (con_y c + 1)) c, no_action)
  else if ch =? 77 (* M *) then (ri c, no_action)
  else if ch =? 68 (* D *) then (lf c, no_action)
  else if ch =? 90 (* Z *) then (c, respond_action)
  else if ch =? 55 (* 7 *) then (save_cur c, no_action)
  else if ch =? 56 (* 8 *) then (restore_cur c, no_action)
  else (c, no_action).

(** [if (par[i]) par[i]--] and [if (!par[i]) par[i]++] *)
Definition less_one (p : Z) : Z := if istrue p then p - 1 else p.
Definition at_least_one (p : Z) : Z := if istrue p then p else 1.

Definition set_region (c : screen) (p0 p1 : Z) : screen :=
  let p0 := less_one p0 in
  let p1 := if istrue p1 then p1 else video_row_nrs c in
  let c := c <| par ::= fun l => setz (setz l 0 p0) 1 p1 |> in
  if (p0 <? p1) && (p1 <=? video_row_nrs c) then c <| con_top := p0 |> <| con_bottom := p1 |> else c.

(** State 4: the character that ends a sequence. *)
Definition final_char (ch : Z) (c : screen) : option screen :=
  let c := c <| con_state := 0 |> in
  p0 ← getz (par c) 0;
  p1 ← getz (par c) 1;
  let moved p f := f p (c <| par ::= fun l => setz l 0 p |>) in
  if (ch =? 71) || (ch =? 96) (* G ` *) then Some (moved (less_one p0) (fun p => gotoxy p (con_y c)))
  else if ch =? 65 (* A *) then Some (moved (at_least_one p0) (fun p => gotoxy (con_x c) (u32 (con_y c - p))))
  else if (ch =? 66) || (ch =? 101) (* B e *) then
    Some (moved (at_least_one p0) (fun p => gotoxy (con_x c) (u32 (con_y c + p))))
  else if (ch =? 67) || (ch =? 97) (* C a *) then
    Some (moved (at_least_one p0) (fun p => gotoxy (u32 (con_x c + p)) (con_y c)))
  else if ch =? 68 (* D *) then Some (moved (at_least_one p0) (fun p => gotoxy (u32 (con_x c - p)) (con_y c)))
  else if ch =? 69 (* E *) then Some (moved (at_least_one p0) (fun p => gotoxy 0 (u32 (con_y c + p))))
  else if ch =? 70 (* F *) then Some (moved (at_least_one p0) (fun p => gotoxy 0 (u32 (con_y c - p))))
  else if ch =? 100 (* d *) then Some (moved (less_one p0) (fun p => gotoxy (con_x c) p))
  else if (ch =? 72) || (ch =? 102) (* H f *) then
    Some (gotoxy (less_one p1) (less_one p0) (c <| par ::= fun l => setz (setz l 0 (less_one p0)) 1 (less_one p1) |>))
  else if ch =? 74 (* J *) then Some (csi_J p0 c)
  else if ch =? 75 (* K *) then Some (csi_K p0 c)
  else if ch =? 76 (* L *) then Some (csi_L p0 c)
  else if ch =? 77 (* M *) then Some (csi_M p0 c)
  else if ch =? 80 (* P *) then Some (csi_P p0 c)
  else if ch =? 64 (* @ *) then Some (csi_at p0 c)
  else if ch =? 109 (* m *) then csi_m c
  else if ch =? 114 (* r *) then Some (set_region c p0 p1)
  else if ch =? 115 (* s *) then Some (save_cur c)
  else if ch =? 117 (* u *) then Some (restore_cur c)
  else Some c.

(** State 3: the parameters of a sequence. *)
Definition par_char (ch : Z) (c : screen) : option screen :=
  if (ch =? 59) && (npar c <? NPAR - 1) then Some (c <| npar ::= fun n => n + 1 |>)
  else if (48 <=? ch) && (ch <=? 57) then
    p ← getz (par c) (npar c);
    Some (c <| par ::= fun l => setz l (npar c) (u32 (10 * p + ch - 48)) |>)
  else final_char ch (c <| con_state := 4 |>).

(** State 2: the first character after the bracket. *)
Definition first_par_char (ch : Z) (c : screen) : option screen :=
  let c := c <| par := replicate (Z.to_nat NPAR) 0 |> <| npar := 0 |> <| con_state := 3 |>
             <| ques := b2z (ch =? 63) |> in
  if istrue (ques c) then Some c else par_char ch c.

Definition silent (o : option screen) : option (screen * action) := (fun c => (c, no_action)) <$> o.

Definition console_char (erase_char ch : Z) (c : screen) : option (screen * action) :=
  if con_state c =? 0 then Some (plain_char erase_char ch c)
  else if con_state c =? 1 then Some (escape_char ch c)
  else if con_state c =? 2 then silent (first_par_char ch c)
  else if con_state c =? 3 then silent (par_char ch c)
  else if con_state c =? 4 then silent (final_char ch c)
  else Some (c, no_action).

(** ** Start-up

    [setup a] is the byte setup.s left at address [a]; [inb] reads a port. *)

Definition setup_word (setup : Z -> Z) (a : Z) : Z := setup a + setup (a + 1) * 256.
Definition ORIG_X (setup : Z -> Z) : Z := setup 0x90000.
Definition ORIG_Y (setup : Z -> Z) : Z := setup 0x90001.
Definition ORIG_VIDEO_PAGE (setup : Z -> Z) : Z := setup_word setup 0x90004.
Definition ORIG_VIDEO_MODE (setup : Z -> Z) : Z := Z.land (setup_word setup 0x90006) 0xff.
Definition ORIG_VIDEO_COLS (setup : Z -> Z) : Z := Z.shiftr (Z.land (setup_word setup 0x90006) 0xff00) 8.
Definition ORIG_VIDEO_ROWS : Z := 25.
Definition ORIG_VIDEO_EGA_BX (setup : Z -> Z) : Z := setup_word setup 0x9000a.

(** The card: start and end of its memory, its ports, and its name. *)
Definition video_card (setup : Z -> Z) (c : screen) : screen * list Z :=
  let ega := negb (Z.land (ORIG_VIDEO_EGA_BX setup) 0xff =? 0x10) in
  if ORIG_VIDEO_MODE setup =? 7 then
    let c := c <| video_mem_start := 0xb0000 |> <| video_port_reg := 0x3b4 |> <| video_port_val := 0x3b5 |> in
    if ega then (c <| video_type := VIDEO_TYPE_EGAM |> <| video_mem_end := 0xb8000 |>, [69; 71; 65; 109])
    else (c <| video_type := VIDEO_TYPE_MDA |> <| video_mem_end := 0xb2000 |>, [42; 77; 68; 65])
  else
    let c := c <| video_mem_start := 0xb8000 |> <| video_port_reg := 0x3d4 |> <| video_port_val := 0x3d5 |> in
    if ega then (c <| video_type := VIDEO_TYPE_EGAC |> <| video_mem_end := 0xbc000 |>, [69; 71; 65; 99])
    else (c <| video_type := VIDEO_TYPE_CGA |> <| video_mem_end := 0xba000 |>, [42; 67; 71; 65]).

(** The name is written over the characters, not their attributes. *)
Fixpoint show_name (name : list Z) (a : Z) (m : gmap Z Z) : gmap Z Z :=
  match name with
  | [] => m
  | ch :: name => show_name name (u32 (a + 2)) (poke a ch m)
  end.

(** Without the gate of the keyboard interrupt. *)
Definition console_init (setup : Z -> Z) (inb : Z -> Z) (c : screen) : screen :=
  let c := c <| video_column_nrs := ORIG_VIDEO_COLS setup |> in
  let c := c <| video_size_per_row := video_column_nrs c * 2 |> <| video_row_nrs := ORIG_VIDEO_ROWS |>
             <| video_page := u8 (ORIG_VIDEO_PAGE setup) |> <| video_erase_char := 0x0720 |> in
  let '(c, display_desc) := video_card setup c in
  let c := c <| vram ::= show_name display_desc (u32 (video_mem_start c + video_size_per_row c - 8)) |> in
  let c := c <| origin := video_mem_start c |>
             <| scroll_end := u32 (video_mem_start c + video_row_nrs c * video_size_per_row c) |>
             <| con_top := 0 |> <| con_bottom := video_row_nrs c |> in
  let c := gotoxy (ORIG_X setup) (ORIG_Y setup) c in
  let c := outb (Z.land (inb 0x21) 0xfd) 0x21 c in
  let tmp := inb 0x61 in
  outb tmp 0x61 (outb (Z.lor tmp 0x80) 0x61 c).

(** The variables before [console_init]. *)
Definition blank_screen : screen :=
  Screen 0 0 0 0 0 0 0 0 0 0 0 0 0 0 0 0 0 0 0 (replicate 16 0) 0 0x07 0 0 ∅ [].
