(* ===== verification/VideoRam.v ===== *)
(** * The video memory: what the string instructions of console.c write *)

From Stdlib Require Import ZArith Lia.
From stdpp Require Import base numbers list gmap.
From S2P Require Import Prelude Console.

Lemma peek_poke a b v m :
  is_u32 a -> is_u32 b -> peek (poke b v m) a = if a =? b then u8 v else peek m a.
Proof.
  intros Ha Hb. unfold peek, poke. rewrite !u32_id by done. destruct (Z.eqb_spec a b) as [->|].
  - by rewrite lookup_insert_eq.
  - by rewrite lookup_insert_ne by done.
Qed.

Lemma peek_store a b w m : is_u32 a -> 0 <= b < 4294967295 ->
  peek (store_word b w m) a = if a =? b then u8 w else if a =? b + 1 then u8 (Z.shiftr w 8) else peek m a.
Proof.
  intros Ha Hb. unfold store_word. rewrite !peek_poke by (unfold is_u32 in *; lia).
  destruct (Z.eqb_spec a b), (Z.eqb_spec a (b + 1)); lia || done.
Qed.

(** A word of two bytes. *)
Lemma word_bytes w : is_u16 w -> u8 w + u8 (Z.shiftr w 8) * 256 = w.
Proof. unfold is_u16, u8. intros H. rewrite Z.shiftr_div_pow2 by lia. change (2 ^ 8) with 256. dmlia. Qed.

Lemma load_store b w m : is_u16 w -> 0 <= b < 4294967295 -> load_word (store_word b w m) b = w.
Proof.
  intros Hw Hb. unfold load_word. rewrite !peek_store by (unfold is_u32; lia).
  rewrite !Z.eqb_refl, (proj2 (Z.eqb_neq (b + 1) b)) by lia. by apply word_bytes.
Qed.
Lemma load_store_ne a b w m : 0 <= a < 4294967295 -> 0 <= b < 4294967295 -> a + 1 < b \/ b + 1 < a ->
  load_word (store_word b w m) a = load_word m a.
Proof.
  intros Ha Hb Hd. unfold load_word. rewrite !peek_store by (unfold is_u32; lia).
  rewrite !(proj2 (Z.eqb_neq _ _)) by lia. done.
Qed.

Lemma peek_u8 m a : (forall b v, m !! b = Some v -> is_u8 v) -> is_u8 (peek m a).
Proof. intros H. unfold peek. destruct (m !! u32 a) eqn:E; [by eapply H|done]. Qed.

(** The bytes a routine may change. *)
Definition only (lo hi : Z) (m m' : gmap Z Z) : Prop :=
  forall a, is_u32 a -> a < lo \/ hi <= a -> peek m' a = peek m a.

Lemma only_refl lo hi m : only lo hi m m.
Proof. done. Qed.
Lemma only_trans lo hi m m' m'' : only lo hi m m' -> only lo hi m' m'' -> only lo hi m m''.
Proof. intros H1 H2 a Ha Ho. by rewrite H2, H1. Qed.
Lemma only_weaken lo hi lo' hi' m m' : only lo' hi' m m' -> lo <= lo' -> hi' <= hi -> only lo hi m m'.
Proof. intros H Hl Hh a Ha Ho. apply H; [done|lia]. Qed.
Lemma only_store lo hi a w m : 0 <= lo <= a -> a + 2 <= hi <= 4294967296 -> only lo hi m (store_word a w m).
Proof.
  intros Hl Hh b Hb Ho. rewrite peek_store by (done || lia). by rewrite !(proj2 (Z.eqb_neq _ _)) by lia.
Qed.

(** ** Storing words *)

(** Byte [j] of a row of words [w]. *)
Definition byte_of (w j : Z) : Z := u8 (Z.shiftr w (8 * (j mod 2))).

Lemma byte_of_even w j : j mod 2 = 0 -> byte_of w j = u8 w.
Proof. unfold byte_of. by intros ->. Qed.
Lemma byte_of_odd w j : j mod 2 = 1 -> byte_of w j = u8 (Z.shiftr w 8).
Proof. unfold byte_of. by intros ->. Qed.

(** The value of a byte after a row of words was stored from [e] on. *)
Definition filled (w e len : Z) (m : gmap Z Z) (a : Z) : Z :=
  if (e <=? a) && (a <? e + len) then byte_of w (a - e) else peek m a.

Lemma stosw_up n w e m a :
  0 <= e -> e + 2 * Z.of_nat n <= 4294967296 -> is_u32 a ->
  peek (stosw n w e 2 m) a = filled w e (2 * Z.of_nat n) m a.
Proof.
  unfold filled. revert e m. induction n as [|n IH]; intros e m He Hh Ha; cbn [stosw].
  { zcases; done || lia. }
  destruct n as [|n].
  { cbn [stosw]. rewrite peek_store by (done || lia).
    zcases; cbn [andb]; try lia; first [done|rewrite byte_of_even by dmlia; done|rewrite byte_of_odd by dmlia; done]. }
  rewrite u32_id by (unfold is_u32; lia). rewrite IH, peek_store by (done || lia).
  zcases; cbn [andb]; try lia; try done.
  - by rewrite byte_of_even by dmlia.
  - by rewrite byte_of_odd by dmlia.
  - unfold byte_of. by replace ((a - (e + 2)) mod 2) with ((a - e) mod 2) by dmlia.
Qed.

(** Downwards: the last word stored is at [e - 2 * (n - 1)]. *)
Lemma stosw_down n w e m a :
  0 <= e - 2 * Z.of_nat n + 2 -> e + 2 <= 4294967296 -> is_u32 a -> (0 < n)%nat ->
  peek (stosw n w e (-2) m) a = filled w (e - 2 * Z.of_nat n + 2) (2 * Z.of_nat n) m a.
Proof.
  unfold filled. revert e m. induction n as [|n IH]; intros e m He Hh Ha Hn; [lia|]. cbn [stosw].
  destruct n as [|n].
  { cbn [stosw]. rewrite peek_store by (done || lia).
    zcases; cbn [andb]; try lia; first [done|rewrite byte_of_even by dmlia; done|rewrite byte_of_odd by dmlia; done]. }
  rewrite u32_id by (unfold is_u32; lia). rewrite IH, peek_store by (done || lia).
  replace (e + -2 - 2 * Z.of_nat (S n) + 2) with (e - 2 * Z.of_nat (S (S n)) + 2) by lia.
  zcases; cbn [andb]; try lia; try done.
  - by rewrite byte_of_even by dmlia.
  - by rewrite byte_of_odd by dmlia.
Qed.

(** ** Moving longs *)

(** The value of a byte after a block was moved from [src] to [dst]. *)
Definition moved (src dst len : Z) (m : gmap Z Z) (a : Z) : Z :=
  if (dst <=? a) && (a <? dst + len) then peek m (a - dst + src) else peek m a.

Definition byte_map (m : gmap Z Z) : Prop := forall a v, m !! a = Some v -> is_u8 v.

Lemma load_word_low m a : byte_map m -> u8 (load_word m a) = peek m a.
Proof.
  intros H. pose proof (peek_u8 m a H). unfold load_word, is_u8, u8 in *. dmlia.
Qed.
Lemma load_word_high m a : byte_map m -> u8 (Z.shiftr (load_word m a) 8) = peek m (a + 1).
Proof.
  intros H. pose proof (peek_u8 m a H). pose proof (peek_u8 m (a + 1) H). unfold load_word, is_u8, u8 in *.
  rewrite Z.shiftr_div_pow2 by lia. change (2 ^ 8) with 256. dmlia.
Qed.

Lemma byte_map_poke a v m : byte_map m -> byte_map (poke a v m).
Proof.
  intros H b x. unfold poke. rewrite lookup_insert_Some. intros [[_ <-]|[_ Hb]]; [apply u8_range|by eapply H].
Qed.
Lemma byte_map_store a w m : byte_map m -> byte_map (store_word a w m).
Proof. intros H. by do 2 apply byte_map_poke. Qed.
Lemma byte_map_stosw n w e d m : byte_map m -> byte_map (stosw n w e d m).
Proof. revert e m. induction n; intros e m H; [done|]. by apply IHn, byte_map_store. Qed.
Lemma byte_map_move esi edi m : byte_map m -> byte_map (move_long esi edi m).
Proof. intros H. by do 2 apply byte_map_store. Qed.
Lemma byte_map_movsl n esi edi d m : byte_map m -> byte_map (movsl n esi edi d m).
Proof. revert esi edi m. induction n; intros esi edi m H; [done|]. by apply IHn, byte_map_move. Qed.

Lemma move_long_spec src dst m a :
  byte_map m -> 0 <= src -> src + 4 <= 4294967296 -> 0 <= dst -> dst + 4 <= 4294967296 -> is_u32 a ->
  peek (move_long src dst m) a = moved src dst 4 m a.
Proof.
  intros Hm Hs Hs' Hd Hd' Ha. unfold move_long, moved. rewrite !peek_store by (done || lia).
  rewrite !load_word_low, !load_word_high by done.
  zcases; cbn [andb]; try lia; f_equal; lia.
Qed.

(** Upwards to a lower address, and downwards to a higher one, every byte is
    read before it is written. *)
Lemma movsl_up n src dst m a :
  byte_map m -> 0 <= dst <= src -> src + 4 * Z.of_nat n <= 4294967296 -> is_u32 a ->
  peek (movsl n src dst 4 m) a = moved src dst (4 * Z.of_nat n) m a.
Proof.
  revert src dst m. induction n as [|n IH]; intros src dst m Hm Hd Hh Ha; cbn [movsl].
  { unfold moved. zcases; done || lia. }
  destruct n as [|n]; [cbn [movsl]; rewrite move_long_spec by (done || lia); done|].
  rewrite !u32_id by (unfold is_u32; lia). rewrite IH by (done || lia || by apply byte_map_move).
  unfold moved. destruct (Z.leb_spec (dst + 4) a), (Z.ltb_spec a (dst + 4 + 4 * Z.of_nat (S n))); cbn [andb];
    (rewrite move_long_spec by (first [done|unfold is_u32 in *; lia])); unfold moved;
    zcases; cbn [andb]; try lia; try done; f_equal; lia.
Qed.

Lemma movsl_down n src dst m a :
  byte_map m -> 0 <= src - 4 * Z.of_nat n + 4 -> src <= dst -> dst + 4 <= 4294967296 -> is_u32 a -> (0 < n)%nat ->
  peek (movsl n src dst (-4) m) a =
    moved (src - 4 * Z.of_nat n + 4) (dst - 4 * Z.of_nat n + 4) (4 * Z.of_nat n) m a.
Proof.
  revert src dst m. induction n as [|n IH]; intros src dst m Hm Hs Hd Hh Ha Hn; [lia|]. cbn [movsl].
  destruct n as [|n].
  { cbn [movsl]. rewrite move_long_spec by (done || lia). unfold moved. zcases; cbn [andb]; try lia; f_equal; lia. }
  rewrite !u32_id by (unfold is_u32; lia). rewrite IH by (done || lia || by apply byte_map_move).
  unfold moved. destruct (Z.leb_spec (dst + -4 - 4 * Z.of_nat (S n) + 4) a),
    (Z.ltb_spec a (dst + -4 - 4 * Z.of_nat (S n) + 4 + 4 * Z.of_nat (S n))); cbn [andb];
    (rewrite move_long_spec by (first [done|unfold is_u32 in *; lia])); unfold moved;
    zcases; cbn [andb]; try lia; try done; f_equal; lia.
Qed.

(** ** What the instructions leave alone *)

Lemma only_stosw_up lo hi n w e m :
  0 <= lo <= e -> e + 2 * Z.of_nat n <= hi <= 4294967296 -> only lo hi m (stosw n w e 2 m).
Proof.
  intros Hl Hh a Ha Ho. rewrite stosw_up by (done || lia). unfold filled. zcases; cbn [andb]; done || lia.
Qed.
Lemma only_stosw_down lo hi n w e m :
  0 <= lo <= e - 2 * Z.of_nat n + 2 -> e + 2 <= hi <= 4294967296 -> only lo hi m (stosw n w e (-2) m).
Proof.
  intros Hl Hh. destruct n as [|n]; [done|]. intros a Ha Ho. rewrite stosw_down by (done || lia).
  unfold filled. zcases; cbn [andb]; done || lia.
Qed.
Lemma only_movsl_up lo hi n src dst m :
  byte_map m -> 0 <= lo <= dst -> dst <= src -> dst + 4 * Z.of_nat n <= hi -> src + 4 * Z.of_nat n <= 4294967296 ->
  only lo hi m (movsl n src dst 4 m).
Proof.
  intros Hm Hl Hd Hh Hs a Ha Ho. rewrite movsl_up by (done || lia). unfold moved. zcases; cbn [andb]; done || lia.
Qed.
Lemma only_movsl_down lo hi n src dst m :
  byte_map m -> 0 <= lo <= dst - 4 * Z.of_nat n + 4 -> 0 <= src - 4 * Z.of_nat n + 4 -> src <= dst ->
  dst + 4 <= hi <= 4294967296 -> only lo hi m (movsl n src dst (-4) m).
Proof.
  intros Hm Hl Hs Hd Hh. destruct n as [|n]; [done|]. intros a Ha Ho. rewrite movsl_down by (done || lia).
  unfold moved. zcases; cbn [andb]; done || lia.
Qed.
Lemma only_insert lo hi n old p m :
  0 <= lo <= p -> p + 2 * Z.of_nat n <= hi <= 4294967296 -> only lo hi m (insert_loop n old p m).
Proof.
  revert old p m. induction n as [|n IH]; intros old p m Hl Hh; [done|]. cbn [insert_loop].
  eapply only_trans; [apply (only_store lo hi p old); lia|]. destruct n as [|n]; [done|].
  rewrite u32_id by (unfold is_u32; lia). apply IH; lia.
Qed.
Lemma only_delete lo hi n p e m :
  0 <= lo <= p -> p + 2 * Z.of_nat n + 2 <= hi <= 4294967296 -> only lo hi m (delete_loop n p e m).
Proof.
  revert p m. induction n as [|n IH]; intros p m Hl Hh; cbn [delete_loop]; [apply only_store; lia|].
  eapply only_trans; [apply (only_store lo hi p); lia|].
  rewrite u32_id by (unfold is_u32; lia). apply IH; lia.
Qed.
Lemma byte_map_insert n old p m : byte_map m -> byte_map (insert_loop n old p m).
Proof. revert old p m. induction n; intros old p m H; [done|]. by apply IHn, byte_map_store. Qed.
Lemma byte_map_delete n p e m : byte_map m -> byte_map (delete_loop n p e m).
Proof. revert p m. induction n; intros p m H; [by apply byte_map_store|]. by apply IHn, byte_map_store. Qed.

(** ** Words of a screen *)

Lemma filled_word w e len m a :
  is_u16 w -> e <= a -> a + 2 <= e + len -> (a - e) mod 2 = 0 ->
  filled w e len m a + filled w e len m (a + 1) * 256 = w.
Proof.
  intros Hw H1 H2 H3. unfold filled. zcases; cbn [andb]; try lia.
  rewrite byte_of_even, byte_of_odd by dmlia. by apply word_bytes.
Qed.
Lemma filled_out w e len m a : a < e \/ e + len <= a -> filled w e len m a = peek m a.
Proof. intros H. unfold filled. zcases; cbn [andb]; done || lia. Qed.
Lemma moved_in src dst len m a : dst <= a < dst + len -> moved src dst len m a = peek m (a - dst + src).
Proof. intros H. unfold moved. zcases; cbn [andb]; done || lia. Qed.
Lemma moved_out src dst len m a : a < dst \/ dst + len <= a -> moved src dst len m a = peek m a.
Proof. intros H. unfold moved. zcases; cbn [andb]; done || lia. Qed.
(** A word that is one of a row filled with [w], moved from elsewhere, or
    untouched. *)
Lemma load_filled m m' w e len a : is_u16 w ->
  (forall b, is_u32 b -> peek m' b = filled w e len m b) -> is_u32 a -> is_u32 (a + 1) ->
  e <= a -> a + 2 <= e + len -> (a - e) mod 2 = 0 -> load_word m' a = w.
Proof. intros Hw H Ha Ha' H1 H2 H3. unfold load_word. rewrite !H by done. by apply filled_word. Qed.
Lemma load_unfilled m m' w e len a :
  (forall b, is_u32 b -> peek m' b = filled w e len m b) -> is_u32 a -> is_u32 (a + 1) ->
  a + 2 <= e \/ e + len <= a -> load_word m' a = load_word m a.
Proof. intros H Ha Ha' Ho. unfold load_word. rewrite !H by done. by rewrite !filled_out by lia. Qed.
Lemma load_moved m m' src dst len a :
  (forall b, is_u32 b -> peek m' b = moved src dst len m b) -> is_u32 a -> is_u32 (a + 1) ->
  dst <= a -> a + 2 <= dst + len -> load_word m' a = load_word m (a - dst + src).
Proof.
  intros H Ha Ha' H1 H2. unfold load_word. rewrite !H by done. rewrite !moved_in by lia. do 3 f_equal. lia.
Qed.
Lemma load_unmoved m m' src dst len a :
  (forall b, is_u32 b -> peek m' b = moved src dst len m b) -> is_u32 a -> is_u32 (a + 1) ->
  a + 2 <= dst \/ dst + len <= a -> load_word m' a = load_word m a.
Proof. intros H Ha Ha' Ho. unfold load_word. rewrite !H by done. by rewrite !moved_out by lia. Qed.


(** The word at column [k] of row [r], with rows of [len] bytes from [base]
    on, after [rows] rows were moved from row [s] at [base0] on to row [d] and
    then row [z] was filled. *)
Lemma roll_word m m1 m2 base base0 len d s rows z w r k :
  (forall a, is_u32 a -> peek m2 a = filled w (base + z * len) len m1 a) ->
  (forall a, is_u32 a -> peek m1 a = moved (base0 + s * len) (base + d * len) (rows * len) m a) ->
  is_u16 w -> 0 <= base + r * len -> base + r * len + len < 4294967296 -> 0 <= k /\ 2 * k + 2 <= len ->
  z < d \/ d + rows <= z ->
  load_word m2 (base + r * len + 2 * k) =
    if r =? z then w
    else if (d <=? r) && (r <? d + rows) then load_word m (base0 + (s + r - d) * len + 2 * k)
    else load_word m (base + r * len + 2 * k).
Proof.
  intros H2 H1 Hw Hlo Hhi Hk Hz.
  assert (forall i j, i < j -> i * len + len <= j * len) as Hlt by (intros; nia).
  assert (is_u32 (base + r * len + 2 * k) /\ is_u32 (base + r * len + 2 * k + 1)) as [Ha Ha'] by (unfold is_u32; lia).
  destruct (Z.eqb_spec r z) as [<-|Hne].
  { eapply load_filled; [done|exact H2|done|done|lia|lia|].
    replace (_ - _) with (k * 2) by lia. by rewrite Z.mod_mul. }
  rewrite (load_unfilled _ _ _ _ _ _ H2) by (first [done|destruct (Z.lt_total r z) as [Hl|[Hl|Hl]]; [|done|]; specialize (Hlt _ _ Hl); lia]).
  destruct (Z.leb_spec d r), (Z.ltb_spec r (d + rows)); cbn [andb].
  - rewrite (load_moved _ _ _ _ _ _ H1) by (first [done|nia]). f_equal. lia.
  - apply (load_unmoved _ _ _ _ _ _ H1); [done|done|]. right. nia.
  - apply (load_unmoved _ _ _ _ _ _ H1); [done|done|]. left. specialize (Hlt r d ltac:(lia)). lia.
  - apply (load_unmoved _ _ _ _ _ _ H1); [done|done|]. left. specialize (Hlt r d ltac:(lia)). lia.
Qed.
