(* ===== verification/ConsoleProofs.v ===== *)
(** * The screen stays inside the video memory *)

From Stdlib Require Import ZArith Lia.
From stdpp Require Import base numbers list gmap.
From S2P Require Import Prelude Console VideoRam.

(** ** The invariant of console.c

    The rows fit between [origin] and [scroll_end], which are in the memory of
    the card; the cursor, the scrolling region and the parameters are in range,
    and [con_pos] is the address of the cursor. *)
Record con_ok (c : screen) : Prop := {
  co_cols : 8 <= video_column_nrs c /\ video_column_nrs c mod 2 = 0;
  co_size : video_size_per_row c = 2 * video_column_nrs c;
  co_rows : 1 <= video_row_nrs c;
  co_origin : 4 <= video_mem_start c <= origin c;
  co_end : scroll_end c = origin c + video_row_nrs c * video_size_per_row c;
  co_mem : scroll_end c <= video_mem_end c < 2147483648;
  co_pos : con_pos c = origin c + con_y c * video_size_per_row c + 2 * con_x c;
  co_x : 0 <= con_x c <= video_column_nrs c;
  co_y : 0 <= con_y c < video_row_nrs c;
  co_region : 0 <= con_top c < con_bottom c /\ con_bottom c <= video_row_nrs c;
  co_npar : 0 <= npar c < NPAR;
  co_par : length (par c) = 16%nat /\ Forall is_u32 (par c);
  co_state : 0 <= con_state c <= 4;
  co_saved : 0 <= saved_x c <= video_column_nrs c /\ 0 <= saved_y c < video_row_nrs c;
  co_erase : is_u16 (video_erase_char c);
  co_attr : is_u8 (attr c);
  co_bytes : byte_map (vram c)
}.

(** What does not change, and where the memory may. *)
Record inside (c c' : screen) : Prop := {
  in_cols : video_column_nrs c' = video_column_nrs c;
  in_rows : video_row_nrs c' = video_row_nrs c;
  in_size : video_size_per_row c' = video_size_per_row c;
  in_start : video_mem_start c' = video_mem_start c;
  in_end : video_mem_end c' = video_mem_end c;
  in_type : video_type c' = video_type c;
  in_erase : video_erase_char c' = video_erase_char c;
  in_vram : only (video_mem_start c) (video_mem_end c) (vram c) (vram c')
}.

(** The result of a routine on the screen. *)
Definition keeps (c c' : screen) : Prop := con_ok c' /\ inside c c'.

Lemma inside_refl c : inside c c.
Proof. by split. Qed.
Lemma inside_trans c c' c'' : inside c c' -> inside c' c'' -> inside c c''.
Proof.
  intros H1 H2. split.
  all: try (etransitivity; [apply H2|apply H1]).
  eapply only_trans; [apply H1|]. rewrite <- (in_start _ _ H1), <- (in_end _ _ H1). apply H2.
Qed.
Lemma keeps_refl c : con_ok c -> keeps c c.
Proof. split; [done|apply inside_refl]. Qed.
Lemma keeps_trans c c' c'' : keeps c c' -> (con_ok c' -> keeps c' c'') -> keeps c c''.
Proof. intros [H1 H2] H. destruct (H H1) as [H3 H4]. split; [done|by eapply inside_trans]. Qed.

Lemma rows_le c r : con_ok c -> 0 <= r <= video_row_nrs c ->
  0 <= r * video_size_per_row c <= video_row_nrs c * video_size_per_row c.
Proof. intros Hc Hr. pose proof (co_cols _ Hc). pose proof (co_size _ Hc). nia. Qed.

Lemma co_small c : con_ok c -> video_row_nrs c < 2147483648 /\ video_column_nrs c < 1073741824.
Proof.
  intros Hc. pose proof (co_cols _ Hc). pose proof (co_size _ Hc). pose proof (co_rows _ Hc).
  pose proof (co_end _ Hc). pose proof (co_mem _ Hc). pose proof (co_origin _ Hc). nia.
Qed.

(** The facts of the invariant, for linear arithmetic. *)
Ltac con_facts Hc :=
  pose proof (co_small _ Hc);
  pose proof (co_cols _ Hc); pose proof (co_size _ Hc); pose proof (co_rows _ Hc);
  pose proof (co_origin _ Hc); pose proof (co_end _ Hc); pose proof (co_mem _ Hc);
  pose proof (co_pos _ Hc); pose proof (co_x _ Hc); pose proof (co_y _ Hc); pose proof (co_region _ Hc).
Ltac row_fact Hc r := pose proof (rows_le _ r Hc ltac:(lia)).
Ltac fits := unfold is_u32 in *; lia.

(** A routine that only writes to the video memory. *)
Lemma keeps_vram c f :
  con_ok c -> only (video_mem_start c) (video_mem_end c) (vram c) (f (vram c)) ->
  byte_map (f (vram c)) -> keeps c (c <| vram ::= f |>).
Proof. intros Hc Ho Hb. split; split; upd; try apply Hc; done. Qed.

(** A routine that moves the cursor. *)
Lemma keeps_cursor c x y p :
  con_ok c -> 0 <= x <= video_column_nrs c -> 0 <= y < video_row_nrs c ->
  p = origin c + y * video_size_per_row c + 2 * x ->
  keeps c (c <| con_x := x |> <| con_y := y |> <| con_pos := p |>).
Proof. intros Hc Hx Hy Hp. split; split; upd; try apply Hc; done. Qed.

Lemma keeps_gotoxy c x y : con_ok c -> 0 <= x -> 0 <= y -> keeps c (gotoxy x y c).
Proof.
  intros Hc Hx Hy. unfold gotoxy. destruct (_ || _) eqn:Hin; [by apply keeps_refl|]. breflect.
  con_facts Hc. row_fact Hc (y + 1). apply keeps_cursor; [done|lia|lia|].
  rewrite Z.shiftl_mul_pow2, u32_id by fits. lia.
Qed.

(** ** Scrolling *)

(** The number of longs in [r] rows. *)
Lemma longs c r : con_ok c -> 0 <= r <= video_row_nrs c ->
  4 * Z.of_nat (Z.to_nat (Z.shiftr (u32 (u32 r * video_column_nrs c)) 1)) = r * video_size_per_row c.
Proof.
  intros Hc Hr. con_facts Hc. row_fact Hc r.
  assert (video_row_nrs c <= video_row_nrs c * video_column_nrs c) by nia.
  assert (r * video_size_per_row c = 2 * (r * video_column_nrs c)) as E by lia.
  rewrite (u32_id r), u32_id, Z.shiftr_div_pow2, Z2Nat.id by (first [fits|apply Z.div_pos; lia]).
  assert ((r * video_column_nrs c) mod 2 = 0) by (rewrite Z.mul_mod, (proj2 (co_cols _ Hc)), Z.mul_0_r by lia; done).
  change (2 ^ 1) with 2. dmlia.
Qed.

(** The addresses of [scroll_lines]: the count, and where it goes. *)
Lemma scroll_lines_eq c : con_ok c ->
  exists n, 4 * Z.of_nat n = (con_bottom c - con_top c - 1) * video_size_per_row c /\
  scroll_lines c = c <| vram ::= fun m =>
    stosw (Z.to_nat (video_column_nrs c)) (video_erase_char c) (origin c + video_size_per_row c * (con_bottom c - 1)) 2
      (movsl n (origin c + video_size_per_row c * (con_top c + 1)) (origin c + video_size_per_row c * con_top c) 4 m) |>.
Proof.
  intros Hc. con_facts Hc. row_fact Hc (con_top c + 1). row_fact Hc (con_top c). row_fact Hc (con_bottom c).
  pose proof (longs c (con_bottom c - con_top c - 1) Hc ltac:(lia)) as Hn.
  eexists. split; [exact Hn|]. unfold scroll_lines. rewrite !(u32_id (origin c + _)) by fits. rewrite Hn.
  rewrite u32_id by fits.
  replace (origin c + video_size_per_row c * con_top c + (con_bottom c - con_top c - 1) * video_size_per_row c)
    with (origin c + video_size_per_row c * (con_bottom c - 1)) by lia. done.
Qed.

Lemma keeps_scroll_lines c : con_ok c -> keeps c (scroll_lines c).
Proof.
  intros Hc. destruct (scroll_lines_eq c Hc) as (n & Hn & ->). con_facts Hc.
  row_fact Hc (con_top c + 1). row_fact Hc (con_top c). row_fact Hc (con_bottom c). row_fact Hc (con_bottom c - 1).
  apply keeps_vram; [done| |by apply byte_map_stosw, byte_map_movsl, Hc].
  eapply only_trans; [|apply only_stosw_up; lia]. apply only_movsl_up; [apply Hc|lia..].
Qed.

Lemma scrdown_eq c : con_ok c ->
  exists n, 4 * Z.of_nat n = (con_bottom c - con_top c - 1) * video_size_per_row c /\
  scrdown c = c <| vram ::= fun m =>
    stosw (Z.to_nat (video_column_nrs c)) (video_erase_char c) (origin c + video_size_per_row c * (con_top c + 1) - 2) (-2)
      (movsl n (origin c + video_size_per_row c * (con_bottom c - 1) - 4) (origin c + video_size_per_row c * con_bottom c - 4) (-4) m) |>.
Proof.
  intros Hc. con_facts Hc. row_fact Hc (con_top c + 1). row_fact Hc (con_top c). row_fact Hc (con_bottom c).
  row_fact Hc (con_bottom c - 1). pose proof (longs c (con_bottom c - con_top c - 1) Hc ltac:(lia)) as Hn.
  eexists. split; [exact Hn|]. unfold scrdown.
  assert (2 <= video_size_per_row c) by lia. row_fact Hc 1.
  rewrite (u32_id (origin c + video_size_per_row c * con_bottom c - 4)) by fits. rewrite Hn.
  rewrite (u32_id (_ + 2)) by fits.
  rewrite (u32_id (origin c + video_size_per_row c * (con_bottom c - 1) - 4)) by fits.
  replace (origin c + video_size_per_row c * con_bottom c - 4 - (con_bottom c - con_top c - 1) * video_size_per_row c + 2)
    with (origin c + video_size_per_row c * (con_top c + 1) - 2) by lia. done.
Qed.

Lemma keeps_scrdown c : con_ok c -> keeps c (scrdown c).
Proof.
  intros Hc. destruct (scrdown_eq c Hc) as (n & Hn & ->). con_facts Hc.
  row_fact Hc (con_top c + 1). row_fact Hc (con_top c). row_fact Hc (con_bottom c). row_fact Hc (con_bottom c - 1).
  apply keeps_vram; [done| |by apply byte_map_stosw, byte_map_movsl, Hc].
  eapply only_trans; [|apply only_stosw_down; lia].
  destruct n as [|n]; [done|]. apply only_movsl_down; [apply Hc|lia..].
Qed.

(** ** What scrolling shows

    The character and attribute at column [k] of row [r] of the screen. *)
Definition cell_address (c : screen) (r k : Z) : Z := origin c + r * video_size_per_row c + 2 * k.
Definition cell (c : screen) (r k : Z) : Z := load_word (vram c) (cell_address c r k).

Lemma rows_lt c r r' : con_ok c -> r < r' ->
  r * video_size_per_row c + video_size_per_row c <= r' * video_size_per_row c.
Proof. intros Hc Hr. pose proof (co_cols _ Hc). pose proof (co_size _ Hc). nia. Qed.

Lemma cell_range c r k : con_ok c -> 0 <= r < video_row_nrs c -> 0 <= k < video_column_nrs c ->
  origin c + r * video_size_per_row c <= cell_address c r k /\
  cell_address c r k + 2 <= origin c + r * video_size_per_row c + video_size_per_row c /\
  cell_address c r k + 2 <= scroll_end c /\ video_mem_start c <= cell_address c r k.
Proof.
  intros Hc Hr Hk. con_facts Hc. pose proof (rows_lt c r (video_row_nrs c) Hc ltac:(lia)). row_fact Hc r.
  unfold cell_address. lia.
Qed.

(** Row [r] after the rows of the region [t] to [b - 1] went up, or down. *)
Definition rolled_up (t b erase : Z) (old : Z -> Z -> Z) (r k : Z) : Z :=
  if (t <=? r) && (r <? b - 1) then old (r + 1) k else if r =? b - 1 then erase else old r k.
Definition rolled_down (t b erase : Z) (old : Z -> Z -> Z) (r k : Z) : Z :=
  if (t <? r) && (r <? b) then old (r - 1) k else if r =? t then erase else old r k.

Lemma scroll_lines_cell c r k :
  con_ok c -> 0 <= r < video_row_nrs c -> 0 <= k < video_column_nrs c ->
  cell (scroll_lines c) r k = rolled_up (con_top c) (con_bottom c) (video_erase_char c) (cell c) r k.
Proof.
  intros Hc Hr Hk. destruct (scroll_lines_eq c Hc) as (n & Hn & ->). con_facts Hc.
  row_fact Hc (con_top c). row_fact Hc (con_bottom c). row_fact Hc (con_bottom c - 1). row_fact Hc (r + 1). row_fact Hc r.
  unfold cell, cell_address. upd.
  erewrite (roll_word (vram c) _ _ (origin c) (origin c) (video_size_per_row c) (con_top c) (con_top c + 1)
    (con_bottom c - con_top c - 1) (con_bottom c - 1) (video_erase_char c) r k).
  - unfold rolled_up. zcases; cbn [andb]; try lia; first [done|do 2 f_equal; lia].
  - intros a Ha. rewrite stosw_up by (first [apply Hc|done|lia]). f_equal; lia.
  - intros a Ha. rewrite movsl_up by (first [apply Hc|done|lia]). rewrite Hn. f_equal; lia.
  - apply Hc.
  - lia.
  - lia.
  - lia.
  - lia.
Qed.

Lemma scrdown_cell c r k :
  con_ok c -> 0 <= r < video_row_nrs c -> 0 <= k < video_column_nrs c ->
  cell (scrdown c) r k = rolled_down (con_top c) (con_bottom c) (video_erase_char c) (cell c) r k.
Proof.
  intros Hc Hr Hk. destruct (scrdown_eq c Hc) as (n & Hn & ->). con_facts Hc.
  row_fact Hc (con_top c + 1). row_fact Hc (con_top c). row_fact Hc (con_bottom c). row_fact Hc (con_bottom c - 1).
  row_fact Hc (r + 1). row_fact Hc r.
  unfold cell, cell_address. upd.
  erewrite (roll_word (vram c) _ _ (origin c) (origin c) (video_size_per_row c) (con_top c + 1) (con_top c)
    (con_bottom c - con_top c - 1) (con_top c) (video_erase_char c) r k).
  - unfold rolled_down. zcases; cbn [andb]; try lia; first [done|do 2 f_equal; lia].
  - intros a Ha. rewrite stosw_down by (first [apply Hc|done|lia]). f_equal; lia.
  - intros a Ha. destruct n as [|n].
    + unfold moved. cbn [movsl]. zcases; cbn [andb]; done || lia.
    + rewrite movsl_down by (first [apply Hc|done|lia]). f_equal; lia.
  - apply Hc.
  - lia.
  - lia.
  - lia.
  - lia.
Qed.

(** The outputs are no part of the invariant. *)
Lemma keeps_outs c l : con_ok c -> keeps c (c <| outs ::= l |>).
Proof. intros Hc. split; split; upd; try apply Hc; done. Qed.
Lemma keeps_outb v port c : con_ok c -> keeps c (outb v port c).
Proof. apply keeps_outs. Qed.
Lemma keeps_set_origin c : con_ok c -> keeps c (set_origin c).
Proof. intros Hc. unfold set_origin. do 3 (eapply keeps_trans; [|intros; by apply keeps_outb]). by apply keeps_outb. Qed.
Lemma keeps_set_cursor c : con_ok c -> keeps c (set_cursor c).
Proof. intros Hc. unfold set_cursor. do 3 (eapply keeps_trans; [|intros; by apply keeps_outb]). by apply keeps_outb. Qed.
Lemma set_origin_cell c r k : cell (set_origin c) r k = cell c r k.
Proof. done. Qed.

(** The screen at another origin. *)
Definition at_origin (o : Z) (f : gmap Z Z -> gmap Z Z) (c : screen) : screen :=
  c <| vram ::= f |> <| scroll_end := o + video_row_nrs c * video_size_per_row c |>
    <| con_pos := o + con_y c * video_size_per_row c + 2 * con_x c |> <| origin := o |>.

Lemma keeps_at_origin o f c :
  con_ok c -> video_mem_start c <= o -> o + video_row_nrs c * video_size_per_row c <= video_mem_end c ->
  only (video_mem_start c) (video_mem_end c) (vram c) (f (vram c)) -> byte_map (f (vram c)) ->
  keeps c (at_origin o f c).
Proof.
  intros Hc Ho He Hf Hb. con_facts Hc. unfold at_origin. split; split; upd; try apply Hc; try done; lia.
Qed.

Lemma shift_back c g1 g2 g3 f h1 h2 o :
  c <| origin ::= g1 |> <| con_pos ::= g2 |> <| scroll_end ::= g3 |> <| vram ::= f |>
    <| scroll_end ::= h1 |> <| con_pos ::= h2 |> <| origin := o |> =
  c <| vram ::= f |> <| scroll_end := h1 (g3 (scroll_end c)) |> <| con_pos := h2 (g2 (con_pos c)) |> <| origin := o |>.
Proof. by destruct c. Qed.
Lemma shift_on c g1 g2 g3 f :
  c <| origin ::= g1 |> <| con_pos ::= g2 |> <| scroll_end ::= g3 |> <| vram ::= f |> =
  c <| vram ::= f |> <| scroll_end := g3 (scroll_end c) |> <| con_pos := g2 (con_pos c) |> <| origin := g1 (origin c) |>.
Proof. by destruct c. Qed.

(** Where the hardware scroll leaves the screen, and what it writes. *)
Lemma scroll_origin_eq c : con_ok c ->
  exists o f, scroll_origin c = set_origin (at_origin o f c) /\ video_mem_start c <= o /\
    o + video_row_nrs c * video_size_per_row c <= video_mem_end c /\ exists n,
    4 * Z.of_nat n = (video_row_nrs c - 1) * video_size_per_row c /\
    ((o = video_mem_start c /\
      f = (fun m => stosw (Z.to_nat (video_column_nrs c)) (video_erase_char c) (o + (video_row_nrs c - 1) * video_size_per_row c) 2
             (movsl n (origin c + video_size_per_row c) o 4 m))) \/
     (o = origin c + video_size_per_row c /\
      f = stosw (Z.to_nat (video_column_nrs c)) (video_erase_char c) (o + (video_row_nrs c - 1) * video_size_per_row c) 2)).
Proof.
  intros Hc. con_facts Hc. row_fact Hc (con_y c + 1). row_fact Hc (con_y c). row_fact Hc 1.
  pose proof (longs c (video_row_nrs c - 1) Hc ltac:(lia)) as Hn. row_fact Hc (video_row_nrs c - 1).
  unfold scroll_origin. cbv zeta. upd. rewrite (u32_id (scroll_end c + _)) by fits.
  set (n := Z.to_nat (Z.shiftr _ 1)) in *.
  destruct (Z.ltb_spec (video_mem_end c) (scroll_end c + video_size_per_row c)) as [Hend|Hend].
  - rewrite shift_back. upd. rewrite Hn.
    rewrite (u32_id (origin c + _)), !(u32_id (origin c + _ - _)), (u32_id (video_mem_start c + _)) by fits.
    eexists (video_mem_start c), _. split; [|split; [lia|split; [lia|exists n; split; [exact Hn|left; split; reflexivity]]]].
    unfold at_origin. rewrite (u32_id (scroll_end c + _)), (u32_id (con_pos c + _)) by fits.
    rewrite !u32_id by fits.
    replace (con_pos c + _ - _) with (video_mem_start c + con_y c * video_size_per_row c + 2 * con_x c) by lia.
    by replace (scroll_end c + _ - _) with (video_mem_start c + video_row_nrs c * video_size_per_row c) by lia.
  - rewrite shift_on. upd. rewrite (u32_id (scroll_end c + _)), (u32_id (origin c + _)), (u32_id (con_pos c + _)) by fits.
    rewrite u32_id by fits.
    eexists (origin c + video_size_per_row c), _. split; [|split; [lia|split; [lia|exists n; split; [exact Hn|right; split; reflexivity]]]].
    unfold at_origin.
    replace (con_pos c + _) with (origin c + video_size_per_row c + con_y c * video_size_per_row c + 2 * con_x c) by lia.
    replace (scroll_end c + _ - _) with (origin c + video_size_per_row c + (video_row_nrs c - 1) * video_size_per_row c) by lia.
    by replace (scroll_end c + _) with (origin c + video_size_per_row c + video_row_nrs c * video_size_per_row c) by lia.
Qed.

Lemma keeps_scroll_origin c : con_ok c -> keeps c (scroll_origin c).
Proof.
  intros Hc. destruct (scroll_origin_eq c Hc) as (o & f & -> & Ho & He & n & Hn & Hf). con_facts Hc.
  row_fact Hc (video_row_nrs c - 1). row_fact Hc 1.
  eapply keeps_trans; [|intros; by apply keeps_set_origin].
  destruct Hf as [[-> ->]|[-> ->]].
  - apply keeps_at_origin; [done|lia|lia| |by apply byte_map_stosw, byte_map_movsl, Hc].
    eapply only_trans; [|apply only_stosw_up; lia]. apply only_movsl_up; [apply Hc|lia..].
  - apply keeps_at_origin; [done|lia|lia| |by apply byte_map_stosw, Hc]. apply only_stosw_up; lia.
Qed.

Lemma scroll_origin_cell c r k :
  con_ok c -> 0 <= r < video_row_nrs c -> 0 <= k < video_column_nrs c ->
  cell (scroll_origin c) r k = rolled_up 0 (video_row_nrs c) (video_erase_char c) (cell c) r k.
Proof.
  intros Hc Hr Hk. destruct (scroll_origin_eq c Hc) as (o & f & -> & Ho & He & n & Hn & Hf). con_facts Hc.
  row_fact Hc (video_row_nrs c - 1). row_fact Hc 1. row_fact Hc (r + 1). row_fact Hc r.
  rewrite set_origin_cell. unfold cell, cell_address, at_origin. upd. unfold rolled_up.
  rewrite (proj2 (Z.leb_le 0 r)) by lia. cbn [andb].
  destruct Hf as [[-> ->]|[-> ->]].
  - erewrite (roll_word (vram c) _ _ (video_mem_start c) (origin c + video_size_per_row c) (video_size_per_row c) 0 0
      (video_row_nrs c - 1) (video_row_nrs c - 1) (video_erase_char c) r k).
    + zcases; cbn [andb]; try lia; first [done|f_equal; lia].
    + intros a Ha. rewrite stosw_up by (first [done|lia]). f_equal; lia.
    + intros a Ha. rewrite movsl_up by (first [apply Hc|done|lia]). rewrite Hn. f_equal; lia.
    + apply Hc.
    + lia.
    + lia.
    + lia.
    + lia.
  - erewrite (roll_word (vram c) _ _ (origin c + video_size_per_row c) 0 (video_size_per_row c) 0 0
      0 (video_row_nrs c - 1) (video_erase_char c) r k).
    + zcases; cbn [andb]; try lia; first [done|f_equal; lia].
    + intros a Ha. rewrite stosw_up by (first [done|lia]). f_equal; lia.
    + intros a Ha. unfold moved. zcases; cbn [andb]; done || lia.
    + apply Hc.
    + lia.
    + lia.
    + lia.
    + lia.
Qed.

Lemma keeps_scrup c : con_ok c -> keeps c (scrup c).
Proof.
  intros Hc. unfold scrup. destruct (is_ega c); [destruct (_ && _)|];
    first [by apply keeps_scroll_origin|by apply keeps_scroll_lines].
Qed.

(** ** The other routines *)

(** The position after a routine that changes cursor, region or parameters. *)
Ltac cursor Hc := split; split; upd; try apply Hc; try done; first [fits|rewrite !u32_id by fits; lia].

Lemma keeps_lf c : con_ok c -> keeps c (lf c).
Proof.
  intros Hc. unfold lf. con_facts Hc. row_fact Hc (con_y c + 1). rewrite (u32_id (con_y c + 1)) by fits.
  destruct (Z.ltb_spec (con_y c + 1) (con_bottom c)); [|by apply keeps_scrup].
  row_fact Hc (con_y c + 2). cursor Hc.
Qed.

Lemma keeps_ri c : con_ok c -> keeps c (ri c).
Proof.
  intros Hc. unfold ri. con_facts Hc. row_fact Hc (con_y c).
  destruct (Z.ltb_spec (con_top c) (con_y c)); [|by apply keeps_scrdown].
  row_fact Hc (con_y c - 1). cursor Hc.
Qed.

Lemma keeps_cr c : con_ok c -> keeps c (cr c).
Proof.
  intros Hc. unfold cr. con_facts Hc. row_fact Hc (con_y c).
  rewrite Z.shiftl_mul_pow2 by lia. change (2 ^ 1) with 2. cursor Hc.
Qed.

Lemma keeps_left_one c : con_ok c -> con_x c <> 0 -> keeps c (left_one c).
Proof.
  intros Hc Hx. unfold left_one. con_facts Hc. row_fact Hc (con_y c).
  cursor Hc.
Qed.

(** The cursor's word is on the screen when the cursor is not past the end of
    the line. *)
Lemma cursor_range c : con_ok c ->
  video_mem_start c <= con_pos c /\ con_pos c + 2 * (video_column_nrs c - con_x c) <= scroll_end c.
Proof. intros Hc. con_facts Hc. row_fact Hc (con_y c). row_fact Hc (con_y c + 1). lia. Qed.

Lemma keeps_store c a w :
  con_ok c -> video_mem_start c <= a -> a + 2 <= scroll_end c -> keeps c (c <| vram ::= store_word a w |>).
Proof.
  intros Hc Ha He. con_facts Hc. apply keeps_vram; [done|apply only_store; lia|by apply byte_map_store, Hc].
Qed.

Lemma keeps_del c : con_ok c -> keeps c (del c).
Proof.
  intros Hc. unfold del. destruct (istrue (con_x c)) eqn:Hx; [|by apply keeps_refl]. breflect.
  eapply keeps_trans; [by apply keeps_left_one|]. intros Hc'. pose proof (cursor_range _ Hc') as Hr.
  apply keeps_store; [done|lia|]. revert Hr. unfold left_one. upd. con_facts Hc. rewrite (u32_id (con_x c - 1)) by fits. lia.
Qed.

Lemma keeps_erase c count start :
  con_ok c -> video_mem_start c <= start -> 0 <= count -> start + 2 * count <= scroll_end c -> keeps c (erase count start c).
Proof.
  intros Hc Hs H0 He. con_facts Hc. unfold erase. rewrite u32_id by fits.
  apply keeps_vram; [done|apply only_stosw_up; lia|by apply byte_map_stosw, Hc].
Qed.

Lemma half a b : 0 <= a -> u32 a = a -> a = 2 * b -> Z.shiftr (u32 a) 1 = b.
Proof. intros H1 -> ->. rewrite Z.shiftr_div_pow2 by lia. change (2 ^ 1) with 2. dmlia. Qed.

Lemma keeps_csi_J p c : con_ok c -> keeps c (csi_J p c).
Proof.
  intros Hc. unfold csi_J. con_facts Hc. row_fact Hc (con_y c). row_fact Hc (con_y c + 1).
  destruct (p =? 0); [|destruct (p =? 1); [|destruct (p =? 2); [|by apply keeps_refl]]].
  - rewrite (half _ ((video_row_nrs c - con_y c) * video_column_nrs c - con_x c)); [|lia|apply u32_id; fits|lia].
    apply keeps_erase; [done|lia|lia|lia].
  - rewrite (half _ (con_y c * video_column_nrs c + con_x c)); [|lia|apply u32_id; fits|lia].
    apply keeps_erase; [done|lia|nia|lia].
  - apply keeps_erase; [done|lia|nia|lia].
Qed.

Lemma keeps_csi_K p c : con_ok c -> keeps c (csi_K p c).
Proof.
  intros Hc. unfold csi_K. con_facts Hc. row_fact Hc (con_y c). row_fact Hc (con_y c + 1).
  rewrite Z.shiftl_mul_pow2, u32_id by fits. change (2 ^ 1) with 2.
  destruct (p =? 0); [|destruct (p =? 1); [|destruct (p =? 2); [|by apply keeps_refl]]].
  - destruct (Z.leb_spec (video_column_nrs c) (con_x c)); [by apply keeps_refl|]. apply keeps_erase; [done|lia..].
  - apply keeps_erase; [done|lia| |]; zcases; lia.
  - apply keeps_erase; [done|lia..].
Qed.

Lemma keeps_insert_char c : con_ok c -> keeps c (insert_char c).
Proof.
  intros Hc. con_facts Hc. pose proof (cursor_range _ Hc). unfold insert_char.
  apply keeps_vram; [done|apply only_insert; lia|by apply byte_map_insert, Hc].
Qed.
Lemma keeps_delete_char c : con_ok c -> keeps c (delete_char c).
Proof.
  intros Hc. con_facts Hc. pose proof (cursor_range _ Hc). unfold delete_char.
  destruct (Z.leb_spec (video_column_nrs c) (con_x c)); [by apply keeps_refl|].
  apply keeps_vram; [done|apply only_delete; lia|by apply byte_map_delete, Hc].
Qed.

Lemma keeps_region c t b : con_ok c -> 0 <= t < b -> b <= video_row_nrs c ->
  keeps c (c <| con_top := t |> <| con_bottom := b |>).
Proof. intros Hc Ht Hb. split; split; upd; try apply Hc; done. Qed.
Lemma keeps_below scroll c : (forall c, con_ok c -> keeps c (scroll c)) -> con_ok c -> keeps c (below scroll c).
Proof.
  intros Hs Hc. con_facts Hc. unfold below.
  destruct (keeps_region c (con_y c) (video_row_nrs c) Hc ltac:(lia) ltac:(lia)) as [Hc1 I1].
  destruct (Hs _ Hc1) as [Hc2 I2]. pose proof (inside_trans _ _ _ I1 I2) as I.
  eapply keeps_trans; [split; [exact Hc2|exact I]|]. intros _. apply keeps_region; [done|lia|].
  rewrite (in_rows _ _ I). lia.
Qed.
Lemma keeps_iter f c n : (forall c, con_ok c -> keeps c (f c)) -> con_ok c -> keeps c (Nat.iter n f c).
Proof. intros Hf Hc. induction n as [|n IH]; [by apply keeps_refl|]. eapply keeps_trans; [exact IH|apply Hf]. Qed.
Lemma keeps_repeated most nr f c : (forall c, con_ok c -> keeps c (f c)) -> con_ok c -> keeps c (repeated most nr f c).
Proof. intros Hf Hc. by apply keeps_iter. Qed.

Lemma keeps_save_cur c : con_ok c -> keeps c (save_cur c).
Proof.
  intros Hc. con_facts Hc. unfold save_cur. rewrite !s32_id by (unfold is_s32; lia).
  split; split; upd; try apply Hc; done.
Qed.
Lemma keeps_restore_cur c : con_ok c -> keeps c (restore_cur c).
Proof. intros Hc. apply keeps_gotoxy; [done|apply u32_range..]. Qed.

(** Past the end of the line the cursor is not where the invariant says, until
    [wrap_line] has taken a line off. *)
Lemma keeps_wrap_line c c' :
  inside c c' ->
  con_ok (c' <| con_x ::= fun x => u32 (x - video_column_nrs c') |>
             <| con_pos ::= fun p => u32 (p - video_size_per_row c') |>) -> keeps c (wrap_line c').
Proof.
  intros Hi Hc. destruct (keeps_lf _ Hc) as [H1 H2]. split; [exact H1|].
  eapply inside_trans; [exact Hi|]. eapply inside_trans; [|exact H2]. by split.
Qed.

Lemma keeps_tab c : con_ok c -> keeps c (tab c).
Proof.
  intros Hc. unfold tab. con_facts Hc. row_fact Hc (con_y c). row_fact Hc (con_y c + 1).
  change 7 with (Z.ones 3). rewrite Z.land_ones by lia. change (2 ^ 3) with 8.
  pose proof (Z.mod_pos_bound (con_x c) 8 ltac:(lia)). set (n := 8 - con_x c mod 8) in *.
  rewrite Z.shiftl_mul_pow2 by lia. change (2 ^ 1) with 2.
  upd. rewrite (u32_id (con_x c + n)) by fits.
  destruct (Z.ltb_spec (video_column_nrs c) (con_x c + n)).
  - apply keeps_wrap_line; [by split|]. split; upd; try apply Hc; try done; rewrite !(u32_id (_ + _)) by fits; rewrite ?u32_id by fits; lia.
  - cursor Hc.
Qed.

Lemma scrup_xy c : con_x (scrup c) = con_x c /\ con_y (scrup c) = con_y c.
Proof.
  unfold scrup, scroll_origin. destruct (is_ega c); [|done]. destruct (negb _ && _); [|done].
  cbv zeta. by destruct (_ <? _).
Qed.
Lemma lf_x c : con_x (lf c) = con_x c.
Proof. unfold lf. destruct (_ <? _); [by upd|apply scrup_xy]. Qed.

Lemma keeps_show ch c :
  con_ok c -> con_x c < video_column_nrs c -> keeps c
    (c <| vram ::= store_word (con_pos c) (ch + attr c * 256) |>
       <| con_pos ::= fun p => u32 (p + 2) |> <| con_x ::= fun x => u32 (x + 1) |>).
Proof.
  intros Hc Hx. pose proof (cursor_range _ Hc). pose proof (co_end _ Hc).
  eapply keeps_trans; [apply (keeps_store c (con_pos c) (ch + attr c * 256)); [done|lia|lia]|].
  intros Hc'. con_facts Hc. row_fact Hc (con_y c). row_fact Hc (con_y c + 1).
  split; split; upd; try apply Hc'; try done; first [fits|rewrite !u32_id by fits; lia].
Qed.

Lemma keeps_put_visible ch c : con_ok c -> keeps c (put_visible ch c).
Proof.
  intros Hc. unfold put_visible. con_facts Hc. row_fact Hc (con_y c). row_fact Hc (con_y c + 1).
  destruct (Z.leb_spec (video_column_nrs c) (con_x c)); [|apply keeps_show; [done|lia]].
  eapply keeps_trans.
  - apply (keeps_wrap_line c c); [apply inside_refl|].
    split; upd; try apply Hc; try done; first [fits|rewrite !u32_id by fits; lia].
  - intros Hw. apply keeps_show; [done|]. unfold wrap_line at 1. rewrite lf_x. upd.
    pose proof (co_cols _ Hw). rewrite u32_id by fits. lia.
Qed.

Lemma keeps_state c n : con_ok c -> 0 <= n <= 4 -> keeps c (c <| con_state := n |>).
Proof. intros Hc Hn. split; split; upd; try apply Hc; done. Qed.

Lemma attribute_u8 p a : is_u8 a -> is_u8 (attribute p a).
Proof. intros H. unfold attribute. repeat destruct (_ =? _); done. Qed.
Lemma keeps_csi_m_loop n i c :
  con_ok c -> 0 <= i -> i + Z.of_nat n <= NPAR -> exists c', csi_m_loop n i c = Some c' /\ keeps c c'.
Proof.
  revert i c. induction n as [|n IH]; intros i c Hc Hi Hn; [eexists; split; [done|by apply keeps_refl]|].
  destruct (co_par _ Hc) as [Hl _]. cbn [csi_m_loop].
  destruct (getz_is_Some (par c) i) as [p ->]; [unfold lenz; rewrite Hl; unfold NPAR in *; lia|]. cbn [mbind option_bind].
  assert (keeps c (c <| attr ::= attribute p |>)) as Hk.
  { split; split; upd; try apply Hc; try done. apply attribute_u8, Hc. }
  destruct (IH (i + 1) _ (proj1 Hk)) as (c' & -> & Hk'); [lia|lia|]. eexists. split; [done|].
  by eapply keeps_trans.
Qed.

(** The parameters of a sequence. *)
Lemma length_setz {A} (l : list A) i x : length (setz l i x) = length l.
Proof. pose proof (lenz_setz l i x) as E. unfold lenz in E. lia. Qed.
Lemma keeps_par c l : con_ok c -> length l = 16%nat -> Forall is_u32 l -> keeps c (c <| par := l |>).
Proof. intros Hc Hl Hu. split; split; upd; try apply Hc; done. Qed.
Lemma keeps_set_par c i p : con_ok c -> is_u32 p -> keeps c (c <| par ::= fun l => setz l i p |>).
Proof.
  intros Hc Hp. destruct (co_par _ Hc) as [Hl Hu]. apply keeps_par; [done|by rewrite length_setz|by apply setz_Forall].
Qed.

Lemma less_one_u32 p : is_u32 p -> is_u32 (less_one p).
Proof. unfold less_one, istrue, is_u32. intros H. zcases; cbn [negb]; lia. Qed.
Lemma at_least_one_u32 p : is_u32 p -> is_u32 (at_least_one p).
Proof. unfold at_least_one, istrue, is_u32. intros H. zcases; cbn [negb]; lia. Qed.

(** ** One character *)

Lemma keeps_insert_line c : con_ok c -> keeps c (insert_line c).
Proof. apply keeps_below, keeps_scrdown. Qed.
Lemma keeps_delete_line c : con_ok c -> keeps c (delete_line c).
Proof. apply keeps_below, keeps_scrup. Qed.

Create HintDb screen discriminated.
#[export] Hint Resolve keeps_refl keeps_put_visible keeps_lf keeps_ri keeps_cr keeps_del keeps_tab
  keeps_left_one keeps_insert_char keeps_delete_char keeps_insert_line keeps_delete_line keeps_save_cur
  keeps_restore_cur keeps_csi_J keeps_csi_K keeps_repeated : screen.

Lemma keeps_plain_char e ch c : con_ok c -> keeps c (fst (plain_char e ch c)).
Proof.
  intros Hc. unfold plain_char.
  repeat match goal with |- context [if ?b then _ else _] => destruct b eqn:? end; cbn [fst]; breflect;
    auto with screen.
  apply keeps_state; [done|lia].
Qed.

Lemma keeps_escape_char ch c : con_ok c -> keeps c (fst (escape_char ch c)).
Proof.
  intros Hc. unfold escape_char. pose proof (keeps_state c 0 Hc ltac:(lia)) as H0.
  repeat match goal with |- context [if ?b then _ else _] => destruct b end; cbn [fst]; try done;
    (eapply keeps_trans; [exact H0|]; intros Hc0;
     auto with screen).
  - apply keeps_state; [done|lia].
  - apply keeps_gotoxy; [done|lia|apply u32_range].
Qed.

Lemma keeps_par_gotoxy c g x y :
  con_ok c -> length (g (par c)) = 16%nat -> Forall is_u32 (g (par c)) -> 0 <= x -> 0 <= y ->
  keeps c (gotoxy x y (c <| par ::= g |>)).
Proof.
  intros Hc Hl Hu Hx Hy. eapply keeps_trans; [by apply (keeps_par c (g (par c)))|]. intros Hc'. by apply keeps_gotoxy.
Qed.

Lemma keeps_set_region c p0 p1 : con_ok c -> is_u32 p0 -> is_u32 p1 -> keeps c (set_region c p0 p1).
Proof.
  intros Hc H0 H1. unfold set_region. pose proof (less_one_u32 _ H0) as Hl. con_facts Hc.
  assert (is_u32 (if istrue p1 then p1 else video_row_nrs c)) as Hp1 by (destruct (istrue p1); [done|fits]).
  set (p := if istrue p1 then p1 else video_row_nrs c) in *.
  assert (keeps c (c <| par ::= fun l => setz (setz l 0 (less_one p0)) 1 p |>)) as Hk.
  { destruct (co_par _ Hc) as [Hlen Hu]. apply keeps_par; [done| |apply setz_Forall; [by apply setz_Forall|done]].
    by rewrite !length_setz. }
  upd. destruct (Z.ltb_spec (less_one p0) p) as [Hlt|]; [|exact Hk]. cbn [andb].
  destruct (Z.leb_spec p (video_row_nrs c)) as [Hle|]; [|exact Hk].
  eapply keeps_trans; [exact Hk|]. intros Hc1. apply keeps_region; [done|fits|exact Hle].
Qed.

Lemma keeps_final_char ch c : con_ok c -> exists c', final_char ch c = Some c' /\ keeps c c'.
Proof.
  intros Hc. destruct (co_par _ Hc) as [Hl Hu]. pose proof (keeps_state c 0 Hc ltac:(lia)) as Hk0.
  unfold final_char. cbv zeta. change (par (c <| con_state := 0 |>)) with (par c).
  destruct (getz_is_Some (par c) 0) as [p0 E0]; [unfold lenz; lia|].
  destruct (getz_is_Some (par c) 1) as [p1 E1]; [unfold lenz; lia|].
  pose proof (getz_Forall _ _ _ _ Hu E0) as Hp0. pose proof (getz_Forall _ _ _ _ Hu E1) as Hp1.
  rewrite E0, E1. cbn [mbind option_bind]. set (c0 := c <| con_state := 0 |>) in *.
  assert (forall x, (exists c', x = Some c' /\ keeps c0 c') -> exists c', x = Some c' /\ keeps c c') as Hfrom.
  { intros x (c' & -> & H). exists c'. split; [done|]. by eapply keeps_trans. }
  apply Hfrom. destruct Hk0 as [Hc0 _]. clearbody c0. clear Hfrom Hc Hl Hu E0 E1.
  repeat match goal with |- context [if ?b then Some _ else _] => destruct b; [eexists; split; [reflexivity|]|] end.
  all: auto using keeps_set_region with screen.
  all: destruct (co_par _ Hc0) as [Hl Hu]; pose proof (less_one_u32 _ Hp0); pose proof (less_one_u32 _ Hp1); pose proof (at_least_one_u32 _ Hp0).
  all: pose proof (co_x _ Hc0); pose proof (co_y _ Hc0).
  all: try (apply keeps_par_gotoxy; [done|by rewrite !length_setz|repeat first [done|apply setz_Forall]
    |first [apply u32_range|fits]..]).
  1-4: apply keeps_repeated; auto with screen.
  destruct (ch =? 109).
  { pose proof (co_npar _ Hc0). apply keeps_csi_m_loop; [done|lia|lia]. }
  repeat match goal with |- context [if ?b then Some _ else _] => destruct b; [eexists; split; [reflexivity|]|] end.
  all: auto using keeps_set_region with screen.
  eexists; split; [reflexivity|]. by apply keeps_refl.
Qed.

Lemma keeps_par_char ch c : con_ok c -> exists c', par_char ch c = Some c' /\ keeps c c'.
Proof.
  intros Hc. unfold par_char. destruct ((ch =? 59) && (npar c <? NPAR - 1)) eqn:Hs.
  { eexists. split; [done|]. apply andb_true_iff in Hs as [_ Hn]. apply Z.ltb_lt in Hn. pose proof (co_npar _ Hc).
    split; split; upd; try apply Hc; done || lia. }
  destruct ((48 <=? ch) && (ch <=? 57)).
  - destruct (co_par _ Hc) as [Hl Hu]. pose proof (co_npar _ Hc).
    destruct (getz_is_Some (par c) (npar c)) as [p ->]; [unfold lenz, NPAR in *; lia|]. cbn [mbind option_bind].
    eexists. split; [done|]. apply keeps_set_par; [done|apply u32_range].
  - destruct (keeps_final_char ch (c <| con_state := 4 |>)) as (c' & E & H); [by apply keeps_state|].
    exists c'. split; [exact E|]. eapply keeps_trans; [apply (keeps_state c 4); [done|lia]|done].
Qed.

Lemma keeps_first_par_char ch c : con_ok c -> exists c', first_par_char ch c = Some c' /\ keeps c c'.
Proof.
  intros Hc. unfold first_par_char. cbv zeta. set (c1 := c <| par := _ |> <| npar := 0 |> <| con_state := 3 |> <| ques := _ |>).
  assert (keeps c c1) as Hk.
  { unfold c1. split; split; upd; try apply Hc; try done. split; [done|]. by apply Forall_replicate. }
  destruct (istrue _); [by exists c1|]. destruct (keeps_par_char ch c1 (proj1 Hk)) as (c' & -> & H).
  eexists. split; [done|]. by eapply keeps_trans.
Qed.

Lemma keeps_console_char e ch c :
  con_ok c -> exists c' a, console_char e ch c = Some (c', a) /\ keeps c c'.
Proof.
  intros Hc. unfold console_char, silent.
  destruct (_ =? 0); 
    [pose proof (keeps_plain_char e ch c Hc) as H; destruct (plain_char e ch c) as [c' a]; by exists c', a|].
  destruct (_ =? 1); 
    [pose proof (keeps_escape_char ch c Hc) as H; destruct (escape_char ch c) as [c' a]; by exists c', a|].
  destruct (_ =? 2); [destruct (keeps_first_par_char ch c Hc) as (c' & -> & H); by eexists _, _|].
  destruct (_ =? 3); [destruct (keeps_par_char ch c Hc) as (c' & -> & H); by eexists _, _|].
  destruct (_ =? 4); [destruct (keeps_final_char ch c Hc) as (c' & -> & H); by eexists _, _|].
  eexists _, _. split; [done|by apply keeps_refl].
Qed.

(** ** The theorems *)

(** The characters of a queue one after the other, without the actions. *)
Fixpoint type_chars (erase : Z) (l : list Z) (c : screen) : option screen :=
  match l with
  | [] => Some (set_cursor c)
  | ch :: l => '(c', _) ← console_char erase ch c; type_chars erase l c'
  end.

Lemma keeps_type_chars e l c : con_ok c -> exists c', type_chars e l c = Some c' /\ keeps c c'.
Proof.
  intros Hc. revert c Hc. induction l as [|ch l IH]; intros c Hc; cbn [type_chars].
  - eexists. split; [done|by apply keeps_set_cursor].
  - destruct (keeps_console_char e ch c Hc) as (c1 & a & -> & H1). cbn [mbind option_bind].
    destruct (IH c1 (proj1 H1)) as (c' & -> & H2). exists c'. split; [done|]. by eapply keeps_trans.
Qed.

(** C12: whatever is sent to the screen, in whatever state of an escape
    sequence, every character is handled without an access outside the
    parameters, the cursor, the scrolling region and the origin stay in range,
    and nothing is written outside the memory of the video card. *)
Theorem console_inside e l c :
  con_ok c -> exists c', type_chars e l c = Some c' /\ con_ok c' /\
    forall a, is_u32 a -> a < video_mem_start c \/ video_mem_end c <= a -> peek (vram c') a = peek (vram c) a.
Proof.
  intros Hc. destruct (keeps_type_chars e l c Hc) as (c' & E & Hok & Hin).
  exists c'. split; [done|]. split; [done|apply Hin].
Qed.

(** C27: scrolling shows the same on every card, whether the lines are moved
    in the memory, the card shows the memory from the next line on, or the
    lines go back to the start of the memory: the lines of the region go up
    (down), the line that gets free is erased, the others and the cursor stay
    where they are on the screen. *)
Theorem scroll_spec c r k :
  con_ok c -> 0 <= r < video_row_nrs c -> 0 <= k < video_column_nrs c ->
  cell (scrup c) r k = rolled_up (con_top c) (con_bottom c) (video_erase_char c) (cell c) r k /\
  cell (scrdown c) r k = rolled_down (con_top c) (con_bottom c) (video_erase_char c) (cell c) r k /\
  (con_x (scrup c), con_y (scrup c)) = (con_x c, con_y c) /\
  (con_x (scrdown c), con_y (scrdown c)) = (con_x c, con_y c).
Proof.
  intros Hc Hr Hk. destruct (scrup_xy c) as [-> ->].
  split; [|split; [by apply scrdown_cell|done]]. unfold scrup.
  destruct (is_ega c); [|by apply scroll_lines_cell].
  destruct (istrue (con_top c)) eqn:Ht; cbn [negb andb]; [by apply scroll_lines_cell|].
  destruct (Z.eqb_spec (con_bottom c) (video_row_nrs c)) as [Hb|]; [|by apply scroll_lines_cell].
  breflect. rewrite Ht, Hb. by apply scroll_origin_cell.
Qed.

(** ** Start-up *)

Lemma byte_map_show_name name a m : byte_map m -> byte_map (show_name name a m).
Proof. revert a m. induction name; intros a' m H; [done|]. by apply IHname, byte_map_poke. Qed.

(** The static variables before [console_init], over a memory. *)
Definition boot_screen (m : gmap Z Z) : screen := blank_screen <| vram := m |>.

(** The card of a machine, by its variables. *)
(** [console_init] up to the placing of the cursor, whatever the card. *)
Lemma init_record setup m :
  ORIG_VIDEO_COLS setup = 80 -> exists type start stop reg val name,
  (forall inb, console_init setup inb (boot_screen m) =
    let c := gotoxy (ORIG_X setup) (ORIG_Y setup)
      (Screen type 80 160 25 (u8 (ORIG_VIDEO_PAGE setup)) start stop reg val 0x0720 start (u32 (start + 4000)) 0 0 0 0 25 0 0
        (replicate 16 0) 0 7 0 0 (show_name name (u32 (start + 160 - 8)) m) []) in
    outb (inb 0x61) 0x61 (outb (Z.lor (inb 0x61) 0x80) 0x61 (outb (Z.land (inb 0x21) 0xfd) 0x21 c))) /\
  0xb0000 <= start /\ start + 0x2000 <= stop <= 0xbc000.
Proof.
  intros Hcols. unfold console_init, video_card, boot_screen, blank_screen. rewrite Hcols. cbv zeta.
  destruct (_ =? 7), (negb _).
  - exists VIDEO_TYPE_EGAM, 0xb0000, 0xb8000, 0x3b4, 0x3b5, [69; 71; 65; 109]. split; [intros inb; reflexivity|lia].
  - exists VIDEO_TYPE_MDA, 0xb0000, 0xb2000, 0x3b4, 0x3b5, [42; 77; 68; 65]. split; [intros inb; reflexivity|lia].
  - exists VIDEO_TYPE_EGAC, 0xb8000, 0xbc000, 0x3d4, 0x3d5, [69; 71; 65; 99]. split; [intros inb; reflexivity|lia].
  - exists VIDEO_TYPE_CGA, 0xb8000, 0xba000, 0x3d4, 0x3d5, [42; 67; 71; 65]. split; [intros inb; reflexivity|lia].
Qed.

Lemma init_con_ok setup inb m :
  byte_map m -> ORIG_VIDEO_COLS setup = 80 -> 0 <= ORIG_X setup <= 80 -> 0 <= ORIG_Y setup < 25 ->
  let c := console_init setup inb (boot_screen m) in
  con_ok c /\ con_x c = ORIG_X setup /\ con_y c = ORIG_Y setup.
Proof.
  intros Hm Hcols Hx Hy. destruct (init_record setup m Hcols) as (type & start & stop & reg & val & name & -> & Hs & He).
  cbv zeta. unfold gotoxy. cbn [video_column_nrs video_row_nrs].
  rewrite (proj2 (Z.ltb_ge 80 _)), (proj2 (Z.leb_gt 25 _)) by lia. cbn [orb origin video_size_per_row].
  split; [|split; reflexivity]. do 3 apply keeps_outb.
  rewrite Z.shiftl_mul_pow2, !u32_id by fits. change (2 ^ 1) with 2.
  split; upd; cbn; try done; try lia.
  - split; [done|]. by apply (Forall_replicate is_u32 16 0).
  - by apply byte_map_show_name.
Qed.

(** [console_init] finds, from what the BIOS said, a card on which the
    invariant of the screen holds, whatever its memory contained, with the
    cursor where the BIOS had left it; every character sent from then on is
    shown without an access outside the card's memory. *)
Theorem console_init_ok setup inb m :
  byte_map m -> ORIG_VIDEO_COLS setup = 80 -> 0 <= ORIG_X setup <= 80 -> 0 <= ORIG_Y setup < 25 ->
  let c := console_init setup inb (boot_screen m) in
  con_ok c /\ con_x c = ORIG_X setup /\ con_y c = ORIG_Y setup /\
  forall e l, exists c', type_chars e l c = Some c' /\ keeps c c'.
Proof.
  intros Hm Hcols Hx Hy c. destruct (init_con_ok setup inb m Hm Hcols Hx Hy) as (Hc & Ex & Ey).
  split; [exact Hc|]. split; [exact Ex|]. split; [exact Ey|]. intros e l. by apply keeps_type_chars.
Qed.

(** ** A colour card with 25 rows of 80 columns, and the cursor in row 3 *)

Definition ega_setup (a : Z) : Z := if a =? 0x90001 then 3 else if a =? 0x90007 then 80 else if a =? 0x90006 then 3 else 0.
Definition ega_screen : screen := console_init ega_setup (fun _ => 0) (boot_screen ∅).

Lemma console_init_ok_witness : con_ok ega_screen /\ con_x ega_screen = 0 /\ con_y ega_screen = 3.
Proof.
  destruct (console_init_ok ega_setup (fun _ => 0) ∅) as (Hc & Hx & Hy & _); [|reflexivity|split; discriminate|done|].
  - intros a v H. by rewrite lookup_empty in H.
  - split; [exact Hc|]. split; [exact Hx|exact Hy].
Defined.

Lemma ega_screen_ok : con_ok ega_screen.
Proof.
  apply (init_con_ok ega_setup (fun _ => 0) ∅); [|reflexivity|split; discriminate|done].
  intros a v H. by rewrite lookup_empty in H.
Qed.

(** Clear the screen, move the cursor outside, print, go up past the top. *)
Definition sample_output : list Z := [27; 91; 50; 74; 27; 91; 57; 57; 59; 57; 57; 72; 65; 10; 27; 77; 8; 9; 126].
Lemma console_inside_witness :
  exists c, type_chars 127 sample_output ega_screen = Some c /\ con_ok c /\ peek (vram c) 0xb7fff = peek (vram ega_screen) 0xb7fff.
Proof.
  destruct (console_inside 127 sample_output ega_screen ega_screen_ok) as (c & E & Hc & Ho). exists c.
  split; [exact E|]. split; [exact Hc|]. apply Ho; [split; [discriminate|reflexivity]|].
  left. replace (video_mem_start ega_screen) with 0xb8000 by (vm_compute; reflexivity). reflexivity.
Defined.

(** The name of the card goes off the screen with the first line. *)
Lemma scroll_spec_witness :
  cell (scrup ega_screen) 0 76 = rolled_up 0 25 0x0720 (cell ega_screen) 0 76.
Proof.
  destruct (scroll_spec ega_screen 0 76 ega_screen_ok) as [E _].
  - split; [discriminate|vm_compute; reflexivity].
  - split; [discriminate|vm_compute; reflexivity].
  - rewrite E. replace (con_top ega_screen) with 0 by (vm_compute; reflexivity).
    replace (con_bottom ega_screen) with 25 by (vm_compute; reflexivity).
    replace (video_erase_char ega_screen) with 0x0720 by (vm_compute; reflexivity). reflexivity.
Defined.
