(* ===== verification/Kernel.v ===== *)
(** * The state shared by the file system and the block devices

    One record holds the tables of fs/ and kernel/blk_drv/: pointers into a
    table are indices.  A routine that sleeps lets the rest of the machine run:
    other tasks, interrupts and devices are the parameter [interfere] of the
    class [Env], an arbitrary change of the state at each sleep. *)

From Stdlib Require Import ZArith Lia.
From stdpp Require Import base numbers list gmap strings.
From S2P Require Import Prelude Memory Task Sched TtyData Console.

(** ** Data: include/linux/fs.h, kernel/blk_drv/blk.h *)

Definition READ : Z := 0.
Definition WRITE : Z := 1.
Definition READA : Z := 2.
Definition WRITEA : Z := 3.

Definition MAJOR (a : Z) : Z := Z.shiftr (u32 a) 8.
Definition MINOR (a : Z) : Z := Z.land a 0xff.

Definition NAME_LEN : Z := 14.
Definition ROOT_INO : Z := 1.
Definition I_MAP_SLOTS : Z := 8.
Definition Z_MAP_SLOTS : Z := 8.
Definition SUPER_MAGIC : Z := 0x137f.
Definition NR_INODE : Z := 32.
Definition NR_FILE : Z := 64.
Definition NR_SUPER : Z := 8.
Definition NR_HASH : Z := 307.
Definition BLOCK_SIZE : Z := 1024.
Definition NR_BLK_DEV : Z := 7.
Definition NR_REQUEST : Z := 32.
Definition INODES_PER_BLOCK : Z := 32.
Definition DIR_ENTRIES_PER_BLOCK : Z := 64.

(** The wait queues of the structures below, that of a task that starts the
    motor of a floppy drive, those of the three queues of a terminal, and a
    task that gives the processor away with [schedule] alone. *)
Inductive queue : Type :=
| b_wait (bh : Z) | buffer_wait | wait_for_request | i_wait (inode : Z) | s_wait (sb : Z)
| drive (nr : Z) | floppy_select | read_wait (tty : Z) | write_wait (tty : Z) | secondary_wait (tty : Z)
| processor.

(** The request routine of a block device: none, that of the ram disk, or
    that of a driver that starts the device and leaves the rest to its
    interrupts. *)
Inductive driver : Type := no_driver | ramdisk_driver | interrupt_driver.

Record buffer_head := Bh {
  b_data : list Z; b_blocknr : Z; b_dev : Z; b_uptodate : Z; b_dirt : Z; b_count : Z;
  b_lock : Z; b_prev : option Z; b_next : option Z; b_prev_free : option Z;
  b_next_free : option Z
}.
#[global] Instance buffer_head_fields : Fields buffer_head := fun x => Bh
  (b_data x) (b_blocknr x) (b_dev x) (b_uptodate x) (b_dirt x) (b_count x) (b_lock x)
  (b_prev x) (b_next x) (b_prev_free x) (b_next_free x).
#[global] Instance set_b_data : Setter b_data := ltac:(solve_setter).
#[global] Instance set_b_blocknr : Setter b_blocknr := ltac:(solve_setter).
#[global] Instance set_b_dev : Setter b_dev := ltac:(solve_setter).
#[global] Instance set_b_uptodate : Setter b_uptodate := ltac:(solve_setter).
#[global] Instance set_b_dirt : Setter b_dirt := ltac:(solve_setter).
#[global] Instance set_b_count : Setter b_count := ltac:(solve_setter).
#[global] Instance set_b_lock : Setter b_lock := ltac:(solve_setter).
#[global] Instance set_b_prev : Setter b_prev := ltac:(solve_setter).
#[global] Instance set_b_next : Setter b_next := ltac:(solve_setter).
#[global] Instance set_b_prev_free : Setter b_prev_free := ltac:(solve_setter).
#[global] Instance set_b_next_free : Setter b_next_free := ltac:(solve_setter).

Record m_inode := Inode {
  i_mode : Z; i_uid : Z; i_size : Z; i_mtime : Z; i_gid : Z; i_nlinks : Z; i_zone : list Z;
  i_atime : Z; i_ctime : Z; i_dev : Z; i_num : Z; i_count : Z; i_lock : Z; i_dirt : Z;
  i_pipe : Z; i_mount : Z; i_seek : Z; i_update : Z
}.
#[global] Instance m_inode_fields : Fields m_inode := fun x => Inode
  (i_mode x) (i_uid x) (i_size x) (i_mtime x) (i_gid x) (i_nlinks x) (i_zone x) (i_atime x)
  (i_ctime x) (i_dev x) (i_num x) (i_count x) (i_lock x) (i_dirt x) (i_pipe x) (i_mount x)
  (i_seek x) (i_update x).
#[global] Instance set_i_mode : Setter i_mode := ltac:(solve_setter).
#[global] Instance set_i_uid : Setter i_uid := ltac:(solve_setter).
#[global] Instance set_i_size : Setter i_size := ltac:(solve_setter).
#[global] Instance set_i_mtime : Setter i_mtime := ltac:(solve_setter).
#[global] Instance set_i_gid : Setter i_gid := ltac:(solve_setter).
#[global] Instance set_i_nlinks : Setter i_nlinks := ltac:(solve_setter).
#[global] Instance set_i_zone : Setter i_zone := ltac:(solve_setter).
#[global] Instance set_i_atime : Setter i_atime := ltac:(solve_setter).
#[global] Instance set_i_ctime : Setter i_ctime := ltac:(solve_setter).
#[global] Instance set_i_dev : Setter i_dev := ltac:(solve_setter).
#[global] Instance set_i_num : Setter i_num := ltac:(solve_setter).
#[global] Instance set_i_count : Setter i_count := ltac:(solve_setter).
#[global] Instance set_i_lock : Setter i_lock := ltac:(solve_setter).
#[global] Instance set_i_dirt : Setter i_dirt := ltac:(solve_setter).
#[global] Instance set_i_pipe : Setter i_pipe := ltac:(solve_setter).
#[global] Instance set_i_mount : Setter i_mount := ltac:(solve_setter).
#[global] Instance set_i_seek : Setter i_seek := ltac:(solve_setter).
#[global] Instance set_i_update : Setter i_update := ltac:(solve_setter).

Record file := File {
  f_mode : Z; f_flags : Z; f_count : Z; f_inode : option Z; f_pos : Z
}.
#[global] Instance file_fields : Fields file := fun x => File
  (f_mode x) (f_flags x) (f_count x) (f_inode x) (f_pos x).
#[global] Instance set_f_mode : Setter f_mode := ltac:(solve_setter).
#[global] Instance set_f_flags : Setter f_flags := ltac:(solve_setter).
#[global] Instance set_f_count : Setter f_count := ltac:(solve_setter).
#[global] Instance set_f_inode : Setter f_inode := ltac:(solve_setter).
#[global] Instance set_f_pos : Setter f_pos := ltac:(solve_setter).

Record super_block_t := Super {
  s_ninodes : Z; s_nzones : Z; s_imap_blocks : Z; s_zmap_blocks : Z; s_firstdatazone : Z;
  s_log_zone_size : Z; s_max_size : Z; s_magic : Z; s_imap : list (option Z);
  s_zmap : list (option Z); s_dev : Z; s_isuper : option Z; s_imount : option Z; s_time : Z;
  s_lock : Z; s_read_only : Z; s_dirt : Z
}.
#[global] Instance super_block_t_fields : Fields super_block_t := fun x => Super
  (s_ninodes x) (s_nzones x) (s_imap_blocks x) (s_zmap_blocks x) (s_firstdatazone x)
  (s_log_zone_size x) (s_max_size x) (s_magic x) (s_imap x) (s_zmap x) (s_dev x) (s_isuper x)
  (s_imount x) (s_time x) (s_lock x) (s_read_only x) (s_dirt x).
#[global] Instance set_s_ninodes : Setter s_ninodes := ltac:(solve_setter).
#[global] Instance set_s_nzones : Setter s_nzones := ltac:(solve_setter).
#[global] Instance set_s_imap_blocks : Setter s_imap_blocks := ltac:(solve_setter).
#[global] Instance set_s_zmap_blocks : Setter s_zmap_blocks := ltac:(solve_setter).
#[global] Instance set_s_firstdatazone : Setter s_firstdatazone := ltac:(solve_setter).
#[global] Instance set_s_log_zone_size : Setter s_log_zone_size := ltac:(solve_setter).
#[global] Instance set_s_max_size : Setter s_max_size := ltac:(solve_setter).
#[global] Instance set_s_magic : Setter s_magic := ltac:(solve_setter).
#[global] Instance set_s_imap : Setter s_imap := ltac:(solve_setter).
#[global] Instance set_s_zmap : Setter s_zmap := ltac:(solve_setter).
#[global] Instance set_s_dev : Setter s_dev := ltac:(solve_setter).
#[global] Instance set_s_isuper : Setter s_isuper := ltac:(solve_setter).
#[global] Instance set_s_imount : Setter s_imount := ltac:(solve_setter).
#[global] Instance set_s_time : Setter s_time := ltac:(solve_setter).
#[global] Instance set_s_lock : Setter s_lock := ltac:(solve_setter).
#[global] Instance set_s_read_only : Setter s_read_only := ltac:(solve_setter).
#[global] Instance set_s_dirt : Setter s_dirt := ltac:(solve_setter).

(** [r_buffer] points into the data of a buffer: the buffer and an offset. *)
Record request_t := Request {
  r_dev : Z; r_cmd : Z; r_errors : Z; r_start_sector : Z; r_nr_sectors : Z;
  r_buffer : option (Z * Z); r_waiting : option Z; r_bh : option Z; r_next : option Z
}.
#[global] Instance request_t_fields : Fields request_t := fun x => Request
  (r_dev x) (r_cmd x) (r_errors x) (r_start_sector x) (r_nr_sectors x) (r_buffer x)
  (r_waiting x) (r_bh x) (r_next x).
#[global] Instance set_r_dev : Setter r_dev := ltac:(solve_setter).
#[global] Instance set_r_cmd : Setter r_cmd := ltac:(solve_setter).
#[global] Instance set_r_errors : Setter r_errors := ltac:(solve_setter).
#[global] Instance set_r_start_sector : Setter r_start_sector := ltac:(solve_setter).
#[global] Instance set_r_nr_sectors : Setter r_nr_sectors := ltac:(solve_setter).
#[global] Instance set_r_buffer : Setter r_buffer := ltac:(solve_setter).
#[global] Instance set_r_waiting : Setter r_waiting := ltac:(solve_setter).
#[global] Instance set_r_bh : Setter r_bh := ltac:(solve_setter).
#[global] Instance set_r_next : Setter r_next := ltac:(solve_setter).

Record blk_dev_struct := BlkDev {
  request_fn : driver; current_request : option Z
}.
#[global] Instance blk_dev_struct_fields : Fields blk_dev_struct := fun x => BlkDev
  (request_fn x) (current_request x).
#[global] Instance set_request_fn : Setter request_fn := ltac:(solve_setter).
#[global] Instance set_current_request : Setter current_request := ltac:(solve_setter).

(** [ramdisk] holds the bytes of the ram disk, from the address [ramdisk_start];
    [sch] is the state of sched.c, with the tasks, and [memory] that of mm/;
    [user] is the memory of the current task, reached through the register fs;
    [woken] lists the queues that were woken, the latest first (what [wake_up]
    does to the tasks on them is in Sched); [cr_flag] is the static variable of
    [tty_write], [con] holds the variables of console.c, the video memory and
    what was sent to ports; [sleeps] counts the sleeps. *)
Record kernel := Kernel {
  bhs : list buffer_head; hash_table : list (option Z); free_list : option Z;
  request : list request_t; blk_dev : list blk_dev_struct; ramdisk_start : Z; ramdisk : list Z;
  inode_table : list m_inode; last_inode : Z; super_block : list super_block_t; ROOT_DEV : Z;
  file_table : list file; sch : sched; tty_table : list tty_struct; cr_flag : Z; con : screen;
  memory : mm; user : gmap Z Z; woken : list queue; sleeps : nat
}.
#[global] Instance kernel_fields : Fields kernel := fun x => Kernel
  (bhs x) (hash_table x) (free_list x) (request x) (blk_dev x) (ramdisk_start x) (ramdisk x)
  (inode_table x) (last_inode x) (super_block x) (ROOT_DEV x) (file_table x) (sch x)
  (tty_table x) (cr_flag x) (con x) (memory x) (user x) (woken x) (sleeps x).
#[global] Instance set_bhs : Setter bhs := ltac:(solve_setter).
#[global] Instance set_hash_table : Setter hash_table := ltac:(solve_setter).
#[global] Instance set_free_list : Setter free_list := ltac:(solve_setter).
#[global] Instance set_request : Setter request := ltac:(solve_setter).
#[global] Instance set_blk_dev : Setter blk_dev := ltac:(solve_setter).
#[global] Instance set_ramdisk_start : Setter ramdisk_start := ltac:(solve_setter).
#[global] Instance set_ramdisk : Setter ramdisk := ltac:(solve_setter).
#[global] Instance set_inode_table : Setter inode_table := ltac:(solve_setter).
#[global] Instance set_last_inode : Setter last_inode := ltac:(solve_setter).
#[global] Instance set_super_block : Setter super_block := ltac:(solve_setter).
#[global] Instance set_ROOT_DEV : Setter ROOT_DEV := ltac:(solve_setter).
#[global] Instance set_file_table : Setter file_table := ltac:(solve_setter).
#[global] Instance set_sch : Setter sch := ltac:(solve_setter).
#[global] Instance set_tty_table : Setter tty_table := ltac:(solve_setter).
#[global] Instance set_cr_flag : Setter cr_flag := ltac:(solve_setter).
#[global] Instance set_con : Setter con := ltac:(solve_setter).
#[global] Instance set_memory : Setter memory := ltac:(solve_setter).
#[global] Instance set_user : Setter user := ltac:(solve_setter).
#[global] Instance set_woken : Setter woken := ltac:(solve_setter).
#[global] Instance set_sleeps : Setter sleeps := ltac:(solve_setter).

(** ** Table entries

    [*p] for a pointer into a table: reading outside the table is a fault. *)

Definition get_bh (i : Z) : M kernel buffer_head := let! l := gets bhs in valid (getz l i).
Definition get_inode (i : Z) : M kernel m_inode := let! l := gets inode_table in valid (getz l i).
Definition get_file (i : Z) : M kernel file := let! l := gets file_table in valid (getz l i).
Definition get_sb (i : Z) : M kernel super_block_t := let! l := gets super_block in valid (getz l i).
Definition get_req (i : Z) : M kernel request_t := let! l := gets request in valid (getz l i).

Definition set_bh (i : Z) (f : buffer_head -> buffer_head) : M kernel unit :=
  let! b := get_bh i in modify (fun s => s <| bhs ::= fun l => setz l i (f b) |>).
Definition set_inode (i : Z) (f : m_inode -> m_inode) : M kernel unit :=
  let! b := get_inode i in modify (fun s => s <| inode_table ::= fun l => setz l i (f b) |>).
Definition set_file (i : Z) (f : file -> file) : M kernel unit :=
  let! b := get_file i in modify (fun s => s <| file_table ::= fun l => setz l i (f b) |>).
Definition set_sb (i : Z) (f : super_block_t -> super_block_t) : M kernel unit :=
  let! b := get_sb i in modify (fun s => s <| super_block ::= fun l => setz l i (f b) |>).
Definition set_req (i : Z) (f : request_t -> request_t) : M kernel unit :=
  let! b := get_req i in modify (fun s => s <| request ::= fun l => setz l i (f b) |>).

(** ** Sleeping and waking *)

(** [interfere q n s]: what the rest of the machine does while a task sleeps
    on [q], at the [n]-th sleep; [start q] what a driver's request routine does
    when it is called for the major number; [inb port s] what a port of the
    machine holds; [buffer_heads] the address of [start_buffer], which the
    linker sets.  [patience] bounds the number of
    times a wait is repeated before the run counts as blocked, [nesting] how
    deep [getblk] may call itself to write out an inode. *)
Class Env := {
  interfere : queue -> nat -> kernel -> kernel;
  start_driver : Z -> kernel -> kernel;
  inb : Z -> kernel -> Z;
  buffer_heads : Z;
  patience : nat;
  nesting : nat
}.

Definition wake_up (q : queue) : M kernel unit := modify (fun s => s <| woken ::= cons q |>).

Section sleeping.
Context {E : Env}.

Definition sleep_on (q : queue) : M kernel unit :=
  modify (fun s => interfere q (sleeps s) (s <| sleeps ::= Datatypes.S |>)).

(** [while (locked) sleep_on(q)] *)
Fixpoint wait_while (fuel : nat) (locked : M kernel bool) (q : queue) : M kernel unit :=
  match fuel with
  | O => Prelude.blocked
  | Datatypes.S fuel' =>
    let! b := locked in
    if b then do! sleep_on q in wait_while fuel' locked q else ret tt
  end.
Definition schedule : M kernel unit := sleep_on processor.
Definition sleep_while (locked : M kernel bool) (q : queue) : M kernel unit :=
  wait_while (Datatypes.S patience) locked q.
End sleeping.

(** ** Ports

    Reading a port is asking the machine; what is written is recorded. *)

Definition outb_p (v port : Z) : M kernel unit := modify (fun s => s <| con ::= outb v port |>).
Definition inb_p `{Env} (port : Z) : M kernel Z := gets (inb port).

(** ** User memory *)

Definition get_fs_byte (a : Z) : M kernel Z := gets (fun s => default 0 (user s !! u32 a)).
Definition put_fs_byte (v a : Z) : M kernel unit :=
  modify (fun s => s <| user ::= fun m => <[u32 a := u8 v]> m |>).
Definition put_fs_long (v a : Z) : M kernel unit :=
  do! put_fs_byte v a in
  do! put_fs_byte (Z.shiftr v 8) (a + 1) in
  do! put_fs_byte (Z.shiftr v 16) (a + 2) in
  put_fs_byte (Z.shiftr v 24) (a + 3).
Definition get_fs_long (a : Z) : M kernel Z :=
  let! b0 := get_fs_byte a in
  let! b1 := get_fs_byte (a + 1) in
  let! b2 := get_fs_byte (a + 2) in
  let! b3 := get_fs_byte (a + 3) in
  ret (b0 + b1 * 256 + b2 * 65536 + b3 * 16777216).

(** A routine of sched.c, or of mm/, on its part of the state. *)
Definition on_sched {A} (m : M sched A) : M kernel A := zoom sch (fun t s => s <| sch := t |>) m.
Definition on_memory {A} (m : M mm A) : M kernel A := zoom memory (fun t s => s <| memory := t |>) m.

(** [verify_area] of kernel/fork.c: make the pages of a user area writable. *)
Fixpoint verify_pages (n : nat) (start : Z) : M mm unit :=
  match n with
  | O => ret tt
  | Datatypes.S n' => do! write_verify start in verify_pages n' (u32 (start + 0x1000))
  end.
Definition verify_area (addr size : Z) : M kernel unit :=
  let! t := on_sched get_current in
  let! d := valid (getz (ldt t) 2) in
  let offset := s32 (Z.land addr 0xfff + size) in
  let start := u32 (Z.land addr 0xfffff000 + get_base d) in
  on_memory (verify_pages (Z.to_nat ((offset + 4095) / 4096)) start).

(** ** Integers in a block *)

Definition le16 (l : list Z) (i : Z) : option Z :=
  b0 ← getz l i; b1 ← getz l (i + 1); Some (b0 + b1 * 256).
Definition set_le16 (l : list Z) (i v : Z) : list Z :=
  setz (setz l i (u8 v)) (i + 1) (u8 (Z.shiftr v 8)).
Definition le32 (l : list Z) (i : Z) : option Z :=
  lo ← le16 l i; hi ← le16 l (i + 2); Some (lo + hi * 65536).
Definition set_le32 (l : list Z) (i v : Z) : list Z :=
  set_le16 (set_le16 l i v) (i + 2) (Z.shiftr v 16).

(** ** Reading and writing the tables *)

Lemma get_bh_ok s i x : getz (bhs s) i = Some x -> get_bh i s = Ok x s.
Proof. intros H. unfold get_bh, bind, gets. by rewrite H. Qed.
Lemma set_bh_ok s i x f :
  getz (bhs s) i = Some x -> set_bh i f s = Ok tt (s <| bhs ::= fun l => setz l i (f x) |>).
Proof. intros H. unfold set_bh. by rewrite (bind_ok _ _ _ _ _ (get_bh_ok _ _ _ H)). Qed.

(** The state with another buffer in slot [i]. *)
Definition put_bh (i : Z) (b : buffer_head) (s : kernel) : kernel := s <| bhs ::= fun l => setz l i b |>.

Lemma put_bh_put i b b' s : put_bh i b' (put_bh i b s) = put_bh i b' s.
Proof. exact (f_equal (fun l => s <| bhs := l |>) (setz_setz (bhs s) i b b')). Qed.
Lemma put_bh_id i b s : getz (bhs s) i = Some b -> put_bh i b s = s.
Proof.
  intros H. transitivity (s <| bhs := bhs s |>); [|by destruct s].
  exact (f_equal (fun l => s <| bhs := l |>) (setz_id (bhs s) i b H)).
Qed.
Lemma get_put_bh i b b' s : getz (bhs s) i = Some b -> getz (bhs (put_bh i b' s)) i = Some b'.
Proof. intros H. apply getz_setz_eq. by apply getz_Some_lt in H. Qed.

Lemma get_inode_ok s i x : getz (inode_table s) i = Some x -> get_inode i s = Ok x s.
Proof. intros H. unfold get_inode, bind, gets. by rewrite H. Qed.
Lemma set_inode_ok s i x f :
  getz (inode_table s) i = Some x -> set_inode i f s = Ok tt (s <| inode_table ::= fun l => setz l i (f x) |>).
Proof. intros H. unfold set_inode. by rewrite (bind_ok _ _ _ _ _ (get_inode_ok _ _ _ H)). Qed.
Lemma get_file_ok s i x : getz (file_table s) i = Some x -> get_file i s = Ok x s.
Proof. intros H. unfold get_file, bind, gets. by rewrite H. Qed.
Lemma set_file_ok s i x f :
  getz (file_table s) i = Some x -> set_file i f s = Ok tt (s <| file_table ::= fun l => setz l i (f x) |>).
Proof. intros H. unfold set_file. by rewrite (bind_ok _ _ _ _ _ (get_file_ok _ _ _ H)). Qed.
Lemma get_sb_ok s i x : getz (super_block s) i = Some x -> get_sb i s = Ok x s.
Proof. intros H. unfold get_sb, bind, gets. by rewrite H. Qed.
Lemma set_sb_ok s i x f :
  getz (super_block s) i = Some x -> set_sb i f s = Ok tt (s <| super_block ::= fun l => setz l i (f x) |>).
Proof. intros H. unfold set_sb. by rewrite (bind_ok _ _ _ _ _ (get_sb_ok _ _ _ H)). Qed.
Lemma get_req_ok s i x : getz (request s) i = Some x -> get_req i s = Ok x s.
Proof. intros H. unfold get_req, bind, gets. by rewrite H. Qed.
Lemma set_req_ok s i x f :
  getz (request s) i = Some x -> set_req i f s = Ok tt (s <| request ::= fun l => setz l i (f x) |>).
Proof. intros H. unfold set_req. by rewrite (bind_ok _ _ _ _ _ (get_req_ok _ _ _ H)). Qed.

Lemma wake_up_ok q s : wake_up q s = Ok tt (s <| woken ::= cons q |>).
Proof. done. Qed.

(** A wait whose condition is false does not sleep. *)
Lemma sleep_while_free `{Env} locked q s : locked s = Ok false s -> sleep_while locked q s = Ok tt s.
Proof. intros Hl. unfold sleep_while. cbn [wait_while]. by rewrite (bind_ok _ _ _ _ _ Hl). Qed.

(** Runs a routine step by step through known results. *)
Ltac run_step :=
  lazymatch goal with
  | |- context [bind (gets ?f) ?k ?s] => change (bind (gets f) k s) with (k (f s) s); cbv beta
  | |- context [bind (modify ?f) ?k ?s] => change (bind (modify f) k s) with (k tt (f s)); cbv beta
  | |- context [bind (ret ?a) ?k ?s] => change (bind (ret a) k s) with (k a s); cbv beta
  | |- context [bind (wake_up ?q) ?k ?s] =>
    change (bind (wake_up q) k s) with (k tt (s <| woken ::= cons q |>)); cbv beta
  end.
Ltac run H := rewrite (bind_ok _ _ _ _ _ H); cbv beta.
