(* ===== verification/Blk.v ===== *)
(** * Block device requests: kernel/blk_drv/ll_rw_blk.c, blk.h, ramdisk.c

    The queue of a device is a list through the [next] pointers of the array
    [request], its head is [current_request].  [start_driver] stands for the
    request routine of a driver that works with interrupts. *)

From Stdlib Require Import ZArith Lia.
From stdpp Require Import base numbers list gmap strings.
From S2P Require Import Prelude Memory Task Kernel.

Section blk.
Context {E : Env}.

Definition buffer_locked (bh : Z) : M kernel bool := let! b := get_bh bh in ret (istrue (b_lock b)).

Definition lock_buffer (bh : Z) : M kernel unit :=
  do! sleep_while (buffer_locked bh) (b_wait bh) in
  set_bh bh (fun b => b <| b_lock := 1 |>).

Definition unlock_buffer (bh : Z) : M kernel unit :=
  do! set_bh bh (fun b => b <| b_lock := 0 |>) in
  wake_up (b_wait bh).

Definition IN_ORDER (s1 s2 : request_t) : bool :=
  (r_cmd s1 <? r_cmd s2) ||
  ((r_cmd s1 =? r_cmd s2) &&
   ((r_dev s1 <? r_dev s2) ||
    ((r_dev s1 =? r_dev s2) && (r_start_sector s1 <? r_start_sector s2)))).

Definition get_dev (major : Z) : M kernel blk_dev_struct := let! l := gets blk_dev in valid (getz l major).
Definition set_dev (major : Z) (f : blk_dev_struct -> blk_dev_struct) : M kernel unit :=
  let! d := get_dev major in modify (fun s => s <| blk_dev ::= fun l => setz l major (f d) |>).

(** ** End of a request *)

(** [CURRENT_REQ], when there is one. *)
Definition end_request (major uptodate : Z) : M kernel unit :=
  let! d := get_dev major in
  let! cur := valid (current_request d) in
  let! r := get_req cur in
  do! (match r_bh r with
       | Some bh =>
         do! set_bh bh (fun b => b <| b_uptodate := u8 uptodate |>) in
         unlock_buffer bh
       | None => ret tt
       end) in
  do! wake_up wait_for_request in
  do! set_req cur (fun r => r <| r_dev := -1 |>) in
  let! r := get_req cur in
  set_dev major (fun d => d <| current_request := r_next r |>).

(** [CHECK_REQUEST]: the current request, none when the queue is empty. *)
Definition check_request (major : Z) : M kernel (option request_t) :=
  let! d := get_dev major in
  match current_request d with
  | None => ret None
  | Some cur =>
    let! r := get_req cur in
    if negb (MAJOR (r_dev r) =? major) then panic "request list destroyed" else
    match r_bh r with
    | Some bh =>
      let! l := buffer_locked bh in
      if negb l then panic "block not locked" else ret (Some r)
    | None => ret (Some r)
    end
  end.

(** ** The ram disk *)

Definition RAMDISK_MAJOR : Z := 1.

(** [memcpy] between a buffer and the ram disk at an address. *)
Definition ramdisk_write (addr : Z) (data : list Z) : M kernel unit :=
  let! start := gets ramdisk_start in
  let! disk := gets ramdisk in
  let off := addr - start in
  if (off <? 0) || (lenz disk <? off + lenz data) then fault else
  modify (fun s => s <| ramdisk := take (Z.to_nat off) disk ++ data ++ drop (Z.to_nat (off + lenz data)) disk |>).

Definition ramdisk_read (addr len : Z) : M kernel (list Z) :=
  let! start := gets ramdisk_start in
  let! disk := gets ramdisk in
  let off := addr - start in
  if (off <? 0) || (lenz disk <? off + len) then fault else
  ret (take (Z.to_nat len) (drop (Z.to_nat off) disk)).

(** Copying from and to the data of a buffer. *)
Definition load_buffer (p : Z * Z) (len : Z) : M kernel (list Z) :=
  let! b := get_bh p.1 in
  if lenz (b_data b) <? p.2 + len then fault else
  ret (take (Z.to_nat len) (drop (Z.to_nat p.2) (b_data b))).
Definition store_buffer (p : Z * Z) (data : list Z) : M kernel unit :=
  let! b := get_bh p.1 in
  if lenz (b_data b) <? p.2 + lenz data then fault else
  set_bh p.1 (fun b => b <| b_data ::= fun l => take (Z.to_nat p.2) l ++ data ++ drop (Z.to_nat (p.2 + lenz data)) l |>).

(** One request of the loop of [do_ramdisk_request]. *)
Definition ramdisk_request (r : request_t) : M kernel unit :=
  let! start := gets ramdisk_start in
  let! disk := gets ramdisk in
  let addr := u32 (start + u32 (Z.shiftl (r_start_sector r) 9)) in
  let len := s32 (u32 (Z.shiftl (r_nr_sectors r) 9)) in
  if negb (MINOR (r_dev r) =? 1) || (u32 (start + lenz disk) <? u32 (addr + len))
  then end_request RAMDISK_MAJOR 0
  else
    let! buffer := valid (r_buffer r) in
    do! (if r_cmd r =? WRITE then
           let! data := load_buffer buffer len in ramdisk_write addr data
         else if r_cmd r =? READ then
           let! data := ramdisk_read addr len in store_buffer buffer data
         else panic "unknown ramdisk-command") in
    end_request RAMDISK_MAJOR 1.

Fixpoint ramdisk_loop (fuel : nat) : M kernel unit :=
  match fuel with
  | O => Prelude.blocked
  | Datatypes.S fuel' =>
    let! r := check_request RAMDISK_MAJOR in
    match r with
    | None => ret tt
    | Some r => do! ramdisk_request r in ramdisk_loop fuel'
    end
  end.

(** A queue has at most [NR_REQUEST] entries, so one more round is enough. *)
Definition do_ramdisk_request : M kernel unit := ramdisk_loop (Z.to_nat (NR_REQUEST + 1)).

Definition ramdisk_init (mem_start length : Z) : M kernel Z :=
  do! set_dev RAMDISK_MAJOR (fun d => d <| request_fn := ramdisk_driver |>) in
  do! modify (fun s => s <| ramdisk_start := mem_start |>
                         <| ramdisk := replicate (Z.to_nat length) 0 |>) in
  ret length.

(** ** Queueing *)

(** [(dev->request_fn)()]: a call through a null pointer is a fault. *)
Definition call_request_fn (major : Z) : M kernel unit :=
  let! d := get_dev major in
  match request_fn d with
  | no_driver => fault
  | ramdisk_driver => do_ramdisk_request
  | interrupt_driver => modify (start_driver major)
  end.

(** The loop of [add_request]: the entry after which [req] goes. *)
Fixpoint elevator (fuel : nat) (tmp : Z) (req : request_t) : M kernel Z :=
  match fuel with
  | O => Prelude.blocked
  | Datatypes.S fuel' =>
    let! t := get_req tmp in
    match r_next t with
    | None => ret tmp
    | Some next =>
      let! n := get_req next in
      if (IN_ORDER t req || negb (IN_ORDER t n)) && IN_ORDER req n then ret tmp
      else elevator fuel' next req
    end
  end.

Definition add_request (major req : Z) : M kernel unit :=
  do! set_req req (fun r => r <| r_next := None |>) in
  let! r := get_req req in
  do! (match r_bh r with
       | Some bh => set_bh bh (fun b => b <| b_dirt := 0 |>)
       | None => ret tt
       end) in
  let! d := get_dev major in
  match current_request d with
  | None =>
    do! set_dev major (fun d => d <| current_request := Some req |>) in
    call_request_fn major
  | Some head =>
    let! tmp := elevator (Z.to_nat NR_REQUEST) head r in
    let! t := get_req tmp in
    do! set_req req (fun r => r <| r_next := r_next t |>) in
    set_req tmp (fun t => t <| r_next := Some req |>)
  end.

(** [while (--req >= request) if (req->dev < 0) break;] from entry [n]. *)
Fixpoint find_request (l : list request_t) (n : nat) : option Z :=
  match n with
  | O => None
  | Datatypes.S n' =>
    match l !! n' with
    | Some r => if r_dev r <? 0 then Some (Z.of_nat n') else find_request l n'
    | None => find_request l n'
    end
  end.

(** From [repeat]: [None] when a read-ahead gives up. *)
Fixpoint get_request (fuel : nat) (rw : Z) (rw_ahead : bool) : M kernel (option Z) :=
  match fuel with
  | O => Prelude.blocked
  | Datatypes.S fuel' =>
    let! l := gets request in
    let limit := if rw =? READ then NR_REQUEST else NR_REQUEST * 2 ÷ 3 in
    match find_request l (Z.to_nat limit) with
    | Some req => ret (Some req)
    | None =>
      if rw_ahead then ret None else
      do! sleep_on wait_for_request in
      get_request fuel' rw rw_ahead
    end
  end.

Definition make_request (major rw bh : Z) : M kernel unit :=
  let rw_ahead := (rw =? READA) || (rw =? WRITEA) in
  let! b := get_bh bh in
  if rw_ahead && istrue (b_lock b) then ret tt else
  let rw := if rw_ahead then (if rw =? READA then READ else WRITE) else rw in
  if negb (rw =? READ) && negb (rw =? WRITE) then
    panic "Bad block dev command, must be R/W/RA/WA" else
  do! lock_buffer bh in
  let! b := get_bh bh in
  if ((rw =? WRITE) && negb (istrue (b_dirt b))) || ((rw =? READ) && istrue (b_uptodate b))
  then unlock_buffer bh else
  let! req := get_request (Datatypes.S patience) rw rw_ahead in
  match req with
  | None => unlock_buffer bh
  | Some req =>
    let! b := get_bh bh in
    do! set_req req (fun _ => Request (b_dev b) rw 0 (u32 (Z.shiftl (b_blocknr b) 1)) 2 (Some (bh, 0)) None
                                (Some bh) None) in
    add_request major req
  end.

Definition ll_rw_block (rw bh : Z) : M kernel unit :=
  let! b := get_bh bh in
  let major := MAJOR (b_dev b) in
  if NR_BLK_DEV <=? major then ret tt else
  let! d := get_dev major in
  match request_fn d with
  | no_driver => ret tt
  | _ => make_request major rw bh
  end.

Definition block_dev_init : M kernel unit :=
  for_range 0 (Z.to_nat NR_REQUEST) (fun i => set_req i (fun r => r <| r_dev := -1 |> <| r_next := None |>)).
End blk.
