(* ===== verification/Elevator.v ===== *)
(** * The elevator of [add_request]

    The queue of a device is kept in at most two sweeps of the disk arm, each
    in ascending order.  The loop through the linked requests is compared with
    insertion into a list of sort keys. *)

From Stdlib Require Import ZArith Lia.
From Stdlib Require Import Sorted.
From stdpp Require Import base numbers list gmap strings.
From S2P Require Import Prelude Memory Task Kernel Blk.

(** The command, device and sector of a request, in this order. *)
Definition key (r : request_t) : Z * Z * Z := (r_cmd r, r_dev r, r_start_sector r).

Definition before (a b : Z * Z * Z) : Prop :=
  a.1.1 < b.1.1 \/ (a.1.1 = b.1.1 /\ (a.1.2 < b.1.2 \/ (a.1.2 = b.1.2 /\ a.2 < b.2))).
#[global] Instance before_dec a b : Decision (before a b).
Proof. unfold before. apply _. Defined.

#[global] Instance before_trans : Transitive before.
Proof. intros a b c. unfold before. lia. Qed.
Lemma before_irrefl a : ~ before a a.
Proof. unfold before. lia. Qed.
Lemma before_total a b : a <> b -> before a b \/ before b a.
Proof.
  destruct a as [[a1 a2] a3], b as [[b1 b2] b3]. unfold before. cbn. intros Hne.
  destruct (decide (a1 = b1)) as [->|]; [|lia]. destruct (decide (a2 = b2)) as [->|]; [|lia].
  destruct (decide (a3 = b3)) as [->|]; [done|lia].
Qed.

Lemma IN_ORDER_before s1 s2 : IN_ORDER s1 s2 = bool_decide (before (key s1) (key s2)).
Proof.
  unfold IN_ORDER, before, key. cbn. symmetry. case_bool_decide as H; zcases; (done || lia).
Qed.

(** ** Insertion into the queue *)

(** The queue [t :: q] with [r] put in its place. *)
Fixpoint enqueue (t : Z * Z * Z) (q : list (Z * Z * Z)) (r : Z * Z * Z) : list (Z * Z * Z) :=
  match q with
  | [] => [t; r]
  | n :: q' =>
    if decide ((before t r \/ ~ before t n) /\ before r n) then t :: r :: q
    else t :: enqueue n q' r
  end.

Abbreviation ascending := (Sorted before).

(** The queue goes over the disk at most twice. *)
Definition two_sweeps (q : list (Z * Z * Z)) : Prop :=
  exists a b, q = a ++ b /\ ascending a /\ ascending b.

Lemma enqueue_head t q r : exists q', enqueue t q r = t :: q'.
Proof. destruct q as [|n q]; simpl; [by eexists|]. case_decide; by eexists. Qed.

Lemma enqueue_perm t q r : enqueue t q r ≡ₚ r :: t :: q.
Proof.
  revert t. induction q as [|n q IH]; intros t; simpl; [apply Permutation_swap|].
  case_decide; [apply Permutation_swap|]. rewrite IH. apply Permutation_swap.
Qed.

Lemma ascending_cons_enqueue t n q r :
  before t n -> ascending (enqueue n q r) -> ascending (t :: enqueue n q r).
Proof.
  intros Ht Hs. destruct (enqueue_head n q r) as [q' E]. rewrite E in *. constructor; [done|].
  by constructor.
Qed.

Lemma ascending_1 x : ascending [x].
Proof. constructor; constructor. Qed.
Lemma ascending_2 x y : before x y -> ascending [x; y].
Proof. intros H. constructor; [apply ascending_1|by constructor]. Qed.

(** In one sweep, behind the head: the request goes to its place. *)
Lemma enqueue_ahead t q r :
  ascending (t :: q) -> before t r -> r ∉ q -> ascending (enqueue t q r).
Proof.
  revert t. induction q as [|n q IH]; intros t Hs Htr Hr; simpl.
  { by apply ascending_2. }
  inversion_clear Hs as [|?? Hs' Htn]. inversion_clear Htn as [|?? Htn'].
  case_decide as Hd.
  - destruct Hd as [_ Hrn]. constructor; [constructor; [done|by constructor]|by constructor].
  - apply ascending_cons_enqueue; [done|]. apply IH; [done| |set_solver].
    destruct (before_total r n) as [?|?]; [set_solver|tauto|done].
Qed.

(** In one sweep, before the head: the request waits for the next sweep. *)
Lemma enqueue_behind t q r :
  ascending (t :: q) -> before r t -> enqueue t q r = (t :: q) ++ [r].
Proof.
  revert t. induction q as [|n q IH]; intros t Hs Hrt; simpl; [done|].
  inversion_clear Hs as [|?? Hs' Htn]. inversion_clear Htn as [|?? Htn'].
  rewrite decide_False.
  - f_equal. apply IH; [done|]. by transitivity t.
  - intros [[Htr|Hn] _]; [|done]. apply (before_irrefl t). by transitivity r.
Qed.

Lemma last_cons_last {A} (x d : A) l : List.last (x :: l) d = List.last l x.
Proof.
  revert x d. induction l as [|y l IH]; intros x d; [done|].
  change (List.last (x :: y :: l) d) with (List.last (y :: l) d). by rewrite !IH.
Qed.

(** With a descent to a second sweep that starts at [n]. *)
Lemma enqueue_descent t a n b r :
  ascending (t :: a) -> ascending (n :: b) -> ~ before (List.last a t) n -> r ∉ t :: a ++ n :: b ->
  exists a' b', enqueue t (a ++ n :: b) r = (t :: a') ++ b' /\ ascending (t :: a') /\ ascending b'.
Proof.
  revert t. induction a as [|x a IH]; intros t Ha Hb Hlast Hr.
  - simpl in *. destruct (decide (before r n)) as [Hrn|Hrn].
    + rewrite decide_True by tauto. exists [], (r :: n :: b). split; [done|]. split; [done|].
      constructor; [done|by constructor].
    + rewrite decide_False by tauto. exists [], (enqueue n b r). split; [done|]. split; [done|].
      apply enqueue_ahead; [done| |set_solver]. destruct (before_total r n) as [?|?]; [set_solver|done|done].
  - inversion_clear Ha as [|?? Ha' Htx]. inversion_clear Htx as [|?? Htx'].
    cbn [app enqueue]. case_decide as Hd.
    + exists (r :: x :: a), (n :: b). split; [done|]. split; [|done].
      destruct Hd as [[Htr|Hn] Hrx]; [|done]. constructor; [constructor; [done|by constructor]|by constructor].
    + destruct (IH x) as (a' & b' & E & Ha2 & Hb2); [done|done| |set_solver|].
      * by rewrite last_cons_last in Hlast.
      * exists (x :: a'), b'. rewrite E. split; [done|]. split; [|done]. constructor; [done|by constructor].
Qed.

(** Two sweeps without a descent between them are one. *)
Lemma ascending_app a t b :
  ascending a -> ascending b -> match b with [] => True | n :: _ => a = [] \/ before (List.last a t) n end ->
  ascending (a ++ b).
Proof.
  intros Ha Hb Hl. induction Ha as [|x a Ha IH Hx]; [done|]. simpl. destruct a as [|y a].
  - destruct b as [|n b]; [apply ascending_1|]. destruct Hl as [?|Hl]; [done|].
    constructor; [done|by constructor].
  - constructor; [|inversion_clear Hx; by constructor]. apply IH. destruct b as [|n b]; [done|].
    destruct Hl as [?|Hl]; [done|]. by right.
Qed.

Lemma enqueue_two_sweeps t q r :
  two_sweeps (t :: q) -> r ∉ t :: q -> two_sweeps (enqueue t q r).
Proof.
  intros (a & b & Hq & Ha & Hb) Hr.
  assert (forall q, ascending (t :: q) -> r ∉ t :: q -> two_sweeps (enqueue t q r)) as Hone.
  { clear. intros q Hs Hr. destruct (before_total t r) as [Ht|Ht]; [set_solver|..].
    - exists (enqueue t q r), []. rewrite app_nil_r. split; [done|]. split; [|constructor].
      apply enqueue_ahead; [done..|set_solver].
    - exists (t :: q), [r]. split; [by apply enqueue_behind|]. split; [done|apply ascending_1]. }
  destruct a as [|t' a].
  { simpl in Hq. subst b. by apply Hone. }
  injection Hq as <- ->. destruct b as [|n b].
  { rewrite app_nil_r in *. by apply Hone. }
  destruct (decide (before (List.last a t) n)) as [Hl|Hl].
  - apply Hone; [|done]. change (t :: a ++ n :: b) with ((t :: a) ++ n :: b).
    apply (ascending_app (t :: a) t); [done|done|]. right. by destruct a.
  - destruct (enqueue_descent t a n b r Ha Hb Hl Hr) as (a' & b' & E & Ha' & Hb').
    rewrite E. by exists (t :: a'), b'.
Qed.

(** ** The loop of [add_request] *)

(** The keys of the requests at the given entries. *)
Definition keys (l : list request_t) (idx : list Z) : list (Z * Z * Z) :=
  omap (fun i => key <$> getz l i) idx.

(** The requests queued from [link], in order. *)
Abbreviation queued := (Prelude.chain r_next).

Lemma keys_cons l i r idx : getz l i = Some r -> keys l (i :: idx) = key r :: keys l idx.
Proof. intros H. unfold keys. cbn [omap list_omap]. by rewrite H. Qed.

Lemma keys_app l idx1 idx2 : keys l (idx1 ++ idx2) = keys l idx1 ++ keys l idx2.
Proof. unfold keys. apply omap_app. Qed.

(** The loop finds the place where [enqueue] puts the request. *)
Lemma elevator_spec `{Env} fuel (s : kernel) head idx r :
  queued (request s) (Some head) (head :: idx) -> (length idx < fuel)%nat ->
  exists idx1 tmp idx2, elevator fuel head r s = Ok tmp s /\ head :: idx = idx1 ++ tmp :: idx2 /\
    forall h, getz (request s) head = Some h ->
      enqueue (key h) (keys (request s) idx) (key r) =
      keys (request s) (idx1 ++ [tmp]) ++ key r :: keys (request s) idx2.
Proof.
  revert head idx. induction fuel as [|fuel IH]; intros head idx Hq Hf; [lia|].
  destruct Hq as (_ & h & Hh & Hq). cbn [elevator]. run (get_req_ok _ _ _ Hh).
  destruct idx as [|n idx]; simpl in Hq.
  { rewrite Hq. exists [], head, []. split; [done|]. split; [done|].
    intros h' Hh'. rewrite Hh in Hh'. injection Hh' as <-.
    by rewrite keys_app, (keys_cons _ _ _ _ Hh). }
  pose proof Hq as Hq'. destruct Hq as (Hn & rn & Hrn & Hq). rewrite Hn.
  run (get_req_ok _ _ _ Hrn). rewrite !IN_ORDER_before, (keys_cons _ _ _ _ Hrn).
  destruct (decide ((before (key h) (key r) \/ ~ before (key h) (key rn)) /\ before (key r) (key rn))) as [Hd|Hd].
  - rewrite !bool_decide_decide. exists [], head, (n :: idx). split.
    { destruct (decide (before (key r) (key rn))), (decide (before (key h) (key r))),
        (decide (before (key h) (key rn))); cbn; (done || tauto). }
    split; [done|]. intros h' Hh'. rewrite Hh in Hh'. injection Hh' as <-.
    cbn [enqueue]. rewrite decide_True by done. cbn [app].
    by rewrite !(keys_cons _ _ _ _ Hh), (keys_cons _ _ _ _ Hrn).
  - destruct (IH n idx) as (idx1 & tmp & idx2 & E & Hsplit & Hkeys).
    { rewrite Hn in Hq'. exact Hq'. }
    { simpl in Hf. lia. }
    exists (head :: idx1), tmp, idx2. split.
    { rewrite !bool_decide_decide. destruct (decide (before (key r) (key rn))), (decide (before (key h) (key r))),
        (decide (before (key h) (key rn))); cbn; (exact E || tauto). }
    split; [by rewrite Hsplit|]. intros h' Hh'. rewrite Hh in Hh'. injection Hh' as <-.
    cbn [enqueue]. rewrite decide_False by done. rewrite (Hkeys _ Hrn).
    cbn [app]. by rewrite (keys_cons _ _ _ _ Hh).
Qed.

Lemma queued_insert l link idx1 tmp idx2 req t :
  queued l link (idx1 ++ tmp :: idx2) -> NoDup (idx1 ++ tmp :: idx2) -> req ∉ idx1 ++ tmp :: idx2 ->
  getz l tmp = Some t -> 0 <= req < lenz l ->
  forall r, r_next r = r_next t ->
  queued (setz (setz l req r) tmp (t <| r_next := Some req |>)) link (idx1 ++ tmp :: req :: idx2).
Proof.
  intros Hq Hnd Hreq Ht Hr r Hnext. revert link Hq Hnd Hreq.
  induction idx1 as [|i idx1 IH]; intros link Hq Hnd Hreq.
  - simpl in *. destruct Hq as (-> & t' & Ht' & Hq). rewrite Ht in Ht'. injection Ht' as <-.
    assert (tmp <> req) as Hne by set_solver.
    split; [done|]. eexists. split.
    { apply getz_setz_eq. rewrite lenz_setz. exact (getz_Some_lt _ _ _ Ht). }
    upd. split; [done|]. eexists. split.
    { rewrite getz_setz_ne by done. by apply getz_setz_eq. }
    rewrite Hnext. apply (chain_ext _ l); [|done]. intros i Hi.
    inversion_clear Hnd as [|?? Hn ?]. rewrite !getz_setz_ne by (intros ->; set_solver). done.
  - simpl in *. destruct Hq as (-> & ri & Hri & Hq). split; [done|]. exists ri.
    inversion_clear Hnd as [|?? Hn ?]. split.
    { rewrite !getz_setz_ne by (intros ->; set_solver). done. }
    apply IH; [done|done|set_solver].
Qed.

Lemma keys_ext l l' idx :
  (forall i, i ∈ idx -> key <$> getz l' i = key <$> getz l i) -> keys l' idx = keys l idx.
Proof.
  induction idx as [|i idx IH]; intros Heq; [done|]. unfold keys in *. cbn [omap list_omap].
  rewrite Heq by left. rewrite IH; [done|]. intros k Hk. apply Heq. by right.
Qed.

(** The run of [add_request] on a busy device, once the place is known. *)
Lemma add_request_run `{Env} (s : kernel) major req head d r bh b tmp t :
  getz (blk_dev s) major = Some d -> current_request d = Some head ->
  getz (request s) req = Some r -> r_bh r = Some bh -> getz (bhs s) bh = Some b ->
  let r0 := r <| r_next := None |> in
  let s2 := s <| request ::= fun l => setz l req r0 |> <| bhs ::= fun l => setz l bh (b <| b_dirt := 0 |>) |> in
  elevator (Z.to_nat NR_REQUEST) head r0 s2 = Ok tmp s2 -> getz (request s2) tmp = Some t -> tmp <> req ->
  add_request major req s = Ok tt (s <| bhs ::= fun l => setz l bh (b <| b_dirt := 0 |>) |>
    <| request := setz (setz (request s2) req (r0 <| r_next := r_next t |>)) tmp (t <| r_next := Some req |>) |>).
Proof.
  intros Hd Hcur Hr Hbh Hb r0 s2 Hel Ht Hne. set (s1 := s <| request ::= fun l => setz l req r0 |>).
  assert (getz (request s1) req = Some r0) as Hr1.
  { unfold s1. upd. apply getz_setz_eq. exact (getz_Some_lt _ _ _ Hr). }
  unfold add_request. run (set_req_ok _ _ _ (fun r => r <| r_next := None |>) Hr). fold r0 s1.
  run (get_req_ok _ _ _ Hr1). change (r_bh r0) with (r_bh r). rewrite Hbh.
  run (set_bh_ok s1 bh b (fun b => b <| b_dirt := 0 |>) Hb). change (s1 <| bhs ::= fun l => setz l bh (b <| b_dirt := 0 |>) |>) with s2.
  unfold get_dev. unfold bind at 1 2, gets. change (blk_dev s2) with (blk_dev s). rewrite Hd. cbn [valid].
  unfold ret at 1. rewrite Hcur. run Hel. run (get_req_ok _ _ _ Ht).
  change (request s1) with (request s2) in Hr1.
  run (set_req_ok _ _ _ (fun r => r <| r_next := r_next t |>) Hr1).
  erewrite set_req_ok by (upd; rewrite getz_setz_ne by done; exact Ht).
  by destruct s.
Qed.

(** The keys of the queue with a request behind [tmp], where the loop puts it. *)
Lemma inserted_two_sweeps l l2 l' head h idx l1 tmp idx2 req r :
  getz l head = Some h -> (forall i, i ∈ head :: idx -> getz l2 i = getz l i) ->
  head :: idx = l1 ++ tmp :: idx2 ->
  enqueue (key h) (keys l2 idx) (key r) = keys l2 (l1 ++ [tmp]) ++ key r :: keys l2 idx2 ->
  getz l req = Some r -> key r ∉ keys l (head :: idx) -> (forall i, key <$> getz l' i = key <$> getz l i) ->
  two_sweeps (keys l (head :: idx)) -> two_sweeps (keys l' (l1 ++ tmp :: req :: idx2)).
Proof.
  intros Hh Hext Hs Henq Hr Hkey Hk Hsw. rewrite (keys_cons _ _ _ _ Hh) in *.
  assert (keys l2 idx = keys l idx) as Hki by (apply keys_ext; intros i Hi; by rewrite Hext by set_solver).
  pose proof (enqueue_two_sweeps _ _ _ Hsw Hkey) as H2. rewrite <- Hki, Henq in H2.
  rewrite (keys_ext l l') by (intros; apply Hk). rewrite keys_app in H2. rewrite keys_app.
  rewrite !(keys_ext l l2) in H2.
  2-4: intros i Hi; rewrite Hext; [done|]; rewrite Hs; set_solver.
  replace (keys l l1 ++ keys l (tmp :: req :: idx2))
    with ((keys l l1 ++ keys l [tmp]) ++ key r :: keys l idx2); [exact H2|].
  by rewrite <- app_assoc, <- (keys_cons l req r idx2 Hr), <- keys_app.
Qed.

(** C33: [add_request] on a busy device puts the request behind the one being
    served, each of the others keeps its place among the others, and the
    queue still goes over the disk at most twice, in ascending order of
    command, device and sector; apart from links, only the buffer's dirty flag
    is changed. *)
Theorem add_request_elevator `{Env} (s : kernel) major req head idx d r bh b :
  getz (blk_dev s) major = Some d -> current_request d = Some head ->
  queued (request s) (Some head) (head :: idx) -> NoDup (head :: idx) ->
  lenz idx < NR_REQUEST -> getz (request s) req = Some r -> req ∉ head :: idx ->
  r_bh r = Some bh -> getz (bhs s) bh = Some b ->
  key r ∉ keys (request s) (head :: idx) ->
  exists l' idx1 idx2,
    add_request major req s =
      Ok tt (s <| bhs ::= fun l => setz l bh (b <| b_dirt := 0 |>) |> <| request := l' |>) /\
    idx = idx1 ++ idx2 /\ queued l' (Some head) (head :: idx1 ++ req :: idx2) /\
    (forall i, key <$> getz l' i = key <$> getz (request s) i) /\
    (two_sweeps (keys (request s) (head :: idx)) -> two_sweeps (keys l' (head :: idx1 ++ req :: idx2))).
Proof.
  intros Hd Hcur Hq Hnd Hlen Hr Hreq Hbh Hb Hkey.
  set (r0 := r <| r_next := None |>).
  set (s2 := s <| request ::= fun l => setz l req r0 |> <| bhs ::= fun l => setz l bh (b <| b_dirt := 0 |>) |>).
  assert (forall i, i ∈ head :: idx -> getz (request s2) i = getz (request s) i) as Hext.
  { intros i Hi. unfold s2. upd. by apply (getz_setz_notin _ _ _ _ (head :: idx)). }
  assert (getz (request s2) req = Some r0) as Hr2.
  { unfold s2. upd. apply getz_setz_eq. exact (getz_Some_lt _ _ _ Hr). }
  assert (queued (request s2) (Some head) (head :: idx)) as Hq2 by (by apply (chain_ext _ (request s))).
  destruct (elevator_spec (Z.to_nat NR_REQUEST) s2 head idx r0 Hq2) as (l1 & tmp & idx2 & Hel & Hs & Hkeys).
  { unfold lenz, NR_REQUEST in *. lia. }
  assert (tmp ∈ head :: idx) as Htmp by (rewrite Hs; set_solver).
  destruct (chain_getz _ _ _ _ _ Hq2 Htmp) as [t Ht].
  assert (tmp <> req) as Hne by (intros ->; done).
  set (l' := setz (setz (request s2) req (r0 <| r_next := r_next t |>)) tmp (t <| r_next := Some req |>)).
  assert (exists idx1, l1 ++ [tmp] = head :: idx1 /\ idx = idx1 ++ idx2) as (idx1 & Hi1 & Hi2).
  { destruct l1 as [|x l1]; [injection Hs as <- ->; by exists []|].
    injection Hs as <- ->. exists (l1 ++ [tmp]). by rewrite <- app_assoc. }
  assert (head :: idx1 ++ req :: idx2 = l1 ++ tmp :: req :: idx2) as Hnew.
  { change (head :: idx1 ++ req :: idx2) with ((head :: idx1) ++ req :: idx2). by rewrite <- Hi1, <- app_assoc. }
  assert (forall i, key <$> getz l' i = key <$> getz (request s) i) as Hk.
  { intros i. unfold l'. destruct (decide (i = tmp)) as [->|]; [|destruct (decide (i = req)) as [->|]].
    - rewrite getz_setz_eq by (rewrite lenz_setz; exact (getz_Some_lt _ _ _ Ht)). by rewrite <- Hext, Ht.
    - rewrite getz_setz_ne by done. rewrite getz_setz_eq by exact (getz_Some_lt _ _ _ Hr2). by rewrite Hr.
    - rewrite !getz_setz_ne by done. unfold s2. upd. by rewrite getz_setz_ne. }
  exists l', idx1, idx2. rewrite Hnew. split; [by apply (add_request_run _ _ _ head d r)|].
  split; [done|split; [|split; [exact Hk|]]].
  - apply queued_insert; [by rewrite <- Hs|by rewrite <- Hs|by rewrite <- Hs|done|exact (getz_Some_lt _ _ _ Hr2)|done].
  - destruct (chain_getz _ _ _ _ _ Hq (list_elem_of_here _ _)) as [h Hh].
    apply (inserted_two_sweeps (request s) (request s2) l' head h idx l1 tmp idx2 req r); try done.
    apply (Hkeys h). rewrite <- Hh. apply Hext. set_solver.
Qed.
