(* ===== verification/Buffer.v ===== *)
(** * The buffer cache: fs/buffer.c

    Buffers are indices into [bhs]; the hash chains and the free list are the
    links between them.  [getblk] may have to write out a dirty buffer, for
    which [sync_dev] writes the inodes, which reads their blocks through
    [getblk] again: the routines on this cycle take the next one as an
    argument, and [getblk_n] ties the knot with a bound on the nesting.  With
    them are the routines of fs/inode.c and fs/super.c on the cycle. *)

From Stdlib Require Import ZArith Lia.
From stdpp Require Import base numbers list gmap strings.
From S2P Require Import Prelude Memory Task Kernel Blk.

Definition _hashfn (dev block : Z) : Z := u32 (Z.lxor dev block) mod NR_HASH.

Section buffer.
Context {E : Env}.

Definition get_hash (dev block : Z) : M kernel (option Z) :=
  let! l := gets hash_table in valid (getz l (_hashfn dev block)).
Definition set_hash (dev block : Z) (v : option Z) : M kernel unit :=
  modify (fun s => s <| hash_table ::= fun l => setz l (_hashfn dev block) v |>).

Definition wait_on_buffer (bh : Z) : M kernel unit := sleep_while (buffer_locked bh) (b_wait bh).

(** ** The queues *)

(** [p->field = v] for a pointer that may be null. *)
Definition set_bh_opt (p : option Z) (f : buffer_head -> buffer_head) : M kernel unit :=
  match p with Some i => set_bh i f | None => ret tt end.

Definition remove_from_hash (bh : Z) : M kernel unit :=
  let! b := get_bh bh in
  do! set_bh_opt (b_next b) (fun n => n <| b_prev := b_prev b |>) in
  let! b := get_bh bh in
  do! set_bh_opt (b_prev b) (fun p => p <| b_next := b_next b |>) in
  let! b := get_bh bh in
  let! h := get_hash (b_dev b) (b_blocknr b) in
  when (bool_decide (h = Some bh)) (set_hash (b_dev b) (b_blocknr b) (b_next b)).

Definition remove_from_free (bh : Z) : M kernel unit :=
  let! b := get_bh bh in
  match b_prev_free b, b_next_free b with
  | Some p, Some n =>
    do! set_bh n (fun x => x <| b_prev_free := Some p |>) in
    let! b := get_bh bh in
    do! set_bh p (fun x => x <| b_next_free := b_next_free b |>) in
    let! fl := gets free_list in
    let! b := get_bh bh in
    when (bool_decide (fl = Some bh)) (modify (fun s => s <| free_list := b_next_free b |>))
  | _, _ => panic "Free block list corrupted"
  end.

Definition remove_from_queues (bh : Z) : M kernel unit :=
  do! remove_from_hash bh in remove_from_free bh.

(** The address of a buffer head, of 36 bytes, and the word that the
    assignment [NULL->b_prev = bh] overwrites: it is part of the page
    directory. *)
Definition bh_address (bh : Z) : Z := u32 (buffer_heads + 36 * bh).
Definition null_b_prev : Z := 20.

(** [put at end of free list] *)
Definition insert_in_free (bh : Z) : M kernel unit :=
  let! fl := gets free_list in
  let! first := valid fl in
  do! set_bh bh (fun b => b <| b_next_free := Some first |>) in
  let! f := get_bh first in
  do! set_bh bh (fun b => b <| b_prev_free := b_prev_free f |>) in
  let! f := get_bh first in
  let! last := valid (b_prev_free f) in
  do! set_bh last (fun b => b <| b_next_free := Some bh |>) in
  set_bh first (fun b => b <| b_prev_free := Some bh |>).

Definition insert_in_hash (bh : Z) : M kernel unit :=
  do! set_bh bh (fun b => b <| b_prev := None |>) in
  do! set_bh bh (fun b => b <| b_next := None |>) in
  let! b := get_bh bh in
  if negb (istrue (b_dev b)) then ret tt else
  let! h := get_hash (b_dev b) (b_blocknr b) in
  do! set_bh bh (fun b => b <| b_next := h |>) in
  do! set_hash (b_dev b) (b_blocknr b) (Some bh) in
  match h with
  | Some n => set_bh n (fun x => x <| b_prev := Some bh |>)
  | None => on_memory (store null_b_prev (bh_address bh))
  end.

Definition insert_into_queues (bh : Z) : M kernel unit :=
  do! insert_in_free bh in insert_in_hash bh.

(** The walk along a hash chain; a chain longer than the table of buffers is
    a cycle. *)
Fixpoint find_in_chain (fuel : nat) (link : option Z) (dev block : Z) : M kernel (option Z) :=
  match link with
  | None => ret None
  | Some i =>
    match fuel with
    | O => Prelude.blocked
    | Datatypes.S fuel' =>
      let! b := get_bh i in
      if (b_dev b =? dev) && (b_blocknr b =? block) then ret (Some i)
      else find_in_chain fuel' (b_next b) dev block
    end
  end.

Definition find_buffer (dev block : Z) : M kernel (option Z) :=
  let! h := get_hash dev block in
  let! l := gets bhs in
  find_in_chain (length l) h dev block.

Fixpoint get_from_hash_loop (fuel : nat) (dev block : Z) : M kernel (option Z) :=
  match fuel with
  | O => Prelude.blocked
  | Datatypes.S fuel' =>
    let! r := find_buffer dev block in
    match r with
    | None => ret None
    | Some bh =>
      do! set_bh bh (fun b => b <| b_count ::= fun c => u8 (c + 1) |>) in
      do! wait_on_buffer bh in
      let! b := get_bh bh in
      if (b_dev b =? dev) && (b_blocknr b =? block) then ret (Some bh) else
      do! set_bh bh (fun b => b <| b_count ::= fun c => u8 (c - 1) |>) in
      get_from_hash_loop fuel' dev block
    end
  end.
Definition get_from_hash_table : Z -> Z -> M kernel (option Z) := get_from_hash_loop (Datatypes.S patience).

Definition brelse (buf : option Z) : M kernel unit :=
  match buf with
  | None => ret tt
  | Some bh =>
    do! wait_on_buffer bh in
    let! b := get_bh bh in
    if negb (istrue (b_count b)) then panic "Trying to free free buffer" else
    do! set_bh bh (fun b => b <| b_count ::= fun c => u8 (c - 1) |>) in
    wake_up buffer_wait
  end.

(** ** Allocation *)

Definition BADNESS (b : buffer_head) : Z := Z.shiftl (b_dirt b) 1 + b_lock b.

(** The [do ... while] over the free list, from [tmp], with the best buffer
    found so far. *)
Fixpoint free_scan (fuel : nat) (first tmp : Z) (best : option Z) : M kernel (option Z) :=
  match fuel with
  | O => Prelude.blocked
  | Datatypes.S fuel' =>
    let! t := get_bh tmp in
    let! better := (match best with
                    | None => ret true
                    | Some bh => let! b := get_bh bh in ret (BADNESS t <? BADNESS b)
                    end) in
    if negb (istrue (b_count t)) && better && negb (istrue (BADNESS t)) then ret (Some tmp) else
    let best := if negb (istrue (b_count t)) && better then Some tmp else best in
    let! next := valid (b_next_free t) in
    if next =? first then ret best else free_scan fuel' first next best
  end.

(** [while (bh->b_dirt) { sync_dev(bh->b_dev); ... }]: [false] when the buffer
    was taken meanwhile. *)
Fixpoint clean_buffer (fuel : nat) (sync_dev : Z -> M kernel unit) (bh : Z) : M kernel bool :=
  match fuel with
  | O => Prelude.blocked
  | Datatypes.S fuel' =>
    let! b := get_bh bh in
    if negb (istrue (b_dirt b)) then ret true else
    do! sync_dev (b_dev b) in
    do! wait_on_buffer bh in
    let! b := get_bh bh in
    if istrue (b_count b) then ret false else clean_buffer fuel' sync_dev bh
  end.

(** Taking over the buffer [bh] for a block that is not in the cache. *)
Definition take_buffer (bh dev block : Z) : M kernel unit :=
  do! set_bh bh (fun b => b <| b_count := 1 |> <| b_dirt := 0 |> <| b_uptodate := 0 |>) in
  do! remove_from_queues bh in
  do! set_bh bh (fun b => b <| b_dev := u16 dev |> <| b_blocknr := u32 block |>) in
  insert_into_queues bh.

(** From [repeat] to the next [goto repeat], where the result is [None]. *)
Definition getblk_pass (sync_dev : Z -> M kernel unit) (dev block : Z) : M kernel (option Z) :=
  let! r := get_from_hash_table dev block in
  match r with
  | Some bh => ret (Some bh)
  | None =>
    let! fl := gets free_list in
    let! first := valid fl in
    let! l := gets bhs in
    let! best := free_scan (length l) first first None in
    match best with
    | None => do! sleep_on buffer_wait in ret None
    | Some bh =>
      do! wait_on_buffer bh in
      let! b := get_bh bh in
      if istrue (b_count b) then ret None else
      let! clean := clean_buffer (Datatypes.S patience) sync_dev bh in
      if negb clean then ret None else
      let! dup := find_buffer dev block in
      match dup with
      | Some _ => ret None
      | None => do! take_buffer bh dev block in ret (Some bh)
      end
    end
  end.

Fixpoint getblk_loop (fuel : nat) (sync_dev : Z -> M kernel unit) (dev block : Z) : M kernel Z :=
  match fuel with
  | O => Prelude.blocked
  | Datatypes.S fuel' =>
    let! r := getblk_pass sync_dev dev block in
    match r with Some bh => ret bh | None => getblk_loop fuel' sync_dev dev block end
  end.

(** ** Reading a block *)

Definition bread_with (getblk : Z -> Z -> M kernel Z) (dev block : Z) : M kernel (option Z) :=
  let! bh := getblk dev block in
  let! b := get_bh bh in
  if istrue (b_uptodate b) then ret (Some bh) else
  do! ll_rw_block READ bh in
  do! wait_on_buffer bh in
  let! b := get_bh bh in
  if istrue (b_uptodate b) then ret (Some bh) else
  do! brelse (Some bh) in
  ret None.

(** ** Super blocks and inodes on the way: fs/super.c, fs/inode.c *)

Definition super_locked (i : Z) : M kernel bool := let! sb := get_sb i in ret (istrue (s_lock sb)).
Definition wait_on_super (i : Z) : M kernel unit := sleep_while (super_locked i) (s_wait i).
Definition lock_super (i : Z) : M kernel unit :=
  do! sleep_while (super_locked i) (s_wait i) in
  set_sb i (fun sb => sb <| s_lock := 1 |>).
Definition unlock_super (i : Z) : M kernel unit :=
  do! set_sb i (fun sb => sb <| s_lock := 0 |>) in
  wake_up (s_wait i).

(** The search of [get_super] from entry [i] on; it starts again when the
    entry changed while its lock was waited for. *)
Fixpoint get_super_loop (fuel : nat) (i dev : Z) : M kernel (option Z) :=
  match fuel with
  | O => Prelude.blocked
  | Datatypes.S fuel' =>
    if NR_SUPER <=? i then ret None else
    let! sb := get_sb i in
    if s_dev sb =? dev then
      do! wait_on_super i in
      let! sb := get_sb i in
      if s_dev sb =? dev then ret (Some i) else get_super_loop fuel' 0 dev
    else get_super_loop fuel' (i + 1) dev
  end.

(** Each restart follows a sleep. *)
Definition get_super (dev : Z) : M kernel (option Z) :=
  if dev =? 0 then ret None
  else get_super_loop (Z.to_nat (NR_SUPER + 1) * Datatypes.S patience) 0 dev.

Definition inode_locked (i : Z) : M kernel bool := let! n := get_inode i in ret (istrue (i_lock n)).
Definition wait_on_inode (i : Z) : M kernel unit := sleep_while (inode_locked i) (i_wait i).
Definition lock_inode (i : Z) : M kernel unit :=
  do! sleep_while (inode_locked i) (i_wait i) in
  set_inode i (fun n => n <| i_lock := 1 |>).
Definition unlock_inode (i : Z) : M kernel unit :=
  do! set_inode i (fun n => n <| i_lock := 0 |>) in
  wake_up (i_wait i).

(** [struct d_inode], 32 bytes: its fields in a block from byte [o] on. *)
Definition read_zones (l : list Z) (o : Z) : option (list Z) :=
  mapM (fun k => le16 l (o + 14 + 2 * k)) (seqZ 0 9).

Definition read_d_inode (l : list Z) (o : Z) (n : m_inode) : option m_inode :=
  mode ← le16 l o; uid ← le16 l (o + 2); size ← le32 l (o + 4); mtime ← le32 l (o + 8);
  gid ← getz l (o + 12); nlinks ← getz l (o + 13); zone ← read_zones l o;
  Some (n <| i_mode := mode |> <| i_uid := uid |> <| i_size := size |> <| i_mtime := mtime |>
          <| i_gid := gid |> <| i_nlinks := nlinks |> <| i_zone := zone |>).

Fixpoint write_zones (l : list Z) (o : Z) (zones : list Z) : list Z :=
  match zones with [] => l | z :: zones => write_zones (set_le16 l o z) (o + 2) zones end.

Definition write_d_inode (l : list Z) (o : Z) (n : m_inode) : list Z :=
  let l := set_le16 l o (i_mode n) in
  let l := set_le16 l (o + 2) (i_uid n) in
  let l := set_le32 l (o + 4) (i_size n) in
  let l := set_le32 l (o + 8) (i_mtime n) in
  let l := setz l (o + 12) (u8 (i_gid n)) in
  let l := setz l (o + 13) (u8 (i_nlinks n)) in
  write_zones l (o + 14) (take 9 (i_zone n)).

(** The block of an inode and its offset there: [i_num - 1] is divided as an
    unsigned number, since the size of a structure is one. *)
Definition inode_block (sb : super_block_t) (num : Z) : Z :=
  u32 (2 + s_imap_blocks sb + s_zmap_blocks sb + u32 (num - 1) / INODES_PER_BLOCK).
Definition inode_offset (num : Z) : Z := 32 * (u32 (num - 1) mod INODES_PER_BLOCK).

Definition write_inode_with (bread : Z -> Z -> M kernel (option Z)) (i : Z) : M kernel unit :=
  do! lock_inode i in
  let! n := get_inode i in
  if negb (istrue (i_dirt n)) || negb (istrue (i_dev n)) then unlock_inode i else
  let! r := get_super (i_dev n) in
  match r with
  | None => panic "trying to write inode without device"
  | Some sbi =>
    let! n := get_inode i in
    let! sb := get_sb sbi in
    let! r := bread (i_dev n) (inode_block sb (i_num n)) in
    match r with
    | None => panic "unable to read i-node block"
    | Some bh =>
      let! n := get_inode i in
      do! set_bh bh (fun b => b <| b_data ::= fun l => write_d_inode l (inode_offset (i_num n)) n |>) in
      do! set_bh bh (fun b => b <| b_dirt := 1 |>) in
      do! set_inode i (fun n => n <| i_dirt := 0 |>) in
      do! brelse (Some bh) in
      unlock_inode i
    end
  end.

Definition sync_inodes_with (write_inode : Z -> M kernel unit) : M kernel unit :=
  for_range 0 (Z.to_nat NR_INODE) (fun i =>
    do! wait_on_inode i in
    let! n := get_inode i in
    when (istrue (i_dirt n) && negb (istrue (i_pipe n))) (write_inode i)).

(** One of the two loops of [sync_dev]. *)
Definition sync_buffers (dev : Z) : M kernel unit :=
  let! l := gets bhs in
  for_range 0 (length l) (fun i =>
    let! b := get_bh i in
    if negb (b_dev b =? dev) then ret tt else
    do! wait_on_buffer i in
    let! b := get_bh i in
    when ((b_dev b =? dev) && istrue (b_dirt b)) (ll_rw_block WRITE i)).

Definition sync_dev_with (sync_inodes : M kernel unit) (dev : Z) : M kernel unit :=
  do! sync_buffers dev in
  do! sync_inodes in
  sync_buffers dev.

(** ** The knot *)

Fixpoint getblk_n (n : nat) (dev block : Z) : M kernel Z :=
  match n with
  | O => Prelude.blocked
  | Datatypes.S n' =>
    getblk_loop (Datatypes.S patience)
      (sync_dev_with (sync_inodes_with (write_inode_with (bread_with (getblk_n n'))))) dev block
  end.

Definition getblk : Z -> Z -> M kernel Z := getblk_n (Datatypes.S nesting).
Definition bread : Z -> Z -> M kernel (option Z) := bread_with getblk.
Definition write_inode : Z -> M kernel unit := write_inode_with bread.
Definition sync_inodes : M kernel unit := sync_inodes_with write_inode.
Definition sync_dev : Z -> M kernel unit := sync_dev_with sync_inodes.

Definition sys_sync : M kernel Z :=
  do! sync_inodes in
  let! l := gets bhs in
  do! for_range 0 (length l) (fun i =>
    do! wait_on_buffer i in
    let! b := get_bh i in
    when (istrue (b_dirt b)) (ll_rw_block WRITE i)) in
  ret 0.

Definition invalidate_buffers (dev : Z) : M kernel unit :=
  let! l := gets bhs in
  for_range 0 (length l) (fun i =>
    let! b := get_bh i in
    if negb (b_dev b =? dev) then ret tt else
    do! wait_on_buffer i in
    let! b := get_bh i in
    when (b_dev b =? dev) (set_bh i (fun b => b <| b_uptodate := 0 |> <| b_dirt := 0 |>))).

(** ** Reading ahead, and reading pages *)

Fixpoint breada_ahead (dev : Z) (blocks : list Z) : M kernel unit :=
  match blocks with
  | [] => ret tt
  | first :: blocks =>
    if first <? 0 then ret tt else
    let! tmp := getblk dev first in
    let! t := get_bh tmp in
    do! when (negb (istrue (b_uptodate t))) (ll_rw_block READA tmp) in
    do! set_bh tmp (fun b => b <| b_count ::= fun c => u8 (c - 1) |>) in
    breada_ahead dev blocks
  end.

(** [blocks] are the further arguments. *)
Definition breada (dev first : Z) (blocks : list Z) : M kernel (option Z) :=
  let! bh := getblk dev first in
  let! b := get_bh bh in
  do! when (negb (istrue (b_uptodate b))) (ll_rw_block READ bh) in
  do! breada_ahead dev blocks in
  do! wait_on_buffer bh in
  let! b := get_bh bh in
  if istrue (b_uptodate b) then ret (Some bh) else
  do! brelse (Some bh) in
  ret None.

Fixpoint bread_page_start (dev : Z) (b : list Z) : M kernel (list (option Z)) :=
  match b with
  | [] => ret []
  | block :: b =>
    let! bh := (if istrue block then
                  let! bh := getblk dev block in
                  let! x := get_bh bh in
                  do! when (negb (istrue (b_uptodate x))) (ll_rw_block READ bh) in
                  ret (Some bh)
                else ret None) in
    let! rest := bread_page_start dev b in
    ret (bh :: rest)
  end.

(** [COPYBLK]: 256 words from a block to an address. *)
Definition COPYBLK (data : list Z) (address : Z) : M kernel unit :=
  for_range 0 256 (fun i =>
    let! w := valid (le32 data (4 * i)) in
    on_memory (store (address + 4 * i) w)).

Fixpoint bread_page_finish (address : Z) (bh : list (option Z)) : M kernel unit :=
  match bh with
  | [] => ret tt
  | o :: bh =>
    do! (match o with
         | Some i =>
           do! wait_on_buffer i in
           let! b := get_bh i in
           do! when (istrue (b_uptodate b)) (COPYBLK (b_data b) address) in
           brelse (Some i)
         | None => ret tt
         end) in
    bread_page_finish (address + BLOCK_SIZE) bh
  end.

Definition bread_page (address dev : Z) (b : list Z) : M kernel unit :=
  let! bh := bread_page_start dev b in
  bread_page_finish address bh.

(** ** Initialisation *)

(** The loop of [buffer_init]: buffer head [n], the data ending at [b]. *)
Fixpoint buffer_init_loop (fuel : nat) (n b : Z) : list buffer_head :=
  match fuel with
  | O => []
  | Datatypes.S fuel' =>
    let b := b - BLOCK_SIZE in
    if b <? buffer_heads + 36 * (n + 1) then [] else
    Bh (replicate 1024 0) 0 0 0 0 0 0 None None (Some (n - 1)) (Some (n + 1)) ::
      buffer_init_loop fuel' (n + 1) (if b =? 0x100000 then 0xa0000 else b)
  end.

(** The contents of the data blocks are whatever the memory holds; the model
    starts with zeroes.  The last links close the circle. *)
Definition buffer_init (buffer_end : Z) : M kernel unit :=
  let b := if buffer_end =? Z.shiftl 1 20 then 640 * 1024 else buffer_end in
  let l := buffer_init_loop (Z.to_nat (b / BLOCK_SIZE)) 0 b in
  let last := lenz l - 1 in
  do! modify (fun s => s <| bhs := l |> <| free_list := Some 0 |>) in
  do! set_bh 0 (fun h => h <| b_prev_free := Some last |>) in
  do! set_bh last (fun h => h <| b_next_free := Some 0 |>) in
  modify (fun s => s <| hash_table := replicate (Z.to_nat NR_HASH) None |>).
End buffer.
