(* ===== verification/BufferRing.v ===== *)
(** * The free list of the buffer cache

    The ring through [b_next_free] and [b_prev_free], as a list of buffers:
    taking a buffer out of it and putting it at its end. *)

From Stdlib Require Import ZArith Lia.
From stdpp Require Import base numbers list gmap strings.
From S2P Require Import Prelude Memory Task Kernel Blk Buffer.

(** The links of a table of buffers. *)
Definition nfree (l : list buffer_head) (i : Z) : option Z := getz l i ≫= b_next_free.
Definition pfree (l : list buffer_head) (i : Z) : option Z := getz l i ≫= b_prev_free.

Section rings.
Implicit Types (nf pf : Z -> option Z) (r l : list Z).

Definition edge nf pf (x y : Z) : Prop := nf x = Some y /\ pf y = Some x.

(** Each element is linked to the next, the last one to the first. *)
Definition ring_ok nf pf r : Prop :=
  match r with [] => False | x :: l => Forall2 (edge nf pf) (x :: l) (l ++ [x]) end.

Lemma ring_rotate nf pf l1 l2 : ring_ok nf pf (l1 ++ l2) -> ring_ok nf pf (l2 ++ l1).
Proof.
  destruct l1 as [|x a]; [by rewrite app_nil_r|]. destruct l2 as [|y b]; [by rewrite app_nil_r|].
  cbn [app ring_ok]. intros H.
  change (x :: a ++ y :: b) with ((x :: a) ++ y :: b) in H.
  replace ((a ++ y :: b) ++ [x]) with ((a ++ [y]) ++ b ++ [x]) in H by (by rewrite <- !app_assoc).
  apply Forall2_app_inv in H as [H1 H2]; [|rewrite length_app; simpl; lia].
  change (y :: b ++ x :: a) with ((y :: b) ++ x :: a).
  replace ((b ++ x :: a) ++ [y]) with ((b ++ [x]) ++ a ++ [y]) by (by rewrite <- !app_assoc).
  by apply Forall2_app.
Qed.

Lemma edges_mono nf pf nf' pf' l1 l2 :
  Forall2 (edge nf pf) l1 l2 -> (forall x, x ∈ l1 -> nf' x = nf x) -> (forall y, y ∈ l2 -> pf' y = pf y) ->
  Forall2 (edge nf' pf') l1 l2.
Proof.
  intros H Hn Hp. induction H as [|x y l1 l2 [He1 He2] H IH]; constructor.
  - split; [rewrite Hn by left; done|rewrite Hp by left; done].
  - apply IH; intros z Hz; [apply Hn|apply Hp]; by right.
Qed.

(** A ring of two or more, seen from the element [x] at its end. *)
Lemma ring_last nf pf l x :
  l <> [] -> ring_ok nf pf (l ++ [x]) ->
  exists n l1 l0 p, l = n :: l1 /\ l = l0 ++ [p] /\ Forall2 (edge nf pf) l0 l1 /\
    edge nf pf p x /\ edge nf pf x n.
Proof.
  intros Hl Hr. destruct l as [|n l1]; [done|]. destruct (@exists_last _ (n :: l1)) as (l0 & p & E); [done|].
  exists n, l1, l0, p. split; [done|]. split; [done|]. rewrite E in Hr.
  assert (ring_ok nf pf ((n :: l1) ++ [x])) as Hr' by (by rewrite E). clear Hr. cbn [app ring_ok] in Hr'.
  change (n :: l1 ++ [x]) with ((n :: l1) ++ [x]) in Hr'. rewrite E in Hr'.
  replace ((l1 ++ [x]) ++ [n]) with (l1 ++ [x; n]) in Hr' by (by rewrite <- app_assoc).
  rewrite <- app_assoc in Hr'. cbn [app] in Hr'.
  assert (length l0 = length l1) as Hlen.
  { apply (f_equal length) in E. rewrite length_app in E. simpl in E. lia. }
  apply Forall2_app_inv in Hr' as [H1 H2]; [|done].
  inversion_clear H2 as [|???? H3 H4]. inversion_clear H4 as [|???? H5 _]. done.
Qed.

(** Unlinking the element at the end. *)
Lemma ring_unlink nf pf nf' pf' l x p n :
  l <> [] -> NoDup (l ++ [x]) -> ring_ok nf pf (l ++ [x]) -> pf x = Some p -> nf x = Some n ->
  nf' p = Some n -> pf' n = Some p ->
  (forall i, i <> p -> nf' i = nf i) -> (forall i, i <> n -> pf' i = pf i) ->
  ring_ok nf' pf' l /\ p ∈ l /\ n ∈ l /\ head l = Some n.
Proof.
  intros Hl Hnd Hr Hp Hn Hp' Hn' Hnf Hpf.
  destruct (ring_last _ _ _ _ Hl Hr) as (n1 & l1 & l0 & p1 & E1 & E0 & He & [_ Hep] & [Hen _]).
  rewrite Hp in Hep. rewrite Hn in Hen. injection Hep as <-. injection Hen as <-.
  apply NoDup_app in Hnd as [Hnd _]. pose proof Hnd as Hnd1. rewrite E1 in Hnd1.
  apply NoDup_cons in Hnd1 as [Hn1 _]. rewrite E0 in Hnd. apply NoDup_app in Hnd as (_ & Hd & _).
  split; [|split; [rewrite E0; set_solver|split; [rewrite E1; set_solver|by rewrite E1]]].
  rewrite E1. cbn [ring_ok]. rewrite <- E1, E0. apply Forall2_app.
  - apply (edges_mono nf pf); [done|..].
    + intros y Hy. apply Hnf. intros ->. by apply (Hd p Hy), list_elem_of_singleton.
    + intros y Hy. apply Hpf. by intros ->.
  - constructor; [done|constructor].
Qed.

(** Linking a new element at the end. *)
Lemma ring_link nf pf nf' pf' first m x z :
  NoDup (first :: m) -> x ∉ first :: m -> ring_ok nf pf (first :: m) -> pf first = Some z ->
  nf' x = Some first -> pf' x = Some z -> nf' z = Some x -> pf' first = Some x ->
  (forall i, i <> x -> i <> z -> nf' i = nf i) -> (forall i, i <> x -> i <> first -> pf' i = pf i) ->
  ring_ok nf' pf' ((first :: m) ++ [x]) /\ z ∈ first :: m.
Proof.
  intros Hnd Hx Hr Hz Hnx Hpx Hnz Hpf1 Hnf Hpf. cbn [ring_ok] in Hr.
  destruct (@exists_last _ (first :: m)) as (m0 & z1 & E); [done|]. rewrite E in Hr.
  assert (length m0 = length m) as Hlen.
  { apply (f_equal length) in E. rewrite length_app in E. simpl in E. lia. }
  apply Forall2_app_inv in Hr as [H1 H2]; [|done]. inversion_clear H2 as [|???? [_ He] _].
  rewrite Hz in He. injection He as <-. split; [|rewrite E; set_solver].
  cbn [app ring_ok]. change (first :: m ++ [x]) with ((first :: m) ++ [x]). rewrite E, <- !app_assoc.
  apply Forall2_app.
  - apply NoDup_cons in Hnd as [Hf Hnd]. apply (edges_mono nf pf); [done|..].
    + intros y Hy. assert (NoDup (m0 ++ [z])) as Hd by (rewrite <- E; by constructor).
      apply NoDup_app in Hd as (_ & Hd & _). apply Hnf.
      * intros ->. apply Hx. rewrite E. set_solver.
      * intros ->. by apply (Hd z Hy), list_elem_of_singleton.
    + intros y Hy. apply Hpf; intros ->; [set_solver|done].
  - constructor; [done|]. constructor; [done|constructor].
Qed.
End rings.

(** ** The free list of a state *)

(** All buffers are on the free list [r], and [free_list] is its first. *)
Record free_ring (l : list buffer_head) (fl : option Z) (r : list Z) : Prop := {
  fr_ring : ring_ok (nfree l) (pfree l) r;
  fr_head : fl = head r;
  fr_nodup : NoDup r;
  fr_range : forall i, i ∈ r -> 0 <= i < lenz l
}.

Lemma nfree_set l i b j : getz l i = Some b -> nfree (setz l i b) j = nfree l j.
Proof. intros Hb. by rewrite setz_id. Qed.

Lemma getz_set l i (b b' : buffer_head) j :
  getz l i = Some b -> getz (setz l i b') j = if decide (j = i) then Some b' else getz l j.
Proof.
  intros Hb. case_decide as E; [subst; apply getz_setz_eq; exact (getz_Some_lt _ _ _ Hb)|].
  by rewrite getz_setz_ne.
Qed.

(** The fields the hash chains are made of, unchanged by work on the free list. *)
Definition hview (l : list buffer_head) (i : Z) : option (Z * Z * option Z * option Z) :=
  (fun b => (b_dev b, b_blocknr b, b_prev b, b_next b)) <$> getz l i.

(** The fields that are not links. *)
Definition content (l : list buffer_head) (i : Z) : option (list Z * Z * Z * Z * Z) :=
  (fun b => (b_data b, b_uptodate b, b_dirt b, b_count b, b_lock b)) <$> getz l i.

Record same_hash (l l' : list buffer_head) : Prop := {
  sh_length : lenz l' = lenz l;
  sh_view : forall i, hview l' i = hview l i;
  sh_content : forall i, content l' i = content l i
}.
Lemma same_hash_refl l : same_hash l l.
Proof. done. Qed.
Lemma same_hash_trans l1 l2 l3 : same_hash l1 l2 -> same_hash l2 l3 -> same_hash l1 l3.
Proof.
  intros [L1 V1 C1] [L2 V2 C2]. split; [congruence|intros i; by rewrite V2|intros i; by rewrite C2].
Qed.

(** One assignment to a link of the free list. *)
Lemma set_free_links l i b b' :
  getz l i = Some b ->
  hview [b'] 0 = hview [b] 0 -> content [b'] 0 = content [b] 0 ->
  same_hash l (setz l i b') /\
  (forall j, nfree (setz l i b') j = if decide (j = i) then b_next_free b' else nfree l j) /\
  (forall j, pfree (setz l i b') j = if decide (j = i) then b_prev_free b' else pfree l j).
Proof.
  intros Hb E1 E2. split; [split; [apply lenz_setz|..]|split].
  - intros j. unfold hview. rewrite (getz_set _ _ _ _ _ Hb). case_decide; [|done]. subst j. by rewrite Hb.
  - intros j. unfold content. rewrite (getz_set _ _ _ _ _ Hb). case_decide; [|done]. subst j. by rewrite Hb.
  - intros j. unfold nfree. rewrite (getz_set _ _ _ _ _ Hb). by case_decide.
  - intros j. unfold pfree. rewrite (getz_set _ _ _ _ _ Hb). by case_decide.
Qed.

Lemma wp_get_bh i (Q : buffer_head -> kernel -> Prop) s b :
  getz (bhs s) i = Some b -> Q b s -> wp (get_bh i) Q s.
Proof. intros Hb HQ. unfold wp. by rewrite (get_bh_ok _ _ _ Hb). Qed.
Lemma wp_set_bh i f (Q : unit -> kernel -> Prop) s b :
  getz (bhs s) i = Some b -> Q tt (s <| bhs ::= fun l => setz l i (f b) |>) -> wp (set_bh i f) Q s.
Proof. intros Hb HQ. unfold wp. by rewrite (set_bh_ok _ _ _ _ Hb). Qed.

(** The state with new links. *)
Definition with_links (s : kernel) (l : list buffer_head) (fl : option Z) : kernel :=
  s <| bhs := l |> <| free_list := fl |>.

(** The ring [r] when [x] has been unlinked from it. *)
Definition ring_without (l : list buffer_head) (fl : option Z) (x : Z) (r : list Z) : Prop :=
  match r with
  | [] => nfree l x = Some x /\ pfree l x = Some x /\ fl = Some x
  | g :: _ => ring_ok (nfree l) (pfree l) r /\ fl = Some g
  end.

Lemma nfree_Some l i n : nfree l i = Some n -> exists b, getz l i = Some b /\ b_next_free b = Some n.
Proof. unfold nfree. destruct (getz l i) as [b|]; [by exists b|done]. Qed.
Lemma pfree_Some l i n : pfree l i = Some n -> exists b, getz l i = Some b /\ b_prev_free b = Some n.
Proof. unfold pfree. destruct (getz l i) as [b|]; [by exists b|done]. Qed.

Lemma ring_neighbours nf pf r x : ring_ok nf pf r -> x ∈ r ->
  exists p n, pf x = Some p /\ nf x = Some n /\ p ∈ r /\ n ∈ r.
Proof.
  intros Hr Hx. apply list_elem_of_split in Hx as (a & c & ->).
  change (a ++ x :: c) with (a ++ [x] ++ c) in Hr. rewrite app_assoc in Hr.
  apply ring_rotate in Hr. rewrite app_assoc in Hr.
  destruct (decide (c ++ a = [])) as [E|E].
  - rewrite E in Hr. apply app_nil in E as [-> ->]. inversion_clear Hr as [|???? [H1 H2] _].
    exists x, x. set_solver.
  - destruct (ring_last _ _ _ _ E Hr) as (n & l1 & l0 & p & E1 & E0 & _ & [_ Hp] & [Hn _]).
    exists p, n. split; [done|]. split; [done|].
    assert (p ∈ c ++ a) by (rewrite E0; set_solver). assert (n ∈ c ++ a) by (rewrite E1; set_solver).
    set_solver.
Qed.

Lemma wp_set_nfree i v (Q : unit -> kernel -> Prop) s :
  0 <= i < lenz (bhs s) ->
  (forall l, same_hash (bhs s) l -> (forall j, nfree l j = if decide (j = i) then v else nfree (bhs s) j) ->
     (forall j, pfree l j = pfree (bhs s) j) -> Q tt (with_links s l (free_list s))) ->
  wp (set_bh i (fun b => b <| b_next_free := v |>)) Q s.
Proof.
  intros Hi HQ. destruct (getz_is_Some _ _ Hi) as [b Hb]. apply (wp_set_bh _ _ _ _ b Hb).
  destruct (set_free_links (bhs s) i b (b <| b_next_free := v |>) Hb) as (S & N & P); [done..|].
  replace (over bhs _ s) with (with_links s (setz (bhs s) i (b <| b_next_free := v |>)) (free_list s))
    by (by destruct s).
  apply HQ; [done|done|]. intros j. rewrite P. case_decide; [|done]. subst j. unfold pfree. by rewrite Hb.
Qed.

Lemma wp_set_pfree i v (Q : unit -> kernel -> Prop) s :
  0 <= i < lenz (bhs s) ->
  (forall l, same_hash (bhs s) l -> (forall j, pfree l j = if decide (j = i) then v else pfree (bhs s) j) ->
     (forall j, nfree l j = nfree (bhs s) j) -> Q tt (with_links s l (free_list s))) ->
  wp (set_bh i (fun b => b <| b_prev_free := v |>)) Q s.
Proof.
  intros Hi HQ. destruct (getz_is_Some _ _ Hi) as [b Hb]. apply (wp_set_bh _ _ _ _ b Hb).
  destruct (set_free_links (bhs s) i b (b <| b_prev_free := v |>) Hb) as (S & N & P); [done..|].
  replace (over bhs _ s) with (with_links s (setz (bhs s) i (b <| b_prev_free := v |>)) (free_list s))
    by (by destruct s).
  apply HQ; [done|done|]. intros j. rewrite N. case_decide; [|done]. subst j. unfold nfree. by rewrite Hb.
Qed.

(** Reading the links of a buffer. *)
Lemma wp_read_links i (Q : buffer_head -> kernel -> Prop) s :
  0 <= i < lenz (bhs s) ->
  (forall b, b_next_free b = nfree (bhs s) i -> b_prev_free b = pfree (bhs s) i -> Q b s) ->
  wp (get_bh i) Q s.
Proof.
  intros Hi HQ. destruct (getz_is_Some _ _ Hi) as [b Hb]. apply (wp_get_bh _ _ _ b Hb).
  apply HQ; [unfold nfree|unfold pfree]; by rewrite Hb.
Qed.

Lemma with_links_twice s l1 f1 l2 f2 : with_links (with_links s l1 f1) l2 f2 = with_links s l2 f2.
Proof. by destruct s. Qed.

(** Unlinking [x] from [a ++ x :: c] in terms of the links. *)
Lemma ring_remove (l l2 : list buffer_head) a x c p n :
  NoDup (a ++ x :: c) -> ring_ok (nfree l) (pfree l) (a ++ x :: c) -> pfree l x = Some p -> nfree l x = Some n ->
  (forall i, nfree l2 i = if decide (i = p) then Some n else nfree l i) ->
  (forall i, pfree l2 i = if decide (i = n) then Some p else pfree l i) ->
  a ++ c <> [] -> ring_ok (nfree l2) (pfree l2) (a ++ c) /\ (a = [] -> head c = Some n).
Proof.
  intros Hnd Hr Hp Hn N P Hne.
  change (a ++ x :: c) with (a ++ [x] ++ c) in Hr, Hnd. rewrite app_assoc in Hr.
  apply ring_rotate in Hr. rewrite app_assoc in Hr.
  assert (c ++ a <> []) as Hne' by (destruct a, c; done).
  assert (NoDup ((c ++ a) ++ [x])) as Hnd'.
  { by rewrite (Permutation_app_comm c a), <- app_assoc, (Permutation_app_comm c [x]). }
  destruct (ring_unlink (nfree l) (pfree l) (nfree l2) (pfree l2) _ _ p n Hne' Hnd' Hr)
    as (H1 & H2 & H3 & H4); [done|done|by rewrite N, decide_True|by rewrite P, decide_True| | |].
  - intros i Hi. by rewrite N, decide_False.
  - intros i Hi. by rewrite P, decide_False.
  - split; [by apply ring_rotate|]. intros ->. by rewrite app_nil_r in H4.
Qed.

Lemma remove_from_free_spec (s : kernel) a bh c :
  free_ring (bhs s) (free_list s) (a ++ bh :: c) ->
  wp (remove_from_free bh) (fun _ s' => exists l fl, s' = with_links s l fl /\
    same_hash (bhs s) l /\ ring_without l fl bh (a ++ c)) s.
Proof.
  intros [Hr Hhd Hnd Hrange].
  destruct (ring_neighbours _ _ _ bh Hr ltac:(set_solver)) as (p & n & Hp & Hn & Hpin & Hnin).
  assert (0 <= bh < lenz (bhs s)) as Hbh by (apply Hrange; set_solver).
  unfold remove_from_free. apply wp_bind, wp_read_links; [done|]. intros b Hbn Hbp.
  rewrite Hbn, Hbp, Hp, Hn.
  apply wp_bind, wp_set_pfree; [by apply Hrange|]. intros l1 S1 P1 N1.
  apply wp_bind, wp_read_links; [unfold with_links; upd; by rewrite (sh_length _ _ S1)|]. intros b1 Hb1n _.
  rewrite Hb1n. change (bhs (with_links s l1 _)) with l1. rewrite N1, Hn.
  apply wp_bind, wp_set_nfree; [unfold with_links; upd; rewrite (sh_length _ _ S1); by apply Hrange|].
  intros l2 S2 N2 P2. cbn in S2, N2, P2. rewrite with_links_twice.
  pose proof (same_hash_trans _ _ _ S1 S2) as Sh.
  apply wp_bind, wp_gets, wp_bind, wp_read_links; [unfold with_links; upd; by rewrite (sh_length _ _ Sh)|]. intros b2 Hb2n _.
  change (free_list (with_links s l2 _)) with (free_list s). change (bhs (with_links s l2 _)) with l2 in Hb2n.
  rewrite Hhd.
  assert (forall i, nfree l2 i = if decide (i = p) then Some n else nfree (bhs s) i) as N.
  { intros i. rewrite N2. case_decide; [done|]. apply N1. }
  assert (forall i, pfree l2 i = if decide (i = n) then Some p else pfree (bhs s) i) as P.
  { intros i. by rewrite P2, P1. }
  assert (b_next_free b2 = Some n) as Hb2n' by (rewrite Hb2n, N; by case_decide).
  pose proof (ring_remove _ _ _ _ _ _ _ Hnd Hr Hp Hn N P) as Hring.
  destruct a as [|f a].
  - rewrite bool_decide_eq_true_2 by done. apply wp_modify. exists l2, (b_next_free b2).
    split; [done|]. split; [done|]. rewrite Hb2n'. cbn [app] in *. destruct c as [|g c].
    + inversion_clear Hr as [|???? [H1 H2] _]. rewrite Hn in H1. rewrite Hp in H2.
      injection H1 as ->. injection H2 as ->. cbn. rewrite N, P. by rewrite !decide_True.
    + destruct Hring as [H1 H2]; [done|]. specialize (H2 eq_refl). cbn in H2. injection H2 as ->. done.
  - rewrite bool_decide_eq_false_2.
    + exists l2, (head ((f :: a) ++ bh :: c)). split; [by rewrite <- Hhd|]. split; [done|]. split; [by apply Hring|done].
    + intros [= ->]. apply NoDup_cons in Hnd as [Hnd _]. set_solver.
Qed.

Lemma insert_in_free_spec (s : kernel) bh r :
  ring_without (bhs s) (free_list s) bh r -> NoDup (r ++ [bh]) ->
  (forall i, i ∈ r ++ [bh] -> 0 <= i < lenz (bhs s)) ->
  wp (insert_in_free bh) (fun _ s' => exists l, s' = with_links s l (free_list s) /\
    same_hash (bhs s) l /\ free_ring l (free_list s) (r ++ [bh])) s.
Proof.
  intros Hr Hnd Hrange. assert (0 <= bh < lenz (bhs s)) as Hbh by (apply Hrange; set_solver).
  assert (exists first z, free_list s = Some first /\ pfree (bhs s) first = Some z /\
    first = hd bh r /\ z ∈ r ++ [bh]) as (first & z & Hfl & Hz & Hfirst & Hzin).
  { destruct r as [|g r]; [destruct Hr as (_ & ? & ?); exists bh, bh; set_solver|].
    destruct Hr as [Hr Hfl]. destruct (ring_neighbours _ _ _ g Hr ltac:(set_solver)) as (p & n & Hp & _ & Hpin & _).
    exists g, p. set_solver. }
  assert (first ∈ r ++ [bh]) as Hfin by (rewrite Hfirst; destruct r; set_solver).
  unfold insert_in_free. apply wp_bind, wp_gets. rewrite Hfl. apply wp_bind, (wp_valid _ _ _ first eq_refl).
  apply wp_bind, wp_set_nfree; [done|]. intros l1 S1 N1 P1.
  apply wp_bind, wp_read_links; [unfold with_links; upd; rewrite (sh_length _ _ S1); by apply Hrange|]. intros f1 _ Hf1.
  change (bhs (with_links s l1 _)) with l1 in Hf1. rewrite Hf1, P1, Hz.
  apply wp_bind, wp_set_pfree; [unfold with_links; upd; by rewrite (sh_length _ _ S1)|]. intros l2 S2 P2 N2.
  rewrite with_links_twice. cbn in S2, N2, P2. pose proof (same_hash_trans _ _ _ S1 S2) as S12.
  apply wp_bind, wp_read_links; [unfold with_links; upd; rewrite (sh_length _ _ S12); by apply Hrange|]. intros f2 _ Hf2.
  change (bhs (with_links s l2 _)) with l2 in Hf2.
  assert (pfree l2 first = Some z) as Hz2.
  { rewrite P2. case_decide; [done|]. by rewrite P1. }
  rewrite Hf2, Hz2. apply wp_bind, (wp_valid _ _ _ z eq_refl).
  apply wp_bind, wp_set_nfree; [unfold with_links; upd; rewrite (sh_length _ _ S12); by apply Hrange|]. intros l3 S3 N3 P3.
  rewrite with_links_twice. cbn in S3, N3, P3. pose proof (same_hash_trans _ _ _ S12 S3) as S13.
  apply wp_set_pfree; [unfold with_links; upd; rewrite (sh_length _ _ S13); by apply Hrange|]. intros l4 S4 P4 N4.
  rewrite with_links_twice. cbn in S4, N4, P4. pose proof (same_hash_trans _ _ _ S13 S4) as S14.
  exists l4. split; [by rewrite <- Hfl|]. split; [done|]. split; [|rewrite Hfirst; by destruct r|done|].
  2: { intros i Hi. rewrite (sh_length _ _ S14). by apply Hrange. }
  assert (forall i, nfree l4 i = if decide (i = z) then Some bh else if decide (i = bh) then Some first
                                 else nfree (bhs s) i) as N.
  { intros i. rewrite N4, N3. case_decide; [done|]. by rewrite N2, N1. }
  assert (forall i, pfree l4 i = if decide (i = first) then Some bh else if decide (i = bh) then Some z
                                 else pfree (bhs s) i) as P.
  { intros i. rewrite P4. case_decide; [done|]. rewrite P3, P2. case_decide; [done|]. by rewrite P1. }
  destruct r as [|g r].
  - cbn in Hfirst. subst first. destruct Hr as (_ & Hp & _). rewrite Hp in Hz. injection Hz as <-.
    cbn. constructor; [|constructor]. split; [rewrite N|rewrite P]; by rewrite decide_True.
  - cbn in Hfirst. subst g. destruct Hr as [Hr _]. apply NoDup_app in Hnd as (Hnd & Hd & _).
    assert (bh ∉ first :: r) as Hbn by (intros ?; apply (Hd bh); set_solver).
    assert (first <> bh) as Hfb by set_solver.
    assert (z ∈ first :: r) as Hz'.
    { destruct (ring_neighbours _ _ _ first Hr ltac:(set_solver)) as (p & n & Hp & _ & Hpin & _).
      rewrite Hz in Hp. by injection Hp as ->. }
    assert (z <> bh) as Hzb by set_solver.
    apply (ring_link (nfree (bhs s)) (pfree (bhs s)) _ _ first r bh z); try done.
    all: try (rewrite ?N, ?P; repeat case_decide; congruence).
    all: intros i H1 H2; rewrite ?N, ?P; by rewrite !decide_False.
Qed.
