(* ===== verification/BufferHash.v ===== *)
(** * The hash chains of the buffer cache

    Every buffer with a device is on the chain of its hash value and on no
    other; taking a buffer off its chain and putting it on another one. *)

From Stdlib Require Import ZArith Lia.
From stdpp Require Import base numbers list gmap strings.
From S2P Require Import Prelude Memory Task Kernel Blk Buffer BufferRing.

Definition hnext (l : list buffer_head) (i : Z) : option Z := getz l i ≫= b_next.
Definition hprev (l : list buffer_head) (i : Z) : option Z := getz l i ≫= b_prev.
Definition devblk (l : list buffer_head) (i : Z) : option (Z * Z) :=
  (fun b => (b_dev b, b_blocknr b)) <$> getz l i.
Definition hash_of (d : Z * Z) : Z := _hashfn d.1 d.2.

Lemma hashfn_range dev block : 0 <= _hashfn dev block < NR_HASH.
Proof. unfold _hashfn, NR_HASH. apply Z.mod_pos_bound. lia. Qed.

(** ** Doubly linked chains *)

Section chains.
Implicit Types (nx pv : Z -> option Z) (idx : list Z).

Fixpoint dchain nx pv (prev link : option Z) idx : Prop :=
  match idx with
  | [] => link = None
  | i :: idx => link = Some i /\ pv i = prev /\ dchain nx pv (Some i) (nx i) idx
  end.

Lemma dchain_ext nx pv nx' pv' prev link idx :
  (forall i, i ∈ idx -> nx' i = nx i /\ pv' i = pv i) ->
  dchain nx pv prev link idx -> dchain nx' pv' prev link idx.
Proof.
  revert prev link. induction idx as [|i idx IH]; intros prev link Heq; [done|].
  intros (-> & Hp & Hc). destruct (Heq i) as [E1 E2]; [by left|]. split; [done|].
  split; [by rewrite E2|]. rewrite E1. apply IH; [|done]. intros j Hj. apply Heq. by right.
Qed.

Lemma dchain_prev nx pv prev link l1 x l2 :
  dchain nx pv prev link (l1 ++ x :: l2) ->
  match l1 with [] => link = Some x /\ pv x = prev | _ => exists y, y ∈ l1 /\ pv x = Some y end.
Proof.
  revert prev link. induction l1 as [|i l1 IH]; intros prev link; [by intros (-> & -> & _)|].
  intros (_ & _ & Hc). specialize (IH _ _ Hc). destruct l1 as [|j l1].
  - exists i. split; [by left|]. by destruct IH.
  - destruct IH as (y & Hy & Hp). exists y. split; [by right|done].
Qed.

Lemma dchain_next nx pv prev link l1 x l2 :
  dchain nx pv prev link (l1 ++ x :: l2) -> nx x = head l2.
Proof.
  revert prev link. induction l1 as [|i l1 IH]; intros prev link (_ & _ & Hc); [|eauto].
  destruct l2; [done|]. by destruct Hc.
Qed.

(** Unlinking [x]. *)
Lemma dchain_remove nx pv nx' pv' prev link l1 x l2 :
  dchain nx pv prev link (l1 ++ x :: l2) -> NoDup (l1 ++ x :: l2) ->
  (forall i, prev = Some i -> i ∉ l1 ++ x :: l2) ->
  (forall i, i ∈ l1 ++ l2 -> nx' i = if decide (pv x = Some i) then nx x else nx i) ->
  (forall i, i ∈ l1 ++ l2 -> pv' i = if decide (nx x = Some i) then pv x else pv i) ->
  dchain nx' pv' prev (if decide (link = Some x) then nx x else link) (l1 ++ l2).
Proof.
  revert prev link. induction l1 as [|i l1 IH]; intros prev link Hc Hnd Hprev Hnx Hpv; cbn [app] in *.
  - destruct Hc as (-> & Hp & Hc). rewrite decide_True by done.
    apply NoDup_cons in Hnd as [Hx Hnd]. destruct l2 as [|y l3]; [done|].
    destruct Hc as (Hy & Hpy & Hc). apply NoDup_cons in Hnd as [Hy3 Hnd]. split; [done|].
    split; [rewrite Hpv by set_solver; rewrite decide_True by done; done|].
    rewrite Hnx by set_solver. rewrite decide_False.
    2: { rewrite Hp. intros E. apply (Hprev y E). set_solver. }
    apply (dchain_ext nx pv); [|done]. intros j Hj. rewrite Hnx, Hpv by set_solver. split.
    + rewrite decide_False; [done|]. rewrite Hp. intros E. apply (Hprev j E). set_solver.
    + rewrite decide_False; [done|]. rewrite Hy. intros [= ->]. done.
  - destruct Hc as (-> & Hp & Hc). apply NoDup_cons in Hnd as [Hi Hnd].
    rewrite decide_False by (intros [= ->]; set_solver). split; [done|].
    pose proof (dchain_next _ _ _ _ _ _ _ Hc) as Hn. pose proof (dchain_prev _ _ _ _ _ _ _ Hc) as Hpx.
    split.
    { rewrite Hpv by set_solver. rewrite decide_False; [done|]. rewrite Hn. intros E.
      destruct l2; [done|]. injection E as ->. set_solver. }
    replace (nx' i) with (if decide (nx i = Some x) then nx x else nx i).
    { apply IH; [done|done|..].
      - intros k [= <-]. done.
      - intros k Hk. apply Hnx. by right.
      - intros k Hk. apply Hpv. by right. }
    rewrite Hnx by set_solver. destruct l1 as [|j l1].
    + destruct Hpx as [E1 E2]. by rewrite !decide_True.
    + destruct Hpx as (y & Hy & E). destruct Hc as (E1 & _). rewrite E1.
      rewrite decide_False by (intros [= ->]; apply NoDup_cons in Hnd as [Hnd _]; set_solver).
      rewrite decide_False; [done|]. rewrite E. intros [= ->]. set_solver.
Qed.
End chains.

(** ** The invariant of the table *)

(** [ch h] is the chain of slot [h]; the buffer [ex] is off its chain. *)
Record hash_ok (l : list buffer_head) (t : list (option Z)) (ch : Z -> list Z) (ex : option Z) : Prop := {
  ho_length : lenz t = NR_HASH;
  ho_chain : forall h, 0 <= h < NR_HASH ->
    exists first, getz t h = Some first /\ dchain (hnext l) (hprev l) None first (ch h);
  ho_nodup : forall h, NoDup (ch h);
  ho_in : forall h i, i ∈ ch h ->
    ex <> Some i /\ exists d, devblk l i = Some d /\ d.1 <> 0 /\ hash_of d = h;
  ho_complete : forall i d, devblk l i = Some d -> ex <> Some i -> d.1 <> 0 -> i ∈ ch (hash_of d);
  ho_unhashed : forall i d, devblk l i = Some d -> ex <> Some i -> d.1 = 0 ->
    hprev l i = None /\ hnext l i = None;
  ho_unique : forall i j d, devblk l i = Some d -> devblk l j = Some d ->
    ex <> Some i -> ex <> Some j -> d.1 <> 0 -> i = j
}.

(** The links of the free list, unchanged by work on the chains. *)
Record same_free (l l' : list buffer_head) : Prop := {
  sf_length : lenz l' = lenz l;
  sf_nfree : forall i, nfree l' i = nfree l i;
  sf_pfree : forall i, pfree l' i = pfree l i;
  sf_content : forall i, content l' i = content l i
}.
Lemma same_free_refl l : same_free l l.
Proof. done. Qed.
Lemma same_free_trans l1 l2 l3 : same_free l1 l2 -> same_free l2 l3 -> same_free l1 l3.
Proof.
  intros [A1 B1 C1 D1] [A2 B2 C2 D2].
  split; [congruence|intros i; by rewrite B2|intros i; by rewrite C2|intros i; by rewrite D2].
Qed.

Definition with_hash (s : kernel) (l : list buffer_head) (t : list (option Z)) : kernel :=
  s <| bhs := l |> <| hash_table := t |>.
Lemma with_hash_twice s l1 t1 l2 t2 : with_hash (with_hash s l1 t1) l2 t2 = with_hash s l2 t2.
Proof. by destruct s. Qed.
Lemma with_hash_id s : with_hash s (bhs s) (hash_table s) = s.
Proof. by destruct s. Qed.

Lemma wp_set_hnext i v (Q : unit -> kernel -> Prop) s :
  0 <= i < lenz (bhs s) ->
  (forall l, same_free (bhs s) l -> (forall j, hnext l j = if decide (j = i) then v else hnext (bhs s) j) ->
     (forall j, hprev l j = hprev (bhs s) j) -> (forall j, devblk l j = devblk (bhs s) j) ->
     Q tt (with_hash s l (hash_table s))) ->
  wp (set_bh i (fun b => b <| b_next := v |>)) Q s.
Proof.
  intros Hi HQ. destruct (getz_is_Some _ _ Hi) as [b Hb]. apply (wp_set_bh _ _ _ _ b Hb).
  replace (over bhs _ s) with (with_hash s (setz (bhs s) i (b <| b_next := v |>)) (hash_table s))
    by (by destruct s).
  apply HQ; [split; [apply lenz_setz|..]|..]; intros j; unfold nfree, pfree, content, hnext, hprev, devblk;
    rewrite (getz_set _ _ _ _ _ Hb); (case_decide; [subst j; by rewrite ?Hb|done]).
Qed.

Lemma wp_set_hprev i v (Q : unit -> kernel -> Prop) s :
  0 <= i < lenz (bhs s) ->
  (forall l, same_free (bhs s) l -> (forall j, hprev l j = if decide (j = i) then v else hprev (bhs s) j) ->
     (forall j, hnext l j = hnext (bhs s) j) -> (forall j, devblk l j = devblk (bhs s) j) ->
     Q tt (with_hash s l (hash_table s))) ->
  wp (set_bh i (fun b => b <| b_prev := v |>)) Q s.
Proof.
  intros Hi HQ. destruct (getz_is_Some _ _ Hi) as [b Hb]. apply (wp_set_bh _ _ _ _ b Hb).
  replace (over bhs _ s) with (with_hash s (setz (bhs s) i (b <| b_prev := v |>)) (hash_table s))
    by (by destruct s).
  apply HQ; [split; [apply lenz_setz|..]|..]; intros j; unfold nfree, pfree, content, hnext, hprev, devblk;
    rewrite (getz_set _ _ _ _ _ Hb); (case_decide; [subst j; by rewrite ?Hb|done]).
Qed.

Lemma wp_read_hash i (Q : buffer_head -> kernel -> Prop) s d :
  devblk (bhs s) i = Some d ->
  (forall b, b_next b = hnext (bhs s) i -> b_prev b = hprev (bhs s) i -> b_dev b = d.1 -> b_blocknr b = d.2 -> Q b s) ->
  wp (get_bh i) Q s.
Proof.
  unfold devblk. intros Hd HQ. destruct (getz (bhs s) i) as [b|] eqn:Hb; [|done]. injection Hd as <-.
  apply (wp_get_bh _ _ _ b Hb). apply HQ; [unfold hnext|unfold hprev|done|done]; by rewrite Hb.
Qed.

Lemma devblk_range l i d : devblk l i = Some d -> 0 <= i < lenz l.
Proof. unfold devblk. destruct (getz l i) eqn:E; [intros _; exact (getz_Some_lt _ _ _ E)|done]. Qed.

Lemma wp_get_hash dev block (Q : option Z -> kernel -> Prop) s h :
  getz (hash_table s) (_hashfn dev block) = Some h -> Q h s -> wp (get_hash dev block) Q s.
Proof. intros Hh HQ. apply wp_bind, wp_gets. by apply (wp_valid _ _ _ h). Qed.

(** ** Taking a buffer off its chain *)

(** The links after [remove_from_queues] has unlinked [x]. *)
Record unlinked (l l' : list buffer_head) (x : Z) : Prop := {
  un_free : same_free l l';
  un_devblk : forall j, devblk l' j = devblk l j;
  un_next : forall j, hnext l' j = if decide (hprev l x = Some j) then hnext l x else hnext l j;
  un_prev : forall j, hprev l' j = if decide (hnext l x = Some j) then hprev l x else hprev l j
}.

Lemma remove_from_hash_run (s : kernel) bh d first :
  devblk (bhs s) bh = Some d -> getz (hash_table s) (hash_of d) = Some first ->
  (forall i, hnext (bhs s) bh = Some i -> 0 <= i < lenz (bhs s) /\ i <> bh) ->
  (forall i, hprev (bhs s) bh = Some i -> 0 <= i < lenz (bhs s) /\ i <> bh) ->
  wp (remove_from_hash bh) (fun _ s' => exists l, unlinked (bhs s) l bh /\
    s' = with_hash s l (if decide (first = Some bh) then setz (hash_table s) (hash_of d) (hnext (bhs s) bh)
                        else hash_table s)) s.
Proof.
  intros Hd Hfirst Hn Hp. unfold remove_from_hash.
  apply wp_bind, (wp_read_hash _ _ _ d Hd). intros b Hbn Hbp _ _. rewrite Hbn, Hbp. apply wp_bind.
  (* the successor *)
  eapply (wp_mono _ (fun _ s1 => exists l1, s1 = with_hash s l1 (hash_table s) /\ same_free (bhs s) l1 /\
    (forall j, devblk l1 j = devblk (bhs s) j) /\ (forall j, hnext l1 j = hnext (bhs s) j) /\
    (forall j, hprev l1 j = if decide (hnext (bhs s) bh = Some j) then hprev (bhs s) bh else hprev (bhs s) j))).
  { destruct (hnext (bhs s) bh) as [n|] eqn:En; cbn [set_bh_opt].
    - apply wp_set_hprev; [by apply (Hn n)|]. intros l1 F1 P1 N1 D1. exists l1. split_and!; try done.
      intros j. rewrite P1. repeat case_decide; congruence.
    - apply wp_ret. exists (bhs s). rewrite with_hash_id. split_and!; done. }
  intros [] s1 (l1 & -> & F1 & D1 & N1 & P1).
  apply wp_bind, (wp_read_hash _ _ _ d); [change (bhs (with_hash s l1 _)) with l1; by rewrite D1|]. intros b1 Hb1n Hb1p _ _.
  change (bhs (with_hash s l1 _)) with l1 in Hb1n, Hb1p.
  assert (hprev l1 bh = hprev (bhs s) bh) as E1.
  { rewrite P1. case_decide as E; [|done]. by destruct (Hn _ E). }
  rewrite Hb1n, Hb1p, E1, N1. apply wp_bind.
  (* the predecessor *)
  eapply (wp_mono _ (fun _ s2 => exists l2, s2 = with_hash s l2 (hash_table s) /\ unlinked (bhs s) l2 bh)).
  { destruct (hprev (bhs s) bh) as [p|] eqn:Ep; cbn [set_bh_opt].
    - apply wp_set_hnext; [change (bhs (with_hash s l1 _)) with l1; rewrite (sf_length _ _ F1); by apply (Hp p)|].
      intros l2 F2 N2 P2 D2. change (bhs (with_hash s l1 _)) with l1 in F2, N2, P2, D2.
      exists l2. split; [by rewrite with_hash_twice|]. split.
      + by apply (same_free_trans _ l1).
      + intros j. by rewrite D2.
      + intros j. rewrite N2, N1, Ep. repeat case_decide; congruence.
      + intros j. rewrite P2, P1, Ep. done.
    - apply wp_ret. exists l1. split; [done|]. split; [done|done|intros j; rewrite N1, Ep; done|].
      intros j. by rewrite P1, Ep. }
  intros [] s2 (l2 & -> & U). 
  apply wp_bind, (wp_read_hash _ _ _ d); [change (bhs (with_hash s l2 _)) with l2; by rewrite (un_devblk _ _ _ U)|].
  intros b2 Hb2n _ -> ->. change (bhs (with_hash s l2 _)) with l2 in Hb2n.
  apply wp_bind, (wp_get_hash _ _ _ _ first); [exact Hfirst|].
  assert (b_next b2 = hnext (bhs s) bh) as E2.
  { rewrite Hb2n, (un_next _ _ _ U). case_decide as E; [|done]. by destruct (Hp _ E). }
  rewrite E2. apply wp_when.
  - intros ->%bool_decide_eq_true. apply wp_modify. exists l2. split; [done|].
    rewrite decide_True by done. by destruct s.
  - intros Hne%bool_decide_eq_false. exists l2. by rewrite decide_False.
Qed.

(** The place of a hashed buffer on its chain. *)
Lemma hash_place l t ch x d :
  hash_ok l t ch None -> devblk l x = Some d -> d.1 <> 0 ->
  exists l1 l2 first, ch (hash_of d) = l1 ++ x :: l2 /\ getz t (hash_of d) = Some first /\
    dchain (hnext l) (hprev l) None first (l1 ++ x :: l2) /\ NoDup (l1 ++ x :: l2).
Proof.
  intros H Hd Hne. pose proof (ho_complete _ _ _ _ H x d Hd ltac:(done) Hne) as Hin.
  apply list_elem_of_split in Hin as (l1 & l2 & E).
  destruct (ho_chain _ _ _ _ H (hash_of d) (hashfn_range _ _)) as (first & Hf & Hc).
  exists l1, l2, first. rewrite <- E. split; [done|]. split; [done|]. split; [done|apply H].
Qed.

Lemma hash_in_range l t ch ex h i : hash_ok l t ch ex -> i ∈ ch h -> 0 <= i < lenz l.
Proof. intros H Hi. destruct (ho_in _ _ _ _ H h i Hi) as (_ & d & Hd & _). by eapply devblk_range. Qed.

Lemma hash_neighbours l t ch x d :
  hash_ok l t ch None -> devblk l x = Some d ->
  (forall i, hnext l x = Some i -> 0 <= i < lenz l /\ i <> x) /\
  (forall i, hprev l x = Some i -> 0 <= i < lenz l /\ i <> x).
Proof.
  intros H Hd. destruct (decide (d.1 = 0)) as [E|Hne].
  { destruct (ho_unhashed _ _ _ _ H x d Hd ltac:(done) E) as [-> ->]. done. }
  destruct (hash_place _ _ _ _ _ H Hd Hne) as (l1 & l2 & first & Ech & _ & Hc & Hnd).
  apply NoDup_app in Hnd as (_ & Hd1 & Hnd2). apply NoDup_cons in Hnd2 as [Hx2 _]. split.
  - intros i Hi. rewrite (dchain_next _ _ _ _ _ _ _ Hc) in Hi. destruct l2 as [|y l2]; [done|].
    injection Hi as ->. split; [|set_solver]. eapply (hash_in_range _ _ _ _ (hash_of d) _ H). rewrite Ech. set_solver.
  - intros i Hi. pose proof (dchain_prev _ _ _ _ _ _ _ Hc) as Hp. destruct l1 as [|y l1].
    + destruct Hp as [_ Hp]. congruence.
    + destruct Hp as (z & Hz & Hp). rewrite Hi in Hp. injection Hp as ->. split.
      * eapply (hash_in_range _ _ _ _ (hash_of d) _ H). rewrite Ech. set_solver.
      * intros ->. apply (Hd1 x Hz). set_solver.
Qed.

(** A change of the links of other buffers keeps a chain. *)
Lemma dchain_unlinked l l' x first idx :
  unlinked l l' x -> dchain (hnext l) (hprev l) None first idx ->
  (forall i, i ∈ idx -> hprev l x <> Some i /\ hnext l x <> Some i) ->
  dchain (hnext l') (hprev l') None first idx.
Proof.
  intros U Hc Hi. apply (dchain_ext (hnext l) (hprev l)); [|done]. intros i Hin.
  destruct (Hi i Hin). rewrite (un_next _ _ _ U), (un_prev _ _ _ U). by rewrite !decide_False.
Qed.

Lemma hash_ok_unlink l t ch x d first l' :
  hash_ok l t ch None -> devblk l x = Some d -> getz t (hash_of d) = Some first -> unlinked l l' x ->
  exists ch', hash_ok l' (if decide (first = Some x) then setz t (hash_of d) (hnext l x) else t) ch' (Some x).
Proof.
  intros H Hd Hfirst U. destruct (decide (d.1 = 0)) as [E|Hne].
  - destruct (ho_unhashed _ _ _ _ H x d Hd ltac:(done) E) as [Ep En].
    assert (forall h, x ∉ ch h) as Hx.
    { intros h Hin. destruct (ho_in _ _ _ _ H h x Hin) as (_ & d' & Hd' & Hd0 & _). congruence. }
    rewrite decide_False.
    2: { intros ->. destruct (ho_chain _ _ _ _ H (hash_of d) (hashfn_range _ _)) as (f & Hf & Hc).
         rewrite Hfirst in Hf. injection Hf as <-. destruct (ch (hash_of d)) as [|y ys] eqn:Ey; [done|].
         destruct Hc as ([= <-] & _). apply (Hx (hash_of d)). rewrite Ey. by left. }
    exists ch. split; try apply H.
    + intros h Hh. destruct (ho_chain _ _ _ _ H h Hh) as (f & Hf & Hc). exists f. split; [done|].
      apply (dchain_unlinked l l' x); [done|done|]. intros i _. by rewrite Ep, En.
    + intros h i Hi. split; [intros [= ->]; by apply (Hx h)|]. rewrite (un_devblk _ _ _ U).
      apply (ho_in _ _ _ _ H h i Hi).
    + intros i d'. rewrite (un_devblk _ _ _ U). intros Hi _. by apply (ho_complete _ _ _ _ H).
    + intros i d'. rewrite (un_devblk _ _ _ U), (un_next _ _ _ U), (un_prev _ _ _ U), Ep, En.
      intros Hi _. rewrite !decide_False by done. by apply (ho_unhashed _ _ _ _ H).
    + intros i j d'. rewrite !(un_devblk _ _ _ U). intros Hi Hj _ _. by apply (ho_unique _ _ _ _ H).
  - destruct (hash_place _ _ _ _ _ H Hd Hne) as (l1 & l2 & f & Ech & Hf & Hc & Hnd).
    rewrite Hfirst in Hf. injection Hf as <-.
    assert (forall h i, i ∈ ch h -> h = hash_of d \/ (i ∉ l1 ++ x :: l2)) as Hdisj.
    { intros h i Hi. destruct (decide (h = hash_of d)); [by left|right]. intros Hi2. rewrite <- Ech in Hi2.
      destruct (ho_in _ _ _ _ H _ _ Hi) as (_ & d1 & E1 & _ & <-).
      destruct (ho_in _ _ _ _ H _ _ Hi2) as (_ & d2 & E2 & _ & E3). congruence. }
    assert (forall i, hnext l x = Some i -> i ∈ l1 ++ x :: l2) as Hnin.
    { intros i Hi. rewrite (dchain_next _ _ _ _ _ _ _ Hc) in Hi. destruct l2; [done|]. injection Hi as ->. set_solver. }
    assert (forall i, hprev l x = Some i -> i ∈ l1 ++ x :: l2) as Hpin.
    { intros i Hi. pose proof (dchain_prev _ _ _ _ _ _ _ Hc) as Hp. destruct l1 as [|y l1]; [destruct Hp; congruence|].
      destruct Hp as (z & Hz & Hp). rewrite Hi in Hp. injection Hp as ->. set_solver. }
    exists (fun h => if decide (h = hash_of d) then l1 ++ l2 else ch h).
    assert (forall i, i ∈ l1 ++ l2 -> i <> x) as Hxn.
    { apply NoDup_app in Hnd as (_ & Hd1 & Hnd2). apply NoDup_cons in Hnd2 as [Hx2 _].
      intros i Hi ->. apply elem_of_app in Hi as [Hi|Hi]; [apply (Hd1 x Hi); set_solver|done]. }
    split.
    + case_decide; rewrite ?lenz_setz; apply H.
    + intros h Hh. destruct (decide (h = hash_of d)) as [->|Hh2].
      * exists (if decide (first = Some x) then hnext l x else first). split.
        { case_decide; [|done]. apply getz_setz_eq. rewrite (ho_length _ _ _ _ H). apply hashfn_range. }
        apply (dchain_remove (hnext l) (hprev l)); [done|done|done|..]; intros i _; [apply U|apply U].
      * destruct (ho_chain _ _ _ _ H h Hh) as (f & Hf & Hc2). exists f. split.
        { case_decide; [|done]. by rewrite getz_setz_ne. }
        apply (dchain_unlinked l l' x); [done|done|]. intros i Hi.
        destruct (Hdisj h i Hi) as [?|Hn]; [done|]. split; intros E; apply Hn; auto.
    + intros h. case_decide; [|apply H]. apply (sublist_NoDup _ (l1 ++ x :: l2)); try exact Hnd. apply sublist_app; [done|by apply sublist_cons].
    + intros h i Hi. rewrite (un_devblk _ _ _ U). case_decide as Eh.
      * split; [intros [= <-]; by apply (Hxn x)|]. subst h. apply (ho_in _ _ _ _ H (hash_of d) i). rewrite Ech. set_solver.
      * split; [intros [= <-]; destruct (Hdisj h x Hi) as [?|Hn]; [done|apply Hn; set_solver]|].
        apply (ho_in _ _ _ _ H h i Hi).
    + intros i d'. rewrite (un_devblk _ _ _ U). intros Hi Hex Hd'. 
      pose proof (ho_complete _ _ _ _ H i d' Hi ltac:(done) Hd') as Hin. case_decide as Eh; [|done].
      rewrite Eh, Ech in Hin. assert (i <> x) by congruence. set_solver.
    + intros i d'. rewrite (un_devblk _ _ _ U). intros Hi Hex Hd'.
      rewrite (un_next _ _ _ U), (un_prev _ _ _ U).
      assert (i ∉ l1 ++ x :: l2) as Hn.
      { intros Hin. rewrite <- Ech in Hin. destruct (ho_in _ _ _ _ H _ _ Hin) as (_ & d2 & E2 & E3 & _). congruence. }
      rewrite !decide_False by (intros E; apply Hn; auto). by apply (ho_unhashed _ _ _ _ H i d').
    + intros i j d'. rewrite !(un_devblk _ _ _ U). intros Hi Hj _ _. by apply (ho_unique _ _ _ _ H).
Qed.

(** ** Putting a buffer on its chain *)

(** The links after [x] has been put before [h] on a chain. *)
Record linked (l l' : list buffer_head) (x : Z) (h : option Z) : Prop := {
  ln_free : same_free l l';
  ln_devblk : forall j, devblk l' j = devblk l j;
  ln_next : forall j, hnext l' j = if decide (j = x) then h else hnext l j;
  ln_prev : forall j, hprev l' j = if decide (h = Some j) then Some x else
                                   if decide (j = x) then None else hprev l j
}.

Lemma hash_ok_link l t ch x d h l' :
  hash_ok l t ch (Some x) -> devblk l x = Some d -> d.1 <> 0 -> getz t (hash_of d) = Some h ->
  (forall i, devblk l i = Some d -> i = x) -> linked l l' x h ->
  exists ch', hash_ok l' (setz t (hash_of d) (Some x)) ch' None.
Proof.
  intros H Hd Hne Hh Huniq L.
  destruct (ho_chain _ _ _ _ H (hash_of d) (hashfn_range _ _)) as (f & Hf & Hc).
  rewrite Hh in Hf. injection Hf as <-.
  assert (forall k, x ∉ ch k) as Hx.
  { intros k Hin. by destruct (ho_in _ _ _ _ H k x Hin). }
  assert (forall k i, i ∈ ch k -> hprev l' i = if decide (h = Some i) then Some x else hprev l i) as Hp.
  { intros k i Hi. rewrite (ln_prev _ _ _ _ L). case_decide; [done|].
    rewrite decide_False; [done|]. intros ->. by apply (Hx k). }
  assert (forall k i, i ∈ ch k -> hnext l' i = hnext l i) as Hn.
  { intros k i Hi. rewrite (ln_next _ _ _ _ L). rewrite decide_False; [done|]. intros ->. by apply (Hx k). }
  assert (forall i, h = Some i -> i ∈ ch (hash_of d)) as Hhin.
  { intros i ->. destruct (ch (hash_of d)); [done|]. destruct Hc as ([= ->] & _). by left. }
  exists (fun k => if decide (k = hash_of d) then x :: ch (hash_of d) else ch k). split.
  - by rewrite lenz_setz, (ho_length _ _ _ _ H).
  - intros k Hk. destruct (decide (k = hash_of d)) as [->|Hne2].
    + exists (Some x). split; [apply getz_setz_eq; rewrite (ho_length _ _ _ _ H); apply hashfn_range|].
      split; [done|]. split.
      { rewrite (ln_prev _ _ _ _ L). rewrite decide_False by (intros E; by apply (Hx (hash_of d)), Hhin).
        by rewrite decide_True. }
      rewrite (ln_next _ _ _ _ L), decide_True by done.
      destruct (ch (hash_of d)) as [|y ys] eqn:Ech; [done|]. destruct Hc as (Ey & Hpy & Hc).
      split; [done|]. split; [rewrite (Hp (hash_of d)) by (rewrite Ech; by left); by rewrite decide_True|].
      rewrite (Hn (hash_of d)) by (rewrite Ech; by left).
      apply (dchain_ext (hnext l) (hprev l)); [|done]. intros i Hi. split.
      * apply (Hn (hash_of d)). rewrite Ech. by right.
      * rewrite (Hp (hash_of d)) by (rewrite Ech; by right). rewrite decide_False; [done|].
        rewrite Ey. intros [= ->]. pose proof (ho_nodup _ _ _ _ H (hash_of d)) as Hnd.
        rewrite Ech in Hnd. by apply NoDup_cons in Hnd as [? _].
    + destruct (ho_chain _ _ _ _ H k Hk) as (f & Hf & Hc2). exists f.
      split; [by rewrite getz_setz_ne|]. apply (dchain_ext (hnext l) (hprev l)); [|done].
      intros i Hi. split; [by apply (Hn k)|]. rewrite (Hp k) by done. rewrite decide_False; [done|].
      intros E. pose proof (Hhin i E) as Hi2. destruct (ho_in _ _ _ _ H _ _ Hi) as (_ & d1 & E1 & _ & <-).
      destruct (ho_in _ _ _ _ H _ _ Hi2) as (_ & d2 & E2 & _ & E3). congruence.
  - intros k. case_decide; [|apply H]. apply NoDup_cons. split; [apply Hx|apply H].
  - intros k i Hi. split; [done|]. rewrite (ln_devblk _ _ _ _ L). case_decide as Ek.
    + apply elem_of_cons in Hi as [->|Hi]; [by exists d|]. subst k. apply (ho_in _ _ _ _ H _ _ Hi).
    + apply (ho_in _ _ _ _ H _ _ Hi).
  - intros i d'. rewrite (ln_devblk _ _ _ _ L). intros Hi _ Hd'. destruct (decide (i = x)) as [->|Hix].
    + rewrite Hd in Hi. injection Hi as <-. rewrite decide_True by done. by left.
    + pose proof (ho_complete _ _ _ _ H i d' Hi ltac:(congruence) Hd') as Hin.
      case_decide as E; [|done]. right. by rewrite <- E.
  - intros i d'. rewrite (ln_devblk _ _ _ _ L). intros Hi _ Hd'. destruct (decide (i = x)) as [->|Hix].
    { rewrite Hd in Hi. injection Hi as <-. done. }
    destruct (ho_unhashed _ _ _ _ H i d' Hi ltac:(congruence) Hd') as [H1 H2].
    rewrite (ln_next _ _ _ _ L), (ln_prev _ _ _ _ L). rewrite !(decide_False (P := i = x)) by done.
    split; [|done]. rewrite decide_False; [done|]. intros E. pose proof (Hhin i E) as Hin.
    destruct (ho_in _ _ _ _ H _ _ Hin) as (_ & d2 & E2 & E3 & _). congruence.
  - intros i j d'. rewrite !(ln_devblk _ _ _ _ L). intros Hi Hj _ _ Hd'.
    destruct (decide (i = x)) as [->|Hix].
    { rewrite Hd in Hi. injection Hi as <-. symmetry. by apply Huniq. }
    destruct (decide (j = x)) as [->|Hjx].
    { rewrite Hd in Hj. injection Hj as <-. by apply Huniq. }
    apply (ho_unique _ _ _ _ H i j d'); try done; congruence.
Qed.

Lemma hash_ok_unhashed l t ch x d l' :
  hash_ok l t ch (Some x) -> devblk l x = Some d -> d.1 = 0 -> linked l l' x None ->
  hash_ok l' t ch None.
Proof.
  intros H Hd E L. assert (forall k, x ∉ ch k) as Hx.
  { intros k Hin. by destruct (ho_in _ _ _ _ H k x Hin). }
  split; try apply H.
  - intros k Hk. destruct (ho_chain _ _ _ _ H k Hk) as (f & Hf & Hc). exists f. split; [done|].
    apply (dchain_ext (hnext l) (hprev l)); [|done]. intros i Hi.
    assert (i <> x) by (intros ->; by apply (Hx k)).
    rewrite (ln_next _ _ _ _ L), (ln_prev _ _ _ _ L). by rewrite !decide_False.
  - intros k i Hi. split; [done|]. rewrite (ln_devblk _ _ _ _ L). apply (ho_in _ _ _ _ H _ _ Hi).
  - intros i d'. rewrite (ln_devblk _ _ _ _ L). intros Hi _ Hd'. apply (ho_complete _ _ _ _ H); [done| |done].
    intros [= <-]. congruence.
  - intros i d'. rewrite (ln_devblk _ _ _ _ L), (ln_next _ _ _ _ L), (ln_prev _ _ _ _ L). intros Hi _ Hd'.
    destruct (decide (i = x)) as [->|Hix]; [done|]. rewrite decide_False by done.
    apply (ho_unhashed _ _ _ _ H i d'); [done| |done]. congruence.
  - intros i j d'. rewrite !(ln_devblk _ _ _ _ L). intros Hi Hj _ _ Hd'.
    apply (ho_unique _ _ _ _ H i j d'); try done; intros [= <-]; congruence.
Qed.

Lemma insert_in_hash_spec `{Env} (s : kernel) ch x d :
  hash_ok (bhs s) (hash_table s) ch (Some x) -> devblk (bhs s) x = Some d ->
  (d.1 <> 0 -> forall i, devblk (bhs s) i = Some d -> i = x) ->
  wp (insert_in_hash x) (fun _ s' => exists l t m ch', s' = (with_hash s l t) <| memory := m |> /\
    same_free (bhs s) l /\ (forall j, devblk l j = devblk (bhs s) j) /\ hash_ok l t ch' None) s.
Proof.
  intros Hok Hd Huniq. pose proof (devblk_range _ _ _ Hd) as Hx.
  unfold insert_in_hash. apply wp_bind, wp_set_hprev; [done|]. intros l1 F1 P1 N1 D1.
  apply wp_bind, wp_set_hnext; change (bhs (with_hash s l1 _)) with l1; [by rewrite (sf_length _ _ F1)|].
  intros l2 F2 N2 P2 D2. rewrite with_hash_twice. pose proof (same_free_trans _ _ _ F1 F2) as F12.
  apply wp_bind, (wp_read_hash _ _ _ d); change (bhs (with_hash s l2 _)) with l2.
  { by rewrite D2, D1. }
  intros b _ _ -> ->. destruct (istrue (d.1)) eqn:Hdev; unfold istrue in Hdev; cbn [negb] in *.
  - apply negb_true_iff, Z.eqb_neq in Hdev.
    destruct (ho_chain _ _ _ _ Hok (hash_of d) (hashfn_range _ _)) as (h & Hh & Hc).
    apply wp_bind, (wp_get_hash _ _ _ _ h); [exact Hh|].
    apply wp_bind, wp_set_hnext; change (bhs (with_hash s l2 _)) with l2; [by rewrite (sf_length _ _ F12)|].
    intros l3 F3 N3 P3 D3. rewrite with_hash_twice. pose proof (same_free_trans _ _ _ F12 F3) as F13.
    apply wp_bind, wp_modify.
    set (t := setz (hash_table s) (hash_of d) (Some x)).
    replace (over hash_table _ (with_hash s l3 _)) with (with_hash s l3 t) by (by destruct s).
    assert (forall i, h = Some i -> 0 <= i < lenz (bhs s) /\ i <> x) as Hhr.
    { intros i ->. destruct (ch (hash_of d)) as [|y ys] eqn:Ech; [done|]. destruct Hc as ([= <-] & _).
      assert (i ∈ ch (hash_of d)) as Hi by (rewrite Ech; by left).
      split; [by eapply hash_in_range|]. intros ->. by destruct (ho_in _ _ _ _ Hok _ _ Hi). }
    destruct h as [n|].
    + destruct (Hhr n eq_refl) as [Hn Hnx].
      apply wp_set_hprev; change (bhs (with_hash s l3 t)) with l3; [by rewrite (sf_length _ _ F13)|].
      intros l4 F4 P4 N4 D4. rewrite with_hash_twice. pose proof (same_free_trans _ _ _ F13 F4) as F14.
      assert (linked (bhs s) l4 x (Some n)) as L.
      { split; [done|intros j; by rewrite D4, D3, D2, D1|..]; intros j.
        - rewrite N4, N3. case_decide; [done|]. rewrite N2, decide_False by done. by rewrite N1.
        - rewrite P4. repeat case_decide; try congruence.
          + subst j. rewrite P3, P2, P1. by rewrite decide_True.
          + rewrite P3, P2, P1. by rewrite decide_False. }
      destruct (hash_ok_link _ _ _ _ _ _ _ Hok Hd Hdev Hh (Huniq Hdev) L) as [ch' Hok'].
      exists l4, t, (memory s), ch'. split; [by destruct s|]. split; [done|]. split; [apply L|done].
    + assert (linked (bhs s) l3 x None) as L.
      { split; [done|intros j; by rewrite D3, D2, D1|..]; intros j.
        - rewrite N3. case_decide; [done|]. rewrite N2, decide_False by done. by rewrite N1.
        - rewrite P3, P2, P1. case_decide; [done|]. by case_decide. }
      destruct (hash_ok_link _ _ _ _ _ _ _ Hok Hd Hdev Hh (Huniq Hdev) L) as [ch' Hok'].
      unfold on_memory. apply wp_zoom. unfold store. apply wp_modify.
      eexists l3, t, _, ch'. split; [reflexivity|]. split; [done|]. split; [apply L|done].
  - apply negb_false_iff, Z.eqb_eq in Hdev. apply wp_ret.
    assert (linked (bhs s) l2 x None) as L.
    { split; [done|intros j; by rewrite D2, D1|..]; intros j.
      - rewrite N2. case_decide; [done|]. by rewrite N1.
      - rewrite P2, P1. by case_decide. }
    exists l2, (hash_table s), (memory s), ch. split; [by destruct s|]. split; [done|]. split; [apply L|].
    by eapply hash_ok_unhashed.
Qed.
