(* ===== verification/BufferInv.v ===== *)
(** * The buffer cache holds every block at most once

    The invariant of the hash chains and of the free list, and that every
    routine of the cache keeps it, whatever runs while it sleeps, as long as
    that keeps it too. *)

From Stdlib Require Import ZArith Lia.
From stdpp Require Import base numbers list gmap strings.
From S2P Require Import Prelude Memory Task Kernel Blk Buffer BufferRing BufferHash.

(** ** The invariant *)

(** The hash chains are in order, all buffers are on the free list, and the
    devices of inodes have the width of their type. *)
Definition short_devs (l : list m_inode) : Prop := Forall (fun n => is_u16 (i_dev n)) l.

Definition cache_inv (s : kernel) : Prop :=
  (exists ch r, hash_ok (bhs s) (hash_table s) ch None /\ free_ring (bhs s) (free_list s) r /\
     forall i, 0 <= i < lenz (bhs s) -> i ∈ r) /\ short_devs (inode_table s).

Lemma hash_ok_ext l l' t ch ex :
  (forall i, hnext l' i = hnext l i) -> (forall i, hprev l' i = hprev l i) ->
  (forall i, devblk l' i = devblk l i) -> hash_ok l t ch ex -> hash_ok l' t ch ex.
Proof.
  intros N P D H. split; try apply H.
  - intros h Hh. destruct (ho_chain _ _ _ _ H h Hh) as (f & Hf & Hc). exists f. split; [done|].
    by apply (dchain_ext (hnext l) (hprev l)).
  - intros h i Hi. rewrite D. by apply (ho_in _ _ _ _ H).
  - intros i d. rewrite D. apply (ho_complete _ _ _ _ H).
  - intros i d. rewrite D, N, P. apply (ho_unhashed _ _ _ _ H).
  - intros i j d. rewrite !D. apply (ho_unique _ _ _ _ H).
Qed.

Lemma ring_ok_ext nf pf nf' pf' r :
  (forall i, nf' i = nf i) -> (forall i, pf' i = pf i) -> ring_ok nf pf r -> ring_ok nf' pf' r.
Proof. intros N P. destruct r as [|x r]; [done|]. intros H. by apply (edges_mono nf pf). Qed.

Lemma free_ring_ext l l' fl r :
  lenz l' = lenz l -> (forall i, nfree l' i = nfree l i) -> (forall i, pfree l' i = pfree l i) ->
  free_ring l fl r -> free_ring l' fl r.
Proof.
  intros L N P [H1 H2 H3 H4]. split; [by apply (ring_ok_ext (nfree l) (pfree l))|done|done|].
  intros i Hi. rewrite L. by apply H4.
Qed.

(** The links of a buffer, all the invariant looks at. *)
Definition links_of (b : buffer_head) :=
  (b_dev b, b_blocknr b, b_prev b, b_next b, b_prev_free b, b_next_free b).

Definition same_links (l l' : list buffer_head) : Prop :=
  lenz l' = lenz l /\ forall i, links_of <$> getz l' i = links_of <$> getz l i.

Lemma same_links_views l l' :
  same_links l l' -> (forall i, hnext l' i = hnext l i) /\ (forall i, hprev l' i = hprev l i) /\
  (forall i, devblk l' i = devblk l i) /\ (forall i, nfree l' i = nfree l i) /\
  (forall i, pfree l' i = pfree l i).
Proof.
  intros [_ H]. split_and!; intros i; specialize (H i); unfold hnext, hprev, devblk, nfree, pfree;
    destruct (getz l' i), (getz l i); try discriminate H; try done; injection H; intros; cbn; congruence.
Qed.

Lemma cache_inv_ext (s s' : kernel) :
  same_links (bhs s) (bhs s') -> hash_table s' = hash_table s -> free_list s' = free_list s ->
  short_devs (inode_table s') -> cache_inv s -> cache_inv s'.
Proof.
  intros Hl Ht Hf Hi [(ch & r & H1 & H2 & H3) _]. split; [|done]. destruct (same_links_views _ _ Hl) as (V1 & V2 & V3 & V4 & V5).
  destruct Hl as [Hl _]. exists ch, r. rewrite Ht, Hf, Hl. split; [by apply (hash_ok_ext (bhs s))|].
  split; [by apply (free_ring_ext (bhs s))|done].
Qed.

Lemma same_links_set l i b b' :
  getz l i = Some b -> links_of b' = links_of b -> same_links l (setz l i b').
Proof.
  intros Hb E. split; [apply lenz_setz|]. intros j. rewrite (getz_set _ _ _ _ _ Hb).
  case_decide; [|done]. subst j. rewrite Hb. cbn. by rewrite E.
Qed.

(** ** Routines that keep the invariant *)

Definition preserves {A} (m : M kernel A) : Prop := forall s, cache_inv s -> wlp m (fun _ s' => cache_inv s') s.

(** What the invariant needs of the drivers and of what runs during a sleep. *)
Class Cooperative (E : Env) : Prop := {
  interfere_inv : forall q n s, cache_inv s -> cache_inv (interfere q n s);
  start_driver_inv : forall major s, cache_inv s -> cache_inv (start_driver major s)
}.

Lemma preserves_ret {A} (a : A) : preserves (ret a).
Proof. by intros s Hs. Qed.
Lemma preserves_blocked {A} : preserves (Prelude.blocked : M kernel A).
Proof. by intros s Hs. Qed.
Lemma preserves_fault {A} : preserves (fault : M kernel A).
Proof. by intros s Hs. Qed.
Lemma preserves_panic {A} msg : preserves (panic msg : M kernel A).
Proof. by intros s Hs. Qed.
Lemma preserves_gets {A} (f : kernel -> A) : preserves (gets f).
Proof. by intros s Hs. Qed.
Lemma preserves_valid {A} (o : option A) : preserves (valid o).
Proof. by intros s Hs; destruct o. Qed.
Lemma preserves_bind {A B} (m : M kernel A) (k : A -> M kernel B) :
  preserves m -> (forall a, preserves (k a)) -> preserves (bind m k).
Proof.
  intros Hm Hk s Hs. apply wlp_bind. eapply wlp_mono; [by apply Hm|]. intros a s' Hs'. by apply Hk.
Qed.
Lemma preserves_when b (m : M kernel unit) : preserves m -> preserves (when b m).
Proof. intros Hm. destruct b; [done|apply preserves_ret]. Qed.
Lemma preserves_for_range lo n (body : Z -> M kernel unit) :
  (forall i, preserves (body i)) -> preserves (for_range lo n body).
Proof.
  intros Hb s Hs. eapply wlp_mono; [apply (wlp_for_range (fun _ s' => cache_inv s')); [done|]|done].
  intros i s' _ Hs'. by apply Hb.
Qed.

(** A change that leaves the cache alone. *)
Lemma preserves_modify (f : kernel -> kernel) :
  (forall s, bhs (f s) = bhs s /\ hash_table (f s) = hash_table s /\ free_list (f s) = free_list s /\
     inode_table (f s) = inode_table s) ->
  preserves (modify f).
Proof.
  intros Hf s Hs. destruct (Hf s) as (H1 & H2 & H3 & H4). apply wlp_modify.
  apply (cache_inv_ext s); [|done|done| |done]; [rewrite H1; by split|]. rewrite H4. apply Hs.
Qed.

Lemma wlp_get {S A} (f : S -> list A) i (Q : A -> S -> Prop) s :
  (forall x, getz (f s) i = Some x -> Q x s) -> wlp (let! l := gets f in valid (getz l i)) Q s.
Proof. intros H. apply wlp_bind, wlp_gets. by apply wlp_valid. Qed.

Lemma preserves_set_bh i f : (forall b, links_of (f b) = links_of b) -> preserves (set_bh i f).
Proof.
  intros Hf s Hs. apply wlp_bind, wlp_get. intros b Hb. apply wlp_modify.
  apply (cache_inv_ext s); [|done|done|apply Hs|done]. upd. by apply (same_links_set _ _ b).
Qed.
Lemma preserves_set_inode i f : (forall n, is_u16 (i_dev n) -> is_u16 (i_dev (f n))) -> preserves (set_inode i f).
Proof.
  intros Hf s Hs. apply wlp_bind, wlp_get. intros n Hn. apply wlp_modify.
  apply (cache_inv_ext s); [done|done|done| |done]. upd. apply setz_Forall; [apply Hs|].
  apply Hf, (getz_Forall _ _ _ _ (proj2 Hs) Hn).
Qed.
Lemma preserves_get_inode_bind {B} i (k : m_inode -> M kernel B) :
  (forall n, is_u16 (i_dev n) -> preserves (k n)) -> preserves (bind (get_inode i) k).
Proof.
  intros Hk s Hs. apply wlp_bind, wlp_get. intros n Hn. apply Hk; [|done].
  apply (getz_Forall _ _ _ _ (proj2 Hs) Hn).
Qed.
Lemma preserves_set_sb i f : preserves (set_sb i f).
Proof. apply preserves_bind; [apply preserves_bind; [apply preserves_gets|intros; apply preserves_valid]|]. intros. by apply preserves_modify. Qed.
Lemma preserves_set_req i f : preserves (set_req i f).
Proof. apply preserves_bind; [apply preserves_bind; [apply preserves_gets|intros; apply preserves_valid]|]. intros. by apply preserves_modify. Qed.
Lemma preserves_set_dev i f : preserves (set_dev i f).
Proof. apply preserves_bind; [apply preserves_bind; [apply preserves_gets|intros; apply preserves_valid]|]. intros. by apply preserves_modify. Qed.
Lemma preserves_zoom {A} (m : M mm A) : preserves (on_memory m).
Proof.
  intros s Hs. apply wlp_zoom. unfold wlp. destruct (m (memory s)); [|done..].
  apply (cache_inv_ext s); [done|done|done|apply Hs|done].
Qed.

Create HintDb cache discriminated.
#[export] Hint Resolve preserves_ret preserves_blocked preserves_fault preserves_panic preserves_gets
  preserves_valid preserves_set_sb preserves_set_req preserves_set_dev
  preserves_zoom : cache.

(** Takes a routine apart down to the routines in the hint database. *)
Ltac preserve :=
  repeat first
    [ solve [auto with cache nocore]
    | lazymatch goal with |- forall _, _ => intros ? end
    | apply preserves_set_bh; intros; reflexivity
    | apply preserves_set_inode; let H := fresh in intros ? H; exact H
    | apply preserves_get_inode_bind
    | apply preserves_bind
    | apply preserves_when
    | apply preserves_for_range
    | apply preserves_modify; intros; split_and!; reflexivity
    | match goal with
      | |- preserves (match ?x with _ => _ end) => destruct x
      | |- preserves (let _ := _ in _) => cbv zeta
      | |- preserves (let '(_, _) := ?x in _) => destruct x
      end ].

(** ** Looking for a block *)

Lemma nodup_bound (idx : list Z) n :
  NoDup idx -> (forall i, i ∈ idx -> 0 <= i < Z.of_nat n) -> (length idx <= n)%nat.
Proof.
  intros Hnd Hr. rewrite <- (Nat2Z.id n), <- (length_seqZ 0 (Z.of_nat n)).
  apply submseteq_length, NoDup_submseteq; [done|]. intros i Hi. apply elem_of_seqZ. specialize (Hr i Hi). lia.
Qed.

Lemma find_in_chain_spec fuel (s : kernel) prev link idx dev block :
  dchain (hnext (bhs s)) (hprev (bhs s)) prev link idx ->
  (forall i, i ∈ idx -> 0 <= i < lenz (bhs s)) -> (length idx <= fuel)%nat ->
  wp (find_in_chain fuel link dev block) (fun r s' => s' = s /\
    match r with
    | Some i => devblk (bhs s) i = Some (dev, block)
    | None => forall i, i ∈ idx -> devblk (bhs s) i <> Some (dev, block)
    end) s.
Proof.
  revert fuel prev link. induction idx as [|i idx IH]; intros fuel prev link Hc Hr Hf.
  { cbn in Hc. subst link. destruct fuel; cbn [find_in_chain]; apply wp_ret; (split; [done|]); set_solver. }
  destruct Hc as (-> & _ & Hc). destruct fuel as [|fuel]; cbn [find_in_chain]; [simpl in Hf; lia|].
  destruct (getz_is_Some (bhs s) i) as [b Hb]; [apply Hr; by left|].
  apply wp_bind, (wp_get_bh _ _ _ b Hb).
  assert (hnext (bhs s) i = b_next b) as En by (unfold hnext; by rewrite Hb).
  destruct ((b_dev b =? dev) && (b_blocknr b =? block)) eqn:Eq.
  - apply wp_ret. split; [done|]. apply andb_true_iff in Eq as [E1 E2]. breflect.
    unfold devblk. rewrite Hb. cbn. congruence.
  - rewrite En in Hc. eapply wp_mono.
    { apply (IH fuel _ _ Hc); [intros k Hk; apply Hr; by right|simpl in Hf; lia]. }
    intros r s' [-> Hr']. split; [done|].
    destruct r as [k|]; [done|]. intros k Hk. apply elem_of_cons in Hk as [->|Hk]; [|by apply Hr'].
    unfold devblk. rewrite Hb. cbn. intros [= <- <-]. by rewrite !Z.eqb_refl in Eq.
Qed.

(** [find_buffer] always ends, and finds the block when it is in the cache. *)
Lemma find_buffer_spec (s : kernel) dev block :
  cache_inv s -> wp (find_buffer dev block) (fun r s' => s' = s /\
    match r with
    | Some i => devblk (bhs s) i = Some (dev, block)
    | None => dev <> 0 -> forall i, devblk (bhs s) i <> Some (dev, block)
    end) s.
Proof.
  intros [(ch & r & Hok & _) _]. unfold find_buffer.
  destruct (ho_chain _ _ _ _ Hok _ (hashfn_range dev block)) as (f & Hf & Hc).
  apply wp_bind, (wp_get_hash _ _ _ _ f Hf), wp_bind, wp_gets.
  eapply wp_mono; [apply (find_in_chain_spec _ _ _ _ _ dev block Hc)|].
  - intros i Hi. by eapply hash_in_range.
  - apply nodup_bound; [apply Hok|]. intros i Hi. by eapply hash_in_range.
  - intros [i|] s' [-> Hi]; [done|]. split; [done|]. intros Hd i Hdb. apply (Hi i); [|done].
    exact (ho_complete _ _ _ _ Hok i (dev, block) Hdb ltac:(done) Hd).
Qed.

Lemma preserves_find_buffer dev block : preserves (find_buffer dev block).
Proof. intros s Hs. eapply wlp_mono; [exact (wp_wlp _ _ _ (find_buffer_spec s dev block Hs))|]. by intros r s' [-> _]. Qed.

Lemma same_hash_views l l' :
  same_hash l l' -> (forall i, hnext l' i = hnext l i) /\ (forall i, hprev l' i = hprev l i) /\
  (forall i, devblk l' i = devblk l i).
Proof.
  intros [_ H _]. split_and!; intros i; specialize (H i); unfold hview, hnext, hprev, devblk in *;
    destruct (getz l' i), (getz l i); try discriminate H; try done; injection H; intros; cbn; congruence.
Qed.

(** The buffer off the chains may change its block. *)
Lemma hash_ok_ext_except l l' t ch x :
  (forall i, hnext l' i = hnext l i) -> (forall i, hprev l' i = hprev l i) ->
  (forall i, i <> x -> devblk l' i = devblk l i) -> hash_ok l t ch (Some x) -> hash_ok l' t ch (Some x).
Proof.
  intros N P D H. split; try apply H.
  - intros h Hh. destruct (ho_chain _ _ _ _ H h Hh) as (f & Hf & Hc). exists f. split; [done|].
    by apply (dchain_ext (hnext l) (hprev l)).
  - intros h i Hi. destruct (ho_in _ _ _ _ H h i Hi) as [Hex Hd]. split; [done|].
    rewrite D by congruence. done.
  - intros i d Hi Hex. rewrite D in Hi by congruence. by apply (ho_complete _ _ _ _ H).
  - intros i d Hi Hex. rewrite D in Hi by congruence. rewrite N, P. by apply (ho_unhashed _ _ _ _ H).
  - intros i j d Hi Hj H1 H2. rewrite D in Hi, Hj by congruence. by apply (ho_unique _ _ _ _ H).
Qed.

Lemma ring_without_ext l l' fl x r :
  (forall i, nfree l' i = nfree l i) -> (forall i, pfree l' i = pfree l i) ->
  ring_without l fl x r -> ring_without l' fl x r.
Proof.
  intros N P. destruct r as [|g r]; cbn [ring_without]; [by rewrite N, P|]. intros [H ?]. split; [|done].
  by apply (ring_ok_ext (nfree l) (pfree l)).
Qed.

(** ** Taking over a buffer *)

(** The state [take_buffer] leaves: the buffer holds the block, is used once,
    clean and not up to date, and nothing is changed in the other buffers but
    links. *)
Record taken (s s' : kernel) (bh dev block : Z) : Prop := {
  tk_devblk : forall i, devblk (bhs s') i = if decide (i = bh) then Some (dev, block) else devblk (bhs s) i;
  tk_content : forall i, content (bhs s') i =
    if decide (i = bh) then (fun c => let '(d, _, _, _, k) := c in (d, 0, 0, 1, k)) <$> content (bhs s) i
    else content (bhs s) i;
  tk_length : lenz (bhs s') = lenz (bhs s);
  tk_rest : exists l t fl m, s' = s <| bhs := l |> <| hash_table := t |> <| free_list := fl |> <| memory := m |>
}.

(** Only links of buffers, the chains and the free list differ. *)
Record relinked (s s' : kernel) : Prop := {
  rl_devblk : forall i, devblk (bhs s') i = devblk (bhs s) i;
  rl_content : forall i, content (bhs s') i = content (bhs s) i;
  rl_length : lenz (bhs s') = lenz (bhs s);
  rl_rest : exists l t fl m, s' = s <| bhs := l |> <| hash_table := t |> <| free_list := fl |> <| memory := m |>
}.

Lemma rest_trans (s1 s2 s3 : kernel) :
  (exists l t fl m, s2 = s1 <| bhs := l |> <| hash_table := t |> <| free_list := fl |> <| memory := m |>) ->
  (exists l t fl m, s3 = s2 <| bhs := l |> <| hash_table := t |> <| free_list := fl |> <| memory := m |>) ->
  exists l t fl m, s3 = s1 <| bhs := l |> <| hash_table := t |> <| free_list := fl |> <| memory := m |>.
Proof. intros (? & ? & ? & ? & ->) (l & t & fl & m & ->). exists l, t, fl, m. by destruct s1. Qed.

(** The buffer [bh] is in no queue, the others are as the invariant wants them. *)
Record unqueued (s : kernel) (bh : Z) (ch : Z -> list Z) (r : list Z) : Prop := {
  uq_hash : hash_ok (bhs s) (hash_table s) ch (Some bh);
  uq_ring : ring_without (bhs s) (free_list s) bh r;
  uq_nodup : NoDup (r ++ [bh]);
  uq_range : forall i, i ∈ r ++ [bh] <-> 0 <= i < lenz (bhs s);
  uq_devs : short_devs (inode_table s)
}.

Lemma remove_from_queues_spec `{Env} (s : kernel) bh : cache_inv s -> 0 <= bh < lenz (bhs s) ->
  wp (remove_from_queues bh) (fun _ s' => relinked s s' /\ exists ch r, unqueued s' bh ch r) s.
Proof.
  intros [(ch & r & Hok & Hring & Hall) Hdevs] Hbh. destruct (getz_is_Some _ _ Hbh) as [b Hb].
  unfold remove_from_queues. apply wp_bind.
  assert (exists d, devblk (bhs s) bh = Some d) as [d Hd] by (unfold devblk; rewrite Hb; by eexists).
  destruct (ho_chain _ _ _ _ Hok (hash_of d) (hashfn_range _ _)) as (first & Hfirst & _).
  destruct (hash_neighbours _ _ _ _ _ Hok Hd) as [Hn Hp].
  eapply wp_mono; [exact (remove_from_hash_run s bh d first Hd Hfirst Hn Hp)|].
  intros [] s2 (l2 & U & ->). destruct (hash_ok_unlink _ _ _ _ _ _ _ Hok Hd Hfirst U) as [ch2 Hok2].
  set (t2 := if decide (first = Some bh) then _ else _) in *.
  assert (free_ring l2 (free_list s) r) as Hring2.
  { apply (free_ring_ext (bhs s)); [apply (un_free _ _ _ U)..|exact Hring]. }
  destruct (list_elem_of_split _ _ (Hall bh Hbh)) as (ra & rc & ->).
  eapply wp_mono; [exact (remove_from_free_spec (with_hash s l2 t2) ra bh rc Hring2)|].
  intros [] s3 (l3 & fl3 & -> & S3 & R3). change (bhs (with_hash s l2 t2)) with l2 in S3.
  destruct (same_hash_views _ _ S3) as (Vn & Vp & Vd).
  assert (lenz l3 = lenz (bhs s)) as Hlen by (by rewrite (sh_length _ _ S3), (sf_length _ _ (un_free _ _ _ U))).
  split; [split; [| |done|]|exists ch2, (ra ++ rc); split; [|exact R3| | |exact Hdevs]].
  - intros i. change (devblk l3 i = devblk (bhs s) i). by rewrite Vd, (un_devblk _ _ _ U).
  - intros i. change (content l3 i = content (bhs s) i). by rewrite (sh_content _ _ S3), (sf_content _ _ (un_free _ _ _ U)).
  - exists l3, t2, fl3, (memory s). by destruct s.
  - by apply (hash_ok_ext_except l2).
  - pose proof (fr_nodup _ _ _ Hring2) as Hnd. by rewrite <- app_assoc, (Permutation_app_comm rc [bh]).
  - intros i. change (bhs _) with l3. rewrite Hlen. split.
    + intros Hi. apply (fr_range _ _ _ Hring). set_solver.
    + intros Hi. specialize (Hall i Hi). set_solver.
Qed.

Lemma insert_into_queues_spec `{Env} (s : kernel) bh ch r d :
  unqueued s bh ch r -> devblk (bhs s) bh = Some d ->
  (d.1 <> 0 -> forall i, devblk (bhs s) i = Some d -> i = bh) ->
  wp (insert_into_queues bh) (fun _ s' => relinked s s' /\ cache_inv s') s.
Proof.
  intros [Hok Hring Hnd Hrange Hdevs] Hd Huniq. unfold insert_into_queues. apply wp_bind.
  eapply wp_mono; [apply (insert_in_free_spec s bh r Hring Hnd); apply Hrange|].
  intros [] s5 (l5 & -> & S5 & R5). destruct (same_hash_views _ _ S5) as (Vn & Vp & Vd).
  eapply wp_mono; [apply (insert_in_hash_spec _ ch bh d)|].
  { apply (hash_ok_ext_except (bhs s)); [done|done|intros; apply Vd|exact Hok]. }
  { change (devblk l5 bh = Some d). by rewrite Vd. }
  { intros Hd0 i. change (devblk l5 i = Some d -> i = bh). rewrite Vd. by apply Huniq. }
  intros [] s6 (l6 & t6 & m6 & ch6 & -> & F6 & D6 & Hok6). change (bhs (with_links s l5 (free_list s))) with l5 in F6, D6.
  assert (lenz l6 = lenz (bhs s)) as Hlen by (by rewrite (sf_length _ _ F6), (sh_length _ _ S5)).
  split; [split; [| |exact Hlen|]|split; [|exact Hdevs]].
  - intros i. change (devblk l6 i = devblk (bhs s) i). by rewrite D6, Vd.
  - intros i. change (content l6 i = content (bhs s) i). by rewrite (sf_content _ _ F6), (sh_content _ _ S5).
  - exists l6, t6, (free_list s), m6. by destruct s.
  - exists ch6, (r ++ [bh]). split; [exact Hok6|]. split.
    + apply (free_ring_ext l5); [apply F6..|exact R5].
    + intros i Hi. change (bhs _) with l6 in Hi. rewrite Hlen in Hi. by apply Hrange.
Qed.

(** A buffer that is in no queue may get another block. *)
Lemma unqueued_set (s : kernel) bh ch r b b' :
  unqueued s bh ch r -> getz (bhs s) bh = Some b ->
  b_prev b' = b_prev b -> b_next b' = b_next b -> b_prev_free b' = b_prev_free b -> b_next_free b' = b_next_free b ->
  unqueued (s <| bhs := setz (bhs s) bh b' |>) bh ch r.
Proof.
  intros [Hok Hring Hnd Hrange Hdevs] Hb Hp Hn Hpf Hnf. set (l := setz (bhs s) bh b').
  assert (forall i, getz l i = if decide (i = bh) then Some b' else getz (bhs s) i) as Hl
    by (intros i; apply (getz_set _ _ _ _ _ Hb)).
  split; [| |done| |done].
  - apply (hash_ok_ext_except (bhs s)); [| | |done]; intros i; [..|intros Hi]; unfold hnext, hprev, devblk; upd; fold l; rewrite Hl.
    + case_decide as Hi; [subst i; rewrite Hb; exact Hn|done].
    + case_decide as Hi; [subst i; rewrite Hb; exact Hp|done].
    + by rewrite decide_False.
  - apply (ring_without_ext (bhs s)); [..|done]; intros i; unfold nfree, pfree; upd; fold l; rewrite Hl.
    + case_decide as Hi; [subst i; rewrite Hb; exact Hnf|done].
    + case_decide as Hi; [subst i; rewrite Hb; exact Hpf|done].
  - intros i. change (i ∈ r ++ [bh] <-> 0 <= i < lenz l). unfold l. by rewrite lenz_setz.
Qed.

Lemma take_buffer_spec `{Env} (s : kernel) bh dev block :
  cache_inv s -> 0 <= bh < lenz (bhs s) -> is_u16 dev -> is_u32 block ->
  (dev <> 0 -> forall i, devblk (bhs s) i <> Some (dev, block)) ->
  wp (take_buffer bh dev block) (fun _ s' => cache_inv s' /\ taken s s' bh dev block) s.
Proof.
  intros Hinv Hbh Hdev Hblk Huniq. unfold take_buffer. destruct (getz_is_Some _ _ Hbh) as [b Hb].
  (* the flags *)
  apply wp_bind, (wp_set_bh _ _ _ _ b Hb).
  set (b1 := b <| b_count := 1 |> <| b_dirt := 0 |> <| b_uptodate := 0 |>). set (l1 := setz (bhs s) bh b1).
  assert (same_links (bhs s) l1) as SL by (by apply (same_links_set _ _ b)).
  change (over bhs _ s) with (s <| bhs := l1 |>). set (s1 := s <| bhs := l1 |>).
  assert (cache_inv s1) as Hinv1 by (apply (cache_inv_ext s); [done|done|done|apply Hinv|done]).
  destruct (same_links_views _ _ SL) as (_ & _ & V1 & _). destruct SL as [Hlen1 _].
  (* out of the queues, and its new block *)
  apply wp_bind. eapply wp_mono; [apply (remove_from_queues_spec s1 bh Hinv1); change (bhs s1) with l1; by rewrite Hlen1|].
  intros [] s2 ([D2 C2 L2 E2] & ch & r & Q2). change (bhs s1) with l1 in D2, C2, L2. rewrite Hlen1 in L2.
  destruct (getz_is_Some (bhs s2) bh) as [b2 Hb2]; [by rewrite L2|].
  apply wp_bind, (wp_set_bh _ _ _ _ b2 Hb2). rewrite (u16_id dev Hdev), (u32_id block Hblk).
  set (b3 := b2 <| b_dev := dev |> <| b_blocknr := block |>). change (over bhs _ s2) with (s2 <| bhs := setz (bhs s2) bh b3 |>).
  set (s3 := s2 <| bhs := setz (bhs s2) bh b3 |>).
  assert (forall i, getz (bhs s3) i = if decide (i = bh) then Some b3 else getz (bhs s2) i) as G3
    by (intros i; apply (getz_set _ _ _ _ _ Hb2)).
  assert (forall i, devblk (bhs s3) i = if decide (i = bh) then Some (dev, block) else devblk (bhs s) i) as D3.
  { intros i. unfold devblk at 1. rewrite G3. case_decide; [done|]. rewrite <- V1, <- D2. done. }
  assert (forall i, content (bhs s3) i = content l1 i) as C3.
  { intros i. rewrite <- C2. unfold content. rewrite G3. case_decide; [subst i; by rewrite Hb2|done]. }
  (* back into the queues *)
  eapply wp_mono; [apply (insert_into_queues_spec s3 bh ch r (dev, block))|].
  { by apply (unqueued_set _ _ _ _ b2). }
  { rewrite D3. by rewrite decide_True. }
  { intros Hd0 i. rewrite D3. case_decide; [done|]. intros Hi. by apply Huniq in Hi. }
  intros [] s4 ([D4 C4 L4 E4] & Hinv4). split; [exact Hinv4|split].
  - intros i. by rewrite D4, D3.
  - intros i. rewrite C4, C3. unfold l1, content. rewrite (getz_set _ _ _ _ _ Hb). case_decide; [|done]. subst i. by rewrite Hb.
  - rewrite L4. change (lenz (setz (bhs s2) bh b3) = lenz (bhs s)). by rewrite lenz_setz.
  - apply (rest_trans s s3); [|exact E4]. apply (rest_trans s s2).
    + apply (rest_trans s s1); [|exact E2]. exists l1, (hash_table s), (free_list s), (memory s). by destruct s.
    + exists (setz (bhs s2) bh b3), (hash_table s2), (free_list s2), (memory s2). by destruct s2.
Qed.

Section keep.
Context {E : Env} {C : Cooperative E}.

Lemma preserves_sleep_on q : preserves (sleep_on q).
Proof. intros s Hs. apply wlp_modify. by apply interfere_inv. Qed.
Lemma preserves_start_driver major : preserves (modify (start_driver major)).
Proof. intros s Hs. apply wlp_modify. by apply start_driver_inv. Qed.
Lemma preserves_wake_up q : preserves (wake_up q).
Proof. by apply preserves_modify. Qed.
#[local] Hint Resolve preserves_sleep_on preserves_start_driver preserves_wake_up : cache.

Lemma preserves_sleep_while locked q : preserves locked -> preserves (sleep_while locked q).
Proof.
  intros Hl. unfold sleep_while. generalize (Datatypes.S patience). intros fuel.
  induction fuel as [|fuel IH]; cbn [wait_while]; preserve.
Qed.
Lemma preserves_get_bh i : preserves (get_bh i).
Proof. unfold get_bh. preserve. Qed.
Lemma preserves_get_inode i : preserves (get_inode i).
Proof. unfold get_inode. preserve. Qed.
Lemma preserves_get_sb i : preserves (get_sb i).
Proof. unfold get_sb. preserve. Qed.
Lemma preserves_get_req i : preserves (get_req i).
Proof. unfold get_req. preserve. Qed.
Lemma preserves_get_dev i : preserves (get_dev i).
Proof. unfold get_dev. preserve. Qed.
#[local] Hint Resolve preserves_get_bh preserves_get_inode preserves_get_sb preserves_get_req
  preserves_get_dev preserves_sleep_while : cache.

Lemma preserves_buffer_locked i : preserves (buffer_locked i).
Proof. unfold buffer_locked. preserve. Qed.
#[local] Hint Resolve preserves_buffer_locked : cache.
Lemma preserves_wait_on_buffer i : preserves (wait_on_buffer i).
Proof. unfold wait_on_buffer. preserve. Qed.
Lemma preserves_lock_buffer i : preserves (lock_buffer i).
Proof. unfold lock_buffer. preserve. Qed.
Lemma preserves_unlock_buffer i : preserves (unlock_buffer i).
Proof. unfold unlock_buffer. preserve. Qed.
#[local] Hint Resolve preserves_wait_on_buffer preserves_lock_buffer preserves_unlock_buffer : cache.

Lemma preserves_end_request major u : preserves (end_request major u).
Proof. unfold end_request. preserve. Qed.
#[local] Hint Resolve preserves_end_request : cache.

Lemma preserves_ramdisk_request r : preserves (ramdisk_request r).
Proof. unfold ramdisk_request, ramdisk_write, ramdisk_read, load_buffer, store_buffer. preserve. Qed.
Lemma preserves_check_request major : preserves (check_request major).
Proof. unfold check_request. preserve. Qed.
#[local] Hint Resolve preserves_ramdisk_request preserves_check_request : cache.

Lemma preserves_do_ramdisk_request : preserves do_ramdisk_request.
Proof.
  unfold do_ramdisk_request. generalize (Z.to_nat (NR_REQUEST + 1)). intros fuel.
  induction fuel as [|fuel IH]; cbn [ramdisk_loop]; preserve.
Qed.
#[local] Hint Resolve preserves_do_ramdisk_request : cache.

Lemma preserves_call_request_fn major : preserves (call_request_fn major).
Proof. unfold call_request_fn. preserve. Qed.
Lemma preserves_elevator fuel tmp r : preserves (elevator fuel tmp r).
Proof. revert tmp. induction fuel as [|fuel IH]; intros tmp; cbn [elevator]; preserve. Qed.
#[local] Hint Resolve preserves_call_request_fn preserves_elevator : cache.

Lemma preserves_add_request major req : preserves (add_request major req).
Proof. unfold add_request. preserve. Qed.
Lemma preserves_get_request fuel rw ra : preserves (get_request fuel rw ra).
Proof. induction fuel as [|fuel IH]; cbn [get_request]; preserve. Qed.
#[local] Hint Resolve preserves_add_request preserves_get_request : cache.

Lemma preserves_ll_rw_block rw bh : preserves (ll_rw_block rw bh).
Proof. unfold ll_rw_block, make_request. preserve. Qed.
#[local] Hint Resolve preserves_ll_rw_block preserves_find_buffer : cache.

Lemma preserves_brelse buf : preserves (brelse buf).
Proof. unfold brelse. preserve. Qed.
Lemma preserves_wait_on_super i : preserves (wait_on_super i).
Proof. apply preserves_sleep_while. unfold super_locked. preserve. Qed.
Lemma preserves_wait_on_inode i : preserves (wait_on_inode i).
Proof. apply preserves_sleep_while. unfold inode_locked. preserve. Qed.
Lemma preserves_lock_inode i : preserves (lock_inode i).
Proof. apply preserves_bind; [apply preserves_sleep_while; unfold inode_locked|]; preserve. Qed.
Lemma preserves_unlock_inode i : preserves (unlock_inode i).
Proof. unfold unlock_inode. preserve. Qed.
#[local] Hint Resolve preserves_brelse preserves_wait_on_super preserves_wait_on_inode
  preserves_lock_inode preserves_unlock_inode : cache.

Lemma preserves_get_super dev : preserves (get_super dev).
Proof.
  unfold get_super. destruct (dev =? 0); [preserve|]. generalize 0.
  induction (Z.to_nat (NR_SUPER + 1) * Datatypes.S patience)%nat as [|fuel IH]; intros i; cbn [get_super_loop]; preserve.
Qed.
#[local] Hint Resolve preserves_get_super : cache.

Lemma preserves_free_scan fuel first tmp best : preserves (free_scan fuel first tmp best).
Proof. revert tmp best. induction fuel as [|fuel IH]; intros tmp best; cbn [free_scan]; preserve. Qed.
Lemma preserves_clean_buffer fuel sync bh : (forall d, preserves (sync d)) -> preserves (clean_buffer fuel sync bh).
Proof. intros Hs. induction fuel as [|fuel IH]; cbn [clean_buffer]; preserve. Qed.
#[local] Hint Resolve preserves_free_scan preserves_clean_buffer : cache.

Lemma preserves_sync_buffers dev : preserves (sync_buffers dev).
Proof. unfold sync_buffers. preserve. Qed.
#[local] Hint Resolve preserves_sync_buffers : cache.

Lemma preserves_bread_with getblk dev block :
  preserves (getblk dev block) -> preserves (bread_with getblk dev block).
Proof. intros Hg. unfold bread_with. preserve. Qed.
Lemma preserves_write_inode_with bread i :
  (forall d b, is_u16 d -> is_u32 b -> preserves (bread d b)) -> preserves (write_inode_with bread i).
Proof.
  intros Hb. unfold write_inode_with. preserve. apply Hb; [done|]. unfold inode_block. apply u32_range.
Qed.
Lemma preserves_sync_dev_with write_inode dev :
  (forall i, preserves (write_inode i)) -> preserves (sync_dev_with (sync_inodes_with write_inode) dev).
Proof. intros Hw. unfold sync_dev_with, sync_inodes_with. preserve. Qed.

(** ** Getting a block *)

(** The buffer [bh] holds the block, and no other buffer does. *)
Definition holds (s : kernel) (bh dev block : Z) : Prop :=
  devblk (bhs s) bh = Some (dev, block) /\
  (dev <> 0 -> forall i, devblk (bhs s) i = Some (dev, block) -> i = bh).

Lemma holds_inv s bh dev block :
  cache_inv s -> devblk (bhs s) bh = Some (dev, block) -> holds s bh dev block.
Proof.
  intros [(ch & r & Hok & _) _] Hd. split; [done|]. intros Hne i Hi.
  by apply (ho_unique _ _ _ _ Hok i bh (dev, block)).
Qed.

Lemma get_from_hash_table_spec s dev block :
  cache_inv s -> wlp (get_from_hash_table dev block) (fun r s' => cache_inv s' /\
    forall bh, r = Some bh -> devblk (bhs s') bh = Some (dev, block)) s.
Proof.
  unfold get_from_hash_table. generalize (Datatypes.S patience). intros fuel. revert s.
  induction fuel as [|fuel IH]; intros s Hs; cbn [get_from_hash_loop]; [done|].
  apply wlp_bind. eapply wlp_mono; [exact (wp_wlp _ _ _ (find_buffer_spec s dev block Hs))|]. intros r s' [-> Hr].
  destruct r as [bh|]; [|by apply wlp_ret].
  apply wlp_bind. eapply wlp_mono; [apply (preserves_set_bh bh); [reflexivity|exact Hs]|]. intros [] s1 Hs1.
  apply wlp_bind. eapply wlp_mono; [by apply (preserves_wait_on_buffer bh)|]. intros [] s2 Hs2.
  apply wlp_bind, wlp_get. intros b Hb. destruct ((b_dev b =? dev) && (b_blocknr b =? block)) eqn:Eq.
  - apply wlp_ret. split; [done|]. intros i [= <-]. apply andb_true_iff in Eq as [E1 E2]. breflect.
    unfold devblk. rewrite Hb. cbn. congruence.
  - apply wlp_bind. eapply wlp_mono; [apply (preserves_set_bh bh); [reflexivity|exact Hs2]|].
    intros [] s3 Hs3. by apply IH.
Qed.

Lemma getblk_pass_spec sync dev block s :
  (forall d, preserves (sync d)) -> is_u16 dev -> is_u32 block -> cache_inv s ->
  wlp (getblk_pass sync dev block) (fun r s' => cache_inv s' /\
    forall bh, r = Some bh -> devblk (bhs s') bh = Some (dev, block)) s.
Proof.
  intros Hsync Hdev Hblk Hs. unfold getblk_pass.
  apply wlp_bind. eapply wlp_mono; [exact (get_from_hash_table_spec s dev block Hs)|].
  intros [bh|] s1 [Hs1 H1]; [by apply wlp_ret|]. clear H1.
  apply wlp_bind, wlp_gets, wlp_bind, wlp_valid. intros first _. apply wlp_bind, wlp_gets.
  apply wlp_bind. eapply wlp_mono; [by apply preserves_free_scan|]. intros [bh|] s2 Hs2.
  2: { apply wlp_bind. eapply wlp_mono; [by apply preserves_sleep_on|]. intros [] s3 Hs3. by apply wlp_ret. }
  apply wlp_bind. eapply wlp_mono; [by apply (preserves_wait_on_buffer bh)|]. intros [] s3 Hs3.
  apply wlp_bind, wlp_get. intros b _. destruct (istrue (b_count b)); [by apply wlp_ret|].
  apply wlp_bind. eapply wlp_mono; [by apply preserves_clean_buffer|]. intros clean s4 Hs4.
  destruct (negb clean); [by apply wlp_ret|].
  apply wlp_bind. eapply wlp_mono; [exact (wp_wlp _ _ _ (find_buffer_spec s4 dev block Hs4))|]. intros r s' [-> Hr].
  destruct r as [dup|]; [by apply wlp_ret|]. apply wlp_bind.
  destruct (getz (bhs s4) bh) as [b4|] eqn:Hb4.
  - eapply wlp_mono; [apply wp_wlp, (take_buffer_spec s4 bh dev block Hs4);
      [exact (getz_Some_lt _ _ _ Hb4)|done|done|done]|].
    intros [] s5 [Hs5 T]. apply wlp_ret. split; [done|]. intros i [= <-].
    rewrite (tk_devblk _ _ _ _ _ T). by rewrite decide_True.
  - unfold take_buffer. apply wlp_bind, wlp_bind, wlp_get. congruence.
Qed.

Lemma getblk_n_spec n dev block s :
  is_u16 dev -> is_u32 block -> cache_inv s ->
  (forall d b, is_u16 d -> is_u32 b -> preserves (getblk_n (Nat.pred n) d b)) ->
  wlp (getblk_n n dev block) (fun bh s' => cache_inv s' /\ devblk (bhs s') bh = Some (dev, block)) s.
Proof.
  intros Hdev Hblk Hs Hn. destruct n as [|n]; cbn [getblk_n]; [done|]. cbn [Nat.pred] in Hn.
  revert s Hs. induction (Datatypes.S patience) as [|fuel IH]; intros s Hs; cbn [getblk_loop]; [done|].
  apply wlp_bind. eapply wlp_mono; [apply getblk_pass_spec; [|done|done|done]|].
  { intros d. apply preserves_sync_dev_with. intros i. apply preserves_write_inode_with. intros d' b' Hd' Hb'.
    by apply preserves_bread_with, Hn. }
  intros [bh|] s' [Hs' Hr]; [|by apply IH]. apply wlp_ret. split; [done|]. by apply Hr.
Qed.

Lemma preserves_getblk_n n dev block : is_u16 dev -> is_u32 block -> preserves (getblk_n n dev block).
Proof.
  revert dev block. induction n as [|n IH]; intros dev block Hdev Hblk s Hs; [done|].
  eapply wlp_mono; [by apply (getblk_n_spec (Datatypes.S n))|]. by intros bh s' [? _].
Qed.

(** C2: whatever other tasks, interrupts and drivers do while it sleeps, as
    long as they keep the cache in order, [getblk] keeps it in order too, and
    when it returns its buffer holds the block asked for and no other buffer
    of the cache does. *)
Theorem getblk_spec dev block s :
  is_u16 dev -> is_u32 block -> cache_inv s ->
  wlp (getblk dev block) (fun bh s' => cache_inv s' /\ holds s' bh dev block) s.
Proof.
  intros Hdev Hblk Hs. eapply wlp_mono; [apply getblk_n_spec; [done|done|done|]|].
  - intros d b. apply preserves_getblk_n.
  - intros bh s' [Hs' Hd]. split; [done|]. by apply holds_inv.
Qed.
End keep.

(** ** Without sleeping *)

Section run.
Context {E : Env}.

Lemma wait_on_buffer_free s bh b :
  getz (bhs s) bh = Some b -> b_lock b = 0 -> wait_on_buffer bh s = Ok tt s.
Proof.
  intros Hb Hl. apply sleep_while_free. unfold buffer_locked. run (get_bh_ok _ _ _ Hb). by rewrite Hl.
Qed.

Lemma get_from_hash_table_miss s dev block :
  cache_inv s -> dev <> 0 -> (forall i, devblk (bhs s) i <> Some (dev, block)) ->
  get_from_hash_table dev block s = Ok None s.
Proof.
  intros Hs Hdev Hno. unfold get_from_hash_table. cbn [get_from_hash_loop].
  pose proof (find_buffer_spec s dev block Hs) as H. apply wp_ok in H as (r & s' & H & -> & Hr).
  rewrite (bind_ok _ _ _ _ _ H). destruct r as [i|]; [by destruct (Hno i)|done].
Qed.

Lemma get_from_hash_table_hit s dev block bh b :
  cache_inv s -> dev <> 0 -> getz (bhs s) bh = Some b -> b_dev b = dev -> b_blocknr b = block -> b_lock b = 0 ->
  get_from_hash_table dev block s =
    Ok (Some bh) (s <| bhs ::= fun l => setz l bh (b <| b_count ::= fun c => u8 (c + 1) |>) |>).
Proof.
  intros Hs Hdev Hb Ed Eb Hl. assert (devblk (bhs s) bh = Some (dev, block)) as Hd.
  { unfold devblk. rewrite Hb. cbn. congruence. }
  unfold get_from_hash_table. cbn [get_from_hash_loop].
  pose proof (find_buffer_spec s dev block Hs) as H. apply wp_ok in H as (r & s' & H & -> & Hr).
  rewrite (bind_ok _ _ _ _ _ H). destruct r as [i|]; [|by destruct (Hr Hdev bh)].
  assert (i = bh) as ->.
  { destruct Hs as [(ch & r & Hok & _) _]. by apply (ho_unique _ _ _ _ Hok i bh (dev, block)). }
  run (set_bh_ok s bh b (fun b => b <| b_count ::= fun c => u8 (c + 1) |>) Hb).
  set (b' := b <| b_count ::= fun c => u8 (c + 1) |>).
  assert (getz (bhs (s <| bhs ::= fun l => setz l bh b' |>)) bh = Some b') as Hb'.
  { upd. apply getz_setz_eq. exact (getz_Some_lt _ _ _ Hb). }
  rewrite (bind_ok _ _ _ _ _ (wait_on_buffer_free _ _ _ Hb' Hl)). run (get_bh_ok _ _ _ Hb').
  change (b_dev b') with (b_dev b). change (b_blocknr b') with (b_blocknr b).
  by rewrite Ed, Eb, !Z.eqb_refl.
Qed.

(** When nothing has to be waited for, [getblk] returns at once: the
    buffer of the block, used once more, if the block is in the cache;
    otherwise the first buffer of the free list, which now holds the block,
    empty and used once, while no other buffer has lost its block or its
    contents. *)
Theorem getblk_run dev block s :
  cache_inv s -> is_u16 dev -> dev <> 0 -> is_u32 block ->
  (forall bh b, getz (bhs s) bh = Some b -> b_dev b = dev -> b_blocknr b = block -> b_lock b = 0 ->
     getblk dev block s = Ok bh (s <| bhs ::= fun l => setz l bh (b <| b_count ::= fun c => u8 (c + 1) |>) |>)) /\
  (forall bh b, (forall i, devblk (bhs s) i <> Some (dev, block)) -> free_list s = Some bh ->
     getz (bhs s) bh = Some b -> b_count b = 0 -> b_dirt b = 0 -> b_lock b = 0 ->
     exists s', getblk dev block s = Ok bh s' /\ cache_inv s' /\ taken s s' bh dev block).
Proof.
  intros Hs Hdev Hne Hblk. split.
  - intros bh b Hb Ed Eb Hl. unfold getblk. cbn [getblk_n getblk_loop]. unfold getblk_pass.
    pose proof (get_from_hash_table_hit s dev block bh b Hs Hne Hb Ed Eb Hl) as H.
    unfold bind at 1 2. by rewrite H.
  - intros bh b Hno Hfl Hb Hc Hd Hl. unfold getblk. cbn [getblk_n getblk_loop]. unfold getblk_pass.
    rewrite bind_assoc. run (get_from_hash_table_miss s dev block Hs Hne Hno).
    rewrite bind_assoc. run_step. rewrite Hfl. rewrite bind_assoc. cbn [valid]. run_step.
    rewrite bind_assoc. run_step. rewrite bind_assoc.
    assert (forall n, (0 < n)%nat -> free_scan n bh bh None s = Ok (Some bh) s) as Hscan.
    { intros [|n] Hn; [lia|]. cbn [free_scan]. run (get_bh_ok _ _ _ Hb). run_step.
      unfold BADNESS. by rewrite Hc, Hd, Hl. }
    rewrite (bind_ok _ _ _ _ _ (Hscan (length (bhs s)) ltac:(apply getz_Some_lt in Hb; unfold lenz in Hb; lia))).
    rewrite bind_assoc. rewrite (bind_ok _ _ _ _ _ (wait_on_buffer_free _ _ _ Hb Hl)).
    rewrite bind_assoc. run (get_bh_ok _ _ _ Hb). rewrite Hc. cbn [istrue Z.eqb negb].
    rewrite bind_assoc. cbn [clean_buffer].
    assert (forall sync, clean_buffer (Datatypes.S patience) sync bh s = Ok true s) as Hclean.
    { intros sync. cbn [clean_buffer]. run (get_bh_ok _ _ _ Hb). by rewrite Hd. }
    pose proof Hclean as Hclean'. cbn [clean_buffer] in Hclean'. rewrite (bind_ok _ _ _ _ _ (Hclean' _)).
    cbn [negb]. rewrite bind_assoc.
    pose proof (find_buffer_spec s dev block Hs) as H. apply wp_ok in H as (r & s' & H & -> & Hr).
    rewrite (bind_ok _ _ _ _ _ H). destruct r as [i|]; [by destruct (Hno i)|].
    pose proof (take_buffer_spec s bh dev block Hs (getz_Some_lt _ _ _ Hb) Hdev Hblk (fun _ => Hno)) as Ht.
    apply wp_ok in Ht as ([] & s' & Ht & Hs' & T). exists s'. split; [|done].
    rewrite bind_assoc. by rewrite (bind_ok _ _ _ _ _ Ht).
Qed.
End run.
