(* ===== verification/BufferInit.v ===== *)
(** * The buffer cache at start-up

    [buffer_init] sets up the invariant of the cache; the machines of the
    examples are made with it. *)

From Stdlib Require Import ZArith Lia.
From stdpp Require Import base numbers list gmap strings.
From S2P Require Import Prelude Memory Task Kernel Blk Buffer BufferRing BufferHash BufferInv.

(** The entry [k] of the array [buffer_init] fills, before the circle is closed. *)
Definition fresh_bh (k : Z) : buffer_head :=
  Bh (replicate 1024 0) 0 0 0 0 0 0 None None (Some (k - 1)) (Some (k + 1)).

Section init.
Context {E : Env}.

Lemma buffer_init_loop_getz fuel n b i x :
  getz (buffer_init_loop fuel n b) i = Some x -> x = fresh_bh (n + i).
Proof.
  revert n b i. induction fuel as [|fuel IH]; intros n b i; cbn [buffer_init_loop].
  - unfold getz. by destruct (i <? 0).
  - cbv zeta. destruct (b - BLOCK_SIZE <? buffer_heads + 36 * (n + 1)); [unfold getz; by destruct (i <? 0)|].
    intros Hi. pose proof (getz_Some_lt _ _ _ Hi) as Hr. destruct (decide (i = 0)) as [->|Hne].
    + injection Hi as <-. by rewrite Z.add_0_r.
    + replace (n + i) with (n + 1 + (i - 1)) by lia. eapply IH.
      revert Hi. unfold getz. rewrite !(proj2 (Z.ltb_ge _ _)) by lia.
      replace (Z.to_nat i) with (Datatypes.S (Z.to_nat (i - 1))) by lia. cbn. intros Hi. exact Hi.
Qed.

(** Consecutive numbers, linked to each other. *)
Lemma edges_seq nf pf lo n :
  (forall k, lo <= k < lo + Z.of_nat n -> nf k = Some (k + 1) /\ pf (k + 1) = Some k) ->
  Forall2 (edge nf pf) (seqZ lo (Z.of_nat n)) (seqZ (lo + 1) (Z.of_nat n)).
Proof.
  revert lo. induction n as [|n IH]; intros lo H; [by constructor|].
  assert (forall j, seqZ j (Z.of_nat (S n)) = j :: seqZ (j + 1) (Z.of_nat n)) as Es.
  { intros j. rewrite seqZ_cons by lia. f_equal. f_equal; lia. }
  rewrite !Es. constructor; [apply (H lo); lia|]. apply IH. intros k Hk. apply H. lia.
Qed.

Lemma ring_seq nf pf n :
  0 < n -> (forall k, 0 <= k < n - 1 -> nf k = Some (k + 1) /\ pf (k + 1) = Some k) ->
  nf (n - 1) = Some 0 -> pf 0 = Some (n - 1) -> ring_ok nf pf (seqZ 0 n).
Proof.
  intros Hn H Hl Hf.
  assert (seqZ 0 n = seqZ 0 (n - 1) ++ [n - 1]) as E1.
  { replace n with ((n - 1) + 1) at 1 by lia. by rewrite seqZ_app by lia. }
  assert (seqZ 0 n = 0 :: seqZ 1 (n - 1)) as E2.
  { rewrite seqZ_cons by lia. by replace (Z.pred n) with (n - 1) by lia. }
  rewrite E2. cbn [ring_ok]. rewrite <- E2, E1. apply Forall2_app; [|by repeat constructor].
  replace (n - 1) with (Z.of_nat (Z.to_nat (n - 1))) by lia. apply edges_seq. intros k Hk. apply H. lia.
Qed.

(** The state [buffer_init] leaves. *)
Definition fresh_cache (s : kernel) : Prop :=
  cache_inv s /\ 0 < lenz (bhs s) /\ free_list s = Some 0 /\
  forall i b, getz (bhs s) i = Some b -> b_dev b = 0 /\ b_count b = 0 /\ b_dirt b = 0 /\ b_lock b = 0.

Lemma buffer_init_fresh buffer_end s :
  buffer_heads + 36 + 1024 <= (if buffer_end =? 1048576 then 655360 else buffer_end) -> 0 <= buffer_heads ->
  short_devs (inode_table s) -> wp (buffer_init buffer_end) (fun _ => fresh_cache) s.
Proof.
  intros Hb Hbuf Hino. unfold buffer_init. change (Z.shiftl 1 20) with 1048576. change (640 * 1024) with 655360.
  set (b := if buffer_end =? 1048576 then 655360 else buffer_end) in *. cbv zeta.
  set (l := buffer_init_loop _ 0 b).
  assert (0 < lenz l) as Hlen.
  { unfold l. assert (1 <= b / BLOCK_SIZE) as Hq by (apply Z.div_le_lower_bound; unfold BLOCK_SIZE; lia).
    destruct (Z.to_nat (b / BLOCK_SIZE)) as [|k] eqn:Ek; [lia|]. cbn [buffer_init_loop]. cbv zeta.
    rewrite (proj2 (Z.ltb_ge _ _)) by (unfold BLOCK_SIZE; lia). unfold lenz. cbn [length]. lia. }
  assert (forall i x, getz l i = Some x -> x = fresh_bh i) as Hl by (intros i x Hi; by apply buffer_init_loop_getz in Hi).
  assert (forall i, 0 <= i < lenz l -> getz l i = Some (fresh_bh i)) as Hget.
  { intros i Hi. destruct (getz_is_Some l i Hi) as [x Hx]. by rewrite (Hl _ _ Hx) in Hx. }
  apply wp_bind, wp_modify.
  set (m := lenz l - 1).
  set (h1 := (fresh_bh 0) <| b_prev_free := Some m |>). set (l1 := setz l 0 h1).
  apply wp_bind, (wp_set_bh _ _ _ _ (fresh_bh 0)); [by apply Hget|].
  assert (exists hm, getz l1 m = Some hm /\ hm = (if decide (m = 0) then h1 else fresh_bh m)) as (hm & Hhm & Ehm).
  { unfold l1. eexists. split; [|reflexivity]. rewrite (getz_set _ _ _ _ _ (Hget 0 ltac:(lia))).
    case_decide; [done|]. by rewrite Hget by lia. }
  apply wp_bind, (wp_set_bh _ _ _ _ hm); [exact Hhm|]. apply wp_modify.
  set (l2 := setz l1 m (hm <| b_next_free := Some 0 |>)).
  assert (forall i, getz l2 i = if decide (i = m) then Some (hm <| b_next_free := Some 0 |>) else
    if decide (i = 0) then Some h1 else getz l i) as Hl2.
  { intros i. unfold l2. rewrite (getz_set _ _ _ _ _ Hhm). destruct (decide (i = m)); [done|].
    unfold l1. by rewrite (getz_set _ _ _ _ _ (Hget 0 ltac:(lia))). }
  assert (lenz l2 = lenz l) as Hlen2 by (unfold l2, l1; by rewrite !lenz_setz).
  assert (forall i x, getz l2 i = Some x -> b_dev x = 0 /\ b_prev x = None /\ b_next x = None /\
    b_count x = 0 /\ b_dirt x = 0 /\ b_lock x = 0) as Hx.
  { assert (b_dev hm = 0 /\ b_prev hm = None /\ b_next hm = None /\ b_count hm = 0 /\ b_dirt hm = 0 /\ b_lock hm = 0)
      as Hm by (rewrite Ehm; by destruct (decide (m = 0))).
    intros i x. rewrite Hl2. destruct (decide (i = m)); [intros Hi; injection Hi as <-; exact Hm|].
    destruct (decide (i = 0)); [intros Hi; by injection Hi as <-|].
    intros Hi. apply Hl in Hi as ->. done. }
  split; [split; [|exact Hino]|split; [change (0 < lenz l2); by rewrite Hlen2|split; [done|]]].
  2: { intros i x Hi. destruct (Hx i x Hi) as (? & _ & _ & ? & ? & ?). done. }
  exists (fun _ => []), (seqZ 0 (lenz l)). change (bhs _) with l2. split; [|split; [split|]].
  - split.
    + done.
    + intros h Hh. exists None. split; [|done]. apply getz_replicate. exact Hh.
    + intros h. constructor.
    + intros h i Hi. by apply elem_of_nil in Hi.
    + intros i d. unfold devblk. destruct (getz l2 i) as [x|] eqn:Ex; [|done]. intros [= <-] _ Hd.
      destruct (Hx i x Ex) as [Hd0 _]. done.
    + intros i d. unfold devblk, hprev, hnext. destruct (getz l2 i) as [x|] eqn:Ex; [|done]. intros [= <-] _ _.
      destruct (Hx i x Ex) as (_ & H1 & H2 & _). done.
    + intros i j d. unfold devblk. destruct (getz l2 i) as [x|] eqn:Ex; [|done]. intros [= <-] _ _ _ Hd.
      destruct (Hx i x Ex) as [Hd0 _]. done.
  - apply ring_seq; [done|..].
    + intros k Hk. unfold nfree, pfree. rewrite !Hl2. fold m. split.
      * destruct (decide (k = m)); [unfold m in *; lia|].
        destruct (decide (k = 0)) as [->|]; [done|]. by rewrite Hget by lia.
      * destruct (decide (k + 1 = 0)); [lia|]. destruct (decide (k + 1 = m)).
        { rewrite Ehm. destruct (decide (m = 0)); [lia|]. change (Some (m - 1) = Some k). f_equal. lia. }
        rewrite Hget by (unfold m in *; lia). change (Some (k + 1 - 1) = Some k). f_equal. lia.
    + unfold nfree. fold m. rewrite Hl2. by destruct (decide (m = m)).
    + unfold pfree. fold m. rewrite Hl2. destruct (decide (0 = m)) as [Em|]; [|done].
      change (b_prev_free hm = Some m). rewrite Ehm. by destruct (decide (m = 0)).
  - rewrite seqZ_cons by lia. done.
  - apply NoDup_seqZ.
  - intros i Hi. apply elem_of_seqZ in Hi. rewrite Hlen2. lia.
  - intros i Hi. rewrite Hlen2 in Hi. apply elem_of_seqZ. lia.
Qed.

(** C38: [buffer_init] leaves at least one buffer, and a cache in order: empty
    hash chains and every buffer on the free list, unused, unlocked and
    clean. *)
Theorem buffer_init_inv buffer_end s :
  buffer_heads + 36 + 1024 <= (if buffer_end =? 1048576 then 655360 else buffer_end) -> 0 <= buffer_heads ->
  short_devs (inode_table s) ->
  wp (buffer_init buffer_end) (fun _ s' => cache_inv s' /\ 0 < lenz (bhs s') /\ free_list s' = Some 0 /\
    forall i b, getz (bhs s') i = Some b -> b_dev b = 0 /\ b_count b = 0 /\ b_dirt b = 0 /\ b_lock b = 0) s.
Proof. apply buffer_init_fresh. Qed.
End init.
