(* ===== verification/CacheExamples.v ===== *)
(** * Concrete machines for the block devices and the buffer cache *)

From Stdlib Require Import ZArith Lia.
From stdpp Require Import base numbers list gmap strings.
From S2P Require Import Prelude Memory Task Sched WaitQueue TtyData Console Kernel Blk Elevator Buffer.
From S2P Require Import BufferRing BufferHash BufferInv BufferInit.

(** Nothing else runs, and the kernel's image ends at 128K. *)
#[local] Instance quiet : Env := {|
  interfere := fun _ _ s => s;
  start_driver := fun _ s => s;
  inb := fun _ _ => 0;
  buffer_heads := 0x20000;
  patience := 4;
  nesting := 1
|}.

#[local] Instance quiet_cooperative : Cooperative quiet.
Proof. split; done. Qed.

Definition no_inode : m_inode := Inode 0 0 0 0 0 0 (replicate 9 0) 0 0 0 0 0 0 0 0 0 0 0.
Definition no_super : super_block_t :=
  Super 0 0 0 0 0 0 0 0 (replicate 8 None) (replicate 8 None) 0 None None 0 0 0 0.

(** A machine before [buffer_init]: a ram disk and a hard disk, no file system. *)
Definition bare : kernel :=
  Kernel [] [] None (replicate 32 (Request (-1) 0 0 0 0 None None None None))
    [BlkDev no_driver None; BlkDev ramdisk_driver None; BlkDev no_driver None;
     BlkDev interrupt_driver None; BlkDev no_driver None; BlkDev no_driver None; BlkDev no_driver None]
    0x200000 (replicate 4096 7) (replicate 32 no_inode) 0 (replicate 8 no_super) 0x101
    (replicate 64 (File 0 0 0 None 0)) (idle_sched [Some (plain_task 0 15); Some (plain_task 1 15)]) init_tty_table 0 blank_screen
    (MM ∅ [] 0x1000000 0) ∅ [] 0.

(** Four buffers fit in this memory. *)
Definition four_buffers : kernel := final (buffer_init (0x20000 + 4400) bare).

Lemma bare_short : short_devs (inode_table bare).
Proof. apply Forall_replicate. vm_compute. split; [discriminate|reflexivity]. Qed.

Lemma four_buffers_fresh : fresh_cache four_buffers.
Proof.
  assert (wp (buffer_init (0x20000 + 4400)) (fun _ => fresh_cache) bare) as H.
  { apply buffer_init_fresh; [vm_compute; congruence|vm_compute; congruence|exact bare_short]. }
  unfold wp in H. unfold four_buffers.
  destruct (buffer_init (0x20000 + 4400) bare); [exact H|contradiction..].
Qed.

Lemma buffer_init_inv_witness :
  exists s, buffer_init (0x20000 + 4400) bare = Ok tt s /\ cache_inv s /\ free_list s = Some 0.
Proof.
  pose proof (buffer_init_inv (0x20000 + 4400) bare) as H. rewrite wp_ok in H.
  destruct H as ([] & s & E & Hs & _ & Hfl & _); [vm_compute; congruence|vm_compute; congruence|exact bare_short|].
  exists s. split; [exact E|]. split; [exact Hs|exact Hfl].
Defined.

(** Block 5 of the first hard disk goes into a buffer. *)
Lemma getblk_spec_witness :
  exists bh s, getblk 0x301 5 four_buffers = Ok bh s /\ cache_inv s /\ holds s bh 0x301 5.
Proof.
  apply (wlp_returns _ (fun bh s => cache_inv s /\ holds s bh 0x301 5)); [vm_compute; reflexivity|].
  apply (getblk_spec 0x301 5 four_buffers);
    [vm_compute; split; congruence|vm_compute; split; congruence|apply four_buffers_fresh].
Defined.

Lemma getblk_run_witness :
  exists s, getblk 0x301 5 four_buffers = Ok 0 s /\ cache_inv s /\ taken four_buffers s 0 0x301 5.
Proof.
  generalize four_buffers four_buffers_fresh. intros s (Hinv & Hlen & Hfl & Hall).
  destruct (getz_is_Some (bhs s) 0 ltac:(lia)) as [b Hb].
  destruct (Hall 0 b Hb) as (_ & Hc & Hd & Hl).
  destruct (getblk_run 0x301 5 s) as [_ Hrun].
  { exact Hinv. } { vm_compute. split; congruence. } { discriminate. } { vm_compute. split; congruence. }
  apply (Hrun 0 b); [|exact Hfl|exact Hb|exact Hc|exact Hd|exact Hl].
  intros i Hi. unfold devblk in Hi. destruct (getz (bhs s) i) as [x|] eqn:Ex; [|done].
  destruct (Hall i x Ex) as [Hx _]. injection Hi as Hi _. congruence.
Defined.

(** Two writes wait behind a read; another read goes before them. *)
Definition three_requests : kernel :=
  four_buffers
    <| request := Request 0x301 READ 0 10 2 (Some (0, 0)) None (Some 0) (Some 1)
               :: Request 0x301 WRITE 0 4 2 (Some (1, 0)) None (Some 1) (Some 2)
               :: Request 0x301 WRITE 0 40 2 (Some (2, 0)) None (Some 2) None
               :: Request 0x301 READ 0 20 2 (Some (3, 0)) None (Some 3) None
               :: replicate 28 (Request (-1) 0 0 0 0 None None None None) |>
    <| blk_dev ::= fun l => setz l 3 (BlkDev interrupt_driver (Some 0)) |>.

Lemma add_request_elevator_witness :
  exists s idx, add_request 3 3 three_requests = Ok tt s /\ Prelude.chain r_next (request s) (Some 0) idx /\
    two_sweeps (keys (request s) idx).
Proof.
  destruct (getz (bhs three_requests) 3) as [b|] eqn:Hb; [|vm_compute in Hb; discriminate].
  destruct (add_request_elevator three_requests 3 3 0 [1; 2] (BlkDev interrupt_driver (Some 0))
    (Request 0x301 READ 0 20 2 (Some (3, 0)) None (Some 3) None) 3 b) as (l' & idx1 & idx2 & H & Hidx & Hq & _ & Hsw).
  - vm_compute. reflexivity.
  - reflexivity.
  - split; [reflexivity|]. eexists. split; [reflexivity|]. split; [reflexivity|].
    eexists. split; [reflexivity|]. split; [reflexivity|]. eexists. split; reflexivity.
  - apply (bool_decide_unpack _). vm_compute. exact I.
  - vm_compute. reflexivity.
  - vm_compute. reflexivity.
  - apply (bool_decide_unpack _). vm_compute. exact I.
  - reflexivity.
  - exact Hb.
  - apply (bool_decide_unpack _). vm_compute. exact I.
  - eexists _, _. split; [exact H|]. split; [exact Hq|]. apply Hsw.
    exists [(0, 769, 10); (1, 769, 4); (1, 769, 40)], []. split; [vm_compute; reflexivity|].
    split; [|constructor]. repeat constructor; unfold before; cbn; lia.
Defined.

(** The read goes before the two writes. *)
Example read_before_writes :
  map r_next (request (final (add_request 3 3 three_requests))) !! 0%nat = Some (Some 3) /\
  map r_next (request (final (add_request 3 3 three_requests))) !! 3%nat = Some (Some 1).
Proof. vm_compute. split; reflexivity. Qed.
