(* ===== verification/Motor.v ===== *)
(** * Turning the floppy drives on: kernel/blk_drv/floppy.c, kernel/sched.c

    The part of the floppy driver that is not called by interrupts: waiting for
    the motor and the selection of a drive, and asking whether its disk was
    changed. The driver itself is in Floppy. *)

From Stdlib Require Import ZArith Lia.
From stdpp Require Import base numbers list gmap strings.
From S2P Require Import Prelude Memory Task Sched Kernel.

Definition FD_DIR : Z := 0x3f7.

(** [current_DOR & 3]: the drive that is selected. *)
Definition selected_drive : M kernel Z := on_sched (let! dor := gets current_DOR in ret (Z.land dor 3)).

Section motor.
Context {E : Env}.

(** [floppy_on] of sched.c, through all its sleeps. *)
Definition motor_starting (nr : Z) : M kernel bool :=
  let! ticks := on_sched (ticks_to_floppy_on nr) in ret (istrue ticks).
Definition floppy_on (nr : Z) : M kernel unit := sleep_while (motor_starting nr) (drive nr).

Definition floppy_deselect (nr : Z) : M kernel unit :=
  do! on_sched (modify (fun s => s <| selected := 0 |>)) in
  wake_up floppy_select.

Definition other_selected (nr : Z) : M kernel bool :=
  let! d := selected_drive in
  let! sel := on_sched (gets selected) in
  ret (negb (d =? nr) && istrue sel).

(** [repeat:] until the drive is the one that is selected. *)
Fixpoint select_loop (fuel : nat) (nr : Z) : M kernel unit :=
  match fuel with
  | O => Prelude.blocked
  | Datatypes.S fuel =>
    do! floppy_on nr in
    do! sleep_while (other_selected nr) floppy_select in
    let! d := selected_drive in
    if negb (d =? nr) then select_loop fuel nr else ret tt
  end.

Definition floppy_change (nr : Z) : M kernel bool :=
  do! select_loop (Datatypes.S patience) nr in
  let! dir := inb_p FD_DIR in
  do! on_sched (floppy_off nr) in
  ret (istrue (Z.land dir 0x80)).
End motor.
