(* ===== verification/Bitmap.v ===== *)
(** * The bitmaps of zones and inodes, and truncation: fs/bitmap.c, fs/truncate.c

    [new_inode] is with the other routines on inodes, in Inode. *)

From Stdlib Require Import ZArith Lia.
From stdpp Require Import base numbers list gmap strings.
From S2P Require Import Prelude Memory Task Sched Kernel Blk Buffer Posix.

(** ** Bits in a block *)

(** [bsfl]: the number of the lowest bit that is set, none for zero. *)
Fixpoint bsfl_from (n : nat) (i x : Z) : option Z :=
  match n with
  | O => None
  | Datatypes.S n' => if Z.testbit x i then Some i else bsfl_from n' (i + 1) x
  end.
Definition bsfl (x : Z) : option Z := bsfl_from 32 0 x.

Definition notl (x : Z) : Z := Z.lxor (u32 x) 0xffffffff.

(** The loop reads a word at a time; [esi] is the index of the next. *)
Fixpoint find_first_zero_loop (fuel : nat) (l : list Z) (esi ecx : Z) : option Z :=
  match fuel with
  | O => None
  | Datatypes.S fuel' =>
    w ← le32 l esi;
    match bsfl (notl w) with
    | Some edx => Some (ecx + edx)
    | None =>
      let ecx := ecx + 32 in
      if ecx <? 8192 then find_first_zero_loop fuel' l (esi + 4) ecx else Some ecx
    end
  end.
Definition find_first_zero (l : list Z) : option Z := find_first_zero_loop 256 l 0 0.

Definition bit (l : list Z) (nr : Z) : option bool :=
  c ← getz l (nr / 8); Some (Z.testbit c (nr mod 8)).

Section bitmap.
Context {E : Env}.

(** [btsl] and [btrl] on the data of a buffer; the results are the old bit,
    and its negation. *)
Definition set_bit (nr addr : Z) : M kernel bool :=
  let! b := get_bh addr in
  let! c := valid (getz (b_data b) (nr / 8)) in
  do! set_bh addr (fun b => b <| b_data ::= fun l => setz l (nr / 8) (Z.setbit c (nr mod 8)) |>) in
  ret (Z.testbit c (nr mod 8)).

Definition clear_bit (nr addr : Z) : M kernel bool :=
  let! b := get_bh addr in
  let! c := valid (getz (b_data b) (nr / 8)) in
  do! set_bh addr (fun b => b <| b_data ::= fun l => setz l (nr / 8) (Z.clearbit c (nr mod 8)) |>) in
  ret (negb (Z.testbit c (nr mod 8))).

(** An entry of [s_zmap] or [s_imap]: a null pointer is a fault. *)
Definition map_slot (map : list (option Z)) (i : Z) : M kernel Z :=
  let! slot := valid (getz map i) in valid slot.

(** ** Zones *)

Definition free_block (dev block : Z) : M kernel unit :=
  let! r := get_super dev in
  match r with
  | None => panic "trying to free block on nonexistent device"
  | Some sbi =>
    let! sb := get_sb sbi in
    if (block <? s_firstdatazone sb) || (s_nzones sb <=? block) then
      panic "trying to free block not in datazone" else
    let! r := get_from_hash_table dev block in
    let! shared := (match r with
                    | Some bh =>
                      let! b := get_bh bh in
                      if negb (b_count b =? 1) then ret true else
                      do! set_bh bh (fun b => b <| b_dirt := 0 |> <| b_uptodate := 0 |>) in
                      do! brelse (Some bh) in
                      ret false
                    | None => ret false
                    end) in
    if shared : bool then ret tt else
    let! sb := get_sb sbi in
    let block := block - (s_firstdatazone sb - 1) in
    let! map := map_slot (s_zmap sb) (block ÷ 8192) in
    let! clear := clear_bit (Z.land block 8191) map in
    if clear : bool then panic "free_block: bit already cleared" else
    let! sb := get_sb sbi in
    let! map := map_slot (s_zmap sb) (block ÷ 8192) in
    set_bh map (fun b => b <| b_dirt := 1 |>)
  end.

(** The search of [new_block] and [new_inode] through the slots of a map, from
    slot [i]: the first with a bit clear, and that bit. *)
Fixpoint map_search (slots : list (option Z)) (i : Z) : M kernel (option (Z * Z * Z)) :=
  match slots with
  | [] => ret None
  | None :: slots => map_search slots (i + 1)
  | Some bh :: slots =>
    let! b := get_bh bh in
    let! j := valid (find_first_zero (b_data b)) in
    if j <? 8192 then ret (Some (i, bh, j)) else map_search slots (i + 1)
  end.

Definition clear_block : list Z := replicate (Z.to_nat BLOCK_SIZE) 0.

Definition new_block (dev : Z) : M kernel Z :=
  let! r := get_super dev in
  match r with
  | None => panic "trying to get new block from nonexistant device"
  | Some sbi =>
    let! sb := get_sb sbi in
    let! r := map_search (s_zmap sb) 0 in
    match r with
    | None => ret 0
    | Some (i, bh, j) =>
      let! old := set_bit j bh in
      if old : bool then panic "new_block: bit already set" else
      do! set_bh bh (fun b => b <| b_dirt := 1 |>) in
      let j := j + (i * 8192 + s_firstdatazone sb - 1) in
      if s_nzones sb <=? j then ret 0 else
      let! bh := getblk dev j in
      let! b := get_bh bh in
      if negb (b_count b =? 1) then panic "new block: count is != 1" else
      do! set_bh bh (fun b => b <| b_data := clear_block |>) in
      do! set_bh bh (fun b => b <| b_uptodate := 1 |>) in
      do! set_bh bh (fun b => b <| b_dirt := 1 |>) in
      do! brelse (Some bh) in
      ret j
    end
  end.

(** ** Inodes *)

(** [memset(inode, 0, sizeof(inode))]. *)
Definition zero_inode : m_inode := Inode 0 0 0 0 0 0 (replicate 9 0) 0 0 0 0 0 0 0 0 0 0 0.

Definition free_inode (inode : option Z) : M kernel unit :=
  match inode with
  | None => ret tt
  | Some i =>
    let! n := get_inode i in
    if negb (istrue (i_dev n)) then set_inode i (fun _ => zero_inode) else
    if 1 <? i_count n then panic "free_inode" else
    if istrue (i_nlinks n) then panic "trying to free inode with links" else
    let! r := get_super (i_dev n) in
    match r with
    | None => panic "trying to free inode on nonexistent device"
    | Some sbi =>
      let! sb := get_sb sbi in
      let! n := get_inode i in
      if (i_num n <? 1) || (s_ninodes sb <? i_num n) then
        panic "trying to free inode 0 or nonexistant inode" else
      let! slot := valid (getz (s_imap sb) (Z.shiftr (i_num n) 13)) in
      match slot with
      | None => panic "nonexistent imap in superblock"
      | Some bh =>
        let! _ := clear_bit (Z.land (i_num n) 8191) bh in
        do! set_bh bh (fun b => b <| b_dirt := 1 |>) in
        set_inode i (fun _ => zero_inode)
      end
    end
  end.

(** ** Truncation *)

(** The entry [i] of a block of zone numbers. *)
Definition zone_entry (bh i : Z) : M kernel Z :=
  let! b := get_bh bh in valid (le16 (b_data b) (2 * i)).

(** The body that [free_ind] and [free_dind] share: free what the entries of
    the block name with [free_entry], then the block. *)
Definition free_indirect (free_entry : Z -> Z -> M kernel unit) (dev block : Z) : M kernel unit :=
  if negb (istrue block) then ret tt else
  let! r := bread dev block in
  do! (match r with
       | Some bh =>
         do! for_range 0 512 (fun i =>
           let! p := zone_entry bh i in
           when (istrue p) (free_entry dev p)) in
         brelse (Some bh)
       | None => ret tt
       end) in
  free_block dev block.

Definition free_ind : Z -> Z -> M kernel unit := free_indirect free_block.
Definition free_dind : Z -> Z -> M kernel unit := free_indirect free_ind.

Definition get_zone (inode i : Z) : M kernel Z := let! n := get_inode inode in valid (getz (i_zone n) i).
Definition set_zone (inode i v : Z) : M kernel unit :=
  set_inode inode (fun n => n <| i_zone ::= fun l => setz l i (u16 v) |>).

Definition truncate (inode : Z) : M kernel unit :=
  let! n := get_inode inode in
  if negb (S_ISREG (i_mode n) || S_ISDIR (i_mode n)) then ret tt else
  do! for_range 0 7 (fun i =>
    let! z := get_zone inode i in
    if istrue z then
      let! n := get_inode inode in
      do! free_block (i_dev n) z in
      set_zone inode i 0
    else ret tt) in
  let! n := get_inode inode in
  let! z := get_zone inode 7 in
  do! free_ind (i_dev n) z in
  let! n := get_inode inode in
  let! z := get_zone inode 8 in
  do! free_dind (i_dev n) z in
  do! set_zone inode 8 0 in
  do! set_zone inode 7 0 in
  do! set_inode inode (fun n => n <| i_size := 0 |> <| i_dirt := 1 |>) in
  let! t := gets (fun s => CURRENT_TIME (sch s)) in
  set_inode inode (fun n => n <| i_ctime := u32 t |> <| i_mtime := u32 t |>).
End bitmap.
