(* ===== verification/BitmapSearch.v ===== *)
(** * The search for a free bit, and allocation in the bitmaps *)

From Stdlib Require Import ZArith Lia.
From stdpp Require Import base numbers list gmap strings.
From S2P Require Import Prelude Memory Task Kernel Blk Buffer BufferRing Posix Bitmap.

(** A block's bytes. *)
Abbreviation bytes := (Forall is_u8).

(** ** Bits of words *)

Lemma bits_join w lo hi k :
  0 <= w -> 0 <= lo < 2 ^ w -> 0 <= k ->
  Z.testbit (lo + hi * 2 ^ w) k = if k <? w then Z.testbit lo k else Z.testbit hi (k - w).
Proof.
  intros Hw Hlo Hk. destruct (Z.ltb_spec k w).
  - rewrite <- (Z.mod_pow2_bits_low _ w k), Z.mod_add by lia. by rewrite Z.mod_small.
  - replace k with ((k - w) + w) at 1 by lia. rewrite <- Z.div_pow2_bits by lia.
    rewrite Z.div_add by lia. by rewrite Z.div_small by lia.
Qed.

Lemma le16_bits l i v : bytes l -> le16 l i = Some v ->
  is_u16 v /\ forall k, 0 <= k < 16 -> exists c, getz l (i + k / 8) = Some c /\ Z.testbit v k = Z.testbit c (k mod 8).
Proof.
  intros Hl. unfold le16. destruct (getz l i) as [b0|] eqn:E0; [|done]. cbn.
  destruct (getz l (i + 1)) as [b1|] eqn:E1; [|done]. cbn. intros [= <-].
  pose proof (getz_Forall _ _ _ _ Hl E0) as H0. pose proof (getz_Forall _ _ _ _ Hl E1) as H1.
  unfold is_u8, is_u16 in *. split; [lia|]. intros k Hk.
  change 256 with (2 ^ 8). rewrite bits_join by lia. destruct (Z.ltb_spec k 8).
  - rewrite Z.div_small, Z.mod_small, Z.add_0_r by lia. by exists b0.
  - replace (k / 8) with 1 by (apply Z.div_unique with (k - 8); lia).
    replace (k mod 8) with (k - 8) by (apply Z.mod_unique with 1; lia). by exists b1.
Qed.

Lemma le32_bits l i w : bytes l -> le32 l i = Some w ->
  is_u32 w /\ forall k, 0 <= k < 32 -> exists c, getz l (i + k / 8) = Some c /\ Z.testbit w k = Z.testbit c (k mod 8).
Proof.
  intros Hl. unfold le32. destruct (le16 l i) as [lo|] eqn:E0; [|done]. cbn.
  destruct (le16 l (i + 2)) as [hi|] eqn:E1; [|done]. cbn. intros [= <-].
  destruct (le16_bits _ _ _ Hl E0) as [H0 B0]. destruct (le16_bits _ _ _ Hl E1) as [H1 B1].
  unfold is_u16, is_u32 in *. split; [lia|]. intros k Hk.
  change 65536 with (2 ^ 16). rewrite bits_join by lia. destruct (Z.ltb_spec k 16).
  - apply B0. lia.
  - destruct (B1 (k - 16)) as (c & Hc & Hb); [lia|]. exists c. rewrite Hb.
    replace (k mod 8) with ((k - 16) mod 8) by (replace k with (k - 16 + 2 * 8) at 2 by lia; by rewrite Z.mod_add).
    split; [|done]. rewrite <- Hc. f_equal. replace k with (k - 16 + 2 * 8) at 1 by lia. rewrite Z.div_add by lia. lia.
Qed.

Lemma le32_is_Some l i : 0 <= i -> i + 3 < lenz l -> exists w, le32 l i = Some w.
Proof.
  intros H1 H2. unfold le32, le16.
  destruct (getz_is_Some l i) as [a ->]; [lia|]. destruct (getz_is_Some l (i + 1)) as [b ->]; [lia|]. cbn.
  destruct (getz_is_Some l (i + 2)) as [c ->]; [lia|]. destruct (getz_is_Some l (i + 2 + 1)) as [d ->]; [lia|].
  by eexists.
Qed.

Lemma notl_bits w k : 0 <= k < 32 -> Z.testbit (notl w) k = negb (Z.testbit w k).
Proof.
  intros Hk. unfold notl. rewrite Z.lxor_spec. change 4294967295 with (Z.ones 32). rewrite Z.ones_spec_low by lia.
  unfold u32. change 4294967296 with (2 ^ 32). rewrite Z.mod_pow2_bits_low by lia. by destruct (Z.testbit w k).
Qed.

(** ** The search *)

Lemma bsfl_from_spec n i x :
  match bsfl_from n i x with
  | Some k => i <= k < i + Z.of_nat n /\ Z.testbit x k = true /\ forall m, i <= m < k -> Z.testbit x m = false
  | None => forall m, i <= m < i + Z.of_nat n -> Z.testbit x m = false
  end.
Proof.
  revert i. induction n as [|n IH]; intros i; cbn [bsfl_from]; [lia|].
  destruct (Z.testbit x i) eqn:Ei; [split; [lia|]; split; [done|lia]|].
  specialize (IH (i + 1)). destruct (bsfl_from n (i + 1) x) as [k|].
  - destruct IH as (H1 & H2 & H3). split; [lia|]. split; [done|]. intros m Hm.
    destruct (decide (m = i)) as [->|]; [done|]. apply H3. lia.
  - intros m Hm. destruct (decide (m = i)) as [->|]; [done|]. apply IH. lia.
Qed.

Lemma word_bit l j w k : bytes l -> le32 l (4 * j) = Some w -> 0 <= k < 32 -> bit l (32 * j + k) = Some (Z.testbit w k).
Proof.
  intros Hl Hw Hk. destruct (proj2 (le32_bits _ _ _ Hl Hw) k Hk) as (c & Hc & Hb). unfold bit.
  replace ((32 * j + k) / 8) with (4 * j + k / 8) by (replace (32 * j + k) with (k + 4 * j * 8) by lia; rewrite Z.div_add by lia; lia).
  replace ((32 * j + k) mod 8) with (k mod 8) by (replace (32 * j + k) with (k + 4 * j * 8) by lia; by rewrite Z.mod_add).
  rewrite Hc. cbn. by rewrite Hb.
Qed.

Lemma find_first_zero_loop_spec fuel l j :
  bytes l -> lenz l = 1024 -> 0 <= j -> j + Z.of_nat fuel = 256 -> (0 < fuel)%nat ->
  (forall m, 0 <= m < 32 * j -> bit l m = Some true) ->
  exists n, find_first_zero_loop fuel l (4 * j) (32 * j) = Some n /\ 0 <= n <= 8192 /\
    (n < 8192 -> bit l n = Some false) /\ forall m, 0 <= m < n -> bit l m = Some true.
Proof.
  intros Hl Hlen. revert j. induction fuel as [|fuel IH]; intros j Hj Hf Hpos Hlow; [lia|].
  cbn [find_first_zero_loop]. destruct (le32_is_Some l (4 * j)) as [w Hw]; [lia|lia|]. rewrite Hw. cbn [mbind option_bind].
  pose proof (fun k => word_bit l j w k Hl Hw) as Hbit. unfold bsfl.
  pose proof (bsfl_from_spec 32 0 (notl w)) as Hspec. destruct (bsfl_from 32 0 (notl w)) as [k|].
  - destruct Hspec as (H1 & H2 & H3). exists (32 * j + k). split; [done|]. split; [lia|].
    rewrite notl_bits in H2 by lia. apply negb_true_iff in H2.
    split; [intros _; by rewrite Hbit, H2 by lia|]. intros m Hm.
    destruct (decide (m < 32 * j)); [apply Hlow; lia|]. specialize (H3 (m - 32 * j) ltac:(lia)).
    rewrite notl_bits in H3 by lia. apply negb_false_iff in H3.
    replace m with (32 * j + (m - 32 * j)) by lia. by rewrite Hbit, H3 by lia.
  - assert (forall m, 0 <= m < 32 * (j + 1) -> bit l m = Some true) as Hlow'.
    { intros m Hm. destruct (decide (m < 32 * j)); [apply Hlow; lia|].
      specialize (Hspec (m - 32 * j) ltac:(lia)). rewrite notl_bits in Hspec by lia. apply negb_false_iff in Hspec.
      replace m with (32 * j + (m - 32 * j)) by lia. by rewrite Hbit, Hspec by lia. }
    destruct (Z.ltb_spec (32 * j + 32) 8192).
    + replace (4 * j + 4) with (4 * (j + 1)) by lia. replace (32 * j + 32) with (32 * (j + 1)) in * by lia.
      apply IH; [lia|lia|lia|done].
    + exists (32 * j + 32). split; [done|]. split; [lia|]. split; [lia|]. intros m Hm. apply Hlow'. lia.
Qed.

Lemma find_first_zero_run l :
  bytes l -> lenz l = 1024 ->
  exists n, find_first_zero l = Some n /\ 0 <= n <= 8192 /\ (n < 8192 -> bit l n = Some false) /\
    forall m, 0 <= m < n -> bit l m = Some true.
Proof. intros Hl Hlen. apply (find_first_zero_loop_spec 256 l 0); [done|done|lia|lia|lia|lia]. Qed.

(** The reference: the bits of a block one by one, from the lowest bit of the
    first byte. *)
Definition clear_bits (l : list Z) : list Z := filter (fun m => bit l m = Some false) (seqZ 0 8192).
Definition first_clear (l : list Z) : Z := default 8192 (head (clear_bits l)).

Lemma seqZ_split n m : 0 <= n <= m -> seqZ 0 m = seqZ 0 n ++ seqZ n (m - n).
Proof. intros H. replace m with (n + (m - n)) at 1 by lia. by rewrite seqZ_app by lia. Qed.

(** C26: on a block of 1024 bytes the search, which goes by words of 32 bits
    and looks for a bit of the complement, ends and gives the same number as
    looking at the bits one by one: the first clear bit, or 8192 when every
    bit is set. *)
Theorem find_first_zero_spec l :
  bytes l -> lenz l = 1024 -> find_first_zero l = Some (first_clear l).
Proof.
  intros Hl Hlen. destruct (find_first_zero_run l Hl Hlen) as (n & -> & Hn & Hclear & Hset). f_equal.
  unfold first_clear, clear_bits. rewrite (seqZ_split n 8192 Hn), filter_app.
  replace (filter (fun m => bit l m = Some false) (seqZ 0 n)) with (@nil Z).
  - cbn [app]. destruct (decide (n < 8192)).
    + rewrite seqZ_cons, filter_cons_True by (lia || auto). done.
    + assert (n = 8192) as -> by lia. done.
  - symmetry. assert (forall m, m ∈ seqZ 0 n -> bit l m = Some true) as Hall.
    { intros m Hm. apply elem_of_seqZ in Hm. apply Hset. lia. }
    induction (seqZ 0 n) as [|k ks IHk]; [done|]. rewrite filter_cons_False.
    + apply IHk. intros m' Hm. apply Hall. by apply list_elem_of_further.
    + by rewrite Hall by apply list_elem_of_here.
Qed.
