(* ===== verification/Inode.v ===== *)
(** * Inodes: fs/inode.c, and [new_inode] of fs/bitmap.c

    Locks, [write_inode] and [sync_inodes] are in Buffer, since writing out a
    buffer may need them. *)

From Stdlib Require Import ZArith Lia.
From stdpp Require Import base numbers list gmap strings.
From S2P Require Import Prelude Memory Task Sched Kernel Blk Buffer Posix Bitmap.

Section inode.
Context {E : Env}.

Definition invalidate_inodes (dev : Z) : M kernel unit :=
  for_range 0 (Z.to_nat NR_INODE) (fun i =>
    do! wait_on_inode i in
    let! n := get_inode i in
    when (i_dev n =? dev) (set_inode i (fun n => n <| i_dirt := 0 |> <| i_dev := 0 |>))).

(** ** Blocks of a file *)

(** [if (create && !inode->i_zone[k]) ...]: a new block for an entry of the
    inode. *)
Definition bmap_zone (inode k : Z) (create : bool) : M kernel unit :=
  let! z := get_zone inode k in
  if create && negb (istrue z) then
    let! n := get_inode inode in
    let! j := new_block (i_dev n) in
    do! set_zone inode k j in
    let! z := get_zone inode k in
    when (istrue z) (
      let! t := gets (fun s => CURRENT_TIME (sch s)) in
      set_inode inode (fun n => n <| i_ctime := u32 t |> <| i_dirt := 1 |>))
  else ret tt.

(** The entry [k] of the block in [bh], a new block if it has none. *)
Definition bmap_entry (dev bh k : Z) (create : bool) : M kernel Z :=
  let! i := zone_entry bh k in
  if create && negb (istrue i) then
    let! i := new_block dev in
    do! when (istrue i) (
      do! set_bh bh (fun b => b <| b_data ::= fun l => set_le16 l (2 * k) i |>) in
      set_bh bh (fun b => b <| b_dirt := 1 |>)) in
    ret i
  else ret i.

(** The entry [k] of the block [zone] of zone numbers; 0 when it cannot be
    read. *)
Definition bmap_indirect (inode zone k : Z) (create : bool) : M kernel Z :=
  let! n := get_inode inode in
  let! r := bread (i_dev n) zone in
  match r with
  | None => ret 0
  | Some bh =>
    let! n := get_inode inode in
    let! i := bmap_entry (i_dev n) bh k create in
    do! brelse (Some bh) in
    ret i
  end.

Definition _bmap (inode block : Z) (create : bool) : M kernel Z :=
  if block <? 0 then panic "_bmap: block < 0" else
  if 7 + 512 + 512 * 512 <=? block then panic "_bmap: block > big" else
  if block <? 7 then
    do! bmap_zone inode block create in
    get_zone inode block
  else
  let block := block - 7 in
  if block <? 512 then
    do! bmap_zone inode 7 create in
    let! z := get_zone inode 7 in
    if negb (istrue z) then ret 0 else
    bmap_indirect inode z block create
  else
  let block := block - 512 in
  do! bmap_zone inode 8 create in
  let! z := get_zone inode 8 in
  if negb (istrue z) then ret 0 else
  let! i := bmap_indirect inode z (Z.shiftr block 9) create in
  if negb (istrue i) then ret 0 else
  bmap_indirect inode i (Z.land block 511) create.

Definition bmap (inode block : Z) : M kernel Z := _bmap inode block false.
Definition create_block (inode block : Z) : M kernel Z := _bmap inode block true.

(** ** Release *)

(** From [repeat]. *)
Fixpoint iput_loop (fuel : nat) (i : Z) : M kernel unit :=
  match fuel with
  | O => Prelude.blocked
  | Datatypes.S fuel' =>
    let! n := get_inode i in
    if 1 <? i_count n then set_inode i (fun n => n <| i_count ::= fun c => u16 (c - 1) |>) else
    if negb (istrue (i_nlinks n)) then
      do! truncate i in
      free_inode (Some i)
    else if istrue (i_dirt n) then
      do! write_inode i in
      do! wait_on_inode i in
      iput_loop fuel' i
    else set_inode i (fun n => n <| i_count ::= fun c => u16 (c - 1) |>)
  end.

Definition iput (inode : option Z) : M kernel unit :=
  match inode with
  | None => ret tt
  | Some i =>
    do! wait_on_inode i in
    let! n := get_inode i in
    if negb (istrue (i_count n)) then panic "iput: trying to free free inode" else
    if istrue (i_pipe n) then
      do! wake_up (i_wait i) in
      do! set_inode i (fun n => n <| i_count ::= fun c => u16 (c - 1) |>) in
      let! n := get_inode i in
      if istrue (i_count n) then ret tt else
      do! on_memory (free_page (i_size n)) in
      set_inode i (fun n => n <| i_count := 0 |> <| i_dirt := 0 |> <| i_pipe := 0 |>)
    else if negb (istrue (i_dev n)) then
      set_inode i (fun n => n <| i_count ::= fun c => u16 (c - 1) |>)
    else
      do! (if S_ISBLK (i_mode n) then
             let! z := get_zone i 0 in
             do! sync_dev z in
             wait_on_inode i
           else ret tt) in
      iput_loop (Datatypes.S patience) i
  end.

(** ** Allocation *)

(** The [for] of [get_empty_inode], which moves [last_inode] around the table:
    the last unused entry it passed, or the first that is clean and not
    locked. *)
Fixpoint empty_scan (n : nat) (found : option Z) : M kernel (option Z) :=
  match n with
  | O => ret found
  | Datatypes.S n' =>
    do! modify (fun s => s <| last_inode ::= fun i => if NR_INODE <=? i + 1 then 0 else i + 1 |>) in
    let! i := gets last_inode in
    let! n := get_inode i in
    if istrue (i_count n) then empty_scan n' found else
    if negb (istrue (i_dirt n)) && negb (istrue (i_lock n)) then ret (Some i)
    else empty_scan n' (Some i)
  end.

(** [while (inode->i_dirt) { ... }] *)
Fixpoint clean_inode (fuel : nat) (i : Z) : M kernel unit :=
  match fuel with
  | O => Prelude.blocked
  | Datatypes.S fuel' =>
    let! n := get_inode i in
    if negb (istrue (i_dirt n)) then ret tt else
    do! write_inode i in
    do! wait_on_inode i in
    clean_inode fuel' i
  end.

Fixpoint get_empty_inode_loop (fuel : nat) : M kernel Z :=
  match fuel with
  | O => Prelude.blocked
  | Datatypes.S fuel' =>
    let! r := empty_scan (Z.to_nat NR_INODE) None in
    match r with
    | None => panic "No free inodes in mem"
    | Some i =>
      do! wait_on_inode i in
      do! clean_inode (Datatypes.S patience) i in
      let! n := get_inode i in
      if istrue (i_count n) then get_empty_inode_loop fuel' else
      do! set_inode i (fun _ => zero_inode) in
      do! set_inode i (fun n => n <| i_count := 1 |>) in
      ret i
    end
  end.

(** Never a null pointer: the callers' tests for it do not fail. *)
Definition get_empty_inode : M kernel Z := get_empty_inode_loop (Datatypes.S patience).

Definition get_pipe_inode : M kernel (option Z) :=
  let! i := get_empty_inode in
  let! page := on_memory get_free_page in
  do! set_inode i (fun n => n <| i_size := page |>) in
  if negb (istrue page) then
    do! set_inode i (fun n => n <| i_count := 0 |>) in
    ret None
  else
    do! set_inode i (fun n => n <| i_count := 2 |>) in
    do! set_zone i 1 0 in
    do! set_zone i 0 0 in
    do! set_inode i (fun n => n <| i_pipe := 1 |>) in
    ret (Some i).

(** ** Reading an inode *)

Definition read_inode (i : Z) : M kernel unit :=
  do! lock_inode i in
  let! n := get_inode i in
  let! r := get_super (i_dev n) in
  match r with
  | None => panic "trying to read inode without dev"
  | Some sbi =>
    let! n := get_inode i in
    let! sb := get_sb sbi in
    let! r := bread (i_dev n) (inode_block sb (i_num n)) in
    match r with
    | None => panic "unable to read i-node block"
    | Some bh =>
      let! n := get_inode i in
      let! b := get_bh bh in
      let! n := valid (read_d_inode (b_data b) (inode_offset (i_num n)) n) in
      do! set_inode i (fun _ => n) in
      do! brelse (Some bh) in
      unlock_inode i
    end
  end.

(** The super block that is mounted on an inode. *)
Definition mounted_on (i : Z) : M kernel (option (Z * super_block_t)) :=
  let! l := gets super_block in
  ret ((fun p => (Z.of_nat p.1, p.2)) <$> list_find (fun sb => s_imount sb = Some i) (take (Z.to_nat NR_SUPER) l)).

(** The search of [iget] from entry [i] on; it starts again when the entry
    changed while its lock was waited for, and for the root of a mounted file
    system.  At the end of the table, the device and number then searched for. *)
Fixpoint iget_loop (fuel : nat) (empty i dev nr : Z) : M kernel (Z + Z * Z) :=
  match fuel with
  | O => Prelude.blocked
  | Datatypes.S fuel' =>
    if NR_INODE <=? i then ret (inr (dev, nr)) else
    let! n := get_inode i in
    if negb (i_dev n =? dev) || negb (i_num n =? nr) then iget_loop fuel' empty (i + 1) dev nr else
    do! wait_on_inode i in
    let! n := get_inode i in
    if negb (i_dev n =? dev) || negb (i_num n =? nr) then iget_loop fuel' empty 0 dev nr else
    do! set_inode i (fun n => n <| i_count ::= fun c => u16 (c + 1) |>) in
    let! n := get_inode i in
    if istrue (i_mount n) then
      let! r := mounted_on i in
      match r with
      | None => do! iput (Some empty) in ret (inl i)
      | Some (sbi, _) =>
        do! iput (Some i) in
        let! sb := get_sb sbi in
        iget_loop fuel' empty 0 (s_dev sb) ROOT_INO
      end
    else
      do! iput (Some empty) in
      ret (inl i)
  end.

(** The table is searched once for each mounted file system and once after
    each sleep. *)
Definition iget (dev nr : Z) : M kernel Z :=
  if negb (istrue dev) then panic "iget with dev == 0" else
  let! empty := get_empty_inode in
  let! r := iget_loop (Z.to_nat (NR_INODE + 1) * (Z.to_nat NR_SUPER + Datatypes.S patience)) empty 0 dev nr in
  match r with
  | inl i => ret i
  | inr (dev, nr) =>
    do! set_inode empty (fun n => n <| i_dev := u16 dev |>) in
    do! set_inode empty (fun n => n <| i_num := u16 nr |>) in
    do! read_inode empty in
    ret empty
  end.

(** ** A new inode *)

Definition new_inode (dev : Z) : M kernel (option Z) :=
  let! i := get_empty_inode in
  let! r := get_super dev in
  match r with
  | None => panic "new_inode with unknown device"
  | Some sbi =>
    let! sb := get_sb sbi in
    let! r := map_search (s_imap sb) 0 in
    let full := match r with Some (k, _, j) => s_ninodes sb <? j + k * 8192 | None => true end in
    match r, full with
    | Some (k, bh, j), false =>
      let! old := set_bit j bh in
      if old : bool then panic "new_inode: bit already set" else
      do! set_bh bh (fun b => b <| b_dirt := 1 |>) in
      let! t := on_sched get_current in
      let! now := gets (fun s => CURRENT_TIME (sch s)) in
      do! set_inode i (fun n => n <| i_count := 1 |> <| i_nlinks := 1 |> <| i_dev := u16 dev |>
        <| i_uid := euid t |> <| i_gid := u8 (egid t) |> <| i_dirt := 1 |> <| i_num := u16 (j + k * 8192) |>
        <| i_ctime := u32 now |> <| i_atime := u32 now |> <| i_mtime := u32 now |>) in
      ret (Some i)
    | _, _ => do! iput (Some i) in ret None
    end
  end.
End inode.
