(* ===== verification/TtyIo.v ===== *)
(** * Terminals: kernel/chr_drv/tty_io.c, with the loop of [console_write]
    and serial.c *)

From Stdlib Require Import ZArith Lia.
From stdpp Require Import base numbers list gmap strings.
From S2P Require Import Prelude Memory Task Sched TtyData Console Kernel.

Definition ALRMMASK : Z := sigbit SIGALRM.
Definition INTMASK : Z := sigbit SIGINT.
Definition QUITMASK : Z := sigbit SIGQUIT.

Definition get_tty (i : Z) : M kernel tty_struct := let! l := gets tty_table in valid (getz l i).
Definition set_tty_with (i : Z) (f : tty_struct -> tty_struct) : M kernel unit :=
  let! t := get_tty i in modify (fun s => s <| tty_table ::= fun l => setz l i (f t) |>).

(** A character taken out of a queue. *)
Definition take_char (i : Z) (get : tty_struct -> tty_queue) (put : tty_queue -> tty_struct -> tty_struct) : M kernel Z :=
  let! t := get_tty i in
  let! '(c, q) := valid (GETCH (get t)) in
  do! set_tty_with i (put q) in
  ret c.
Definition take_read_q (i : Z) : M kernel Z := take_char i read_q (fun q t => t <| read_q := q |>).
Definition take_write_q (i : Z) : M kernel Z := take_char i write_q (fun q t => t <| write_q := q |>).
Definition take_secondary (i : Z) : M kernel Z := take_char i secondary (fun q t => t <| secondary := q |>).

Definition put_write_q (i c : Z) : M kernel unit := set_tty_with i (fun t => t <| write_q ::= PUTCH c |>).

(** ** Signals and waiting *)

Definition tty_intr (i mask : Z) : M kernel unit :=
  let! t := get_tty i in
  if tty_pgrp t <=? 0 then ret tt else
  on_sched (modify (fun s => s <| task ::= map (option_map (fun p =>
    if pgrp p =? tty_pgrp t then p <| signal ::= fun x => Z.lor x mask |> else p)) |>)).

Section tty.
Context {E : Env}.

Definition sleep_if_empty (i : Z) (get : tty_struct -> tty_queue) (q : queue) : M kernel unit :=
  sleep_while (
    let! p := on_sched get_current in
    let! t := get_tty i in
    ret (negb (istrue (signal p)) && EMPTY (get t))) q.

Definition sleep_if_full (i : Z) (get : tty_struct -> tty_queue) (q : queue) : M kernel unit :=
  let! t := get_tty i in
  if negb (FULL (get t)) then ret tt else
  sleep_while (
    let! p := on_sched get_current in
    let! t := get_tty i in
    ret (negb (istrue (signal p)) && (LEFT (get t) <? 128))) q.

Definition wait_for_keypress : M kernel unit := sleep_if_empty 0 secondary (secondary_wait 0).
End tty.

(** ** The line discipline *)

(** The line ends here: the secondary queue is empty, or its last character is
    a newline or the end-of-file character. *)
Definition line_start (t : tty_struct) : option (option Z) :=
  if EMPTY (secondary t) then Some None else
  c ← LAST (secondary t);
  eof ← cc VEOF t;
  Some (if (c =? 10) || (c =? eof) then None else Some c).

(** The line discipline writes through the terminal's [write], which for the
    console may come back to it; the parameter is that call. *)
Section cooking.
Context (tty_write_fn : Z -> M kernel unit).

(** Echo of a deleted character, when [ECHO] is set. *)
Definition echo_delete (i c : Z) : M kernel unit :=
  let! t := get_tty i in
  when (_L_FLAG ECHO t) (
    do! when (c <? 32) (put_write_q i 127) in
    do! put_write_q i 127 in
    tty_write_fn i).

Definition drop_last (i : Z) : M kernel unit := set_tty_with i (fun t => t <| secondary ::= unput |>).

(** The loop at the kill character: each round removes a character. *)
Fixpoint kill_line (fuel : nat) (i : Z) : M kernel unit :=
  match fuel with
  | O => Prelude.blocked
  | Datatypes.S fuel' =>
    let! t := get_tty i in
    let! last := valid (line_start t) in
    match last with
    | None => ret tt
    | Some c => do! echo_delete i c in do! drop_last i in kill_line fuel' i
    end
  end.

Definition erase_char (i : Z) : M kernel unit :=
  let! t := get_tty i in
  let! last := valid (line_start t) in
  match last with
  | None => ret tt
  | Some c => do! echo_delete i c in drop_last i
  end.

(** The changes of a character read, none when it is ignored. *)
Definition map_input (t : tty_struct) (c : Z) : option Z :=
  let c :=
    if c =? 13 then
      if _I_FLAG ICRNL t then Some 10
      else if _I_FLAG IGNCR t then None
      else Some c
    else if (c =? 10) && _I_FLAG INLCR t then Some 13
    else Some c in
  match c with
  | Some c => Some (if _I_FLAG IUCLC t then s8 (tolower c) else c)
  | None => None
  end.

(** The editing characters of canonical mode and the signals: [true] when the
    character was one of them. *)
Definition special_char (i c : Z) : M kernel bool :=
  let! t := get_tty i in
  let! kill := valid (cc VKILL t) in
  let! erase := valid (cc VERASE t) in
  let! stop := valid (cc VSTOP t) in
  let! start := valid (cc VSTART t) in
  let! intr := valid (cc VINTR t) in
  let! quit := valid (cc VQUIT t) in
  if _L_FLAG ICANON t && (c =? kill) then do! kill_line (Z.to_nat TTY_BUF_SIZE) i in ret true
  else if _L_FLAG ICANON t && (c =? erase) then do! erase_char i in ret true
  else if _L_FLAG ICANON t && (c =? stop) then do! set_tty_with i (fun t => t <| stopped := 1 |>) in ret true
  else if _L_FLAG ICANON t && (c =? start) then do! set_tty_with i (fun t => t <| stopped := 0 |>) in ret true
  else if _L_FLAG ISIG t && (c =? intr) then do! tty_intr i INTMASK in ret true
  else if _L_FLAG ISIG t && (c =? quit) then do! tty_intr i QUITMASK in ret true
  else ret false.

Definition echo_char (i c : Z) : M kernel unit :=
  let! t := get_tty i in
  when (_L_FLAG ECHO t) (
    do! (if c =? 10 then
           do! put_write_q i 10 in put_write_q i 13
         else if c <? 32 then
           when (_L_FLAG ECHOCTL t) (do! put_write_q i 94 in put_write_q i (c + 64))
         else put_write_q i c) in
    tty_write_fn i).

(** One round of [copy_to_cooked]. *)
Definition cook_char (i : Z) : M kernel unit :=
  let! c := take_read_q i in
  let! t := get_tty i in
  match map_input t c with
  | None => ret tt
  | Some c =>
    let! special := special_char i c in
    if special : bool then ret tt else
    let! t := get_tty i in
    let! eof := valid (cc VEOF t) in
    do! when ((c =? 10) || (c =? eof))
      (set_tty_with i (fun t => t <| secondary ::= fun q => q <| q_data ::= fun n => u32 (n + 1) |> |>)) in
    do! echo_char i c in
    set_tty_with i (fun t => t <| secondary ::= PUTCH c |>)
  end.

Fixpoint cook_loop (fuel : nat) (i : Z) : M kernel unit :=
  match fuel with
  | O => Prelude.blocked
  | Datatypes.S fuel' =>
    let! t := get_tty i in
    if negb (EMPTY (read_q t)) && negb (FULL (secondary t))
    then do! cook_char i in cook_loop fuel' i
    else ret tt
  end.

(** Every round takes a character out of the read queue, which holds fewer
    than [TTY_BUF_SIZE]. *)
Definition copy_to_cooked_with (i : Z) : M kernel unit :=
  do! cook_loop (Z.to_nat TTY_BUF_SIZE) i in
  wake_up (secondary_wait i).
End cooking.

(** ** Output *)

Section output.
Context {E : Env}.

(** The bell rings for an eighth of a second. *)
Definition sysbeep : M kernel unit :=
  let! v := inb_p 0x61 in
  do! outb_p (Z.lor v 3) 0x61 in
  do! outb_p 0xB6 0x43 in
  do! outb_p 0x37 0x42 in
  do! outb_p 0x06 0x42 in
  on_sched (modify (fun s => s <| beepcount := HZ / 8 |>)).
Definition sysbeepstop : M kernel unit := let! v := inb_p 0x61 in outb_p (Z.land v 0xFC) 0x61.

(** ESC [ ? 1 ; 2 c *)
Definition RESPONSE : list Z := [27; 91; 63; 49; 59; 50; 99].
Fixpoint put_response (l : list Z) (i : Z) : M kernel unit :=
  match l with
  | [] => ret tt
  | c :: l => do! set_tty_with i (fun t => t <| read_q ::= PUTCH c |>) in put_response l i
  end.

Section console.
Context (copy_to_cooked : Z -> M kernel unit).

Definition respond (i : Z) : M kernel unit := do! put_response RESPONSE i in copy_to_cooked i.

Definition console_action (a : action) (i : Z) : M kernel unit :=
  match a with
  | no_action => ret tt
  | sysbeep_action => sysbeep
  | respond_action => respond i
  end.

(** [while (nr--)]: the number was taken before the loop. *)
Fixpoint console_chars (nr : nat) (i : Z) : M kernel unit :=
  match nr with
  | O => ret tt
  | Datatypes.S nr' =>
    let! c := take_write_q i in
    let! t := get_tty i in
    let! erase := valid (cc VERASE t) in
    let! s := gets con in
    let! '(s', a) := valid (console_char erase c s) in
    do! modify (fun s => s <| con := s' |>) in
    do! console_action a i in
    console_chars nr' i
  end.

Definition console_write_with (i : Z) : M kernel unit :=
  let! t := get_tty i in
  do! console_chars (Z.to_nat (CHARS (write_q t))) i in
  modify (fun s => s <| con ::= set_cursor |>).
End console.

(** The interrupt of the line takes the characters. *)
Definition rs_write (i : Z) : M kernel unit :=
  let! t := get_tty i in
  if EMPTY (write_q t) then ret tt else
  let port := s32 (q_data (write_q t) + 1) in
  let! v := inb_p port in
  outb_p (Z.lor v 0x02) port.

(** [tty->write(tty)].  An answer to a query goes through the line discipline,
    whose echo is written at once: [depth] bounds how often the console is
    entered again. *)
Fixpoint tty_write_n (depth : nat) (i : Z) : M kernel unit :=
  match depth with
  | O => Prelude.blocked
  | Datatypes.S depth' =>
    let! t := get_tty i in
    match write t with
    | TtyData.console_write => console_write_with (copy_to_cooked_with (tty_write_n depth')) i
    | TtyData.rs_write => rs_write i
    end
  end.

(** Each query leaves an answer of seven characters in a queue of fewer than
    [TTY_BUF_SIZE]; a run that goes deeper counts as blocked. *)
Definition tty_write_fn (i : Z) : M kernel unit := tty_write_n (Z.to_nat TTY_BUF_SIZE) i.
Definition copy_to_cooked (i : Z) : M kernel unit := copy_to_cooked_with tty_write_fn i.
Definition console_write (i : Z) : M kernel unit := console_write_with copy_to_cooked i.
Definition do_tty_interrupt (i : Z) : M kernel unit := copy_to_cooked i.

(** ** Start-up: serial.c and [tty_init] *)

(** The gates of the interrupts are not part of the state. *)
Definition init_serial_port (port : Z) : M kernel unit :=
  do! outb_p 0x80 (port + 3) in
  do! outb_p 0x30 port in
  do! outb_p 0x00 (port + 1) in
  do! outb_p 0x03 (port + 3) in
  do! outb_p 0x0b (port + 4) in
  do! outb_p 0x0d (port + 1) in
  let! _ := inb_p port in ret tt.

Definition serial_init : M kernel unit :=
  let! t1 := get_tty 1 in
  let! t2 := get_tty 2 in
  do! init_serial_port (q_data (read_q t1)) in
  do! init_serial_port (q_data (read_q t2)) in
  let! v := inb_p 0x21 in
  outb_p (Z.land v 0xe7) 0x21.

Definition tty_init (setup : Z -> Z) : M kernel unit :=
  do! serial_init in
  modify (fun s => s <| con ::= console_init setup (fun port => inb port s) |>).
End output.

(** ** Reading *)

Section rw.
Context {E : Env}.

Definition set_alarm_to (v : Z) : M kernel unit := on_sched (update_current (fun p => p <| alarm := v |>)).

(** The [do ... while]: the characters passed on so far, and whether the
    end-of-file character ended the call. *)
Fixpoint read_chars (fuel : nat) (i buf n count : Z) : M kernel (Z * Z * bool) :=
  match fuel with
  | O => Prelude.blocked
  | Datatypes.S fuel' =>
    let! c := take_secondary i in
    let! t := get_tty i in
    let! eof := valid (cc VEOF t) in
    do! when ((c =? eof) || (c =? 10))
      (set_tty_with i (fun t => t <| secondary ::= fun q => q <| q_data ::= fun n => u32 (n - 1) |> |>)) in
    if (c =? eof) && _L_FLAG ICANON t then ret (n, count, true) else
    do! put_fs_byte c (buf + n) in
    let n := n + 1 in
    let count := count - 1 in
    if count =? 0 then ret (n, count, false) else
    let! t := get_tty i in
    if EMPTY (secondary t) then ret (n, count, false) else read_chars fuel' i buf n count
  end.

(** Nothing to read yet. *)
Definition must_wait (t : tty_struct) : bool :=
  EMPTY (secondary t) ||
  (_L_FLAG ICANON t && negb (istrue (q_data (secondary t))) && (20 <? LEFT (secondary t))).

Definition alarm_after (time oldalarm : Z) : M kernel bool :=
  let! jiffies := gets (fun s => jiffies (sch s)) in
  ret (negb (istrue oldalarm) || (s32 (time + jiffies) <? oldalarm)).
Definition set_alarm_in (time : Z) : M kernel unit :=
  let! jiffies := gets (fun s => jiffies (sch s)) in set_alarm_to (s32 (time + jiffies)).

(** A task that waits for the rest of a line does not sleep, since the queue is
    not empty: it repeats the test, and interrupts run between two rounds.

    The [while (count > 0)], with [n] characters read: their number, and
    whether the call returned at an end of file. *)
Fixpoint tty_read_loop (fuel : nat) (i buf n count minimum time oldalarm : Z) (flag : bool) : M kernel (Z * bool) :=
  match fuel with
  | O => Prelude.blocked
  | Datatypes.S fuel' =>
    if count <=? 0 then ret (n, false) else
    let! p := on_sched get_current in
    if flag && istrue (Z.land (signal p) ALRMMASK) then
      do! on_sched (update_current (fun p => p <| signal ::= fun x => Z.land x (u32 (Z.lnot ALRMMASK)) |>)) in
      ret (n, false)
    else if istrue (signal p) then ret (n, false) else
    let! t := get_tty i in
    if must_wait t then
      do! sleep_if_empty i secondary (secondary_wait i) in
      do! sleep_on (secondary_wait i) in
      tty_read_loop fuel' i buf n count minimum time oldalarm flag
    else
      let! '(n, count, eof) := read_chars (Z.to_nat TTY_BUF_SIZE) i buf n count in
      if eof : bool then ret (n, true) else
      let! t := get_tty i in
      let! flag :=
        (if istrue time && negb (_L_FLAG ICANON t) then
           let! sooner := alarm_after time oldalarm in
           do! (if sooner : bool then set_alarm_in time else set_alarm_to oldalarm) in
           ret sooner
         else ret flag) in
      if _L_FLAG ICANON t then
        if istrue n then ret (n, false) else tty_read_loop fuel' i buf n count minimum time oldalarm flag
      else if minimum <=? n then ret (n, false)
      else tty_read_loop fuel' i buf n count minimum time oldalarm flag
  end.

Definition tty_read (channel buf count : Z) : M kernel Z :=
  if (2 <? channel) || (count <? 0) then ret (-1) else
  let i := channel in
  let! t := get_tty i in
  let! p := on_sched get_current in
  let oldalarm := alarm p in
  let! vtime := valid (cc VTIME t) in
  let! vmin := valid (cc VMIN t) in
  let time := 10 * vtime in
  let timed := istrue time && negb (istrue vmin) in
  let minimum := if timed then 1 else vmin in
  let! flag :=
    (if timed then
       let! sooner := alarm_after time oldalarm in
       do! when sooner (set_alarm_in time) in
       ret sooner
     else ret false) in
  let minimum := if count <? minimum then count else minimum in
  let! '(n, eof) := tty_read_loop (Z.to_nat count + Datatypes.S patience) i buf 0 count minimum time oldalarm flag in
  if eof : bool then ret n else
  do! set_alarm_to oldalarm in
  let! p := on_sched get_current in
  if istrue (signal p) && negb (istrue n) then ret (- EINTR) else ret n.

(** ** Writing *)

(** What [OPOST] makes of a character: the character to queue, and whether it
    is a return put before a newline that is still to come. *)
Definition post_char (t : tty_struct) (cr : Z) (c : Z) : Z * bool :=
  if _O_FLAG OPOST t then
    let c := if (c =? 13) && _O_FLAG OCRNL t then 10
             else if (c =? 10) && _O_FLAG ONLRET t then 13 else c in
    if (c =? 10) && negb (istrue cr) && _O_FLAG ONLCR t then (13, true)
    else (if _O_FLAG OLCUC t then s8 (toupper c) else c, false)
  else (c, false).

(** The inner loop: the position and the count it stops at. *)
Fixpoint write_chars (fuel : nat) (i b count : Z) : M kernel (Z * Z) :=
  match fuel with
  | O => Prelude.blocked
  | Datatypes.S fuel' =>
    let! t := get_tty i in
    if (count <=? 0) || FULL (write_q t) then ret (b, count) else
    let! c := get_fs_byte b in
    let! cr := gets cr_flag in
    let '(c, again) := post_char t cr (s8 c) in
    do! modify (fun s => s <| cr_flag := b2z again |>) in
    do! put_write_q i c in
    if again : bool then write_chars fuel' i b count else write_chars fuel' i (b + 1) (count - 1)
  end.

(** The call of [schedule] when the queue was full lets the others run. *)
Fixpoint tty_write_loop (fuel : nat) (i b count : Z) : M kernel Z :=
  match fuel with
  | O => Prelude.blocked
  | Datatypes.S fuel' =>
    if count <=? 0 then ret b else
    do! sleep_if_full i write_q (write_wait i) in
    let! p := on_sched get_current in
    if istrue (signal p) then ret b else
    let! '(b, count) := write_chars (Z.to_nat TTY_BUF_SIZE) i b count in
    do! tty_write_fn i in
    do! when (0 <? count) (sleep_on (write_wait i)) in
    tty_write_loop fuel' i b count
  end.

Definition tty_write (channel buf count : Z) : M kernel Z :=
  if (2 <? channel) || (count <? 0) then ret (-1) else
  let! b := tty_write_loop (Z.to_nat count + Datatypes.S patience) channel buf count in
  ret (b - buf).
End rw.
