(* ===== verification/Super.v ===== *)
(** * Super blocks: fs/super.c, and [check_disk_change] of fs/buffer.c

    Locks and [get_super] are in Buffer; [sys_mount] and [sys_umount], which
    need path names, are in Files. *)

From Stdlib Require Import ZArith Lia.
From stdpp Require Import base numbers list gmap strings.
From S2P Require Import Prelude Memory Task Sched Kernel Blk Buffer Posix Bitmap Inode TtyIo Motor.

Section super.
Context {E : Env}.

(** [brelse] of the entries of a map, in order. *)
Fixpoint brelse_all (map : list (option Z)) : M kernel unit :=
  match map with
  | [] => ret tt
  | bh :: map => do! brelse bh in brelse_all map
  end.

Definition put_super (dev : Z) : M kernel unit :=
  let! rdev := gets ROOT_DEV in
  if dev =? rdev then ret tt else
  let! r := get_super dev in
  match r with
  | None => ret tt
  | Some i =>
    let! sb := get_sb i in
    match s_imount sb with
    | Some _ => ret tt
    | None =>
      do! lock_super i in
      do! set_sb i (fun sb => sb <| s_dev := 0 |>) in
      let! sb := get_sb i in
      do! brelse_all (s_imap sb) in
      let! sb := get_sb i in
      do! brelse_all (s_zmap sb) in
      unlock_super i
    end
  end.

Definition check_disk_change (dev : Z) : M kernel unit :=
  if negb (MAJOR dev =? 2) then ret tt else
  let! changed := floppy_change (Z.land dev 0x03) in
  if negb changed then ret tt else
  do! for_range 0 (Z.to_nat NR_SUPER) (fun i =>
    let! sb := get_sb i in
    when (s_dev sb =? dev) (put_super (s_dev sb))) in
  do! invalidate_inodes dev in
  invalidate_buffers dev.

(** [struct d_super_block] at the start of a block. *)
Definition read_d_super (l : list Z) (sb : super_block_t) : option super_block_t :=
  ninodes ← le16 l 0; nzones ← le16 l 2; imap_blocks ← le16 l 4; zmap_blocks ← le16 l 6;
  firstdatazone ← le16 l 8; log_zone_size ← le16 l 10; max_size ← le32 l 12; magic ← le16 l 16;
  Some (sb <| s_ninodes := ninodes |> <| s_nzones := nzones |> <| s_imap_blocks := imap_blocks |>
           <| s_zmap_blocks := zmap_blocks |> <| s_firstdatazone := firstdatazone |>
           <| s_log_zone_size := log_zone_size |> <| s_max_size := max_size |> <| s_magic := magic |>).

(** [s->map[i] = bh]: a write outside the array is a fault. *)
Definition set_slot (map : list (option Z)) (i : Z) (bh : option Z) : option (list (option Z)) :=
  match getz map i with Some _ => Some (setz map i bh) | None => None end.
Definition set_imap (sbi i : Z) (bh : option Z) : M kernel unit :=
  let! sb := get_sb sbi in
  let! map := valid (set_slot (s_imap sb) i bh) in
  set_sb sbi (fun sb => sb <| s_imap := map |>).
Definition set_zmap (sbi i : Z) (bh : option Z) : M kernel unit :=
  let! sb := get_sb sbi in
  let! map := valid (set_slot (s_zmap sb) i bh) in
  set_sb sbi (fun sb => sb <| s_zmap := map |>).

(** One of the loops that read a map: from block [block] into the slots from
    [i] on; the block after the last one read. *)
Fixpoint read_map (n : nat) (set : Z -> option Z -> M kernel unit) (dev i block : Z) : M kernel Z :=
  match n with
  | O => ret block
  | Datatypes.S n' =>
    let! bh := bread dev block in
    do! set i bh in
    match bh with
    | Some _ => read_map n' set dev (i + 1) (block + 1)
    | None => ret block
    end
  end.

(** [map[0]->b_data[0] |= 1] *)
Definition mark_first (map : list (option Z)) : M kernel unit :=
  let! bh := map_slot map 0 in
  let! b := get_bh bh in
  let! c := valid (getz (b_data b) 0) in
  set_bh bh (fun b => b <| b_data ::= fun l => setz l 0 (Z.lor c 1) |>).

Definition super_failed (i : Z) : M kernel (option Z) :=
  do! set_sb i (fun sb => sb <| s_dev := 0 |>) in
  do! unlock_super i in
  ret None.

Definition unused_super : M kernel (option Z) :=
  let! l := gets super_block in
  ret ((fun p => Z.of_nat p.1) <$> list_find (fun sb => s_dev sb = 0) (take (Z.to_nat NR_SUPER) l)).

Definition read_super (dev : Z) : M kernel (option Z) :=
  if negb (istrue dev) then ret None else
  do! check_disk_change dev in
  let! r := get_super dev in
  match r with
  | Some i => ret (Some i)
  | None =>
    let! r := unused_super in
    match r with
    | None => ret None
    | Some i =>
      do! set_sb i (fun sb => sb <| s_dev := u16 dev |> <| s_isuper := None |> <| s_imount := None |>
        <| s_time := 0 |> <| s_read_only := 0 |> <| s_dirt := 0 |>) in
      do! lock_super i in
      let! r := bread dev 1 in
      match r with
      | None => super_failed i
      | Some bh =>
        let! b := get_bh bh in
        let! sb := get_sb i in
        let! sb := valid (read_d_super (b_data b) sb) in
        do! set_sb i (fun _ => sb) in
        do! brelse (Some bh) in
        let! sb := get_sb i in
        if negb (s_magic sb =? SUPER_MAGIC) then super_failed i else
        do! set_sb i (fun sb => sb <| s_imap := replicate (Z.to_nat I_MAP_SLOTS) None |>
                                   <| s_zmap := replicate (Z.to_nat Z_MAP_SLOTS) None |>) in
        let! sb := get_sb i in
        let! block := read_map (Z.to_nat (s_imap_blocks sb)) (set_imap i) dev 0 2 in
        let! sb := get_sb i in
        let! block := read_map (Z.to_nat (s_zmap_blocks sb)) (set_zmap i) dev 0 block in
        let! sb := get_sb i in
        if negb (block =? 2 + s_imap_blocks sb + s_zmap_blocks sb) then
          do! brelse_all (s_imap sb) in
          let! sb := get_sb i in
          do! brelse_all (s_zmap sb) in
          super_failed i
        else
          do! mark_first (s_imap sb) in
          do! mark_first (s_zmap sb) in
          do! unlock_super i in
          ret (Some i)
      end
    end
  end.

(** The counts of free blocks and inodes that [mount_root] prints read the
    maps; a missing one is a fault. *)
Definition test_bits (map : list (option Z)) (n : Z) : M kernel unit :=
  for_range 0 (Z.to_nat n) (fun i =>
    let! bh := map_slot map (Z.shiftr i 13) in
    let! b := get_bh bh in
    let! _ := valid (bit (b_data b) (Z.land i 8191)) in
    ret tt).

Definition mount_root : M kernel unit :=
  do! for_range 0 (Z.to_nat NR_FILE) (fun i => set_file i (fun f => f <| f_count := 0 |>)) in
  let! rdev := gets ROOT_DEV in
  do! when (MAJOR rdev =? 2) wait_for_keypress in
  do! for_range 0 (Z.to_nat NR_SUPER) (fun i => set_sb i (fun sb => sb <| s_dev := 0 |> <| s_lock := 0 |>)) in
  let! rdev := gets ROOT_DEV in
  let! r := read_super rdev in
  match r with
  | None => panic "Unable to mount root"
  | Some sbi =>
    let! rdev := gets ROOT_DEV in
    let! i := iget rdev ROOT_INO in
    do! set_inode i (fun n => n <| i_count ::= fun c => u16 (c + 3) |>) in
    do! set_sb sbi (fun sb => sb <| s_imount := Some i |> <| s_isuper := Some i |>) in
    do! on_sched (update_current (fun t => t <| pwd := Some i |> <| root := Some i |>)) in
    let! sb := get_sb sbi in
    do! test_bits (s_zmap sb) (s_nzones sb) in
    test_bits (s_imap sb) (s_ninodes sb + 1)
  end.
End super.
