(* ===== verification/FileDev.v ===== *)
(** * Contents of files and block devices: fs/file_dev.c, fs/block_dev.c *)

From Stdlib Require Import ZArith Lia.
From stdpp Require Import base numbers list gmap strings.
From S2P Require Import Prelude Memory Task Sched Kernel Blk Buffer Posix Bitmap Inode.

(** [*p] for a character of a block, from byte [off] on, to and from user
    memory. *)
Definition block_to_user (bh off buf n : Z) : M kernel unit :=
  for_range 0 (Z.to_nat n) (fun k =>
    let! b := get_bh bh in
    let! c := valid (getz (b_data b) (off + k)) in
    put_fs_byte c (buf + k)).

Definition user_to_block (bh off buf n : Z) : M kernel unit :=
  for_range 0 (Z.to_nat n) (fun k =>
    let! c := get_fs_byte (buf + k) in
    let! b := get_bh bh in
    let! _ := valid (getz (b_data b) (off + k)) in
    set_bh bh (fun b => b <| b_data ::= fun l => setz l (off + k) c |>)).

Definition zero_user (buf n : Z) : M kernel unit :=
  for_range 0 (Z.to_nat n) (fun k => put_fs_byte 0 (buf + k)).

Section file_dev.
Context {E : Env}.

(** ** Regular files *)

(** The buffer of the block at the file position, none for a hole; or the loop
    ends, since the block cannot be read. *)
Definition block_at (inode pos : Z) : M kernel (option (option Z)) :=
  let! nr := bmap inode (pos ÷ BLOCK_SIZE) in
  if istrue nr then
    let! n := get_inode inode in
    let! bh := bread (i_dev n) nr in
    ret (match bh with Some bh => Some (Some bh) | None => None end)
  else ret (Some None).

(** [while (left)]: what is left when it ends. *)
Fixpoint file_read_loop (fuel : nat) (inode filp buf left : Z) : M kernel Z :=
  match fuel with
  | O => ret left
  | Datatypes.S fuel' =>
    if left =? 0 then ret left else
    let! f := get_file filp in
    let! r := block_at inode (f_pos f) in
    match r with
    | None => ret left
    | Some bh =>
      let! f := get_file filp in
      let nr := Z.rem (f_pos f) BLOCK_SIZE in
      let chars := Z.min (BLOCK_SIZE - nr) left in
      do! set_file filp (fun f => f <| f_pos ::= fun p => s32 (p + chars) |>) in
      do! (match bh with
           | Some bh => do! block_to_user bh nr buf chars in brelse (Some bh)
           | None => zero_user buf chars
           end) in
      file_read_loop fuel' inode filp (buf + chars) (left - chars)
    end
  end.

(** Every round reads at least one byte. *)
Definition file_read (inode filp buf count : Z) : M kernel Z :=
  if count <=? 0 then ret 0 else
  let! left := file_read_loop (Z.to_nat count) inode filp buf count in
  let! t := gets (fun s => CURRENT_TIME (sch s)) in
  do! set_inode inode (fun n => n <| i_atime := u32 t |>) in
  ret (if istrue (count - left) then count - left else - ERROR).

(** [while (i < count)]: the position and the bytes written when it ends. *)
Fixpoint file_write_loop (fuel : nat) (inode buf count pos i : Z) : M kernel (Z * Z) :=
  match fuel with
  | O => ret (pos, i)
  | Datatypes.S fuel' =>
    if count <=? i then ret (pos, i) else
    let! block := create_block inode (pos ÷ BLOCK_SIZE) in
    if negb (istrue block) then ret (pos, i) else
    let! n := get_inode inode in
    let! r := bread (i_dev n) block in
    match r with
    | None => ret (pos, i)
    | Some bh =>
      let off := Z.rem pos BLOCK_SIZE in
      do! set_bh bh (fun b => b <| b_dirt := 1 |>) in
      let c := Z.min (BLOCK_SIZE - off) (count - i) in
      let pos := s32 (pos + c) in
      let! n := get_inode inode in
      do! when (i_size n <? u32 pos) (set_inode inode (fun n => n <| i_size := u32 pos |> <| i_dirt := 1 |>)) in
      do! user_to_block bh off buf c in
      do! brelse (Some bh) in
      file_write_loop fuel' inode (buf + c) count pos (i + c)
    end
  end.

Definition file_write (inode filp buf count : Z) : M kernel Z :=
  let! f := get_file filp in
  let! n := get_inode inode in
  let append := istrue (Z.land (f_flags f) O_APPEND) in
  let pos := if append then s32 (i_size n) else f_pos f in
  let! '(pos, i) := file_write_loop (Z.to_nat count) inode buf count pos 0 in
  let! t := gets (fun s => CURRENT_TIME (sch s)) in
  do! set_inode inode (fun n => n <| i_mtime := u32 t |>) in
  let! f := get_file filp in
  do! when (negb (istrue (Z.land (f_flags f) O_APPEND))) (
    do! set_file filp (fun f => f <| f_pos := pos |>) in
    set_inode inode (fun n => n <| i_ctime := u32 t |>)) in
  ret (if istrue i then i else -1).

(** ** Block devices *)

(** The variable [pos] points to: the position of an open file. *)
Definition advance (filp chars : Z) : M kernel unit :=
  set_file filp (fun f => f <| f_pos ::= fun p => s32 (p + chars) |>).

Definition io_result (n : Z) : Z := if istrue n then n else - EIO.

(** The loop of [block_write], with [written] bytes written. *)
Fixpoint block_write_loop (fuel : nat) (dev filp block offset buf count written : Z) : M kernel Z :=
  match fuel with
  | O => ret written
  | Datatypes.S fuel' =>
    if count <=? 0 then ret written else
    let chars := Z.min (BLOCK_SIZE - offset) count in
    let! r := (if chars =? BLOCK_SIZE then let! bh := getblk dev block in ret (Some bh)
               else breada dev block [block + 1; block + 2]) in
    match r with
    | None => ret (io_result written)
    | Some bh =>
      do! advance filp chars in
      do! user_to_block bh offset buf chars in
      do! set_bh bh (fun b => b <| b_dirt := 1 |>) in
      do! brelse (Some bh) in
      block_write_loop fuel' dev filp (block + 1) 0 (buf + chars) (count - chars) (written + chars)
    end
  end.

Definition block_write (dev filp buf count : Z) : M kernel Z :=
  let! f := get_file filp in
  block_write_loop (Z.to_nat count) dev filp (Z.shiftr (f_pos f) 10) (Z.land (f_pos f) (BLOCK_SIZE - 1)) buf count 0.

(** The loop of [block_read], with [read] bytes read. *)
Fixpoint block_read_loop (fuel : nat) (dev filp block offset buf count read : Z) : M kernel Z :=
  match fuel with
  | O => ret read
  | Datatypes.S fuel' =>
    if count <=? 0 then ret read else
    let chars := Z.min (BLOCK_SIZE - offset) count in
    let! r := breada dev block [block + 1; block + 2] in
    match r with
    | None => ret (io_result read)
    | Some bh =>
      do! advance filp chars in
      do! block_to_user bh offset buf chars in
      do! brelse (Some bh) in
      block_read_loop fuel' dev filp (block + 1) 0 (buf + chars) (count - chars) (read + chars)
    end
  end.

Definition block_read (dev filp buf count : Z) : M kernel Z :=
  let! f := get_file filp in
  block_read_loop (Z.to_nat count) dev filp (Z.shiftr (u32 (f_pos f)) 10) (Z.land (f_pos f) (BLOCK_SIZE - 1)) buf count 0.
End file_dev.
