(* ===== verification/Pipe.v ===== *)
(** * Pipes: fs/pipe.c

    The bytes of a pipe are in the page at address [i_size], a ring whose head
    and tail are the first two zones of the inode. *)

From Stdlib Require Import ZArith Lia.
From stdpp Require Import base numbers list gmap strings.
From S2P Require Import Prelude Memory Task Sched Kernel Blk Buffer Posix Bitmap Inode.

(** ** The macros of include/linux/fs.h *)

Definition PIPE_HEAD (n : m_inode) : option Z := getz (i_zone n) 0.
Definition PIPE_TAIL (n : m_inode) : option Z := getz (i_zone n) 1.
Definition PIPE_SIZE (n : m_inode) : option Z :=
  head ← PIPE_HEAD n; tail ← PIPE_TAIL n; Some (Z.land (head - tail) (PAGE_SIZE - 1)).

Definition move_head (i chars : Z) : M kernel unit :=
  let! z := get_zone i 0 in set_zone i 0 (Z.land (u16 (z + chars)) (PAGE_SIZE - 1)).
Definition move_tail (i chars : Z) : M kernel unit :=
  let! z := get_zone i 1 in set_zone i 1 (Z.land (u16 (z + chars)) (PAGE_SIZE - 1)).

(** [((char * )inode->i_size)[size++]], [n] times. *)
Definition pipe_to_user (page size buf n : Z) : M kernel unit :=
  for_range 0 (Z.to_nat n) (fun k =>
    let! c := on_memory (load_byte (u32 (page + (size + k)))) in put_fs_byte c (buf + k)).
Definition user_to_pipe (page size buf n : Z) : M kernel unit :=
  for_range 0 (Z.to_nat n) (fun k =>
    let! c := get_fs_byte (buf + k) in on_memory (store_byte (u32 (page + (size + k))) c)).

Section pipe.
Context {E : Env}.

(** ** Reading and writing *)

(** The inner [while]: the bytes (or the room) there is, none when nobody has
    the other end open. *)
Fixpoint pipe_wait (fuel : nat) (i : Z) (size : m_inode -> option Z) : M kernel (option Z) :=
  match fuel with
  | O => Prelude.blocked
  | Datatypes.S fuel' =>
    let! n := get_inode i in
    let! size_now := valid (size n) in
    if istrue size_now then ret (Some size_now) else
    do! wake_up (i_wait i) in
    let! n := get_inode i in
    if negb (i_count n =? 2) then ret None else
    do! sleep_on (i_wait i) in
    pipe_wait fuel' i size
  end.

(** [while (count > 0)], with [done] bytes passed on so far: their number when
    it ends, and whether the other end was closed. *)
Fixpoint read_pipe_loop (fuel : nat) (i buf count read : Z) : M kernel (Z * bool) :=
  match fuel with
  | O => ret (read, false)
  | Datatypes.S fuel' =>
    if count <=? 0 then ret (read, false) else
    let! r := pipe_wait (Datatypes.S patience) i PIPE_SIZE in
    match r with
    | None => ret (read, true)
    | Some size =>
      let! tail := get_zone i 1 in
      let chars := Z.min (Z.min (PAGE_SIZE - tail) count) size in
      do! move_tail i chars in
      let! n := get_inode i in
      do! pipe_to_user (i_size n) tail buf chars in
      read_pipe_loop fuel' i (buf + chars) (count - chars) (read + chars)
    end
  end.

Definition read_pipe (i buf count : Z) : M kernel Z :=
  let! '(read, closed) := read_pipe_loop (Z.to_nat count) i buf count 0 in
  if closed : bool then ret read else
  do! wake_up (i_wait i) in
  ret read.

(** The room in a pipe, [(PAGE_SIZE-1) - PIPE_SIZE]. *)
Definition pipe_room (n : m_inode) : option Z := size ← PIPE_SIZE n; Some ((PAGE_SIZE - 1) - size).

Fixpoint write_pipe_loop (fuel : nat) (i buf count written : Z) : M kernel (Z * bool) :=
  match fuel with
  | O => ret (written, false)
  | Datatypes.S fuel' =>
    if count <=? 0 then ret (written, false) else
    let! r := pipe_wait (Datatypes.S patience) i pipe_room in
    match r with
    | None =>
      do! on_sched (update_current (fun p => p <| signal ::= fun x => Z.lor x (sigbit SIGPIPE) |>)) in
      ret (written, true)
    | Some size =>
      let! head := get_zone i 0 in
      let chars := Z.min (Z.min (PAGE_SIZE - head) count) size in
      do! move_head i chars in
      let! n := get_inode i in
      do! user_to_pipe (i_size n) head buf chars in
      write_pipe_loop fuel' i (buf + chars) (count - chars) (written + chars)
    end
  end.

Definition write_pipe (i buf count : Z) : M kernel Z :=
  let! '(written, closed) := write_pipe_loop (Z.to_nat count) i buf count 0 in
  if closed : bool then ret (if istrue written then written else -1) else
  do! wake_up (i_wait i) in
  ret written.

(** ** The call *)

(** The loop over [file_table]: the first [want] unused entries from [i] on,
    which are taken. *)
Fixpoint take_files (n : nat) (i : Z) (want : nat) : M kernel (list Z) :=
  match want, n with
  | O, _ | _, O => ret []
  | Datatypes.S want', Datatypes.S n' =>
    let! f := get_file i in
    if istrue (f_count f) then take_files n' (i + 1) want else
    do! set_file i (fun f => f <| f_count ::= fun c => u16 (c + 1) |>) in
    let! rest := take_files n' (i + 1) want' in
    ret (i :: rest)
  end.

Definition set_filp (fd : Z) (f : option Z) : M kernel unit :=
  on_sched (update_current (fun p => p <| filp ::= fun l => setz l fd f |>)).
Definition get_filp (fd : Z) : M kernel (option Z) :=
  let! p := on_sched get_current in valid (getz (filp p) fd).

(** The loop over [current->filp]: the descriptors given to the files. *)
Fixpoint take_fds (n : nat) (i : Z) (files : list Z) : M kernel (list Z) :=
  match files, n with
  | [], _ | _, O => ret []
  | f :: files', Datatypes.S n' =>
    let! used := get_filp i in
    match used with
    | Some _ => take_fds n' (i + 1) files
    | None =>
      do! set_filp i (Some f) in
      let! rest := take_fds n' (i + 1) files' in
      ret (i :: rest)
    end
  end.

Definition clear_count (f : Z) : M kernel unit := set_file f (fun f => f <| f_count := 0 |>).

Definition sys_pipe (fildes : Z) : M kernel Z :=
  let! files := take_files (Z.to_nat NR_FILE) 0 2 in
  match files with
  | [f0; f1] =>
    let! fds := take_fds (Z.to_nat NR_OPEN) 0 [f0; f1] in
    match fds with
    | [fd0; fd1] =>
      let! r := get_pipe_inode in
      match r with
      | None =>
        do! set_filp fd1 None in
        do! set_filp fd0 None in
        do! clear_count f1 in
        do! clear_count f0 in
        ret (-1)
      | Some inode =>
        do! set_file f1 (fun f => f <| f_inode := Some inode |> <| f_pos := 0 |> <| f_mode := 2 |>) in
        do! set_file f0 (fun f => f <| f_inode := Some inode |> <| f_pos := 0 |> <| f_mode := 1 |>) in
        do! put_fs_long fd0 fildes in
        do! put_fs_long fd1 (fildes + 4) in
        ret 0
      end
    | fds =>
      do! (match fds with fd :: _ => set_filp fd None | [] => ret tt end) in
      do! clear_count f1 in
      do! clear_count f0 in
      ret (-1)
    end
  | f :: _ => do! clear_count f in ret (-1)
  | [] => ret (-1)
  end.
End pipe.
