(* ===== verification/Namei.v ===== *)
(** * Path names and directories: fs/namei.c

    A pointer to a directory entry is a buffer and the offset of the entry in
    its data.  A path is in user memory; the scans for its separators have a
    bound, [path_fuel], that the paths of the machine cannot reach unless
    others change them meanwhile. *)

From Stdlib Require Import ZArith Lia.
From stdpp Require Import base numbers list gmap strings.
From S2P Require Import Prelude Memory Task Sched Kernel Blk Buffer Posix Bitmap Inode.

Definition MAY_EXEC : Z := 1.
Definition MAY_WRITE : Z := 2.
Definition MAY_READ : Z := 4.
Definition I_DIRECTORY : Z := 0x4000.
Definition I_REGULAR : Z := 0x8000.

(** The string is indexed by two bits; its last character is negative. *)
Definition ACC_MODE (x : Z) : Z :=
  let i := Z.land x O_ACCMODE in if i =? 0 then 4 else if i =? 1 then 2 else if i =? 2 then 6 else -1.

Definition slash : Z := 47.
Definition dot : Z := 46.

(** ** Access *)

(** What [permission] decides, from the inode and the task. *)
Definition may_access (n : m_inode) (t : task_struct) (mask : Z) : bool :=
  if istrue (i_dev n) && negb (istrue (i_nlinks n)) then false else
  let mode :=
    if euid t =? i_uid n then Z.shiftr (i_mode n) 6
    else if egid t =? i_gid n then Z.shiftr (i_mode n) 3
    else i_mode n in
  (Z.land (Z.land mode mask) 7 =? mask) || (euid t =? 0).

Definition permission (inode mask : Z) : M kernel bool :=
  let! n := get_inode inode in
  let! t := on_sched get_current in
  ret (may_access n t mask).

(** ** Entries *)

Definition DIR_ENTRY_SIZE : Z := 16.

Definition de_inode_nr (bh de : Z) : M kernel Z :=
  let! b := get_bh bh in valid (le16 (b_data b) de).
Definition de_name (bh de k : Z) : M kernel Z :=
  let! b := get_bh bh in valid (getz (b_data b) (de + 2 + k)).
Definition set_de_inode_nr (bh de v : Z) : M kernel unit :=
  set_bh bh (fun b => b <| b_data ::= fun l => set_le16 l de v |>).
Definition set_de_name (bh de k v : Z) : M kernel unit :=
  set_bh bh (fun b => b <| b_data ::= fun l => setz l (de + 2 + k) (u8 v) |>).

(** [repe cmpsb] with a count of at least one. *)
Fixpoint compare_name (n : nat) (name bh de k : Z) : M kernel bool :=
  match n with
  | O => ret true
  | Datatypes.S n' =>
    let! a := get_fs_byte (name + k) in
    let! c := de_name bh de k in
    if a =? c then compare_name n' name bh de (k + 1) else ret false
  end.

Definition match_entry (len name bh de : Z) : M kernel bool :=
  let! nr := de_inode_nr bh de in
  if negb (istrue nr) || (NAME_LEN <? len) then ret false else
  let! longer := (if len <? NAME_LEN then let! c := de_name bh de len in ret (istrue c) else ret false) in
  if longer : bool then ret false else compare_name (Z.to_nat len) name bh de 0.

Definition dir_entries (n : m_inode) : Z := s32 (u32 (i_size n) / DIR_ENTRY_SIZE).

Section namei.
Context {E : Env}.

(** The next block of a directory, none when there is none or it cannot be
    read. *)
Definition next_block (block : M kernel Z) (dir : Z) : M kernel (option Z) :=
  let! block := block in
  if negb (istrue block) then ret None else
  let! n := get_inode dir in
  bread (i_dev n) block.

(** The loop of [find_entry] from entry [i], at [de] in the block of [bh]; the
    test of [de] after a block that could not be read goes through a null
    pointer. *)
Fixpoint find_entry_loop (fuel : nat) (dir name namelen entries i : Z) (bh : option Z) (de : Z)
  : M kernel (option (Z * Z)) :=
  match fuel with
  | O => Prelude.blocked
  | Datatypes.S fuel' =>
    if entries <=? i then do! brelse bh in ret None else
    let! b := valid bh in
    if BLOCK_SIZE <=? de then
      do! brelse (Some b) in
      let! r := next_block (bmap dir (i / DIR_ENTRIES_PER_BLOCK)) dir in
      match r with
      | None => find_entry_loop fuel' dir name namelen entries (i + DIR_ENTRIES_PER_BLOCK) None de
      | Some b =>
        let! found := match_entry namelen name b 0 in
        if found : bool then ret (Some (b, 0))
        else find_entry_loop fuel' dir name namelen entries (i + 1) (Some b) DIR_ENTRY_SIZE
      end
    else
      let! found := match_entry namelen name b de in
      if found : bool then ret (Some (b, de))
      else find_entry_loop fuel' dir name namelen entries (i + 1) (Some b) (de + DIR_ENTRY_SIZE)
  end.

(** The directory and the length after the treatment of [..]: it stays in the
    root of the task, and leaves a mounted file system for the directory below
    the one it is mounted on. *)
Definition dot_dot (dir name namelen : Z) : M kernel (Z * Z) :=
  if negb (namelen =? 2) then ret (dir, namelen) else
  let! c0 := get_fs_byte name in
  let! c1 := get_fs_byte (name + 1) in
  if negb (c0 =? dot) || negb (c1 =? dot) then ret (dir, namelen) else
  let! t := on_sched get_current in
  let! n := get_inode dir in
  if bool_decide (Some dir = root t) then ret (dir, 1) else
  if i_num n =? ROOT_INO then
    let! r := get_super (i_dev n) in
    let! sbi := valid r in
    let! sb := get_sb sbi in
    match s_imount sb with
    | None => ret (dir, namelen)
    | Some _ =>
      do! iput (Some dir) in
      let! sb := get_sb sbi in
      let! dir := valid (s_imount sb) in
      do! set_inode dir (fun n => n <| i_count ::= fun c => u16 (c + 1) |>) in
      ret (dir, namelen)
    end
  else ret (dir, namelen).

(** The new value of [*dir], and the entry. *)
Definition find_entry (dir name namelen : Z) : M kernel (Z * option (Z * Z)) :=
  if negb (istrue namelen) then ret (dir, None) else
  let namelen := Z.min namelen NAME_LEN in
  let! n := get_inode dir in
  let entries := dir_entries n in
  let! '(dir, namelen) := dot_dot dir name namelen in
  let! block := get_zone dir 0 in
  if negb (istrue block) then ret (dir, None) else
  let! n := get_inode dir in
  let! bh := bread (i_dev n) block in
  match bh with
  | None => ret (dir, None)
  | Some bh =>
    let! r := find_entry_loop (Datatypes.S (Z.to_nat entries)) dir name namelen entries 0 (Some bh) 0 in
    ret (dir, r)
  end.

(** ** New entries *)

(** The name of the entry, padded with zeros. *)
Definition copy_name (bh de name namelen : Z) : M kernel unit :=
  for_range 0 (Z.to_nat NAME_LEN) (fun i =>
    let! c := (if i <? namelen then get_fs_byte (name + i) else ret 0) in
    set_de_name bh de i c).

(** The body of the loop of [add_entry] after the change of block: the entry,
    if it is free. *)
Definition try_entry (dir name namelen i bh de : Z) : M kernel bool :=
  let! n := get_inode dir in
  do! when (u32 (i_size n) <=? u32 (i * DIR_ENTRY_SIZE)) (
    do! set_de_inode_nr bh de 0 in
    let! t := gets (fun s => CURRENT_TIME (sch s)) in
    set_inode dir (fun n => n <| i_size := u32 ((i + 1) * DIR_ENTRY_SIZE) |> <| i_dirt := 1 |>
                              <| i_ctime := u32 t |>)) in
  let! nr := de_inode_nr bh de in
  if istrue nr then ret false else
  let! t := gets (fun s => CURRENT_TIME (sch s)) in
  do! set_inode dir (fun n => n <| i_mtime := u32 t |>) in
  do! copy_name bh de name namelen in
  do! set_bh bh (fun b => b <| b_dirt := 1 |>) in
  ret true.

Fixpoint add_entry_loop (fuel : nat) (dir name namelen i : Z) (bh : option Z) (de : Z)
  : M kernel (option (Z * Z)) :=
  match fuel with
  | O => Prelude.blocked
  | Datatypes.S fuel' =>
    let! b := valid bh in
    let! r :=
      (if BLOCK_SIZE <=? de then
         do! brelse (Some b) in
         let! block := create_block dir (i / DIR_ENTRIES_PER_BLOCK) in
         if negb (istrue block) then ret (inl true) else
         let! n := get_inode dir in
         let! r := bread (i_dev n) block in
         ret (match r with Some b => inr (b, 0) | None => inl false end)
       else ret (inr (b, de))) in
    match r with
    | inl true => ret None
    | inl false => add_entry_loop fuel' dir name namelen (i + DIR_ENTRIES_PER_BLOCK) None de
    | inr (b, de) =>
      let! free := try_entry dir name namelen i b de in
      if free : bool then ret (Some (b, de))
      else add_entry_loop fuel' dir name namelen (i + 1) (Some b) (de + DIR_ENTRY_SIZE)
    end
  end.

(** An entry beyond the size of the directory is free. *)
Definition add_entry (dir name namelen : Z) : M kernel (option (Z * Z)) :=
  let namelen := Z.min namelen NAME_LEN in
  if negb (istrue namelen) then ret None else
  let! block := get_zone dir 0 in
  if negb (istrue block) then ret None else
  let! n := get_inode dir in
  let! bh := bread (i_dev n) block in
  match bh with
  | None => ret None
  | Some bh => add_entry_loop (Z.to_nat (dir_entries n + 2)) dir name namelen 0 (Some bh) 0
  end.

(** ** Paths *)

Definition path_fuel (s : kernel) : nat := Datatypes.S (size (user s)).

(** The scan of a name: its length, and the character after it. *)
Fixpoint name_length (fuel : nat) (pathname namelen : Z) : M kernel (Z * Z) :=
  match fuel with
  | O => Prelude.blocked
  | Datatypes.S fuel' =>
    let! c := get_fs_byte pathname in
    if istrue c && negb (c =? slash) then name_length fuel' (pathname + 1) (namelen + 1)
    else ret (namelen, c)
  end.

(** [while (1)] of [get_dir]; the part that starts at [pathname] is next. *)
Fixpoint get_dir_loop (fuel : nat) (inode pathname : Z) : M kernel (option Z) :=
  match fuel with
  | O => Prelude.blocked
  | Datatypes.S fuel' =>
    let! n := get_inode inode in
    let! allowed := permission inode MAY_EXEC in
    if negb (S_ISDIR (i_mode n)) || negb allowed then do! iput (Some inode) in ret None else
    let! f := gets path_fuel in
    let! '(namelen, c) := name_length f pathname 0 in
    if negb (istrue c) then ret (Some inode) else
    let! '(inode, r) := find_entry inode pathname namelen in
    match r with
    | None => do! iput (Some inode) in ret None
    | Some (bh, de) =>
      let! inr := de_inode_nr bh de in
      let! n := get_inode inode in
      let idev := i_dev n in
      do! brelse (Some bh) in
      do! iput (Some inode) in
      let! inode := iget idev inr in
      get_dir_loop fuel' inode (pathname + namelen + 1)
    end
  end.

(** A pointer of the task to an inode in use. *)
Definition used_inode (i : option Z) (msg : string) : M kernel Z :=
  match i with
  | None => panic msg
  | Some i => let! n := get_inode i in if istrue (i_count n) then ret i else panic msg
  end.

Definition get_dir (pathname : Z) : M kernel (option Z) :=
  let! t := on_sched get_current in
  let! root := used_inode (root t) "No root inode" in
  let! pwd := used_inode (pwd t) "No cwd inode" in
  let! c := get_fs_byte pathname in
  if negb (istrue c) then ret None else
  let inode := if c =? slash then root else pwd in
  let pathname := if c =? slash then pathname + 1 else pathname in
  do! set_inode inode (fun n => n <| i_count ::= fun c => u16 (c + 1) |>) in
  let! f := gets path_fuel in
  get_dir_loop f inode pathname.

(** The scan of [dir_namei]: where the last name starts, and the end. *)
Fixpoint last_name (fuel : nat) (pathname basename : Z) : M kernel (Z * Z) :=
  match fuel with
  | O => Prelude.blocked
  | Datatypes.S fuel' =>
    let! c := get_fs_byte pathname in
    if negb (istrue c) then ret (basename, pathname)
    else last_name fuel' (pathname + 1) (if c =? slash then pathname + 1 else basename)
  end.

(** The directory, the length and the start of the last name. *)
Definition dir_namei (pathname : Z) : M kernel (option (Z * Z * Z)) :=
  let! r := get_dir pathname in
  match r with
  | None => ret None
  | Some dir =>
    let! f := gets path_fuel in
    let! '(basename, last) := last_name f pathname pathname in
    ret (Some (dir, last - basename, basename))
  end.

Definition namei (pathname : Z) : M kernel (option Z) :=
  let! r := dir_namei pathname in
  match r with
  | None => ret None
  | Some (dir, namelen, basename) =>
    if negb (istrue namelen) then ret (Some dir) else
    let! '(dir, r) := find_entry dir basename namelen in
    match r with
    | None => do! iput (Some dir) in ret None
    | Some (bh, de) =>
      let! inr := de_inode_nr bh de in
      let! n := get_inode dir in
      let dev := i_dev n in
      do! brelse (Some bh) in
      do! iput (Some dir) in
      let! dir := iget dev inr in
      let! t := gets (fun s => CURRENT_TIME (sch s)) in
      do! set_inode dir (fun n => n <| i_atime := u32 t |> <| i_dirt := 1 |>) in
      ret (Some dir)
    end
  end.
End namei.
