(* ===== verification/Link.v ===== *)
(** * The calls on directory entries: fs/namei.c

    [open_namei] and the system calls that make and remove entries. *)

From Stdlib Require Import ZArith Lia.
From stdpp Require Import base numbers list gmap strings.
From S2P Require Import Prelude Memory Task Sched Kernel Blk Buffer Posix Bitmap Inode Namei.

Definition is_suser : M kernel bool := on_sched (gets suser).
Definition time_now : M kernel Z := gets (fun s => u32 (CURRENT_TIME (sch s))).

Section calls.
Context {E : Env}.

(** The releases before the error returns. *)
Definition put_fail (i : Z) (e : Z) : M kernel Z := do! iput (Some i) in ret (- e).
Definition put2_fail (i j : Z) (e : Z) : M kernel Z :=
  do! iput (Some i) in do! iput (Some j) in ret (- e).
Definition put2_brelse_fail (i j bh : Z) (e : Z) : M kernel Z :=
  do! iput (Some i) in do! iput (Some j) in do! brelse (Some bh) in ret (- e).

(** ** Opening *)

(** An error number, or the inode. *)
Definition open_namei (pathname flag mode : Z) : M kernel (Z + Z) :=
  let flag := if istrue (Z.land flag O_TRUNC) && negb (istrue (Z.land flag O_ACCMODE))
              then Z.lor flag O_WRONLY else flag in
  let! t := on_sched get_current in
  let mode := Z.lor (Z.land mode (Z.land 0x1ff (Z.lnot (umask t)))) I_REGULAR in
  let! r := dir_namei pathname in
  match r with
  | None => ret (inl (- ENOENT))
  | Some (dir, namelen, basename) =>
    if negb (istrue namelen) then
      if negb (istrue (Z.land flag (Z.lor O_ACCMODE (Z.lor O_CREAT O_TRUNC)))) then ret (inr dir) else
      let! e := put_fail dir EISDIR in ret (inl e)
    else
    let! '(dir, r) := find_entry dir basename namelen in
    match r with
    | None =>
      if negb (istrue (Z.land flag O_CREAT)) then let! e := put_fail dir ENOENT in ret (inl e) else
      let! allowed := permission dir MAY_WRITE in
      if negb allowed then let! e := put_fail dir EACCES in ret (inl e) else
      let! n := get_inode dir in
      let! r := new_inode (i_dev n) in
      match r with
      | None => let! e := put_fail dir ENOSPC in ret (inl e)
      | Some inode =>
        let! t := on_sched get_current in
        do! set_inode inode (fun n => n <| i_uid := euid t |> <| i_mode := u16 mode |> <| i_dirt := 1 |>) in
        let! r := add_entry dir basename namelen in
        match r with
        | None =>
          do! set_inode inode (fun n => n <| i_nlinks ::= fun c => u8 (c - 1) |>) in
          let! e := put2_fail inode dir ENOSPC in ret (inl e)
        | Some (bh, de) =>
          let! n := get_inode inode in
          do! set_de_inode_nr bh de (i_num n) in
          do! set_bh bh (fun b => b <| b_dirt := 1 |>) in
          do! brelse (Some bh) in
          do! iput (Some dir) in
          ret (inr inode)
        end
      end
    | Some (bh, de) =>
      let! inr_ := de_inode_nr bh de in
      let! n := get_inode dir in
      let dev := i_dev n in
      do! brelse (Some bh) in
      do! iput (Some dir) in
      if istrue (Z.land flag O_EXCL) then ret (inl (- EEXIST)) else
      let! inode := iget dev inr_ in
      let! n := get_inode inode in
      let! allowed := permission inode (ACC_MODE flag) in
      if (S_ISDIR (i_mode n) && istrue (Z.land flag O_ACCMODE)) || negb allowed then
        let! e := put_fail inode EPERM in ret (inl e)
      else
        let! t := time_now in
        do! set_inode inode (fun n => n <| i_atime := t |>) in
        do! when (istrue (Z.land flag O_TRUNC)) (truncate inode) in
        ret (inr inode)
    end
  end.

(** ** New entries *)

(** The start of [sys_mknod] and [sys_mkdir]: the directory and the name of an
    entry that does not exist yet, and its new inode; or an error. *)
Definition new_name (filename : Z) : M kernel (Z + Z * Z * Z * Z) :=
  let! su := is_suser in
  if negb su then ret (inl (- EPERM)) else
  let! r := dir_namei filename in
  match r with
  | None => ret (inl (- ENOENT))
  | Some (dir, namelen, basename) =>
    if negb (istrue namelen) then let! e := put_fail dir ENOENT in ret (inl e) else
    let! allowed := permission dir MAY_WRITE in
    if negb allowed then let! e := put_fail dir EPERM in ret (inl e) else
    let! '(dir, r) := find_entry dir basename namelen in
    match r with
    | Some (bh, _) => do! brelse (Some bh) in let! e := put_fail dir EEXIST in ret (inl e)
    | None =>
      let! n := get_inode dir in
      let! r := new_inode (i_dev n) in
      match r with
      | None => let! e := put_fail dir ENOSPC in ret (inl e)
      | Some inode => ret (inr (dir, namelen, basename, inode))
      end
    end
  end.

Definition sys_mknod (filename mode dev : Z) : M kernel Z :=
  let! r := new_name filename in
  match r with
  | inl e => ret e
  | inr (dir, namelen, basename, inode) =>
    do! set_inode inode (fun n => n <| i_mode := u16 mode |>) in
    do! when (S_ISBLK mode || S_ISCHR mode) (set_zone inode 0 dev) in
    let! t := time_now in
    do! set_inode inode (fun n => n <| i_atime := t |> <| i_mtime := t |> <| i_dirt := 1 |>) in
    let! r := add_entry dir basename namelen in
    match r with
    | None =>
      do! iput (Some dir) in
      do! set_inode inode (fun n => n <| i_nlinks := 0 |>) in
      put_fail inode ENOSPC
    | Some (bh, de) =>
      let! n := get_inode inode in
      do! set_de_inode_nr bh de (i_num n) in
      do! set_bh bh (fun b => b <| b_dirt := 1 |>) in
      do! iput (Some dir) in
      do! iput (Some inode) in
      do! brelse (Some bh) in
      ret 0
    end
  end.

(** The entries [.] and [..] of a new directory. *)
Definition first_entries (bh inode dir : Z) : M kernel unit :=
  let! n := get_inode inode in
  do! set_de_inode_nr bh 0 (i_num n) in
  do! set_de_name bh 0 0 dot in
  do! set_de_name bh 0 1 0 in
  let! d := get_inode dir in
  do! set_de_inode_nr bh 16 (i_num d) in
  do! set_de_name bh 16 0 dot in
  do! set_de_name bh 16 1 dot in
  set_de_name bh 16 2 0.

Definition sys_mkdir (pathname mode : Z) : M kernel Z :=
  let! r := new_name pathname in
  match r with
  | inl e => ret e
  | inr (dir, namelen, basename, inode) =>
    let! t := time_now in
    do! set_inode inode (fun n => n <| i_size := 32 |> <| i_dirt := 1 |> <| i_atime := t |> <| i_mtime := t |>) in
    let! n := get_inode inode in
    let! j := new_block (i_dev n) in
    do! set_zone inode 0 j in
    let! zone := get_zone inode 0 in
    if negb (istrue zone) then
      do! iput (Some dir) in
      do! set_inode inode (fun n => n <| i_nlinks ::= fun c => u8 (c - 1) |>) in
      put_fail inode ENOSPC
    else
    do! set_inode inode (fun n => n <| i_dirt := 1 |>) in
    let! n := get_inode inode in
    let! r := bread (i_dev n) zone in
    match r with
    | None =>
      do! iput (Some dir) in
      let! n := get_inode inode in
      let! zone := get_zone inode 0 in
      do! free_block (i_dev n) zone in
      do! set_inode inode (fun n => n <| i_nlinks ::= fun c => u8 (c - 1) |>) in
      put_fail inode ERROR
    | Some dir_block =>
      do! first_entries dir_block inode dir in
      do! set_inode inode (fun n => n <| i_nlinks := 2 |>) in
      do! set_bh dir_block (fun b => b <| b_dirt := 1 |>) in
      do! brelse (Some dir_block) in
      let! t := on_sched get_current in
      do! set_inode inode (fun n =>
        n <| i_mode := u16 (Z.lor I_DIRECTORY (Z.land mode (Z.land 0x1ff (Z.lnot (umask t))))) |> <| i_dirt := 1 |>) in
      let! r := add_entry dir basename namelen in
      match r with
      | None =>
        do! iput (Some dir) in
        let! n := get_inode inode in
        let! zone := get_zone inode 0 in
        do! free_block (i_dev n) zone in
        do! set_inode inode (fun n => n <| i_nlinks := 0 |>) in
        put_fail inode ENOSPC
      | Some (bh, de) =>
        let! n := get_inode inode in
        do! set_de_inode_nr bh de (i_num n) in
        do! set_bh bh (fun b => b <| b_dirt := 1 |>) in
        do! set_inode dir (fun n => n <| i_nlinks ::= fun c => u8 (c + 1) |> <| i_dirt := 1 |>) in
        do! iput (Some dir) in
        do! iput (Some inode) in
        do! brelse (Some bh) in
        ret 0
      end
    end
  end.

(** ** Removal *)

(** The loop of [empty_dir] from entry [nr]: a second [brelse] of the same
    buffer follows a hole. *)
Fixpoint empty_dir_loop (fuel : nat) (inode len nr bh de : Z) : M kernel bool :=
  match fuel with
  | O => Prelude.blocked
  | Datatypes.S fuel' =>
    if len <=? nr then do! brelse (Some bh) in ret true else
    let! r :=
      (if BLOCK_SIZE <=? de then
         do! brelse (Some bh) in
         let! block := bmap inode (nr / DIR_ENTRIES_PER_BLOCK) in
         if negb (istrue block) then ret (inl true) else
         let! n := get_inode inode in
         let! r := bread (i_dev n) block in
         ret (match r with Some bh => inr (bh, 0) | None => inl false end)
       else ret (inr (bh, de))) in
    match r with
    | inl true => empty_dir_loop fuel' inode len (nr + DIR_ENTRIES_PER_BLOCK) bh de
    | inl false => ret false
    | inr (bh, de) =>
      let! used := de_inode_nr bh de in
      if istrue used then do! brelse (Some bh) in ret false
      else empty_dir_loop fuel' inode len (nr + 1) bh (de + DIR_ENTRY_SIZE)
    end
  end.

(** [strcmp] with a constant, on the name of an entry. *)
Fixpoint name_is (s : list Z) (bh de k : Z) : M kernel bool :=
  match s with
  | [] => let! c := de_name bh de k in ret (c =? 0)
  | a :: s => let! c := de_name bh de k in if c =? a then name_is s bh de (k + 1) else ret false
  end.

Definition empty_dir (inode : Z) : M kernel bool :=
  let! n := get_inode inode in
  let len := dir_entries n in
  let! zone := get_zone inode 0 in
  if (len <? 2) || negb (istrue zone) then ret false else
  let! r := bread (i_dev n) zone in
  match r with
  | None => ret false
  | Some bh =>
    let! n := get_inode inode in
    let! nr0 := de_inode_nr bh 0 in
    let! nr1 := de_inode_nr bh 16 in
    let! is_dot := name_is [dot] bh 0 0 in
    let! is_dot_dot := name_is [dot; dot] bh 16 0 in
    if negb (nr0 =? i_num n) || negb (istrue nr1) || negb is_dot || negb is_dot_dot then ret false else
    empty_dir_loop (Datatypes.S (Z.to_nat len)) inode len 2 bh 32
  end.

(** The start of [sys_rmdir] and [sys_unlink]: the directory, the entry and its
    inode; or an error. *)
Definition old_name (name : Z) : M kernel (Z + Z * Z * Z * Z) :=
  let! r := dir_namei name in
  match r with
  | None => ret (inl (- ENOENT))
  | Some (dir, namelen, basename) =>
    if negb (istrue namelen) then let! e := put_fail dir ENOENT in ret (inl e) else
    let! allowed := permission dir MAY_WRITE in
    if negb allowed then let! e := put_fail dir EPERM in ret (inl e) else
    let! '(dir, r) := find_entry dir basename namelen in
    match r with
    | None => let! e := put_fail dir ENOENT in ret (inl e)
    | Some (bh, de) =>
      let! n := get_inode dir in
      let! nr := de_inode_nr bh de in
      let! inode := iget (i_dev n) nr in
      ret (inr (dir, bh, de, inode))
    end
  end.

Definition sys_rmdir (name : Z) : M kernel Z :=
  let! su := is_suser in
  if negb su then ret (- EPERM) else
  let! r := old_name name in
  match r with
  | inl e => ret e
  | inr (dir, bh, de, inode) =>
    let! t := on_sched get_current in
    let! d := get_inode dir in
    let! n := get_inode inode in
    if istrue (Z.land (i_mode d) S_ISVTX) && istrue (euid t) && negb (i_uid n =? euid t) then
      put2_brelse_fail dir inode bh EPERM else
    if negb (i_dev n =? i_dev d) || (1 <? i_count n) then put2_brelse_fail dir inode bh EPERM else
    if inode =? dir then put2_brelse_fail inode dir bh EPERM else
    if negb (S_ISDIR (i_mode n)) then put2_brelse_fail inode dir bh ENOTDIR else
    let! empty := empty_dir inode in
    if negb empty then put2_brelse_fail inode dir bh ENOTEMPTY else
    do! set_de_inode_nr bh de 0 in
    do! set_bh bh (fun b => b <| b_dirt := 1 |>) in
    do! brelse (Some bh) in
    do! set_inode inode (fun n => n <| i_nlinks := 0 |> <| i_dirt := 1 |>) in
    let! t := time_now in
    do! set_inode dir (fun n => n <| i_nlinks ::= fun c => u8 (c - 1) |>
                                  <| i_mtime := t |> <| i_ctime := t |> <| i_dirt := 1 |>) in
    do! iput (Some dir) in
    do! iput (Some inode) in
    ret 0
  end.

Definition sys_unlink (name : Z) : M kernel Z :=
  let! r := old_name name in
  match r with
  | inl e => ret e
  | inr (dir, bh, de, inode) =>
    let! t := on_sched get_current in
    let! d := get_inode dir in
    let! n := get_inode inode in
    if istrue (Z.land (i_mode d) S_ISVTX) && negb (euid t =? 0) &&
       negb (euid t =? i_uid n) && negb (euid t =? i_uid d) then
      put2_brelse_fail dir inode bh EPERM else
    if S_ISDIR (i_mode n) then put2_brelse_fail inode dir bh EPERM else
    do! when (negb (istrue (i_nlinks n))) (set_inode inode (fun n => n <| i_nlinks := 1 |>)) in
    do! set_de_inode_nr bh de 0 in
    do! set_bh bh (fun b => b <| b_dirt := 1 |>) in
    do! brelse (Some bh) in
    let! t := time_now in
    do! set_inode inode (fun n => n <| i_nlinks ::= fun c => u8 (c - 1) |> <| i_dirt := 1 |> <| i_ctime := t |>) in
    do! iput (Some inode) in
    do! iput (Some dir) in
    ret 0
  end.

Definition sys_link (oldname newname : Z) : M kernel Z :=
  let! r := namei oldname in
  match r with
  | None => ret (- ENOENT)
  | Some oldinode =>
    let! o := get_inode oldinode in
    if S_ISDIR (i_mode o) then put_fail oldinode EPERM else
    let! r := dir_namei newname in
    match r with
    | None => put_fail oldinode EACCES
    | Some (dir, namelen, basename) =>
      if negb (istrue namelen) then put2_fail oldinode dir EPERM else
      let! d := get_inode dir in
      let! o := get_inode oldinode in
      if negb (i_dev d =? i_dev o) then put2_fail dir oldinode EXDEV else
      let! allowed := permission dir MAY_WRITE in
      if negb allowed then put2_fail dir oldinode EACCES else
      let! '(dir, r) := find_entry dir basename namelen in
      match r with
      | Some (bh, _) => do! brelse (Some bh) in put2_fail dir oldinode EEXIST
      | None =>
        let! r := add_entry dir basename namelen in
        match r with
        | None => put2_fail dir oldinode ENOSPC
        | Some (bh, de) =>
          let! o := get_inode oldinode in
          do! set_de_inode_nr bh de (i_num o) in
          do! set_bh bh (fun b => b <| b_dirt := 1 |>) in
          do! brelse (Some bh) in
          do! iput (Some dir) in
          let! t := time_now in
          do! set_inode oldinode (fun n => n <| i_nlinks ::= fun c => u8 (c + 1) |> <| i_ctime := t |> <| i_dirt := 1 |>) in
          do! iput (Some oldinode) in
          ret 0
        end
      end
    end
  end.
End calls.
