(* ===== verification/CharDev.v ===== *)
(** * Character devices and the control of terminals: fs/char_dev.c,
    kernel/chr_drv/tty_ioctl.c, fs/ioctl.c *)

From Stdlib Require Import ZArith Lia.
From stdpp Require Import base numbers list gmap strings.
From S2P Require Import Prelude Memory Task Sched TtyData Kernel Posix TtyIo.

Section char_dev.
Context {E : Env}.

(** ** Reading and writing *)

Definition rw_ttyx (rw minor buf count : Z) : M kernel Z :=
  if rw =? READ then tty_read minor buf count else tty_write minor buf count.

Definition rw_tty (rw minor buf count : Z) : M kernel Z :=
  let! t := on_sched get_current in
  if tty t <? 0 then ret (- EPERM) else rw_ttyx rw (tty t) buf count.

(** What a write to a port does is up to the device. *)
Fixpoint rw_port_loop (n : nat) (rw i buf : Z) : M kernel Z :=
  match n with
  | O => ret i
  | Datatypes.S n' =>
    if 65536 <=? i then ret i else
    do! (if rw =? READ then let! v := gets (inb i) in put_fs_byte v buf else let! _ := get_fs_byte buf in ret tt) in
    rw_port_loop n' rw (i + 1) (buf + 1)
  end.

Definition rw_port (rw buf count filp : Z) : M kernel Z :=
  let! f := get_file filp in
  let! i := rw_port_loop (Z.to_nat count) rw (f_pos f) buf in
  let n := s32 (i - f_pos f) in
  do! set_file filp (fun f => f <| f_pos ::= fun p => s32 (p + n) |>) in
  ret n.

Definition rw_memory (rw minor buf count filp : Z) : M kernel Z :=
  if minor =? 3 then ret (if rw =? READ then 0 else count)
  else if minor =? 4 then rw_port rw buf count filp
  else ret (- EIO).

(** [crw_table] *)
Definition rw_char (rw dev buf count filp : Z) : M kernel Z :=
  let major := MAJOR dev in
  if 8 <=? major then ret (- ENODEV)
  else if major =? 1 then rw_memory rw (MINOR dev) buf count filp
  else if major =? 4 then rw_ttyx rw (MINOR dev) buf count
  else if major =? 5 then rw_tty rw (MINOR dev) buf count
  else ret (- ENODEV).
End char_dev.

(** ** Control *)

Definition TCGETS : Z := 0x5401.
Definition TCSETS : Z := 0x5402.
Definition TCSETSW : Z := 0x5403.
Definition TCSETSF : Z := 0x5404.
Definition TCGETA : Z := 0x5405.
Definition TCSETA : Z := 0x5406.
Definition TCSETAW : Z := 0x5407.
Definition TCSETAF : Z := 0x5408.
Definition TCSBRK : Z := 0x5409.
Definition TCFLSH : Z := 0x540b.
Definition TIOCGPGRP : Z := 0x540f.
Definition TIOCSPGRP : Z := 0x5410.
Definition TIOCOUTQ : Z := 0x5411.
Definition TIOCINQ : Z := 0x541b.

Definition flush (q : tty_queue) : tty_queue := q <| q_head := q_tail q |>.

Definition bytes_of (n : nat) (v : Z) : list Z := map (fun k => u8 (Z.shiftr v (8 * Z.of_nat k))) (seq 0 n).
Fixpoint value_of (l : list Z) : Z := match l with [] => 0 | b :: l => b + 256 * value_of l end.

(** The layout of [struct termios], 36 bytes with the padding at the end; the
    padding of the structure is not kept in the model, and read as zero. *)
Definition termios_bytes (t : termios) : list Z :=
  bytes_of 4 (c_iflag t) ++ bytes_of 4 (c_oflag t) ++ bytes_of 4 (c_cflag t) ++ bytes_of 4 (c_lflag t) ++
  [u8 (c_line t)] ++ map u8 (c_cc t) ++ [0; 0].
Definition termios_of (l : list Z) : termios :=
  Termios (value_of (take 4 l)) (value_of (take 4 (drop 4 l))) (value_of (take 4 (drop 8 l)))
    (value_of (take 4 (drop 12 l))) (value_of (take 1 (drop 16 l))) (take 17 (drop 17 l)).

(** [struct termio], 18 bytes with one of padding. *)
Definition termio_bytes (t : termios) : list Z :=
  bytes_of 2 (c_iflag t) ++ bytes_of 2 (c_oflag t) ++ bytes_of 2 (c_cflag t) ++ bytes_of 2 (c_lflag t) ++
  [u8 (c_line t)] ++ map u8 (take 8 (c_cc t)) ++ [0].

(** The low halves of the flags are replaced. *)
Definition set_low (v lo : Z) : Z := Z.lor (Z.ldiff v 0xffff) lo.
Definition set_termio_fields (l : list Z) (t : termios) : termios :=
  t <| c_iflag ::= fun v => set_low v (value_of (take 2 l)) |>
    <| c_oflag ::= fun v => set_low v (value_of (take 2 (drop 2 l))) |>
    <| c_cflag ::= fun v => set_low v (value_of (take 2 (drop 4 l))) |>
    <| c_lflag ::= fun v => set_low v (value_of (take 2 (drop 6 l))) |>
    <| c_line := value_of (take 1 (drop 8 l)) |>
    <| c_cc ::= fun cc => take 8 (drop 9 l) ++ drop 8 cc |>.

Fixpoint put_user (l : list Z) (a : Z) : M kernel unit :=
  match l with [] => ret tt | c :: l => do! put_fs_byte c a in put_user l (a + 1) end.
Fixpoint get_user (n : nat) (a : Z) : M kernel (list Z) :=
  match n with
  | O => ret []
  | Datatypes.S n' => let! c := get_fs_byte a in let! l := get_user n' (a + 1) in ret (c :: l)
  end.

(** [change_speed] programs the serial line. *)
Definition get_termios (i termios : Z) : M kernel Z :=
  do! verify_area termios 36 in
  let! t := get_tty i in
  do! put_user (termios_bytes (tty_termios t)) termios in
  ret 0.
(** The rate of a serial line, as the divisor of its clock. *)
Definition CBAUD : Z := 0xf.
Definition quotient : list Z := [0; 2304; 1536; 1047; 857; 768; 576; 384; 192; 96; 64; 48; 24; 12; 6; 3].
Definition change_speed (i : Z) : M kernel unit :=
  let! t := get_tty i in
  let port := u16 (q_data (read_q t)) in
  if negb (istrue port) then ret tt else
  let! quot := valid (getz quotient (Z.land (c_cflag (tty_termios t)) CBAUD)) in
  do! outb_p 0x80 (port + 3) in
  do! outb_p (Z.land quot 0xff) port in
  do! outb_p (Z.shiftr quot 8) (port + 1) in
  outb_p 0x03 (port + 3).

Definition set_termios (i termios : Z) : M kernel Z :=
  let! l := get_user 36 termios in
  do! set_tty_with i (fun t => t <| tty_termios := termios_of l |>) in
  do! change_speed i in
  ret 0.
Definition get_termio (i termio : Z) : M kernel Z :=
  do! verify_area termio 18 in
  let! t := get_tty i in
  do! put_user (termio_bytes (tty_termios t)) termio in
  ret 0.
Definition set_termio (i termio : Z) : M kernel Z :=
  let! l := get_user 18 termio in
  do! set_tty_with i (fun t => t <| tty_termios ::= set_termio_fields l |>) in
  do! change_speed i in
  ret 0.

Definition flush_read (i : Z) : M kernel unit := set_tty_with i (fun t => t <| read_q ::= flush |>).
Definition flush_write (i : Z) : M kernel unit := set_tty_with i (fun t => t <| write_q ::= flush |>).

(** The number of the terminal; a negative one of the task is a panic. *)
Definition ioctl_tty (dev : Z) : M kernel Z :=
  if MAJOR dev =? 5 then
    let! t := on_sched get_current in
    if tty t <? 0 then panic "tty_ioctl: dev<0" else ret (tty t)
  else ret (MINOR dev).

(** The other commands are not implemented. *)
Definition tty_ioctl (dev cmd arg : Z) : M kernel Z :=
  let! i := ioctl_tty dev in
  if cmd =? TCGETS then get_termios i arg
  else if cmd =? TCSETSF then do! flush_read i in set_termios i arg
  else if (cmd =? TCSETSW) || (cmd =? TCSETS) then set_termios i arg
  else if cmd =? TCGETA then get_termio i arg
  else if cmd =? TCSETAF then do! flush_read i in set_termio i arg
  else if (cmd =? TCSETAW) || (cmd =? TCSETA) then set_termio i arg
  else if cmd =? TCSBRK then ret 0
  else if cmd =? TCFLSH then
    if arg =? 0 then do! flush_read i in ret 0
    else if arg =? 1 then do! flush_write i in ret 0
    else if arg =? 2 then do! flush_read i in do! flush_write i in ret 0
    else ret (- EINVAL)
  else if cmd =? TIOCGPGRP then
    do! verify_area arg 4 in
    let! t := get_tty i in
    do! put_fs_long (tty_pgrp t) arg in ret 0
  else if cmd =? TIOCSPGRP then
    let! v := get_fs_long arg in
    do! set_tty_with i (fun t => t <| tty_pgrp := s32 v |>) in ret 0
  else if cmd =? TIOCOUTQ then
    do! verify_area arg 4 in
    let! t := get_tty i in
    do! put_fs_long (CHARS (write_q t)) arg in ret 0
  else if cmd =? TIOCINQ then
    do! verify_area arg 4 in
    let! t := get_tty i in
    do! put_fs_long (CHARS (secondary t)) arg in ret 0
  else ret (- EINVAL).

(** An open file of the current task. *)
Definition file_of (fd : Z) : M kernel (option Z) :=
  if (fd <? 0) || (NR_OPEN <=? fd) then ret None else
  let! p := on_sched get_current in valid (getz (filp p) fd).

Definition sys_ioctl (fd cmd arg : Z) : M kernel Z :=
  let! r := file_of fd in
  match r with
  | None => ret (- EBADF)
  | Some filp =>
    let! f := get_file filp in
    let! inode := valid (f_inode f) in
    let! n := get_inode inode in
    if negb (S_ISCHR (i_mode n)) && negb (S_ISBLK (i_mode n)) then ret (- EINVAL) else
    let! dev := valid (getz (i_zone n) 0) in
    let major := MAJOR dev in
    if 8 <=? major then ret (- ENODEV)
    else if (major =? 4) || (major =? 5) then tty_ioctl dev cmd arg
    else ret (- ENOTTY)
  end.
