(* ===== verification/Files.v ===== *)
(** * Open files: fs/read_write.c, fs/fcntl.c, fs/open.c, fs/stat.c

    The system calls on descriptors; [filp] of the current task maps them to
    entries of [file_table]. *)

From Stdlib Require Import ZArith Lia.
From stdpp Require Import base numbers list gmap strings.
From S2P Require Import Prelude Memory Task Sched TtyData Kernel Blk Buffer Posix Bitmap Inode TtyIo.
From S2P Require Import Super FileDev Pipe Namei Link CharDev.

Definition IS_SEEKABLE (x : Z) : bool := (1 <=? x) && (x <=? 3).

Section files.
Context {E : Env}.

(** ** Reading and writing *)

(** The new position, none when it would be negative or the origin is not
    known. *)
Definition seek_to (f_pos i_size offset origin : Z) : option Z :=
  let checked x := if x <? 0 then None else Some x in
  if origin =? 0 then checked offset
  else if origin =? 1 then checked (s32 (f_pos + offset))
  else if origin =? 2 then checked (s32 (i_size + offset))
  else None.

Definition sys_lseek (fd offset origin : Z) : M kernel Z :=
  let! r := file_of fd in
  match r with
  | None => ret (- EBADF)
  | Some filp =>
    let! f := get_file filp in
    match f_inode f with
    | None => ret (- EBADF)
    | Some inode =>
      let! n := get_inode inode in
      if negb (IS_SEEKABLE (MAJOR (i_dev n))) then ret (- EBADF) else
      if istrue (i_pipe n) then ret (- ESPIPE) else
      match seek_to (f_pos f) (i_size n) offset origin with
      | None => ret (- EINVAL)
      | Some pos => do! set_file filp (fun f => f <| f_pos := pos |>) in ret pos
      end
    end
  end.

(** How much of a file of [size] bytes is read from [pos]: the comparison is
    one of unsigned numbers. *)
Definition read_count (size pos count : Z) : Z :=
  if u32 size <? u32 (count + pos) then s32 (size - pos) else count.

Definition sys_read (fd buf count : Z) : M kernel Z :=
  let! r := (if count <? 0 then ret None else file_of fd) in
  match r with
  | None => ret (- EINVAL)
  | Some filp =>
    if count =? 0 then ret 0 else
    do! verify_area buf count in
    let! f := get_file filp in
    let! inode := valid (f_inode f) in
    let! n := get_inode inode in
    if istrue (i_pipe n) then
      if istrue (Z.land (f_mode f) 1) then read_pipe inode buf count else ret (- EIO)
    else if S_ISCHR (i_mode n) then
      let! dev := get_zone inode 0 in rw_char READ dev buf count filp
    else if S_ISBLK (i_mode n) then
      let! dev := get_zone inode 0 in block_read dev filp buf count
    else if S_ISDIR (i_mode n) || S_ISREG (i_mode n) then
      let count := read_count (i_size n) (f_pos f) count in
      if count <=? 0 then ret 0 else file_read inode filp buf count
    else ret (- EINVAL)
  end.

Definition sys_write (fd buf count : Z) : M kernel Z :=
  let! r := (if count <? 0 then ret None else file_of fd) in
  match r with
  | None => ret (- EINVAL)
  | Some filp =>
    if count =? 0 then ret 0 else
    let! f := get_file filp in
    let! inode := valid (f_inode f) in
    let! n := get_inode inode in
    if istrue (i_pipe n) then
      if istrue (Z.land (f_mode f) 2) then write_pipe inode buf count else ret (- EIO)
    else if S_ISCHR (i_mode n) then
      let! dev := get_zone inode 0 in rw_char WRITE dev buf count filp
    else if S_ISBLK (i_mode n) then
      let! dev := get_zone inode 0 in block_write dev filp buf count
    else if S_ISREG (i_mode n) then file_write inode filp buf count
    else ret (- EINVAL)
  end.

(** ** Closing and duplicating *)

Definition clear_close_on_exec (fd : Z) : M kernel unit :=
  on_sched (update_current (fun p => p <| close_on_exec ::= fun x => Z.ldiff x (Z.shiftl 1 fd) |>)).

Definition sys_close (fd : Z) : M kernel Z :=
  if (fd <? 0) || (NR_OPEN <=? fd) then ret (- EINVAL) else
  do! clear_close_on_exec fd in
  let! r := file_of fd in
  match r with
  | None => ret (- EINVAL)
  | Some filp =>
    do! set_filp fd None in
    let! f := get_file filp in
    if f_count f =? 0 then panic "Close: file count is 0" else
    do! set_file filp (fun f => f <| f_count ::= fun c => u16 (c - 1) |>) in
    let! f := get_file filp in
    if istrue (f_count f) then ret 0 else
    do! iput (f_inode f) in
    ret 0
  end.

(** The first unused descriptor from [arg] on, [NR_OPEN] when there is none. *)
Fixpoint free_fd (n : nat) (arg : Z) (filp : list (option Z)) : Z :=
  match n with
  | O => arg
  | Datatypes.S n' =>
    match getz filp arg with
    | Some (Some _) => free_fd n' (arg + 1) filp
    | _ => arg
    end
  end.

Definition dupfd (fd arg : Z) : M kernel Z :=
  let! r := file_of fd in
  match r with
  | None => ret (- EBADF)
  | Some f =>
    if NR_OPEN <=? arg then ret (- EINVAL) else
    let! p := on_sched get_current in
    let arg := free_fd (Z.to_nat (NR_OPEN - arg)) arg (filp p) in
    if NR_OPEN <=? arg then ret (- EMFILE) else
    do! clear_close_on_exec arg in
    do! set_filp arg (Some f) in
    do! set_file f (fun f => f <| f_count ::= fun c => u16 (c + 1) |>) in
    ret arg
  end.

Definition sys_dup2 (oldfd newfd : Z) : M kernel Z :=
  let! _ := sys_close newfd in dupfd oldfd newfd.
Definition sys_dup (fildes : Z) : M kernel Z := dupfd fildes 0.

Definition sys_fcntl (fd cmd arg : Z) : M kernel Z :=
  let! r := file_of fd in
  match r with
  | None => ret (- EBADF)
  | Some filp =>
    if cmd =? F_DUPFD then dupfd fd arg
    else if cmd =? F_GETFD then
      let! p := on_sched get_current in ret (Z.land (Z.shiftr (close_on_exec p) fd) 1)
    else if cmd =? F_SETFD then
      do! (if istrue (Z.land arg 1)
           then on_sched (update_current (fun p => p <| close_on_exec ::= fun x => Z.lor x (Z.shiftl 1 fd) |>))
           else clear_close_on_exec fd) in
      ret 0
    else if cmd =? F_GETFL then let! f := get_file filp in ret (f_flags f)
    else if cmd =? F_SETFL then
      let mask := Z.lor O_APPEND O_NONBLOCK in
      do! set_file filp (fun f => f <| f_flags ::= fun x => Z.lor (Z.ldiff x mask) (Z.land arg mask) |>) in
      ret 0
    else ret (-1)
  end.

(** ** Opening *)

(** The first entry of [file_table] that is not used. *)
Definition free_file : M kernel (option Z) :=
  let! l := gets file_table in
  ret ((fun p => Z.of_nat p.1) <$> list_find (fun f => f_count f = 0) (take (Z.to_nat NR_FILE) l)).

(** A terminal that a session leader without one opens becomes its terminal;
    [/dev/tty] needs one. *)
Definition open_tty (inode : Z) : M kernel bool :=
  let! n := get_inode inode in
  if negb (S_ISCHR (i_mode n)) then ret true else
  let! dev := get_zone inode 0 in
  let! p := on_sched get_current in
  if MAJOR dev =? 4 then
    do! when (istrue (leader p) && (tty p <? 0)) (
      do! on_sched (update_current (fun p => p <| tty := MINOR dev |>)) in
      set_tty_with (MINOR dev) (fun t => t <| tty_pgrp := pgrp p |>)) in
    ret true
  else if MAJOR dev =? 5 then ret (negb (tty p <? 0))
  else ret true.

Definition sys_open (filename flag mode : Z) : M kernel Z :=
  let! p := on_sched get_current in
  let mode := Z.land mode (Z.land 0x1ff (Z.lnot (umask p))) in
  let fd := free_fd (Z.to_nat NR_OPEN) 0 (filp p) in
  if NR_OPEN <=? fd then ret (- EINVAL) else
  do! clear_close_on_exec fd in
  let! r := free_file in
  match r with
  | None => ret (- EINVAL)
  | Some f =>
    do! set_file f (fun f => f <| f_count ::= fun c => u16 (c + 1) |>) in
    do! set_filp fd (Some f) in
    let! r := open_namei filename flag mode in
    match r with
    | inl e =>
      do! set_filp fd None in
      do! clear_count f in
      ret e
    | inr inode =>
      let! allowed := open_tty inode in
      if negb allowed then
        do! iput (Some inode) in
        do! set_filp fd None in
        do! clear_count f in
        ret (- EPERM)
      else
      let! n := get_inode inode in
      do! (if S_ISBLK (i_mode n) then let! dev := get_zone inode 0 in check_disk_change dev else ret tt) in
      let! n := get_inode inode in
      do! set_file f (fun _ => File (i_mode n) (u16 flag) 1 (Some inode) 0) in
      ret fd
    end
  end.

Definition sys_creat (pathname mode : Z) : M kernel Z := sys_open pathname (Z.lor O_CREAT O_TRUNC) mode.

(** ** Attributes of files *)

Definition sys_ustat (dev ubuf : Z) : M kernel Z := ret (- ENOSYS).

Definition sys_utime (filename times : Z) : M kernel Z :=
  let! r := namei filename in
  match r with
  | None => ret (- ENOENT)
  | Some inode =>
    let! '(actime, modtime) :=
      (if istrue times then
         let! a := get_fs_long times in
         let! m := get_fs_long (times + 4) in
         ret (a, m)
       else let! t := time_now in ret (t, t)) in
    do! set_inode inode (fun n => n <| i_atime := actime |> <| i_mtime := modtime |> <| i_dirt := 1 |>) in
    do! iput (Some inode) in
    ret 0
  end.

(** The bits of the mode [sys_access] looks at; the group's are those of the
    owner. *)
Definition access_bits (n : m_inode) (t : task_struct) (i_mode : Z) : Z :=
  if uid t =? i_uid n then Z.shiftr i_mode 6
  else if gid t =? i_gid n then Z.shiftr i_mode 6
  else i_mode.

(** The inode is looked at after it was released. *)
Definition sys_access (filename mode : Z) : M kernel Z :=
  let mode := Z.land mode 7 in
  let! r := namei filename in
  match r with
  | None => ret (- EACCES)
  | Some inode =>
    let! n := get_inode inode in
    let i_mode := Z.land (i_mode n) 0x1ff in
    do! iput (Some inode) in
    let! n := get_inode inode in
    let! t := on_sched get_current in
    if Z.land (Z.land (access_bits n t i_mode) 7) mode =? mode then ret 0 else
    if (uid t =? 0) && (negb (istrue (Z.land mode 1)) || istrue (Z.land i_mode 0x49)) then ret 0
    else ret (- EACCES)
  end.

(** [sys_chdir] and [sys_chroot]: the directory becomes [pwd] or [root]. *)
Definition change_dir (get : task_struct -> option Z) (set : option Z -> task_struct -> task_struct) (filename : Z)
  : M kernel Z :=
  let! r := namei filename in
  match r with
  | None => ret (- ENOENT)
  | Some inode =>
    let! n := get_inode inode in
    if negb (S_ISDIR (i_mode n)) then put_fail inode ENOTDIR else
    let! t := on_sched get_current in
    do! iput (get t) in
    do! on_sched (update_current (set (Some inode))) in
    ret 0
  end.
Definition sys_chdir : Z -> M kernel Z := change_dir pwd (fun d t => t <| pwd := d |>).
Definition sys_chroot : Z -> M kernel Z := change_dir root (fun d t => t <| root := d |>).

Definition sys_chmod (filename mode : Z) : M kernel Z :=
  let! r := namei filename in
  match r with
  | None => ret (- ENOENT)
  | Some inode =>
    let! n := get_inode inode in
    let! t := on_sched get_current in
    if negb (euid t =? i_uid n) && negb (euid t =? 0) then put_fail inode EACCES else
    do! set_inode inode (fun n =>
      n <| i_mode ::= fun m => u16 (Z.lor (Z.land mode 0xfff) (Z.ldiff m 0xfff)) |> <| i_dirt := 1 |>) in
    do! iput (Some inode) in
    ret 0
  end.

Definition sys_chown (filename uid gid : Z) : M kernel Z :=
  let! r := namei filename in
  match r with
  | None => ret (- ENOENT)
  | Some inode =>
    let! su := is_suser in
    if negb su then put_fail inode EACCES else
    do! set_inode inode (fun n => n <| i_uid := u16 uid |> <| i_gid := u8 gid |> <| i_dirt := 1 |>) in
    do! iput (Some inode) in
    ret 0
  end.

(** [struct stat], 32 bytes with two of padding after [st_gid] and none
    elsewhere that is kept. *)
Definition stat_bytes (n : m_inode) (rdev : Z) : list Z :=
  bytes_of 2 (i_dev n) ++ bytes_of 2 (i_num n) ++ bytes_of 2 (i_mode n) ++ bytes_of 1 (i_nlinks n) ++ [0] ++
  bytes_of 2 (i_uid n) ++ bytes_of 1 (i_gid n) ++ [0] ++ bytes_of 2 rdev ++ [0; 0] ++
  bytes_of 4 (i_size n) ++ bytes_of 4 (i_atime n) ++ bytes_of 4 (i_mtime n) ++ bytes_of 4 (i_ctime n).

Definition cp_stat (inode statbuf : Z) : M kernel unit :=
  let! n := get_inode inode in
  let! rdev := get_zone inode 0 in
  do! verify_area statbuf (lenz (stat_bytes n rdev)) in
  put_user (stat_bytes n rdev) statbuf.

Definition sys_stat (filename statbuf : Z) : M kernel Z :=
  let! r := namei filename in
  match r with
  | None => ret (- ENOENT)
  | Some inode =>
    do! cp_stat inode statbuf in
    do! iput (Some inode) in
    ret 0
  end.

Definition sys_fstat (fd statbuf : Z) : M kernel Z :=
  let! r := file_of fd in
  match r with
  | None => ret (- EBADF)
  | Some filp =>
    let! f := get_file filp in
    match f_inode f with
    | None => ret (- EBADF)
    | Some inode => do! cp_stat inode statbuf in ret 0
    end
  end.

(** ** Mounting: fs/super.c *)

Definition set_imount (sbi : Z) (i : option Z) : M kernel unit := set_sb sbi (fun sb => sb <| s_imount := i |>).

(** An inode of the device is in use. *)
Definition device_busy (dev : Z) : M kernel bool :=
  let! l := gets inode_table in
  ret (existsb (fun n => (i_dev n =? dev) && istrue (i_count n)) (take (Z.to_nat NR_INODE) l)).

(** The device a block special file names; or an error. *)
Definition block_special (dev_name : Z) (error : Z) : M kernel (Z + Z) :=
  let! r := namei dev_name in
  match r with
  | None => ret (inl (- ENOENT))
  | Some inode =>
    let! dev := get_zone inode 0 in
    let! n := get_inode inode in
    if negb (S_ISBLK (i_mode n)) then let! e := put_fail inode error in ret (inl e) else
    do! iput (Some inode) in
    ret (inr dev)
  end.

Definition sys_umount (dev_name : Z) : M kernel Z :=
  let! r := block_special dev_name ENOTBLK in
  match r with
  | inl e => ret e
  | inr dev =>
    let! rdev := gets ROOT_DEV in
    if dev =? rdev then ret (- EBUSY) else
    let! r := get_super dev in
    match r with
    | None => ret (- ENOENT)
    | Some sbi =>
      let! sb := get_sb sbi in
      match s_imount sb with
      | None => ret (- ENOENT)
      | Some dir =>
        let! _ := get_inode dir in
        let! busy := device_busy dev in
        if busy : bool then ret (- EBUSY) else
        do! set_inode dir (fun n => n <| i_mount := 0 |>) in
        do! iput (Some dir) in
        do! set_imount sbi None in
        let! sb := get_sb sbi in
        do! iput (s_isuper sb) in
        do! set_sb sbi (fun sb => sb <| s_isuper := None |>) in
        do! put_super dev in
        do! sync_dev dev in
        ret 0
      end
    end
  end.

Definition sys_mount (dev_name dir_name rw_flag : Z) : M kernel Z :=
  let! r := block_special dev_name EPERM in
  match r with
  | inl e => ret e
  | inr dev =>
    let! r := namei dir_name in
    match r with
    | None => ret (- ENOENT)
    | Some dir =>
      let! n := get_inode dir in
      if negb (i_count n =? 1) || (i_num n =? ROOT_INO) then put_fail dir EBUSY else
      if negb (S_ISDIR (i_mode n)) then put_fail dir EPERM else
      let! r := read_super dev in
      match r with
      | None => put_fail dir EBUSY
      | Some sbi =>
        let! sb := get_sb sbi in
        match s_imount sb with
        | Some _ => put_fail dir EBUSY
        | None =>
          let! n := get_inode dir in
          if istrue (i_mount n) then put_fail dir EPERM else
          do! set_imount sbi (Some dir) in
          do! set_inode dir (fun n => n <| i_mount := 1 |> <| i_dirt := 1 |>) in
          ret 0
        end
      end
    end
  end.
End files.
