(* ===== verification/Malloc.v ===== *)
(** * The kernel's allocator: lib/malloc.c

    Bucket descriptors and the chains of free objects are kept in the pages
    themselves, as the code keeps them: a pointer is an address, 0 the null
    pointer, and a descriptor is the four words [page], [next], [freeptr] and
    [refcnt], [bucket_size] (16 bits each) at its address. *)

From Stdlib Require Import ZArith Lia.
From stdpp Require Import base numbers list gmap strings.
From S2P Require Import Prelude Memory Task.

(** [bucket_dir] as pairs of a size and a chain, without the end marker. *)
Record allocator := Allocator { pages : mm; bucket_dir : list (Z * Z); free_bucket_desc : Z }.
#[global] Instance allocator_fields : Fields allocator := fun x =>
  Allocator (pages x) (bucket_dir x) (free_bucket_desc x).
#[global] Instance set_pages : Setter pages := ltac:(solve_setter).
#[global] Instance set_bucket_dir : Setter bucket_dir := ltac:(solve_setter).
#[global] Instance set_free_bucket_desc : Setter free_bucket_desc := ltac:(solve_setter).

Definition empty_bucket_dir : list (Z * Z) :=
  [(16, 0); (32, 0); (64, 0); (128, 0); (256, 0); (512, 0); (1024, 0); (2048, 0); (4096, 0)].

Definition on_pages {A} (m : M mm A) : M allocator A := zoom pages (fun t s => s <| pages := t |>) m.
Definition read_word (a : Z) : M allocator Z := on_pages (load a).
Definition write_word (a v : Z) : M allocator unit := on_pages (store a v).

Definition d_next (d : Z) : Z := d + 4.
Definition d_freeptr (d : Z) : Z := d + 8.
Definition d_counts (d : Z) : Z := d + 12.
Definition counts (refcnt bucket_size : Z) : Z := u16 refcnt + u16 bucket_size * 65536.
Definition refcnt_of (w : Z) : Z := u16 w.
Definition bucket_size_of (w : Z) : Z := u16 (w / 65536).

(** [for (i = n; i > 1; i--)]: each of the objects of [size] bytes from [a]
    on points to the next one at its offset [link]; the last address. *)
Fixpoint link_objects (n : nat) (a size link : Z) : M allocator Z :=
  match n with
  | O => ret a
  | Datatypes.S n' => do! write_word (a + link) (a + size) in link_objects n' (a + size) size link
  end.

Definition init_bucket_desc : M allocator unit :=
  let! first := on_pages get_free_page in
  if first =? 0 then panic "Out of memory in init_bucket_desc()" else
  let! last := link_objects (Z.to_nat (PAGE_SIZE / 16) - 1) first 16 4 in
  let! f := gets free_bucket_desc in
  do! write_word (d_next last) f in
  modify (fun s => s <| free_bucket_desc := first |>).

(** The entry of [bucket_dir] for a size, from entry [i] on. *)
Fixpoint find_bucket (dir : list (Z * Z)) (i len : Z) : option (Z * Z * Z) :=
  match dir with
  | [] => None
  | (size, c) :: dir => if len <=? size then Some (i, size, c) else find_bucket dir (i + 1) len
  end.

(** The loop over a chain: the first descriptor with a free object.  [fuel]
    bounds the length of the chain. *)
Fixpoint find_free (fuel : nat) (d : Z) : M allocator Z :=
  if d =? 0 then ret 0 else
  match fuel with
  | O => Prelude.blocked
  | Datatypes.S fuel' =>
    let! f := read_word (d_freeptr d) in
    if istrue f then ret d else
    let! n := read_word (d_next d) in find_free fuel' n
  end.

(** No chain is longer than the number of pages. *)
Definition chain_fuel : nat := Z.to_nat TOTAL_PAGES.

Definition set_chain (i size c : Z) : M allocator unit :=
  modify (fun s => s <| bucket_dir ::= fun l => setz l i (size, c) |>).

(** A free descriptor and a new page of objects become a bucket, the first one
    of the chain [i]. *)
Definition fill_bucket (i size chain : Z) : M allocator Z :=
  let! d := gets free_bucket_desc in
  let! n := read_word (d_next d) in
  do! modify (fun s => s <| free_bucket_desc := n |>) in
  do! write_word (d_counts d) (counts 0 size) in
  let! cp := on_pages get_free_page in
  do! write_word (d_freeptr d) cp in
  do! write_word d cp in
  if cp =? 0 then panic "Out of memory in kernel malloc()" else
  let! last := link_objects (Z.to_nat (PAGE_SIZE / size) - 1) cp size 0 in
  do! write_word last 0 in
  do! write_word (d_next d) chain in
  do! set_chain i size d in
  ret d.

(** [if (!bdesc)] *)
Definition new_bucket (i size chain : Z) : M allocator Z :=
  let! f := gets free_bucket_desc in
  do! when (negb (istrue f)) init_bucket_desc in
  fill_bucket i size chain.

(** The first free object of a bucket goes out. *)
Definition take_object (d : Z) : M allocator Z :=
  let! retval := read_word (d_freeptr d) in
  let! next := read_word retval in
  do! write_word (d_freeptr d) next in
  let! w := read_word (d_counts d) in
  do! write_word (d_counts d) (counts (refcnt_of w + 1) (bucket_size_of w)) in
  ret retval.

Definition malloc (len : Z) : M allocator Z :=
  let! dir := gets bucket_dir in
  match find_bucket dir 0 len with
  | None => panic "malloc: bad arg"
  | Some (i, size, chain) =>
    let! d := find_free chain_fuel chain in
    let! d := if istrue d then ret d else new_bucket i size chain in
    take_object d
  end.

(** The descriptor of a page in a chain, and the one before it. *)
Fixpoint find_page (fuel : nat) (d prev page : Z) : M allocator (option (Z * Z)) :=
  if d =? 0 then ret None else
  match fuel with
  | O => Prelude.blocked
  | Datatypes.S fuel' =>
    let! p := read_word d in
    if p =? page then ret (Some (d, prev)) else
    let! n := read_word (d_next d) in find_page fuel' n d page
  end.

(** The loop over [bucket_dir], from entry [i] on. *)
Fixpoint find_object (dir : list (Z * Z)) (i page size : Z) : M allocator (Z * Z * Z * Z) :=
  match dir with
  | [] => panic "Bad address passed to kernel free_s()"
  | (bsize, chain) :: dir =>
    if bsize <? size then find_object dir (i + 1) page size else
    let! r := find_page chain_fuel chain 0 page in
    match r with
    | Some (d, prev) => ret (i, bsize, d, prev)
    | None => find_object dir (i + 1) page size
    end
  end.

(** [for (prev = bdir->chain; prev; prev = prev->next)]: the descriptor whose
    next one is [d], or 0. *)
Fixpoint find_prev (fuel : nat) (prev d : Z) : M allocator Z :=
  if prev =? 0 then ret 0 else
  match fuel with
  | O => Prelude.blocked
  | Datatypes.S fuel' =>
    let! n := read_word (d_next prev) in
    if n =? d then ret prev else find_prev fuel' n d
  end.

(** [if (bdesc->refcnt == 0)]: an empty bucket leaves its chain, and its page
    and descriptor are free again. *)
Definition drop_bucket (i bsize d prev : Z) : M allocator unit :=
  let! dir := gets bucket_dir in
  let! '(_, chain) := valid (getz dir i) in
  let! n := if istrue prev then read_word (d_next prev) else ret chain in
  let! prev := if n =? d then ret prev else find_prev chain_fuel chain d in
  let! next := read_word (d_next d) in
  do! (if istrue prev then write_word (d_next prev) next
       else if negb (chain =? d) then panic "malloc bucket chains corrupted"
       else set_chain i bsize next) in
  let! p := read_word d in
  do! on_pages (free_page p) in
  let! f := gets free_bucket_desc in
  do! write_word (d_next d) f in
  modify (fun s => s <| free_bucket_desc := d |>).

(** The object is the first free one of its bucket again; what is left out. *)
Definition give_object (obj d : Z) : M allocator Z :=
  let! f := read_word (d_freeptr d) in
  do! write_word obj f in
  do! write_word (d_freeptr d) obj in
  let! w := read_word (d_counts d) in
  let refcnt := u16 (refcnt_of w - 1) in
  do! write_word (d_counts d) (counts refcnt (bucket_size_of w)) in
  ret refcnt.

Definition free_s (obj size : Z) : M allocator unit :=
  let page := Z.land (u32 obj) 0xfffff000 in
  let! dir := gets bucket_dir in
  let! '(i, bsize, d, prev) := find_object dir 0 page size in
  let! refcnt := give_object obj d in
  if istrue refcnt then ret tt else drop_bucket i bsize d prev.
