(* ===== verification/MallocHeap.v ===== *)
(** * The kernel's heap

    What the descriptors and chains of lib/malloc.c in their pages stand for: a
    [heap] of buckets with their free and used objects. Changes to one bucket,
    and pages that come from the pool, with what they leave alone. *)

From Stdlib Require Import ZArith Lia.
From stdpp Require Import base numbers list gmap strings sorting.
From S2P Require Import Prelude Memory Task Malloc.

(** ** Lists linked through memory

    [linked w off p l]: from the pointer [p], through the words at offset [off],
    the objects at the addresses [l], up to a null pointer. *)

Fixpoint linked (w : Z -> Z) (off p : Z) (l : list Z) : Prop :=
  match l with
  | [] => p = 0
  | a :: l => p = a /\ a <> 0 /\ linked w off (w (a + off)) l
  end.

Lemma linked_ext w w' off p l :
  (forall a, a ∈ l -> w' (a + off) = w (a + off)) -> linked w off p l -> linked w' off p l.
Proof.
  revert p. induction l as [|a l IH]; intros p Hw; [done|]. intros (-> & Ha & Hl).
  split_and!; [done..|]. rewrite Hw by set_solver. apply IH; [|done]. intros. apply Hw. set_solver.
Qed.

Lemma linked_null w off l : linked w off 0 l -> l = [].
Proof. destruct l; [done|]. intros (-> & ? & _). done. Qed.

Lemma linked_in w off p l a : linked w off p l -> a ∈ l -> a <> 0.
Proof.
  revert p. induction l as [|x l IH]; intros p; [set_solver|].
  intros (_ & Hx & Hl) Ha. apply elem_of_cons in Ha as [->|Ha]; [done|by eapply IH].
Qed.

(** Taking an object out of the middle: the one before it is linked to the one
    after it. *)
Lemma linked_remove w w' off p l1 x d l2 :
  linked w off p (l1 ++ x :: d :: l2) -> w' (x + off) = w (d + off) ->
  (forall a, a ∈ l1 ++ l2 -> w' (a + off) = w (a + off)) -> linked w' off p (l1 ++ x :: l2).
Proof.
  revert p. induction l1 as [|a l1 IH]; intros p Hl Hx Hw; simpl in *.
  - destruct Hl as (-> & Hx0 & _ & _ & Hl). split_and!; [done..|]. rewrite Hx.
    eapply linked_ext; [|done]. intros. apply Hw. set_solver.
  - destruct Hl as (-> & Ha & Hl). split_and!; [done..|]. rewrite Hw by set_solver.
    apply IH; [done..|]. intros. apply Hw. set_solver.
Qed.

Lemma linked_app w off p l1 l2 :
  linked w off p (l1 ++ l2) -> exists q, linked w off q l2 /\
    (forall w' l2', (forall a, a ∈ l1 -> w' (a + off) = w (a + off)) -> linked w' off q l2' -> linked w' off p (l1 ++ l2')).
Proof.
  revert p. induction l1 as [|a l1 IH]; intros p; simpl; [naive_solver|].
  intros (-> & Ha & Hl). destruct (IH _ Hl) as (q & Hq & HI). exists q. split; [done|].
  intros w' l2' Hw Hl2. split_and!; [done..|]. rewrite Hw by set_solver.
  apply HI; [|done]. intros. apply Hw. set_solver.
Qed.

(** ** What a state of the allocator stands for *)

(** A bucket: the descriptor, the page, and which of its objects are free, in
    the order of their chain, and which are out. *)
Record bucket := Bucket { bsize : Z; desc : Z; bpage : Z; bfree : list Z; bused : list Z }.

(** The chains of [bucket_dir], the free descriptors, and the pages descriptors
    were made from. *)
Record heap := Heap { chains : list (list bucket); fdescs : list Z; dpages : list Z }.

Definition buckets (H : heap) : list bucket := mjoin (chains H).
Definition bucket_blocks (b : bucket) : list (Z * Z) := (fun o => (o, bsize b)) <$> bused b.
(** The blocks that are out, with their sizes. *)
Definition blocks (H : heap) : list (Z * Z) := buckets H ≫= bucket_blocks.
Definition heap_descs (H : heap) : list Z := (desc <$> buckets H) ++ fdescs H.
Definition heap_pages (H : heap) : list Z := (bpage <$> buckets H) ++ dpages H.

Definition objects (size page : Z) : list Z :=
  (fun i => page + size * i) <$> seqZ 0 (PAGE_SIZE / size).
#[global] Arguments objects : simpl never.
Definition page_of (a : Z) : Z := a - a mod 4096.

Definition W (s : allocator) : Z -> Z := word (pages s).

Record bucket_ok (w : Z -> Z) (size : Z) (b : bucket) : Prop := BucketOk {
  bk_size : bsize b = size;
  bk_page : w (desc b) = bpage b;
  bk_free : linked w 0 (w (desc b + 8)) (bfree b);
  bk_counts : w (desc b + 12) = counts (lenz (bused b)) size;
  bk_objects : bfree b ++ bused b ≡ₚ objects size (bpage b)
}.

Record chain_ok (w : Z -> Z) (e : Z * Z) (bs : list bucket) : Prop := ChainOk {
  ch_linked : linked w 4 (e.2) (desc <$> bs);
  ch_buckets : Forall (bucket_ok w (e.1)) bs
}.

(** A page of the pool that is the allocator's alone. *)
Definition owned (m : mm) (p : Z) : Prop :=
  exists k, 0 <= k < TOTAL_PAGES /\ p = page_address k /\ getz (memory_map m) k = Some 1 /\
    page_address k < HIGH_MEMORY m.

Record pool_ok (m : mm) : Prop := PoolOk {
  po_len : lenz (memory_map m) = TOTAL_PAGES;
  po_high : is_u32 (HIGH_MEMORY m);
  po_reserved : forall k, HIGH_MEMORY m <= page_address k -> getz (memory_map m) k <> Some 0
}.

(** The state [s] stands for the heap [H]. *)
Record heap_wf (s : allocator) (H : heap) : Prop := HeapWf {
  hw_sizes : (bucket_dir s).*1 = empty_bucket_dir.*1;
  hw_chains : Forall2 (chain_ok (W s)) (bucket_dir s) (chains H);
  hw_free : linked (W s) 4 (free_bucket_desc s) (fdescs H);
  hw_descs : NoDup (heap_descs H);
  hw_desc_in : Forall (fun d => d mod 16 = 0 /\ page_of d ∈ dpages H) (heap_descs H);
  hw_pages : NoDup (heap_pages H);
  hw_owned : Forall (owned (pages s)) (heap_pages H);
  hw_pool : pool_ok (pages s)
}.

(** Between two calls, every bucket has an object that is out. *)
Definition heap_ok (s : allocator) (H : heap) : Prop :=
  heap_wf s H /\ Forall (fun b => bused b <> []) (buckets H).

(** The allocator works, or no page is left. *)
Definition wp_oom {A} (m : M allocator A) (Q : A -> allocator -> Prop) (s : allocator) : Prop :=
  match m s with
  | Ok a s' => Q a s'
  | Panic _ s' => forall k, 0 <= k < TOTAL_PAGES -> getz (memory_map (pages s')) k <> Some 0
  | _ => False
  end.

(** Two intervals of addresses. *)
Definition apart (b c : Z * Z) : Prop := b.1 + b.2 <= c.1 \/ c.1 + c.2 <= b.1.

(** Where the state of a bucket is. *)
Definition foot (b : bucket) (a : Z) : Prop := desc b <= a < desc b + 16 \/ bpage b <= a < bpage b + 4096.

(** What the rest of the system sees of a call: the words in pages that were
    never the allocator's, and their counts, stay. *)
Definition elsewhere_same (H H' : heap) (s s' : allocator) : Prop :=
  (forall a, page_of a ∉ heap_pages H ++ heap_pages H' -> W s' a = W s a) /\
  (forall k, page_address k ∉ heap_pages H ++ heap_pages H' ->
     getz (memory_map (pages s')) k = getz (memory_map (pages s)) k).

(** The contents of the blocks that are out. *)
Definition contents_same (H : heap) (s s' : allocator) : Prop :=
  forall b a, b ∈ blocks H -> b.1 <= a < b.1 + b.2 -> W s' a = W s a.

(** ** Objects of a page *)

Definition is_size (size : Z) : Prop := size ∈ empty_bucket_dir.*1.

Lemma is_size_facts size :
  is_size size -> 16 <= size <= 4096 /\ size mod 16 = 0 /\ PAGE_SIZE / size * size = 4096.
Proof.
  unfold is_size. intros H. repeat (apply elem_of_cons in H as [->|H]; [by vm_compute|]).
  by apply elem_of_nil in H.
Qed.

Lemma object_in size p o :
  is_size size -> o ∈ objects size p -> exists i, 0 <= i < PAGE_SIZE / size /\ o = p + size * i.
Proof. intros _ (i & -> & Hi)%list_elem_of_fmap. exists i. split; [by apply elem_of_seqZ in Hi; lia|done]. Qed.

Lemma object_range size p o :
  is_size size -> o ∈ objects size p -> p <= o /\ o + size <= p + 4096 /\ (o - p) mod 16 = 0.
Proof.
  intros Hs (i & Hi & ->)%object_in; [|done]. apply is_size_facts in Hs as (Hs & Hm & Hd).
  split_and!; [nia..|]. replace (p + size * i - p) with (size * i) by lia.
  by rewrite Z.mul_mod, Hm.
Qed.

Lemma objects_NoDup size p : is_size size -> NoDup (objects size p).
Proof.
  intros Hs%is_size_facts. apply (NoDup_fmap_2_strong _ _); [intros i j _ _ H; nia|apply NoDup_seqZ].
Qed.

Lemma objects_apart size p o o' :
  is_size size -> o ∈ objects size p -> o' ∈ objects size p -> o <> o' -> apart (o, size) (o', size).
Proof.
  intros Hs (i & Hi & ->)%object_in (j & Hj & ->)%object_in Hne; [|done..].
  apply is_size_facts in Hs. unfold apart. simpl. assert (i <> j) by congruence.
  destruct (Z.lt_ge_cases i j); [left|right]; nia.
Qed.

Lemma page_of_in p a : p mod 4096 = 0 -> p <= a < p + 4096 -> page_of a = p.
Proof. unfold page_of. intros. dmlia. Qed.

Lemma page_of_range a : page_of a <= a < page_of a + 4096.
Proof. unfold page_of. dmlia. Qed.

Lemma object_page size p o : is_size size -> p mod 4096 = 0 -> o ∈ objects size p -> page_of o = p.
Proof.
  intros Hs Hp Ho. pose proof (object_range size p o Hs Ho). apply is_size_facts in Hs.
  apply page_of_in; [done|lia].
Qed.

Lemma owned_aligned m p : owned m p -> p mod 4096 = 0 /\ LOW_MEM <= p < 16777216.
Proof.
  intros (k & Hk & -> & _). rewrite TOTAL_PAGES_eq in Hk. split; [apply page_address_aligned|].
  unfold page_address, LOW_MEM. lia.
Qed.

Lemma page_address_inj j k : page_address j = page_address k -> j = k.
Proof. unfold page_address. lia. Qed.

(** ** Words of the allocator's memory *)

Definition put (a v : Z) (s : allocator) : allocator :=
  s <| pages ::= fun m => set_phys (<[a / 4 := v]> (phys m)) m |>.

Lemma read_word_ok a s : read_word a s = Ok (W s a) s.
Proof. by destruct s. Qed.
Lemma write_word_ok a v s : write_word a v s = Ok tt (put a v s).
Proof. by destruct s. Qed.

Lemma W_put_eq a v s : W (put a v s) a = v.
Proof. unfold W, put. simpl. apply word_store_eq. Qed.

Lemma W_put_ne a v s b : a mod 4 = 0 -> ~ (a <= b < a + 4) -> W (put a v s) b = W s b.
Proof. intros Ha Hb. unfold W, put. simpl. apply word_store_ne. dmlia. Qed.

Lemma W_fdesc (s : allocator) f a : W (s <| free_bucket_desc := f |>) a = W s a.
Proof. done. Qed.
Lemma W_map (s : allocator) l a : W (s <| pages := set_memory_map l (pages s) |>) a = W s a.
Proof. done. Qed.

(** What stays when only words are written. *)
Record same_but_words (s s' : allocator) : Prop := SameButWords {
  sb_dir : bucket_dir s' = bucket_dir s;
  sb_free : free_bucket_desc s' = free_bucket_desc s;
  sb_map : memory_map (pages s') = memory_map (pages s);
  sb_high : HIGH_MEMORY (pages s') = HIGH_MEMORY (pages s)
}.

Lemma same_refl s : same_but_words s s.
Proof. done. Qed.
Lemma same_put a v s s' : same_but_words s s' -> same_but_words s (put a v s').
Proof. by intros []. Qed.
Lemma same_trans s s' s'' : same_but_words s s' -> same_but_words s' s'' -> same_but_words s s''.
Proof. intros [] []. split; congruence. Qed.

Create HintDb heap.
#[export] Hint Resolve same_refl same_put : heap.

Lemma wp_oom_bind {A B} (m : M allocator A) (k : A -> M allocator B) (Q : B -> allocator -> Prop) s :
  wp_oom m (fun a s' => wp_oom (k a) Q s') s -> wp_oom (bind m k) Q s.
Proof. unfold wp_oom, bind. by destruct (m s). Qed.

Lemma wp_oom_assoc {A B C} (m : M allocator A) (f : A -> M allocator B) (g : B -> M allocator C) Q s :
  wp_oom (bind (bind m f) g) Q s -> wp_oom (bind m (fun a => bind (f a) g)) Q s.
Proof. unfold wp_oom. by rewrite bind_assoc. Qed.

Lemma wp_wp_oom {A} (m : M allocator A) (Q : A -> allocator -> Prop) s : wp m Q s -> wp_oom m Q s.
Proof. unfold wp, wp_oom. by destruct (m s). Qed.

Lemma wp_oom_mono {A} (m : M allocator A) (Q Q' : A -> allocator -> Prop) s :
  wp_oom m Q s -> (forall a s', Q a s' -> Q' a s') -> wp_oom m Q' s.
Proof. unfold wp_oom. destruct (m s); naive_solver. Qed.

Lemma wp_read_word a (Q : Z -> allocator -> Prop) s : Q (W s a) s -> wp (read_word a) Q s.
Proof. unfold wp. by rewrite read_word_ok. Qed.
Lemma wp_write_word a v (Q : unit -> allocator -> Prop) s : Q tt (put a v s) -> wp (write_word a v) Q s.
Proof. unfold wp. by rewrite write_word_ok. Qed.
Lemma oom_read_word a (Q : Z -> allocator -> Prop) s : Q (W s a) s -> wp_oom (read_word a) Q s.
Proof. unfold wp_oom. by rewrite read_word_ok. Qed.
Lemma oom_write_word a v (Q : unit -> allocator -> Prop) s : Q tt (put a v s) -> wp_oom (write_word a v) Q s.
Proof. unfold wp_oom. by rewrite write_word_ok. Qed.

Lemma oom_ret {A} (a : A) (Q : A -> allocator -> Prop) s : Q a s -> wp_oom (ret a) Q s.
Proof. done. Qed.
Lemma oom_gets {A} (f : allocator -> A) (Q : A -> allocator -> Prop) s : Q (f s) s -> wp_oom (gets f) Q s.
Proof. done. Qed.
Lemma oom_modify (f : allocator -> allocator) (Q : unit -> allocator -> Prop) s : Q tt (f s) -> wp_oom (modify f) Q s.
Proof. done. Qed.

Ltac heap_step :=
  first
  [ wp_step
  | lazymatch goal with
    | |- wp (read_word _) _ _ => apply wp_read_word
    | |- wp (write_word _ _) _ _ => apply wp_write_word
    | |- wp_oom (bind _ _) _ _ => apply wp_oom_bind
    | |- wp_oom (read_word _) _ _ => apply oom_read_word
    | |- wp_oom (write_word _ _) _ _ => apply oom_write_word
    | |- wp_oom (ret _) _ _ => apply oom_ret
    | |- wp_oom (gets _) _ _ => apply oom_gets
    | |- wp_oom (modify _) _ _ => apply oom_modify
    end ].
Ltac heap_steps := repeat (heap_step; cbn beta iota).

(** ** Consequences of the invariant *)

(** The link to the next descriptor is the business of the chain. *)
Definition inner (b : bucket) (a : Z) : Prop :=
  desc b <= a < desc b + 4 \/ desc b + 8 <= a < desc b + 16 \/ bpage b <= a < bpage b + 4096.

Lemma bucket_ok_inner w w' size b :
  is_size size -> bpage b mod 4096 = 0 -> (forall a, inner b a -> w' a = w a) ->
  bucket_ok w size b -> bucket_ok w' size b.
Proof.
  intros Hs Hp Hw [H1 H2 H3 H4 H5]. unfold inner in Hw. split; [done| | | |done].
  - rewrite Hw by lia. done.
  - rewrite Hw by lia. eapply linked_ext; [|done]. intros o Ho. apply Hw. right. right.
    assert (o ∈ objects size (bpage b)) as Hin by (rewrite <- H5; set_solver).
    pose proof (object_range _ _ _ Hs Hin). apply is_size_facts in Hs. lia.
  - rewrite Hw by lia. done.
Qed.

Lemma inner_foot b a : inner b a -> foot b a.
Proof. unfold inner, foot. lia. Qed.

Lemma bucket_ok_ext w w' size b :
  is_size size -> bpage b mod 4096 = 0 -> (forall a, foot b a -> w' a = w a) ->
  bucket_ok w size b -> bucket_ok w' size b.
Proof. intros Hs Hp Hw. apply bucket_ok_inner; [done..|]. intros a Ha%inner_foot. auto. Qed.

Lemma chain_ok_ext w w' e bs :
  is_size (e.1) -> Forall (fun b => bpage b mod 4096 = 0) bs ->
  (forall b a, b ∈ bs -> foot b a -> w' a = w a) -> chain_ok w e bs -> chain_ok w' e bs.
Proof.
  intros Hs Hp Hw [H1 H2]. rewrite Forall_forall in Hp, H2. split.
  - eapply linked_ext; [|done]. intros a (b & -> & Hb)%list_elem_of_fmap.
    apply (Hw b); [done|]. left. lia.
  - apply Forall_forall. intros b Hb. apply (bucket_ok_ext w); [done|by apply Hp| |by apply H2].
    intros a. by apply Hw.
Qed.

Section consequences.
Context {s : allocator} {H : heap} (Hwf : heap_wf s H).

Lemma desc_facts d : d ∈ heap_descs H -> d mod 16 = 0 /\ page_of d ∈ dpages H.
Proof using Hwf. intros Hd. pose proof (hw_desc_in _ _ Hwf) as Hin. rewrite Forall_forall in Hin. by apply Hin. Qed.

Lemma bucket_desc b : b ∈ buckets H -> desc b ∈ heap_descs H.
Proof. intros Hb. apply elem_of_app. left. by apply list_elem_of_fmap_2. Qed.

Lemma bucket_page b : b ∈ buckets H -> bpage b ∈ heap_pages H.
Proof. intros Hb. apply elem_of_app. left. by apply list_elem_of_fmap_2. Qed.

Lemma page_owned p : p ∈ heap_pages H -> owned (pages s) p.
Proof using Hwf. intros Hp. pose proof (hw_owned _ _ Hwf) as Hin. rewrite Forall_forall in Hin. by apply Hin. Qed.

Lemma page_aligned p : p ∈ heap_pages H -> p mod 4096 = 0.
Proof using Hwf. intros Hp%page_owned. by apply owned_aligned in Hp as [? _]. Qed.

Lemma buckets_aligned bs : bs ∈ chains H -> Forall (fun b => bpage b mod 4096 = 0) bs.
Proof using Hwf.
  intros Hbs. apply Forall_forall. intros b Hb. apply page_aligned, bucket_page.
  apply list_elem_of_join. by exists bs.
Qed.

Lemma sizes_ok e : e ∈ bucket_dir s -> is_size (e.1).
Proof using Hwf. intros He. unfold is_size. rewrite <- (hw_sizes _ _ Hwf). by apply list_elem_of_fmap_2. Qed.

Lemma bucket_facts b : b ∈ buckets H -> is_size (bsize b) /\ bucket_ok (W s) (bsize b) b.
Proof using Hwf.
  intros (bs & Hb & Hbs)%list_elem_of_join.
  apply list_elem_of_lookup in Hbs as (i & Hi).
  destruct (Forall2_lookup_r _ _ _ _ _ (hw_chains _ _ Hwf) Hi) as (e & He & [_ Hch]).
  rewrite Forall_forall in Hch. specialize (Hch _ Hb). pose proof (bk_size _ _ _ Hch) as ->.
  split; [|done]. apply sizes_ok. by eapply list_elem_of_lookup_2.
Qed.

Lemma page_not_dpage b p : b ∈ buckets H -> p ∈ dpages H -> bpage b <> p.
Proof using Hwf.
  intros Hb Hp <-. pose proof (hw_pages _ _ Hwf) as Hnd. apply NoDup_app in Hnd as (_ & Hnd & _).
  apply (Hnd (bpage b)); [|done]. by apply list_elem_of_fmap_2.
Qed.

Lemma desc_in_page d a : d ∈ heap_descs H -> d <= a < d + 16 -> page_of a = page_of d.
Proof using Hwf. intros [Hd _]%desc_facts Ha. unfold page_of. dmlia. Qed.

(** Descriptors are not in the pages of objects. *)
Lemma desc_page_apart d b a :
  d ∈ heap_descs H -> b ∈ buckets H -> d <= a < d + 16 -> ~ (bpage b <= a < bpage b + 4096).
Proof using Hwf.
  intros Hd Hb Ha Hp. pose proof (desc_in_page _ _ Hd Ha) as E. apply desc_facts in Hd as [_ Hd].
  rewrite <- E in Hd. apply (page_not_dpage _ _ Hb Hd). symmetry.
  by apply page_of_in; [apply page_aligned, bucket_page|].
Qed.

Lemma desc_desc_apart d d' a :
  d ∈ heap_descs H -> d' ∈ heap_descs H -> d <> d' -> d <= a < d + 16 -> ~ (d' <= a < d' + 16).
Proof using Hwf. intros [Hd _]%desc_facts [Hd' _]%desc_facts Hne Ha Ha'. dmlia. Qed.

Lemma page_page_apart p q a :
  p ∈ heap_pages H -> q ∈ heap_pages H -> p <> q -> p <= a < p + 4096 -> ~ (q <= a < q + 4096).
Proof using Hwf. intros Hp%page_aligned Hq%page_aligned Hne Ha Ha'. dmlia. Qed.

Lemma fdesc_apart d b a :
  d ∈ fdescs H -> b ∈ buckets H -> d <= a < d + 16 -> ~ foot b a.
Proof using Hwf.
  intros Hd Hb Ha. assert (d ∈ heap_descs H) as Hin by (apply elem_of_app; by right). intros [Hf|Hf].
  - eapply (desc_desc_apart d (desc b)); eauto using bucket_desc.
    pose proof (hw_descs _ _ Hwf) as Hnd. apply NoDup_app in Hnd as (_ & Hnd & _). intros ->.
    apply (Hnd (desc b)); [by apply list_elem_of_fmap_2|done].
  - by eapply desc_page_apart.
Qed.

(** Two buckets have nothing in common. *)
Lemma foot_apart b R b' a : buckets H ≡ₚ b :: R -> b' ∈ R -> foot b a -> ~ foot b' a.
Proof using Hwf.
  intros HR Hb' Hf Hf'. assert (b ∈ buckets H /\ b' ∈ buckets H) as [Hb1 Hb2] by (rewrite HR; set_solver).
  pose proof (hw_descs _ _ Hwf) as Hd. apply NoDup_app in Hd as (Hd & _ & _).
  pose proof (hw_pages _ _ Hwf) as Hp. apply NoDup_app in Hp as (Hp & _ & _).
  rewrite HR in Hd, Hp. simpl in *. apply NoDup_cons in Hd as [Hd _], Hp as [Hp _].
  assert (desc b <> desc b') by (intros E; apply Hd; rewrite E; by apply list_elem_of_fmap_2).
  assert (bpage b <> bpage b') by (intros E; apply Hp; rewrite E; by apply list_elem_of_fmap_2).
  destruct Hf as [Hf|Hf], Hf' as [Hf'|Hf'].
  - eapply (desc_desc_apart (desc b) (desc b')); eauto using bucket_desc.
  - eapply (desc_page_apart (desc b) b'); eauto using bucket_desc.
  - eapply (desc_page_apart (desc b') b); eauto using bucket_desc.
  - eapply (page_page_apart (bpage b) (bpage b')); eauto using bucket_page.
Qed.

(** No more buckets than pages. *)
Lemma buckets_bound : (length (buckets H) <= chain_fuel)%nat.
Proof using Hwf.
  rewrite <- (length_fmap bpage). transitivity (length (page_address <$> seqZ 0 TOTAL_PAGES)); [|by vm_compute].
  apply submseteq_length, NoDup_submseteq.
  - pose proof (hw_pages _ _ Hwf) as Hp. by apply NoDup_app in Hp as (Hp & _ & _).
  - intros p Hp. destruct (page_owned p) as (k & Hk & -> & _); [apply elem_of_app; by left|].
    apply list_elem_of_fmap_2, elem_of_seqZ. lia.
Qed.
End consequences.

(** ** One bucket changes *)

Lemma buckets_split L1 l1 b l2 L2 F P :
  buckets (Heap (L1 ++ (l1 ++ b :: l2) :: L2) F P) ≡ₚ b :: (mjoin L1 ++ (l1 ++ l2) ++ mjoin L2).
Proof.
  unfold buckets. simpl. rewrite join_app. simpl. rewrite <- app_assoc. simpl.
  rewrite <- app_assoc. rewrite <- !Permutation_middle. done.
Qed.

(** The chains of the other sizes. *)
Lemma chains_ext w w' D L :
  (forall e, e ∈ D -> is_size (e.1)) -> (forall b, b ∈ mjoin L -> bpage b mod 4096 = 0) ->
  (forall b a, b ∈ mjoin L -> foot b a -> w' a = w a) ->
  Forall2 (chain_ok w) D L -> Forall2 (chain_ok w') D L.
Proof.
  intros Hs Hp Hw Hf. induction Hf as [|e bs D L Hc Hf IH]; [done|]. simpl in Hp, Hw. constructor.
  - apply (chain_ok_ext w); [apply Hs; set_solver| | |done].
    + apply Forall_forall. intros b Hb. apply Hp. set_solver.
    + intros b a Hb. apply Hw. set_solver.
  - apply IH; intros; [apply Hs|apply Hp|eapply Hw]; set_solver.
Qed.

Lemma pool_same s s' : same_but_words s s' -> pool_ok (pages s) -> pool_ok (pages s').
Proof. intros [_ _ Hm Hh] [H1 H2 H3]. split; rewrite ?Hm, ?Hh; done. Qed.

Lemma owned_same s s' p : same_but_words s s' -> owned (pages s) p -> owned (pages s') p.
Proof. intros [_ _ Hm Hh] (k & ?). exists k. by rewrite Hm, Hh. Qed.

Lemma heap_update s s' L1 l1 b b' l2 L2 F P :
  heap_wf s (Heap (L1 ++ (l1 ++ b :: l2) :: L2) F P) -> same_but_words s s' ->
  (forall a, ~ foot b a -> W s' a = W s a) -> W s' (desc b + 4) = W s (desc b + 4) ->
  bucket_ok (W s') (bsize b) b' -> desc b' = desc b -> bpage b' = bpage b ->
  heap_wf s' (Heap (L1 ++ (l1 ++ b' :: l2) :: L2) F P).
Proof.
  intros Hwf Hsame Hw Hnext Hok Hd Hp. pose proof (buckets_split L1 l1 b l2 L2 F P) as HR.
  set (H := Heap _ F P) in *. set (R := mjoin L1 ++ (l1 ++ l2) ++ mjoin L2) in *.
  assert (forall x a, x ∈ R -> foot x a -> W s' a = W s a) as Hother.
  { intros x a Hx Hf. apply Hw. intros Hb. by apply (foot_apart Hwf _ _ _ _ HR Hx Hb). }
  assert (forall x, x ∈ R -> bpage x mod 4096 = 0) as Hal.
  { intros x Hx. eapply (page_aligned Hwf), bucket_page. rewrite HR. set_solver. }
  assert (desc <$> buckets (Heap (L1 ++ (l1 ++ b' :: l2) :: L2) F P) = desc <$> buckets H) as Ed.
  { unfold buckets, H. simpl. rewrite !join_app. simpl. rewrite !fmap_app. simpl. by rewrite Hd. }
  assert (bpage <$> buckets (Heap (L1 ++ (l1 ++ b' :: l2) :: L2) F P) = bpage <$> buckets H) as Ep.
  { unfold buckets, H. simpl. rewrite !join_app. simpl. rewrite !fmap_app. simpl. by rewrite Hp. }
  destruct Hwf as [Hs Hc Hf Hnd Hin Hpg Ho Hpool] eqn:E. clear E. split; unfold heap_descs, heap_pages; rewrite ?Ed, ?Ep; try done.
  - by rewrite (sb_dir _ _ Hsame).
  - rewrite (sb_dir _ _ Hsame). pose proof (@sizes_ok _ _ Hwf) as Hsz. simpl in Hc.
    apply Forall2_app_inv_r in Hc as (D1 & D2 & H1 & H2 & HD).
    apply Forall2_cons_inv_r in H2 as (e & D2' & H2 & H3 & ->). rewrite HD in Hsz |- *.
    apply Forall2_app; [|constructor].
    + eapply chains_ext; [| | |done]; [set_solver|intros; apply Hal; set_solver|intros ???; apply Hother; set_solver].
    + destruct H2 as [Hl Hb]. rewrite fmap_app in Hl. apply Forall_app in Hb as [Hb1 Hb2].
      apply Forall_cons in Hb2 as [Hb Hb2]. split.
      * rewrite fmap_app. simpl. rewrite Hd. eapply linked_ext; [|done].
        intros a Ha. apply elem_of_app in Ha. simpl in Ha. rewrite elem_of_cons in Ha.
        destruct Ha as [Ha|[->|Ha]]; [|done|]; apply list_elem_of_fmap in Ha as (x & -> & Hx);
          (apply (Hother x); [set_solver|left; lia]).
      * assert (is_size (e.1)) by (apply Hsz; set_solver).
        rewrite Forall_forall in Hb1, Hb2. apply Forall_app; split; [|constructor].
        -- apply Forall_forall. intros x Hx. apply (bucket_ok_ext (W s)); [done|apply Hal; set_solver| |by apply Hb1].
           intros a. apply Hother. set_solver.
        -- by rewrite <- (bk_size _ _ _ Hb).
        -- apply Forall_forall. intros x Hx. apply (bucket_ok_ext (W s)); [done|apply Hal; set_solver| |by apply Hb2].
           intros a. apply Hother. set_solver.
    + eapply chains_ext; [| | |done]; [set_solver|intros; apply Hal; set_solver|intros ???; apply Hother; set_solver].
  - rewrite (sb_free _ _ Hsame). eapply linked_ext; [|done]. intros a Ha. apply Hw.
    apply (fdesc_apart Hwf a b); [done|rewrite HR; set_solver|lia].
  - eapply Forall_impl; [done|]. intros p. by apply owned_same.
  - by eapply pool_same.
Qed.

(** ** An object goes out *)

Lemma counts_add n size k :
  counts (refcnt_of (counts n size) + k) (bucket_size_of (counts n size)) = counts (n + k) size.
Proof. unfold counts, refcnt_of, bucket_size_of, u16. dmlia. Qed.

Lemma find_free_spec s size fuel bs d :
  linked (W s) 4 d (desc <$> bs) -> Forall (bucket_ok (W s) size) bs -> (length bs <= fuel)%nat ->
  wp (find_free fuel d) (fun r s' => s' = s /\
    ((r = 0 /\ Forall (fun b => bfree b = []) bs) \/
     exists l1 b l2, bs = l1 ++ b :: l2 /\ r = desc b /\ bfree b <> [])) s.
Proof.
  revert d bs. induction fuel as [|fuel IH]; intros d [|b bs] Hl Hb Hf; simpl in Hl, Hf; try lia; simpl.
  1,2: subst d; simpl; wp_steps; split; [done|left; by split].
  destruct Hl as (-> & Hd & Hl). apply Forall_cons in Hb as [Hb Hbs].
  rewrite (proj2 (Z.eqb_neq _ _)) by done. heap_steps. unfold d_freeptr.
  pose proof (bk_free _ _ _ Hb) as Hfree. unfold istrue. destruct (bfree b) as [|o fl] eqn:Ef; simpl in Hfree.
  - rewrite Hfree. simpl. heap_steps. unfold d_next. eapply wp_mono; [apply IH; [done|done|lia]|].
    intros r s' (-> & [[-> Hn]|(l1 & b' & l2 & -> & -> & Hn)]); (split; [done|]); [left|right].
    + split; [done|]. by constructor.
    + by exists (b :: l1), b', l2.
  - destruct Hfree as (-> & Ho & _). rewrite (proj2 (Z.eqb_neq o 0)) by done. simpl. wp_steps.
    split; [done|]. right. exists [], b, bs. by rewrite Ef.
Qed.

Lemma split_in {L1 L2 l1 l2 b F P} : b ∈ buckets (Heap (L1 ++ (l1 ++ b :: l2) :: L2) F P).
Proof. rewrite buckets_split. set_solver. Qed.

Section give.
Context (s : allocator) (L1 L2 : list (list bucket)) (l1 l2 : list bucket) (b : bucket) (F P : list Z).
Context (Hwf : heap_wf s (Heap (L1 ++ (l1 ++ b :: l2) :: L2) F P)).

Lemma split_object o : o ∈ bfree b ++ bused b ->
  bpage b <= o /\ o + bsize b <= bpage b + 4096 /\ o mod 16 = 0 /\ o <> 0 /\ page_of o = bpage b.
Proof using Hwf.
  intros Ho. destruct (bucket_facts Hwf b split_in) as [Hs Hok]. rewrite (bk_objects _ _ _ Hok) in Ho.
  pose proof (object_range _ _ _ Hs Ho) as (H1 & H2 & H3).
  destruct (owned_aligned _ _ (page_owned Hwf _ (bucket_page _ split_in))) as [H4 H5].
  split_and!; [lia|lia| |unfold LOW_MEM in H5; lia|by eapply object_page]. dmlia.
Qed.

Lemma split_desc : desc b mod 16 = 0 /\
  forall a, desc b <= a < desc b + 16 -> ~ (bpage b <= a < bpage b + 4096).
Proof using Hwf.
  split; [apply (desc_facts Hwf), bucket_desc, split_in|].
  intros a. apply (desc_page_apart Hwf); [apply bucket_desc, split_in|apply split_in].
Qed.

Lemma take_object_spec o fl :
  bfree b = o :: fl ->
  wp (take_object (desc b)) (fun r s' => r = o /\ same_but_words s s' /\
    (forall a, ~ (desc b <= a < desc b + 16) -> W s' a = W s a) /\
    heap_wf s' (Heap (L1 ++ (l1 ++ Bucket (bsize b) (desc b) (bpage b) fl (o :: bused b) :: l2) :: L2) F P)) s.
Proof using Hwf.
  intros Hfree. destruct (bucket_facts Hwf b split_in) as [Hs [_ Hpg Hfr Hc Hobj]].
  destruct split_desc as [Hd Hdp]. rewrite Hfree in Hfr. destruct Hfr as (Hfr & Ho & Hfl).
  destruct (split_object o) as (Ho1 & Ho2 & Ho3 & _); [rewrite Hfree; set_solver|].
  unfold take_object, d_freeptr, d_counts. heap_steps. rewrite Hfr.
  assert (forall x, x ∈ fl -> bpage b <= x /\ x + bsize b <= bpage b + 4096) as Hin.
  { intros x Hx. destruct (split_object x) as (? & ? & _); [rewrite Hfree; set_solver|done]. }
  rewrite W_put_ne by dmlia. rewrite Hc, counts_add. pose proof (is_size_facts _ Hs) as (Hsz & _).
  assert (forall v a, ~ (desc b <= a < desc b + 16) ->
    W (put (desc b + 12) (counts (lenz (bused b) + 1) (bsize b)) (put (desc b + 8) v s)) a = W s a) as Hout.
  { intros v a Ha. by rewrite !W_put_ne by dmlia. }
  assert (same_but_words s (put (desc b + 12) (counts (lenz (bused b) + 1) (bsize b)) (put (desc b + 8) (W s o) s)))
    as Hsame by auto with heap.
  split_and!; [done|done|auto|]. eapply (heap_update _ _ _ _ _ _ _ _ _ _ Hwf Hsame); try done.
  - intros a Ha. apply Hout. unfold foot in Ha. lia.
  - by rewrite !W_put_ne by dmlia.
  - split; simpl; [done| | | |].
    + rewrite !W_put_ne by dmlia. done.
    + rewrite W_put_ne, W_put_eq by dmlia. rewrite Z.add_0_r in Hfl. eapply linked_ext; [|done].
      intros x Hx. apply Hout. destruct (Hin x Hx). intros Ha. apply (Hdp _ Ha). lia.
    + rewrite W_put_eq. rewrite lenz_cons. f_equal. lia.
    + rewrite <- Hobj, Hfree. simpl. by rewrite Permutation_middle.
Qed.

Lemma give_object_spec o us :
  bused b ≡ₚ o :: us ->
  wp (give_object o (desc b)) (fun r s' => r = lenz us /\ same_but_words s s' /\
    (forall a, ~ (desc b <= a < desc b + 16) -> ~ (o <= a < o + 4) -> W s' a = W s a) /\
    heap_wf s' (Heap (L1 ++ (l1 ++ Bucket (bsize b) (desc b) (bpage b) (o :: bfree b) us :: l2) :: L2) F P)) s.
Proof using Hwf.
  intros Hused. destruct (bucket_facts Hwf b split_in) as [Hs [_ Hpg Hfr Hc Hobj]].
  destruct split_desc as [Hd Hdp]. destruct (split_object o) as (Ho1 & Ho2 & Ho3 & Ho & _); [rewrite Hused; set_solver|].
  pose proof (is_size_facts _ Hs) as (Hsz & _ & Hn).
  assert (lenz (bused b) = 1 + lenz us) as Hlen by (unfold lenz; rewrite Hused; simpl; lia).
  assert (1 + lenz us <= 256) as Hmax.
  { rewrite <- Hlen. apply Permutation_length in Hobj. unfold objects in Hobj.
    rewrite length_fmap, length_seqZ, length_app in Hobj. unfold lenz. nia. }
  unfold give_object, d_freeptr, d_counts. heap_steps.
  assert (forall x, x ∈ bfree b -> ~ (o <= x < o + 4) /\ ~ (desc b <= x < desc b + 16)) as Hin.
  { intros x Hx. destruct (split_object x) as (? & ? & ? & _); [set_solver|].
    assert (x <> o).
    { intros ->. pose proof (objects_NoDup _ (bpage b) Hs) as Hnd. rewrite <- Hobj, Hused in Hnd.
      apply NoDup_app in Hnd as (_ & Hnd & _). apply (Hnd o); set_solver. }
    split; [intros ?; dmlia|intros Ha; apply (Hdp _ Ha); lia]. }
  assert (~ (o <= desc b + 12 < o + 4) /\ ~ (o <= desc b + 8 < o + 4) /\ ~ (o <= desc b + 4 < o + 4) /\ ~ (o <= desc b < o + 4)) as (N1 & N2 & N3 & N4).
  { split_and!; intros ?; [apply (Hdp (desc b + 12))|apply (Hdp (desc b + 8))|apply (Hdp (desc b + 4))|apply (Hdp (desc b))]; lia. }
  rewrite (W_put_ne (desc b + 8)), (W_put_ne o) by dmlia.
  assert (~ (desc b <= o < desc b + 16)) as No by (intros Ha; apply (Hdp _ Ha); lia).
  rewrite Hc, Hlen.
  assert (u16 (refcnt_of (counts (1 + lenz us) (bsize b)) - 1) = lenz us) as ->.
  { unfold counts, refcnt_of, u16. pose proof (lenz_nonneg us). dmlia. }
  assert (counts (lenz us) (bucket_size_of (counts (1 + lenz us) (bsize b))) = counts (lenz us) (bsize b)) as ->.
  { unfold counts, bucket_size_of, u16. dmlia. }
  set (s3 := put (desc b + 12) _ _).
  assert (forall a, ~ (desc b <= a < desc b + 16) -> ~ (o <= a < o + 4) -> W s3 a = W s a) as Hout.
  { intros a Ha Ha'. unfold s3. by rewrite !W_put_ne by dmlia. }
  assert (same_but_words s s3) as Hsame by (unfold s3; auto with heap).
  split_and!; [done|done|auto|]. eapply (heap_update _ _ _ _ _ _ _ _ _ _ Hwf Hsame); try done.
  - intros a Ha. unfold foot in Ha. apply Hout; lia.
  - unfold s3. by rewrite !W_put_ne by dmlia.
  - unfold s3. split; simpl; [done| | | |].
    + rewrite !W_put_ne by dmlia. done.
    + rewrite W_put_ne, W_put_eq by dmlia. split_and!; [done..|].
      rewrite Z.add_0_r, W_put_ne, W_put_ne, W_put_eq by dmlia.
      eapply linked_ext; [|done]. intros x Hx. rewrite Z.add_0_r. destruct (Hin x Hx). by apply Hout.
    + by rewrite W_put_eq.
    + rewrite <- Hobj, Hused. simpl. by rewrite Permutation_middle.
Qed.
End give.

(** ** Pages come and go *)

Lemma foot_page s H b a : heap_wf s H -> b ∈ buckets H -> foot b a -> page_of a ∈ heap_pages H.
Proof.
  intros Hwf Hb [Ha|Ha].
  - rewrite (desc_in_page Hwf (desc b)); [|by apply bucket_desc|done].
    apply elem_of_app. right. by apply (desc_facts Hwf), bucket_desc.
  - rewrite (page_of_in (bpage b)); [by apply bucket_page|by eapply (page_aligned Hwf), bucket_page|done].
Qed.

Lemma fdesc_page s H d a : heap_wf s H -> d ∈ fdescs H -> d <= a < d + 16 -> page_of a ∈ heap_pages H.
Proof.
  intros Hwf Hd Ha. assert (d ∈ heap_descs H) as Hin by (apply elem_of_app; by right).
  rewrite (desc_in_page Hwf d) by done. apply elem_of_app. right. by apply (desc_facts Hwf).
Qed.

(** What happens outside the allocator's pages. *)
Lemma heap_frame s s' H :
  heap_wf s H -> (forall a, page_of a ∈ heap_pages H -> W s' a = W s a) ->
  bucket_dir s' = bucket_dir s -> free_bucket_desc s' = free_bucket_desc s ->
  (forall p, p ∈ heap_pages H -> owned (pages s') p) -> pool_ok (pages s') -> heap_wf s' H.
Proof.
  intros Hwf Hw Hd Hf Ho Hp. split; try apply Hwf; try done.
  - rewrite Hd. apply Hwf.
  - rewrite Hd. apply (chains_ext (W s)); [apply (sizes_ok Hwf)| | |apply Hwf].
    + intros b Hb. eapply (page_aligned Hwf), bucket_page, Hb.
    + intros b a Hb Ha. apply Hw. by eapply (foot_page s H b).
  - rewrite Hf. eapply linked_ext; [|apply Hwf]. intros d Hin. apply Hw.
    eapply (fdesc_page s H d); [done..|lia].
  - by apply Forall_forall.
Qed.

(** A page is taken from the pool. *)
Record grabbed (k : Z) (s s' : allocator) : Prop := Grabbed {
  gr_range : 0 <= k < TOTAL_PAGES;
  gr_free : getz (memory_map (pages s)) k = Some 0;
  gr_managed : page_address k < HIGH_MEMORY (pages s);
  gr_map : memory_map (pages s') = setz (memory_map (pages s)) k 1;
  gr_high : HIGH_MEMORY (pages s') = HIGH_MEMORY (pages s);
  gr_words : forall a, page_of a <> page_address k -> W s' a = W s a;
  gr_dir : bucket_dir s' = bucket_dir s;
  gr_fdesc : free_bucket_desc s' = free_bucket_desc s
}.

Lemma get_page_spec s :
  pool_ok (pages s) ->
  wp (on_pages get_free_page) (fun r s' =>
    (r = 0 /\ s' = s /\ forall k, 0 <= k < TOTAL_PAGES -> getz (memory_map (pages s)) k <> Some 0) \/
    exists k, r = page_address k /\ grabbed k s s') s.
Proof.
  intros [Hlen Hhigh Hres]. apply wp_zoom. apply wp_ok.
  destruct (get_free_page_spec (pages s) Hlen) as (r & m & E & Hr). exists r, m. split; [done|].
  destruct Hr as [(-> & -> & Hfull)|(k & Hk & -> & Hz & _ & Hm & Hh & Hw)]; [left|right].
  - by destruct s.
  - exists k. split; [done|]. split; try done.
    + destruct (Z.lt_ge_cases (page_address k) (HIGH_MEMORY (pages s))) as [|Hge]; [done|]. by destruct (Hres k Hge).
    + intros a Ha. unfold W. simpl. rewrite Hw. unfold in_page. rewrite (proj2 (Z.eqb_neq _ _)); [done|].
      pose proof (page_address_aligned k). intros Heq. apply Ha. unfold page_of. dmlia.
Qed.

Lemma grabbed_fresh k s s' p : grabbed k s s' -> owned (pages s) p -> p <> page_address k /\ owned (pages s') p.
Proof.
  intros [Hk Hz _ Hm Hh _ _ _] (j & Hj & -> & H1 & H2). assert (j <> k) by congruence. split.
  - by intros ->%page_address_inj.
  - exists j. rewrite Hm, Hh, getz_setz_ne by done. done.
Qed.

Lemma grabbed_owned k s s' : pool_ok (pages s) -> grabbed k s s' -> owned (pages s') (page_address k).
Proof.
  intros Hp [Hk Hz Hmg Hm Hh _ _ _]. exists k. rewrite Hm, Hh, getz_setz_eq; [done|]. by rewrite (po_len _ Hp).
Qed.

Lemma grabbed_pool k s s' : pool_ok (pages s) -> grabbed k s s' -> pool_ok (pages s').
Proof.
  intros [Hl Hh Hr] [Hk Hz Hmg Hm Hh' _ _ _]. split; rewrite ?Hm, ?Hh'; [by rewrite lenz_setz|done|].
  intros j Hj. rewrite getz_setz_ne; [by apply Hr|]. intros ->. lia.
Qed.

Lemma grabbed_heap k s s' H : heap_wf s H -> grabbed k s s' -> heap_wf s' H /\ page_address k ∉ heap_pages H.
Proof.
  intros Hwf Hg. assert (page_address k ∉ heap_pages H) as Hn.
  { intros Hin. by destruct (grabbed_fresh _ _ _ _ Hg (page_owned Hwf _ Hin)). }
  split; [|done]. eapply heap_frame; [done|..].
  - intros a Ha. apply (gr_words _ _ _ Hg). congruence.
  - apply Hg.
  - apply Hg.
  - intros p Hp. by eapply grabbed_fresh, (page_owned Hwf).
  - eapply grabbed_pool; [apply Hwf|done].
Qed.

(** ** Rows of objects *)

Lemma linked_row w off p size i n l :
  (forall j, i <= j < i + Z.of_nat n -> w (p + size * j + off) = p + size * (j + 1)) ->
  0 < p -> 0 <= size -> 0 <= i -> linked w off (w (p + size * (i + Z.of_nat n) + off)) l ->
  linked w off (p + size * i) (((fun j => p + size * j) <$> seqZ i (Z.of_nat n + 1)) ++ l).
Proof.
  intros Hw Hp Hs. revert i Hw. induction n as [|n IH]; intros i Hw Hi Hl.
  - rewrite (seqZ_cons i) by lia. simpl. rewrite Z.add_0_r in Hl. split_and!; [done|nia|done].
  - rewrite seqZ_cons by lia. simpl. split_and!; [done|nia|]. rewrite Hw by lia.
    replace (Z.pred (Z.of_nat (Datatypes.S n) + 1)) with (Z.of_nat n + 1) by lia.
    replace (Z.succ i) with (i + 1) by lia. apply IH; [intros j Hj; apply Hw; lia|lia|].
    by replace (i + 1 + Z.of_nat n) with (i + Z.of_nat (Datatypes.S n)) by lia.
Qed.

Lemma link_objects_spec n a size link s :
  a mod 4 = 0 -> size mod 4 = 0 -> link mod 4 = 0 -> 0 <= link -> link + 4 <= size ->
  wp (link_objects n a size link) (fun r s' =>
    r = a + size * Z.of_nat n /\ same_but_words s s' /\
    (forall i, 0 <= i < Z.of_nat n -> W s' (a + size * i + link) = a + size * (i + 1)) /\
    forall x, ~ (a <= x < a + size * Z.of_nat n) -> W s' x = W s x) s.
Proof.
  revert a s. induction n as [|n IH]; intros a s Ha Hs Hl Hl0 Hls; cbn [link_objects]; heap_steps.
  - split_and!; [lia|done|intros; lia|done].
  - eapply wp_mono; [apply IH; [|done..]; dmlia|]. intros r s' (-> & Hsame & Hw & Hout). split_and!.
    + lia.
    + eapply same_trans; [|done]. auto with heap.
    + intros i Hi. destruct (decide (i = 0)) as [->|].
      * rewrite Hout by nia. replace (a + size * 0 + link) with (a + link) by lia. rewrite W_put_eq. lia.
      * replace (a + size * i + link) with (a + size + size * (i - 1) + link) by lia. rewrite Hw by lia. lia.
    + intros x Hx. rewrite Hout by nia. apply W_put_ne; [dmlia|nia].
Qed.

(** A page of free descriptors more. *)
Lemma heap_more_descs s H p :
  heap_wf s H -> p ∉ heap_pages H -> owned (pages s) p ->
  linked (W s) 4 p (objects 16 p ++ fdescs H) ->
  heap_wf (s <| free_bucket_desc := p |>) (Heap (chains H) (objects 16 p ++ fdescs H) (p :: dpages H)).
Proof.
  intros [F1 F2 F3 F4 F5 F6 F7 F8] Hnew Ho Hl. assert (is_size 16) as H16 by by constructor.
  assert (forall d, d ∈ objects 16 p -> page_of d = p /\ d mod 16 = 0) as Hobj.
  { intros d Hd. apply owned_aligned in Ho as [Hp _].
    split; [by eapply object_page|]. pose proof (object_range 16 p d H16 Hd). dmlia. }
  pose proof (objects_NoDup 16 p H16) as Hnd. revert Hl Hobj Hnd. generalize (objects 16 p). intros O Hl Hobj Hnd.
  unfold heap_descs, heap_pages in *. rewrite Forall_forall in F5. split; try done.
  - change (NoDup ((desc <$> buckets H) ++ O ++ fdescs H)). rewrite (Permutation_app_comm O), app_assoc.
    apply NoDup_app. split_and!; [done| |done].
    intros d Hd Hd'. destruct (Hobj d Hd') as [E _], (F5 d Hd) as [_ Hin]. rewrite E in Hin.
    apply Hnew, elem_of_app. by right.
  - change (Forall (fun d => d mod 16 = 0 /\ page_of d ∈ p :: dpages H) ((desc <$> buckets H) ++ O ++ fdescs H)).
    apply Forall_forall. intros d Hd.
    assert (d ∈ (desc <$> buckets H) ++ fdescs H \/ d ∈ O) as [Hin|Hin] by set_solver.
    + destruct (F5 d Hin). split; [done|set_solver].
    + destruct (Hobj d Hin) as [-> ?]. split; [done|set_solver].
  - change (NoDup ((bpage <$> buckets H) ++ p :: dpages H)). rewrite <- Permutation_middle. by constructor.
  - change (Forall (owned (pages s)) ((bpage <$> buckets H) ++ p :: dpages H)).
    rewrite <- Permutation_middle. by constructor.
Qed.

(** The free descriptors after [init_bucket_desc]: a page of them. *)
Lemma init_bucket_desc_spec s H :
  heap_wf s H ->
  wp_oom init_bucket_desc (fun _ s' => exists k,
    (page_address k ∉ heap_pages H) /\ getz (memory_map (pages s)) k = Some 0 /\
    heap_wf s' (Heap (chains H) (objects 16 (page_address k) ++ fdescs H) (page_address k :: dpages H)) /\
    bucket_dir s' = bucket_dir s /\
    (forall a, page_of a <> page_address k -> W s' a = W s a) /\
    (forall j, j <> k -> getz (memory_map (pages s')) j = getz (memory_map (pages s)) j)) s.
Proof.
  intros Hwf. unfold init_bucket_desc. apply wp_oom_bind, wp_wp_oom.
  eapply wp_mono; [apply get_page_spec, Hwf|]. intros r s1 [(-> & -> & Hfull)|(k & -> & Hg)]; [done|].
  destruct (grabbed_heap _ _ _ _ Hwf Hg) as [Hwf1 Hnew]. pose proof (grabbed_owned _ _ _ (hw_pool _ _ Hwf) Hg) as Hown.
  destruct (owned_aligned _ _ Hown) as [Hp Hp0]. unfold LOW_MEM in Hp0. set (p := page_address k) in *.
  rewrite (proj2 (Z.eqb_neq p 0)) by lia. apply wp_oom_bind, wp_wp_oom.
  eapply wp_mono; [apply link_objects_spec; try done; dmlia|]. intros last s2 (-> & Hsame & Hrow & Hout).
  change (Z.of_nat (Z.to_nat (PAGE_SIZE / 16) - 1)) with 255 in *. heap_steps.
  set (s3 := put (d_next (p + 16 * 255)) (free_bucket_desc s2) s2). exists k.
  assert (forall a, page_of a <> p -> W s3 a = W s1 a) as Hw3.
  { intros a Ha. unfold s3, d_next. rewrite W_put_ne; [apply Hout|dmlia|];
      intros Hr; apply Ha; apply page_of_in; try done; lia. }
  assert (same_but_words s1 s3) as Hsame3 by (unfold s3; auto with heap).
  assert (heap_wf s3 H) as Hwf3.
  { eapply heap_frame; [exact Hwf1|intros a Ha; apply Hw3; congruence|apply Hsame3|apply Hsame3| |].
    - intros q Hq. eapply owned_same; [done|]. by apply (page_owned Hwf1).
    - eapply pool_same; [done|apply Hwf1]. }
  split_and!; [done|apply Hg| | | |].
  - apply (heap_more_descs s3); [done|done|by eapply owned_same|].
    pose proof (linked_row (W s3) 4 p 16 0 255 (fdescs H)) as Hlr. change (Z.of_nat 255) with 255 in Hlr.
    replace (p + 16 * 0) with p in Hlr by lia. apply Hlr; try lia.
    + intros j Hj. unfold s3, d_next. rewrite W_put_ne by (dmlia || lia). apply Hrow. lia.
    + replace (0 + 255) with 255 by lia. change (p + 16 * 255 + 4) with (d_next (p + 16 * 255)).
      unfold s3 at 2. rewrite W_put_eq, (sb_free _ _ Hsame), <- (sb_free _ _ Hsame3). apply Hwf3.
  - change (bucket_dir s3 = bucket_dir s). rewrite (sb_dir _ _ Hsame3). apply Hg.
  - intros a Ha. change (W s3 a = W s a). rewrite Hw3 by done. by apply (gr_words _ _ _ Hg).
  - intros j Hj. change (getz (memory_map (pages s3)) j = getz (memory_map (pages s)) j).
    rewrite (sb_map _ _ Hsame3), (gr_map _ _ _ Hg). by apply getz_setz_ne.
Qed.

(** ** A bucket enters a chain, and leaves it *)

(** The frame: every bucket of the heap but for what [X] may change. *)
Lemma chains_same s s' H D L (X : Z -> Prop) :
  heap_wf s H -> (forall e, e ∈ D -> e ∈ bucket_dir s) -> (forall b, b ∈ mjoin L -> b ∈ buckets H) ->
  (forall a, ~ X a -> W s' a = W s a) -> (forall b a, b ∈ mjoin L -> foot b a -> ~ X a) ->
  Forall2 (chain_ok (W s)) D L -> Forall2 (chain_ok (W s')) D L.
Proof.
  intros Hwf HD HL Hw HX. apply chains_ext.
  - intros e He. by apply (sizes_ok Hwf), HD.
  - intros b Hb. by eapply (page_aligned Hwf), bucket_page, HL.
  - intros b a Hb Ha. by apply Hw, (HX b).
Qed.

Lemma buckets_add b L1 bs L2 F P F' P' :
  buckets (Heap (L1 ++ (b :: bs) :: L2) F P) ≡ₚ b :: buckets (Heap (L1 ++ bs :: L2) F' P').
Proof. unfold buckets. simpl. rewrite !join_app. simpl. by rewrite <- Permutation_middle. Qed.

Section add.
Context (s s' : allocator) (L1 L2 : list (list bucket)) (bs : list bucket) (F P : list Z) (b : bucket).
Context (D1 D2 : list (Z * Z)) (size c : Z).
#[local] Abbreviation H := (Heap (L1 ++ bs :: L2) (desc b :: F) P).
Context (Hwf : heap_wf s H) (Hdir : bucket_dir s = D1 ++ (size, c) :: D2) (Hlen : length D1 = length L1).
Context (Hdir' : bucket_dir s' = D1 ++ (size, desc b) :: D2) (Hfree : free_bucket_desc s' = W s (desc b + 4)).
Context (Hnew : bpage b ∉ heap_pages H) (Hok : bucket_ok (W s') size b) (Hnext : W s' (desc b + 4) = c).
Context (Hw : forall a, ~ foot b a -> W s' a = W s a).
Context (Hown : forall p, p ∈ bpage b :: heap_pages H -> owned (pages s') p) (Hpool : pool_ok (pages s')).

Lemma add_apart_bucket x a : x ∈ buckets H -> foot x a -> ~ foot b a.
Proof using All.
  intros Hx Ha [Hb|Hb].
  - apply (fdesc_apart Hwf (desc b) x a); [set_solver|done|done|done].
  - apply Hnew. destruct (owned_aligned _ _ (Hown (bpage b) ltac:(set_solver))) as [Hp _].
    rewrite <- (page_of_in _ a Hp Hb). by eapply foot_page.
Qed.

Lemma add_apart_desc d a : d ∈ F -> d <= a < d + 16 -> ~ foot b a.
Proof using All.
  intros Hd Ha [Hb|Hb].
  - pose proof (hw_descs _ _ Hwf) as Hnd. apply NoDup_app in Hnd as (_ & _ & Hnd).
    simpl in Hnd. apply NoDup_cons in Hnd as [Hnd _].
    apply (desc_desc_apart Hwf d (desc b) a); [apply elem_of_app; right; set_solver..|congruence|done|done].
  - apply Hnew. destruct (owned_aligned _ _ (Hown (bpage b) ltac:(set_solver))) as [Hp _].
    rewrite <- (page_of_in _ a Hp Hb). eapply fdesc_page; [done| |done]. set_solver.
Qed.

Lemma heap_add_bucket : heap_wf s' (Heap (L1 ++ (b :: bs) :: L2) F P).
Proof using All.
  pose proof (buckets_add b L1 bs L2 F P (desc b :: F) P) as Hb.
  assert (heap_descs (Heap (L1 ++ (b :: bs) :: L2) F P) ≡ₚ heap_descs H) as Ed.
  { unfold heap_descs. rewrite Hb. simpl. by rewrite Permutation_middle. }
  assert (heap_pages (Heap (L1 ++ (b :: bs) :: L2) F P) ≡ₚ bpage b :: heap_pages H) as Ep.
  { unfold heap_pages. by rewrite Hb. }
  pose proof (hw_chains _ _ Hwf) as Hc. simpl in Hc. rewrite Hdir in Hc.
  apply Forall2_app_inv in Hc as [Hc1 Hc2]; [|done]. apply Forall2_cons in Hc2 as [[Hl Hbs] Hc2]. simpl in Hl, Hbs.
  assert (forall x, x ∈ bs -> x ∈ buckets H) as Hin by (intros x Hx; unfold buckets; simpl; rewrite join_app; set_solver).
  split.
  - rewrite Hdir'. pose proof (hw_sizes _ _ Hwf) as Hs. rewrite Hdir in Hs. rewrite <- Hs. by rewrite !fmap_app.
  - rewrite Hdir'. simpl. apply Forall2_app; [|constructor; [split|]].
    + eapply (chains_same s s' H _ _ (foot b)); try done; [rewrite Hdir; set_solver| |].
      * intros x Hx. unfold buckets. simpl. rewrite join_app. set_solver.
      * intros x a Hx. apply add_apart_bucket. unfold buckets. simpl. rewrite join_app. set_solver.
    + simpl. split_and!; [done| |].
      * destruct (desc_facts Hwf (desc b)) as [_ Hd]; [apply elem_of_app; right; set_solver|].
        intros E. rewrite E in Hd.
        destruct (owned_aligned _ _ (page_owned Hwf (page_of 0) ltac:(apply elem_of_app; by right))) as [_ Hp].
        change (page_of 0) with 0 in Hp. unfold LOW_MEM in Hp. lia.
      * rewrite Hnext. eapply linked_ext; [|done]. intros a (x & -> & Hx)%list_elem_of_fmap. apply Hw.
        apply (add_apart_bucket x); [by apply Hin|left; lia].
    + simpl. constructor; [done|]. apply Forall_forall. rewrite Forall_forall in Hbs. intros x Hx.
      apply (bucket_ok_ext (W s)); [apply (sizes_ok Hwf (size, c)); rewrite Hdir; set_solver| | |by apply Hbs].
      * eapply (page_aligned Hwf), bucket_page. by apply Hin.
      * intros a Ha. apply Hw. apply (add_apart_bucket x); [by apply Hin|done].
    + eapply (chains_same s s' H _ _ (foot b)); try done; [rewrite Hdir; set_solver| |].
      * intros x Hx. unfold buckets. simpl. rewrite join_app. set_solver.
      * intros x a Hx. apply add_apart_bucket. unfold buckets. simpl. rewrite join_app. set_solver.
  - rewrite Hfree. simpl. pose proof (hw_free _ _ Hwf) as (_ & _ & Hf). eapply linked_ext; [|done].
    intros d Hd. apply Hw. apply (add_apart_desc d); [done|lia].
  - rewrite Ed. apply Hwf.
  - pose proof (hw_desc_in _ _ Hwf) as Hd. by rewrite <- Ed in Hd.
  - rewrite Ep. constructor; [done|apply Hwf].
  - apply Forall_forall. intros p. rewrite Ep. apply Hown.
  - done.
Qed.
End add.
