(* ===== verification/MallocProofs.v ===== *)
(** * The kernel's allocator is one

    What a kernel allocator promises, proved of [malloc] and [free_s]: a block
    is as large as asked for, aligned, and apart from every other block that is
    out; nobody's contents change; what is given back can be given out again. *)

From Stdlib Require Import ZArith Lia.
From stdpp Require Import base numbers list gmap strings sorting.
From S2P Require Import Prelude Memory MemoryInv MemoryFault Task Malloc MallocHeap.

(** ** A new bucket *)

Lemma setz_middle {A} (l1 l2 : list A) x y : setz (l1 ++ x :: l2) (lenz l1) y = l1 ++ y :: l2.
Proof.
  unfold setz, lenz. destruct (Z.ltb_spec (Z.of_nat (length l1)) 0); [lia|]. rewrite Nat2Z.id.
  rewrite insert_app_r_alt by done. by rewrite Nat.sub_diag.
Qed.

Lemma getz_middle {A} (l1 l2 : list A) x : getz (l1 ++ x :: l2) (lenz l1) = Some x.
Proof.
  unfold getz, lenz. destruct (Z.ltb_spec (Z.of_nat (length l1)) 0); [lia|]. rewrite Nat2Z.id.
  by rewrite list_lookup_middle.
Qed.

(** The allocator has more pages than before, and what it or others had in
    theirs is as before. *)
Record grown (H H' : heap) (s s' : allocator) : Prop := Grown {
  gw_pages : heap_pages H ⊆ heap_pages H';
  gw_buckets : bpage <$> buckets H ⊆ bpage <$> buckets H';
  gw_words : forall a, (page_of a ∉ heap_pages H') \/ page_of a ∈ bpage <$> buckets H -> W s' a = W s a;
  gw_counts : forall j, (page_address j ∉ heap_pages H') \/ page_address j ∈ heap_pages H ->
    getz (memory_map (pages s')) j = getz (memory_map (pages s)) j
}.

Lemma grown_refl H s : grown H H s s.
Proof. by split. Qed.

Lemma grown_trans H H1 H2 s s1 s2 : grown H H1 s s1 -> grown H1 H2 s1 s2 -> grown H H2 s s2.
Proof.
  intros [P1 B1 W1 C1] [P2 B2 W2 C2]. split.
  - by transitivity (heap_pages H1).
  - by transitivity (bpage <$> buckets H1).
  - intros a Ha. rewrite W2, W1; [done|set_solver|set_solver].
  - intros j Hj. rewrite C2, C1; [done|set_solver|set_solver].
Qed.

(** A free descriptor is there, or is made. *)
Lemma need_descs s H :
  heap_wf s H ->
  wp_oom (when (negb (istrue (free_bucket_desc s))) init_bucket_desc) (fun _ s' => exists d F' P',
    heap_wf s' (Heap (chains H) (d :: F') P') /\ bucket_dir s' = bucket_dir s /\
    grown H (Heap (chains H) (d :: F') P') s s') s.
Proof.
  intros Hwf. pose proof (hw_free _ _ Hwf) as Hf. unfold istrue. destruct (Z.eqb_spec (free_bucket_desc s) 0) as [E|E].
  - simpl. eapply wp_oom_mono; [by apply init_bucket_desc_spec|].
    intros _ s' (k & Hk & Hz & Hwf' & Hd & Hw & Hc). set (p := page_address k) in *.
    assert (exists d l, objects 16 p = d :: l) as (d & l & Eo) by (eexists _, _; reflexivity).
    rewrite Eo in Hwf'. exists d, (l ++ fdescs H), (p :: dpages H). split_and!; [done|done|].
    assert (forall q, q ∈ heap_pages H \/ q = p <-> q ∈ heap_pages (Heap (chains H) (d :: l ++ fdescs H) (p :: dpages H))) as Hp.
    { intros q. change (q ∈ heap_pages H \/ q = p <-> q ∈ (bpage <$> buckets H) ++ p :: dpages H). unfold heap_pages. set_solver. }
    split.
    + intros q Hq. apply Hp. by left.
    + done.
    + intros a Ha. apply Hw. intros Ea. destruct Ha as [Ha|Ha]; [apply Ha, Hp; by right|].
      apply Hk. rewrite <- Ea. apply elem_of_app. by left.
    + intros j Hj. apply Hc. intros ->. destruct Hj as [Hj|Hj]; [apply Hj, Hp; by right|done].
  - simpl. unfold wp_oom, when, ret. destruct H as [C [|d F'] P']; simpl in Hf; [done|]. destruct Hf as [E' _].
    exists d, F', P'. split_and!; [done|done|apply grown_refl].
Qed.

(** The page of a new bucket as a chain of free objects. *)
Lemma fresh_page_linked w size p :
  is_size size -> 0 < p ->
  (forall i, 0 <= i < PAGE_SIZE / size - 1 -> w (p + size * i) = p + size * (i + 1)) ->
  w (p + size * (PAGE_SIZE / size - 1)) = 0 -> linked w 0 p (objects size p).
Proof.
  intros Hs Hp Hrow Hlast. apply is_size_facts in Hs as (Hs & _ & Hn).
  pose proof (linked_row w 0 p size 0 (Z.to_nat (PAGE_SIZE / size - 1)) []) as Hl.
  rewrite Z2Nat.id, app_nil_r in Hl by nia. replace (p + size * 0) with p in Hl by lia.
  replace (PAGE_SIZE / size - 1 + 1) with (PAGE_SIZE / size) in Hl by lia. apply Hl; try lia.
  - intros j Hj. rewrite Z.add_0_r. apply Hrow. lia.
  - simpl. by rewrite Z.add_0_r.
Qed.

Section new_bucket.
Context (s1 : allocator) (L1 L2 : list (list bucket)) (bs : list bucket) (d : Z) (F P : list Z).
Context (D1 D2 : list (Z * Z)) (size c : Z).
#[local] Abbreviation H := (Heap (L1 ++ bs :: L2) (d :: F) P).
#[local] Abbreviation H' b := (Heap (L1 ++ (b :: bs) :: L2) F P).
Context (Hwf : heap_wf s1 H) (Hdir : bucket_dir s1 = D1 ++ (size, c) :: D2) (Hlen : length D1 = length L1).

Lemma new_size : is_size size.
Proof using All. apply (sizes_ok Hwf (size, c)). rewrite Hdir. set_solver. Qed.

(** What it writes is a bucket, and nothing else. *)
Lemma filled k s' :
  let p := page_address k in let b := Bucket size d p (objects size p) [] in
  p ∉ heap_pages H -> owned (pages s') p -> (forall q, q ∈ heap_pages H -> owned (pages s') q) -> pool_ok (pages s') ->
  W s' d = p -> W s' (d + 8) = p -> W s' (d + 12) = counts 0 size -> W s' (d + 4) = c ->
  linked (W s') 0 p (objects size p) -> (forall a, ~ foot b a -> W s' a = W s1 a) ->
  bucket_dir s' = D1 ++ (size, d) :: D2 -> free_bucket_desc s' = W s1 (d + 4) ->
  (forall j, j <> k -> getz (memory_map (pages s')) j = getz (memory_map (pages s1)) j) ->
  heap_wf s' (H' b) /\ grown H (H' b) s1 s'.
Proof using All.
  intros p b Hnew Hown Hall Hpool Hw0 Hw8 Hw12 Hw4 Hlink Hout Hdir' Hfree Hmap.
  pose proof (buckets_add b L1 bs L2 F P (d :: F) P) as Hb.
  assert (d ∈ heap_descs H) as Hd by (apply elem_of_app; right; set_solver).
  pose proof (desc_facts Hwf d Hd) as [Hd16 Hdp].
  assert (heap_pages (H' b) ≡ₚ p :: heap_pages H) as Ep by (unfold heap_pages; by rewrite Hb).
  assert (forall a, foot b a -> page_of a = p \/ page_of a ∈ P) as Hfoot.
  { intros a [Ha|Ha]; simpl in Ha; [right|left].
    - by rewrite (desc_in_page Hwf d a Hd Ha).
    - apply page_of_in; [|done]. by apply owned_aligned in Hown as [? _]. }
  split.
  - apply (heap_add_bucket s1 s' L1 L2 bs F P b D1 D2 size c); try done.
    + split; try done; simpl; [by rewrite Hw8|by rewrite app_nil_r].
    + intros q [->|Hq]%elem_of_cons; [done|by apply Hall].
  - split.
    + intros q Hq. rewrite Ep. by right.
    + intros q. rewrite Hb. simpl. by right.
    + intros a Ha. apply Hout. intros Hf%Hfoot. rewrite Ep in Ha. unfold heap_pages in Ha, Hnew. simpl in *.
      destruct Ha as [Ha|Ha], Hf as [Hf|Hf]; [set_solver..| |].
      * rewrite Hf in Ha. set_solver.
      * apply list_elem_of_fmap in Ha as (x & E & Hx). by apply (page_not_dpage Hwf x (page_of a) Hx).
    + intros j Hj. apply Hmap. intros ->. rewrite Ep in Hj. set_solver.
Qed.

Lemma fill_bucket_spec :
  wp_oom (fill_bucket (lenz D1) size c) (fun r s' => r = d /\ exists p,
    let b := Bucket size d p (objects size p) [] in
    heap_wf s' (H' b) /\ bucket_dir s' = D1 ++ (size, d) :: D2 /\ grown H (H' b) s1 s') s1.
Proof using All.
  pose proof new_size as Hs. pose proof (is_size_facts _ Hs) as (Hsz & Hs16 & Hn).
  assert (d ∈ heap_descs H) as Hd by (apply elem_of_app; right; set_solver).
  pose proof (desc_facts Hwf d Hd) as [Hd16 Hdp].
  pose proof (hw_free _ _ Hwf) as (Hfd & _).
  unfold fill_bucket. heap_steps. rewrite Hfd. unfold d_next, d_freeptr, d_counts.
  lazymatch goal with |- wp_oom _ _ ?x => set (s2 := x) end. apply wp_wp_oom.
  assert (pool_ok (pages s2)) as Hpool by (destruct (hw_pool _ _ Hwf); by split).
  eapply wp_mono; [by apply get_page_spec|]. intros r s3 [(-> & -> & Hfull)|(k & -> & Hg)].
  { heap_steps. simpl. exact Hfull. }
  set (p := page_address k) in *.
  assert (owned (pages s3) p) as Hown by (by eapply grabbed_owned).
  destruct (owned_aligned _ _ Hown) as [Hp Hp0]. unfold LOW_MEM in Hp0.
  assert (forall q, owned (pages s1) q -> q <> p /\ owned (pages s3) q) as Hother by (intros q; exact (grabbed_fresh k s2 s3 q Hg)).
  assert (p ∉ heap_pages H) as Hnew by (intros Hin; by destruct (Hother _ (page_owned Hwf _ Hin))).
  assert (page_of d ∈ heap_pages H) as Hdin by (apply elem_of_app; by right).
  assert (forall a, d <= a < d + 16 -> page_of a = page_of d) as Hdpg by (intros a; by apply (desc_in_page Hwf)).
  assert (page_of d <> p) as Hdne by congruence.
  assert (forall a, p <= a < p + 4096 -> ~ (d <= a < d + 16)) as Hsep.
  { intros a Ha Ha'. apply Hdne. rewrite <- (Hdpg a Ha'). by apply page_of_in. }
  heap_steps. rewrite (proj2 (Z.eqb_neq p 0)) by lia. heap_steps. apply wp_wp_oom.
  eapply wp_mono; [apply link_objects_spec; try done; dmlia|]. intros last s4 (-> & Hsame4 & Hrow & Hout4).
  replace (Z.of_nat (Z.to_nat (PAGE_SIZE / size) - 1)) with (PAGE_SIZE / size - 1) in * by nia.
  unfold set_chain. heap_steps.
  set (last := p + size * (PAGE_SIZE / size - 1)) in *.
  assert (last = p + 4096 - size) as Elast by (unfold last; nia). assert (last mod 4 = 0) as Hlast by dmlia.
  set (s5 := put (d + 4) c (put last 0 s4)). set (s6 := s5 <| bucket_dir ::= fun l => setz l (lenz D1) (size, d) |>).
  assert (same_but_words s3 s5) as Hsame.
  { unfold s5. do 2 apply same_put. eapply same_trans; [|done]. auto with heap. }
  assert (forall a, ~ (p <= a < p + 4096) -> ~ (d + 4 <= a < d + 8) -> W s5 a = W (put d p (put (d + 8) p s3)) a) as Hw5.
  { intros a Ha Ha4. unfold s5. rewrite !W_put_ne by dmlia. apply Hout4. lia. }
  assert (forall x, d <= x < d + 16 -> ~ (p <= x < p + 4096)) as Hsep' by (intros x Hx Hx'; by apply (Hsep x)).
  assert (forall a, d <= a < d + 16 -> W s3 a = W s2 a) as Hw3.
  { intros a Ha. apply (gr_words _ _ _ Hg). fold p. rewrite (Hdpg a Ha). congruence. }
  assert (bucket_dir s5 = bucket_dir s1) as Hdir5 by (rewrite (sb_dir _ _ Hsame); apply Hg).
  assert (bucket_dir s6 = D1 ++ (size, d) :: D2) as Hdir6.
  { unfold s6. simpl. change (setz (bucket_dir s5) (lenz D1) (size, d) = D1 ++ (size, d) :: D2).
    rewrite Hdir5, Hdir. apply setz_middle. }
  change (W s5) with (W s6) in Hw5.
  destruct (filled k s6) as [H1 H2]; fold p; try done.
  - by apply (owned_same s3 s5).
  - intros q Hq. apply (owned_same s3 s5); [done|]. by apply Hother, (page_owned Hwf).
  - apply (pool_same s3 s5); [done|]. by eapply grabbed_pool.
  - rewrite Hw5 by (lia || apply Hsep'; lia). apply W_put_eq.
  - rewrite Hw5 by (lia || apply Hsep'; lia). rewrite W_put_ne by dmlia. apply W_put_eq.
  - rewrite Hw5 by (lia || apply Hsep'; lia). rewrite !W_put_ne, Hw3 by dmlia. apply W_put_eq.
  - apply W_put_eq.
  - assert (forall a, p <= a < p + 4096 -> ~ (d + 4 <= a < d + 4 + 4)) as Hd4 by (intros a Ha ?; apply (Hsep a Ha); lia).
    apply fresh_page_linked; [done|lia| |].
    + intros i Hi. change (W s6) with (W s5). unfold s5. rewrite W_put_ne; [|dmlia|apply Hd4; nia].
      rewrite W_put_ne; [|done|unfold last; nia]. rewrite <- Hrow by done. f_equal. lia.
    + change (W s6) with (W s5). fold last. unfold s5. rewrite W_put_ne; [apply W_put_eq|dmlia|apply Hd4; lia].
  - intros a Ha. unfold foot in Ha. simpl in Ha. rewrite Hw5 by lia. rewrite !W_put_ne by dmlia.
    transitivity (W s2 a).
    + apply (gr_words _ _ _ Hg). fold p. intros E. apply Ha. right. rewrite <- E. apply page_of_range.
    + unfold s2. rewrite W_put_ne; [done|dmlia|lia].
  - change (free_bucket_desc s5 = W s1 (d + 4)). rewrite (sb_free _ _ Hsame). apply Hg.
  - intros j Hj. change (getz (memory_map (pages s5)) j = getz (memory_map (pages s2)) j).
    rewrite (sb_map _ _ Hsame), (gr_map _ _ _ Hg). by apply getz_setz_ne.
  - split; [done|]. by exists p.
Qed.
End new_bucket.

(** ** Blocks *)

Lemma blocks_perm H b R : buckets H ≡ₚ b :: R -> blocks H ≡ₚ bucket_blocks b ++ (R ≫= bucket_blocks).
Proof. intros HR. unfold blocks. by rewrite HR. Qed.

Lemma block_in H q n : (q, n) ∈ blocks H -> exists b, b ∈ buckets H /\ q ∈ bused b /\ n = bsize b.
Proof.
  unfold blocks. intros (b & Hq & Hb)%list_elem_of_bind.
  apply list_elem_of_fmap in Hq as (o & E & Ho). simplify_eq. by exists b.
Qed.

Lemma block_facts s H b q :
  heap_wf s H -> b ∈ buckets H -> q ∈ bused b ->
  is_size (bsize b) /\ q ∈ objects (bsize b) (bpage b) /\ bpage b <= q /\ q + bsize b <= bpage b + 4096 /\
  bpage b mod 4096 = 0 /\ LOW_MEM <= bpage b < 16777216 /\ page_of q = bpage b.
Proof.
  intros Hwf Hb Hq. destruct (bucket_facts Hwf b Hb) as [Hs Hok].
  assert (q ∈ objects (bsize b) (bpage b)) as Hin by (rewrite <- (bk_objects _ _ _ Hok); set_solver).
  destruct (owned_aligned _ _ (page_owned Hwf _ (bucket_page _ Hb))) as [Hp Hr].
  pose proof (object_range _ _ _ Hs Hin) as (H1 & H2 & _). split_and!; try done; try lia. by eapply object_page.
Qed.

(** A block has nothing in common with the others. *)
Lemma blocks_apart s H b R o us :
  heap_wf s H -> buckets H ≡ₚ b :: R -> bused b ≡ₚ o :: us ->
  Forall (apart (o, bsize b)) (((fun x => (x, bsize b)) <$> us) ++ (R ≫= bucket_blocks)).
Proof.
  intros Hwf HR Hu. assert (b ∈ buckets H) as Hb by (rewrite HR; set_solver).
  assert (o ∈ bused b) as Ho by (rewrite Hu; set_solver).
  destruct (block_facts _ _ _ _ Hwf Hb Ho) as (Hs & Hobj & H1 & H2 & H3 & _).
  destruct (bucket_facts Hwf b Hb) as [_ Hok].
  apply Forall_app. split; apply Forall_forall.
  - intros y (x & -> & Hx)%list_elem_of_fmap. assert (x ∈ bused b) as Hxb by (rewrite Hu; set_solver).
    destruct (block_facts _ _ _ _ Hwf Hb Hxb) as (_ & Hobjx & _). eapply objects_apart; try done.
    intros <-. pose proof (objects_NoDup _ (bpage b) Hs) as Hnd. rewrite <- (bk_objects _ _ _ Hok), Hu in Hnd.
    apply NoDup_app in Hnd as (_ & _ & Hnd). by apply NoDup_cons in Hnd as [Hnd _].
  - intros [q n] (c & Hq & Hc)%list_elem_of_bind. apply list_elem_of_fmap in Hq as (x & E & Hx). simplify_eq.
    assert (c ∈ buckets H) as Hcb by (rewrite HR; set_solver).
    destruct (block_facts _ _ _ _ Hwf Hcb Hx) as (_ & _ & H4 & H5 & H6 & _).
    assert (bpage b <> bpage c).
    { pose proof (hw_pages _ _ Hwf) as Hp. apply NoDup_app in Hp as (Hp & _ & _). rewrite HR in Hp. simpl in Hp.
      apply NoDup_cons in Hp as [Hp _]. intros E. apply Hp. rewrite E. by apply list_elem_of_fmap_2. }
    unfold apart. simpl. assert (bpage b + 4096 <= bpage c \/ bpage c + 4096 <= bpage b) by dmlia. lia.
Qed.

Lemma grown_contents H H' s s' s0 : heap_wf s0 H -> grown H H' s s' -> contents_same H s s'.
Proof.
  intros Hwf Hg [q n] a (b & Hb & Hq & ->)%block_in Ha. simpl in Ha. apply (gw_words _ _ _ _ Hg). right.
  destruct (block_facts _ _ _ _ Hwf Hb Hq) as (_ & _ & H1 & H2 & H3 & _).
  rewrite (page_of_in (bpage b)) by (done || lia). by apply list_elem_of_fmap_2.
Qed.

Lemma grown_elsewhere H H' s s' : grown H H' s s' -> elsewhere_same H H' s s'.
Proof. intros Hg. split; intros x Hx; apply Hg; left; set_solver. Qed.

(** ** [malloc] *)

Lemma is_size_divides size p i : is_size size -> p mod 4096 = 0 -> (p + size * i) mod size = 0.
Proof.
  intros Hs Hp. apply is_size_facts in Hs as (Hs & _ & Hn). apply Z.mod_divide; [lia|].
  apply Z.mod_divide in Hp as [k ->]; [|lia]. exists (k * (PAGE_SIZE / size) + i). rewrite <- Hn. ring.
Qed.

Section taken.
Context (s : allocator) (L1 L2 : list (list bucket)) (l1 l2 : list bucket) (b : bucket) (F P : list Z).
#[local] Abbreviation H := (Heap (L1 ++ (l1 ++ b :: l2) :: L2) F P).
Context (Hwf : heap_wf s H) (o : Z) (fl : list Z) (Hfree : bfree b = o :: fl).

(** What [take_object] does to the heap: a block more. *)
Lemma take_block :
  wp (take_object (desc b)) (fun r s' => exists H' b',
    heap_wf s' H' /\ buckets H' ≡ₚ b' :: (mjoin L1 ++ (l1 ++ l2) ++ mjoin L2) /\ bused b' <> [] /\
    blocks H' ≡ₚ (r, bsize b) :: blocks H /\ Forall (apart (r, bsize b)) (blocks H) /\
    LOW_MEM <= r /\ r mod bsize b = 0 /\ grown H H' s s') s.
Proof using Hwf Hfree.
  eapply wp_mono; [by apply (take_object_spec s L1 L2 l1 l2 b F P Hwf o fl)|].
  intros r s' (-> & Hsame & Hout & Hwf'). set (b' := Bucket (bsize b) (desc b) (bpage b) fl (o :: bused b)) in *.
  pose proof (buckets_split L1 l1 b l2 L2 F P) as HR. pose proof (buckets_split L1 l1 b' l2 L2 F P) as HR'.
  set (R := mjoin L1 ++ (l1 ++ l2) ++ mjoin L2) in *.
  assert (Ebl : blocks H ≡ₚ bucket_blocks b ++ (R ≫= bucket_blocks)) by by apply blocks_perm.
  pose proof (blocks_apart _ _ _ _ o (bused b) Hwf' HR' (Permutation_refl _)) as Hap.
  destruct (bucket_facts Hwf b ltac:(rewrite HR; set_solver)) as [Hs Hok].
  assert (o ∈ objects (bsize b) (bpage b)) as Ho by (rewrite <- (bk_objects _ _ _ Hok), Hfree; set_solver).
  destruct (owned_aligned _ _ (page_owned Hwf _ (bucket_page b ltac:(rewrite HR; set_solver)))) as [Hp Hr].
  eexists _, b'. split_and!; [exact Hwf'|done|done| | | | |].
  - rewrite Ebl. by rewrite (blocks_perm _ _ _ HR').
  - rewrite Ebl. exact Hap.
  - pose proof (object_range _ _ _ Hs Ho). lia.
  - apply object_in in Ho as (i & _ & ->); [|done]. by apply is_size_divides.
  - assert (bpage <$> buckets (Heap (L1 ++ (l1 ++ b' :: l2) :: L2) F P) ≡ₚ bpage <$> buckets H) as Ep by (by rewrite HR, HR').
    split; unfold heap_pages; rewrite ?Ep; try done.
    + intros a Ha. apply Hout. intros Hd. rewrite Ep in Ha.
      assert (page_of a ∈ P) as Hin.
      { rewrite (desc_in_page Hwf (desc b)); [|apply bucket_desc; rewrite HR; set_solver|done].
        apply (desc_facts Hwf), bucket_desc. rewrite HR. set_solver. }
      destruct Ha as [Ha|Ha]; [set_solver|]. apply list_elem_of_fmap in Ha as (x & E & Hx).
      by apply (page_not_dpage Hwf x (page_of a) Hx).
    + intros j _. by rewrite (sb_map _ _ Hsame).
Qed.
End taken.

Lemma find_bucket_spec dir i len :
  match find_bucket dir i len with
  | Some (j, size, c) => exists D1 D2, dir = D1 ++ (size, c) :: D2 /\ j = i + lenz D1 /\
      len <= size /\ Forall (fun e => e.1 < len) D1
  | None => Forall (fun e => e.1 < len) dir
  end.
Proof.
  revert i. induction dir as [|[size c] dir IH]; intros i; simpl; [constructor|].
  destruct (Z.leb_spec len size).
  - exists [], dir. split_and!; [done|unfold lenz; simpl; lia|done|constructor].
  - specialize (IH (i + 1)). destruct (find_bucket dir (i + 1) len) as [[[j sz] c']|].
    + destruct IH as (D1 & D2 & -> & -> & Hl & Hf). exists ((size, c) :: D1), D2.
      split_and!; [done|rewrite lenz_cons; lia|done|by constructor].
    + by constructor.
Qed.

(** The smallest size that [len] bytes fit into. *)
Definition best_size (len size : Z) : Prop :=
  is_size size /\ len <= size /\ forall n, is_size n -> len <= n -> size <= n.

Lemma best_size_split (D1 D2 : list (Z * Z)) size c len :
  (D1 ++ (size, c) :: D2).*1 = empty_bucket_dir.*1 -> len <= size -> Forall (fun e => e.1 < len) D1 -> best_size len size.
Proof.
  intros E Hl Hf.
  assert (D1.*1 ++ size :: D2.*1 = empty_bucket_dir.*1) as E' by (rewrite <- E, fmap_app; done).
  assert (StronglySorted Z.lt (D1.*1 ++ size :: D2.*1)) as Hs by (rewrite E'; cbn; repeat constructor).
  unfold best_size, is_size. rewrite <- E'. split_and!; [set_solver|done|].
  intros n Hn Hln. apply elem_of_app in Hn as [Hn|[->|Hn]%elem_of_cons].
  - apply list_elem_of_fmap in Hn as (e & -> & He). rewrite Forall_forall in Hf. specialize (Hf e He). lia.
  - lia.
  - apply StronglySorted_app in Hs as (_ & _ & Hs). apply StronglySorted_inv in Hs as [_ Hs].
    rewrite Forall_forall in Hs. specialize (Hs n Hn). lia.
Qed.

Lemma new_bucket_spec s L1 L2 bs F P D1 D2 size c :
  heap_wf s (Heap (L1 ++ bs :: L2) F P) -> bucket_dir s = D1 ++ (size, c) :: D2 -> length D1 = length L1 ->
  wp_oom (new_bucket (lenz D1) size c) (fun d s' => exists b F' P', d = desc b /\ bsize b = size /\
    bfree b = objects size (bpage b) /\ bused b = [] /\ heap_wf s' (Heap (L1 ++ (b :: bs) :: L2) F' P') /\
    grown (Heap (L1 ++ bs :: L2) F P) (Heap (L1 ++ (b :: bs) :: L2) F' P') s s') s.
Proof.
  intros Hwf Hdir Hlen. unfold new_bucket. heap_steps. eapply wp_oom_mono; [by apply need_descs|].
  intros _ s1 (d & F' & P' & Hwf1 & Hdir1 & Hg1). rewrite Hdir in Hdir1.
  eapply wp_oom_mono; [by apply (fill_bucket_spec s1 L1 L2 bs d F' P' D1 D2 size c)|].
  intros r s2 (-> & p & Hwf2 & _ & Hg2). eexists (Bucket size d p (objects size p) []), F', P'.
  split_and!; try done. by eapply grown_trans.
Qed.

(** A bucket with a free object, in the chain of its size. *)
Lemma find_or_new s L1 L2 bs F P D1 D2 size c :
  heap_ok s (Heap (L1 ++ bs :: L2) F P) -> bucket_dir s = D1 ++ (size, c) :: D2 -> length D1 = length L1 ->
  wp_oom (let! d := find_free chain_fuel c in if istrue d then ret d else new_bucket (lenz D1) size c)
    (fun d s' => exists l1 b l2 F' P', d = desc b /\ bsize b = size /\ bfree b <> [] /\
      heap_wf s' (Heap (L1 ++ (l1 ++ b :: l2) :: L2) F' P') /\
      Forall (fun x => bused x <> []) (mjoin L1 ++ (l1 ++ l2) ++ mjoin L2) /\
      blocks (Heap (L1 ++ (l1 ++ b :: l2) :: L2) F' P') ≡ₚ blocks (Heap (L1 ++ bs :: L2) F P) /\
      grown (Heap (L1 ++ bs :: L2) F P) (Heap (L1 ++ (l1 ++ b :: l2) :: L2) F' P') s s') s.
Proof.
  intros [Hwf Hused] Hdir Hlen. set (H := Heap (L1 ++ bs :: L2) F P) in *.
  assert (buckets H = mjoin L1 ++ bs ++ mjoin L2) as EH by (unfold buckets, H; simpl; by rewrite join_app).
  pose proof (hw_chains _ _ Hwf) as Hc. rewrite Hdir in Hc. simpl in Hc.
  apply Forall2_app_inv in Hc as [_ Hc]; [|done]. apply Forall2_cons in Hc as [[Hl Hb] _]. simpl in Hl, Hb.
  apply wp_oom_bind, wp_wp_oom. eapply wp_mono; [eapply find_free_spec; [done|done|]|].
  { etransitivity; [|by apply (buckets_bound Hwf)]. rewrite EH, !length_app. lia. }
  intros d s0 (-> & [[-> _]|(l1 & b & l2 & -> & -> & Hfree)]).
  - simpl. eapply wp_oom_mono; [by eapply new_bucket_spec|].
    intros d s1 (b & F' & P' & -> & Hs & Hf & Hu & Hwf1 & Hg). exists [], b, bs, F', P'. simpl.
    pose proof (is_size_facts size) as Hsz. split_and!; [done|done| |done|by rewrite EH in Hused| |done].
    + rewrite Hf. intros E. apply (f_equal length) in E. unfold objects in E. rewrite length_fmap, length_seqZ in E.
      simpl in E. destruct Hsz as (? & _ & ?); [|nia]. rewrite <- Hs. apply (bucket_facts Hwf1 b).
      unfold buckets. simpl. rewrite join_app. set_solver.
    + rewrite (blocks_perm _ _ _ (buckets_split L1 [] b bs L2 F' P')). unfold bucket_blocks at 1. rewrite Hu. simpl.
      unfold blocks. by rewrite EH.
  - assert (desc b <> 0) as Hd by (eapply linked_in; [exact Hl|rewrite fmap_app; set_solver]).
    unfold istrue. rewrite (proj2 (Z.eqb_neq _ _)) by done. simpl. unfold wp_oom, ret.
    exists l1, b, l2, F, P. rewrite Forall_forall in Hb. split_and!; try done.
    + eapply bk_size, Hb. set_solver.
    + rewrite EH in Hused. apply Forall_app in Hused as [? Hused]. apply Forall_app in Hused as [Hu ?].
      apply Forall_app in Hu as [? Hu]. apply Forall_cons in Hu as [_ ?]. by rewrite !Forall_app.
Qed.

Lemma malloc_correct s H len :
  heap_ok s H -> 0 <= len ->
  if len <=? 4096 then
    wp_oom (malloc len) (fun p s' => exists size H', best_size len size /\ heap_ok s' H' /\
      blocks H' ≡ₚ (p, size) :: blocks H /\ Forall (apart (p, size)) (blocks H) /\
      LOW_MEM <= p /\ p mod size = 0 /\ contents_same H s s' /\ elsewhere_same H H' s s') s
  else malloc len s = Panic "malloc: bad arg" s.
Proof.
  intros [Hwf Hused] Hlen. pose proof (find_bucket_spec (bucket_dir s) 0 len) as Hf.
  destruct (find_bucket (bucket_dir s) 0 len) as [[[i size] c]|] eqn:E.
  - destruct Hf as (D1 & D2 & Hdir & -> & Hl & Hlt). pose proof (hw_sizes _ _ Hwf) as Hsz. rewrite Hdir in Hsz.
    pose proof (best_size_split _ _ _ _ _ Hsz Hl Hlt) as Hbest.
    destruct (is_size_facts size (proj1 Hbest)) as (Hs & _). rewrite (proj2 (Z.leb_le _ _)) by lia.
    pose proof (hw_chains _ _ Hwf) as Hc. rewrite Hdir in Hc. destruct H as [C F P]. simpl in Hc.
    apply Forall2_app_inv_l in Hc as (L1 & L2' & H1 & H2 & ->).
    apply Forall2_cons_inv_l in H2 as (bs & L2 & _ & _ & ->). apply Forall2_length in H1.
    unfold malloc. apply wp_oom_bind, oom_gets. rewrite E. rewrite Z.add_0_l.
    apply (wp_oom_assoc (find_free chain_fuel c)), wp_oom_bind.
    eapply wp_oom_mono; [by apply (find_or_new s L1 L2 bs F P D1 D2 size c)|].
    intros d s1 (l1 & b & l2 & F' & P' & -> & Hb & Hfree & Hwf1 & Hu & Ebl & Hg).
    destruct (bfree b) as [|o fl] eqn:Efree; [done|]. apply wp_wp_oom.
    eapply wp_mono; [by eapply take_block|]. rewrite Hb.
    intros p s2 (H' & b' & Hwf2 & HR & Hb' & Ebl' & Hap & Hp & Hpm & Hg'). exists size, H'.
    pose proof (grown_trans _ _ _ _ _ _ Hg Hg') as Hgr. rewrite Ebl in Ebl', Hap.
    split_and!; try done; [split; [done|]; rewrite HR; by constructor|by eapply grown_contents|by apply grown_elsewhere].
  - assert (4096 < len) as Hbig.
    { assert (4096 ∈ (bucket_dir s).*1) as Hin by (rewrite (hw_sizes _ _ Hwf); set_solver).
      apply list_elem_of_fmap in Hin as (e & Ee & He). rewrite Forall_forall in Hf. specialize (Hf e He). lia. }
    rewrite (proj2 (Z.leb_gt _ _)) by done. unfold malloc, bind at 1, gets. by rewrite E.
Qed.

(** ** A bucket leaves its chain *)

Section drop.
Context (s s' : allocator) (L1 L2 : list (list bucket)) (l1 l2 : list bucket) (b : bucket) (F P : list Z).
Context (D1 D2 : list (Z * Z)) (size c c' : Z).
#[local] Abbreviation H := (Heap (L1 ++ (l1 ++ b :: l2) :: L2) F P).
#[local] Abbreviation H' := (Heap (L1 ++ (l1 ++ l2) :: L2) (desc b :: F) P).
#[local] Abbreviation R := (mjoin L1 ++ (l1 ++ l2) ++ mjoin L2).
Context (Hwf : heap_wf s H) (Hdir : bucket_dir s = D1 ++ (size, c) :: D2) (Hlen : length D1 = length L1).
Context (Hdir' : bucket_dir s' = D1 ++ (size, c') :: D2) (Hlinked : linked (W s') 4 c' (desc <$> l1 ++ l2)).
Context (Hfree : free_bucket_desc s' = desc b) (Hnext : W s' (desc b + 4) = free_bucket_desc s).
Context (Hw : forall a, ~ (desc b <= a < desc b + 16) ->
  (forall y, y ∈ l1 -> ~ (desc y + 4 <= a < desc y + 8)) -> W s' a = W s a).
Context (Hown : forall p, p ∈ heap_pages H' -> owned (pages s') p) (Hpool : pool_ok (pages s')).

Lemma drop_buckets : buckets H' = R.
Proof using All. unfold buckets. simpl. by rewrite join_app. Qed.

Lemma drop_split : buckets H ≡ₚ b :: R.
Proof using All. apply buckets_split. Qed.

(** The links in the chain are in no other bucket. *)
Lemma drop_other x a : x ∈ mjoin L1 ++ mjoin L2 -> foot x a -> W s' a = W s a.
Proof using All.
  intros Hx Ha. apply Hw.
  - intros Hb. apply (foot_apart Hwf b R x a drop_split); [set_solver|left; lia|done].
  - intros y (m1 & m2 & ->)%list_elem_of_split Hy.
    apply (foot_apart Hwf y (mjoin L1 ++ (m1 ++ m2) ++ b :: l2 ++ mjoin L2) x a); [|set_solver|left; lia|done].
    unfold buckets. simpl. rewrite join_app. simpl. rewrite <- !app_assoc. simpl. by rewrite <- !Permutation_middle.
Qed.

Lemma drop_inner x a : x ∈ R -> inner x a -> W s' a = W s a.
Proof using All.
  intros Hx Ha. assert (x ∈ buckets H) as Hxb by (rewrite drop_split; set_solver). apply Hw.
  - intros Hb. apply (foot_apart Hwf b R x a drop_split Hx); [by left|by apply inner_foot].
  - intros y Hy Hya. assert (y ∈ buckets H) as Hyb by (rewrite drop_split; set_solver).
    destruct Ha as [Ha|[Ha|Ha]].
    1,2: destruct (decide (desc x = desc y)) as [E|E]; [lia|];
      apply (desc_desc_apart Hwf (desc x) (desc y) a); auto using bucket_desc; lia.
    apply (desc_page_apart Hwf (desc y) x a); auto using bucket_desc. lia.
Qed.

Lemma drop_fdesc d : d ∈ F -> W s' (d + 4) = W s (d + 4).
Proof using All.
  intros Hd. apply Hw.
  - intros Hb. apply (fdesc_apart Hwf d b (d + 4)); [done|rewrite drop_split; set_solver|lia|left; lia].
  - intros y Hy Hya. apply (fdesc_apart Hwf d y (d + 4)); [done|rewrite drop_split; set_solver|lia|left; lia].
Qed.

Lemma heap_drop_bucket : heap_wf s' H'.
Proof using All.
  assert (heap_descs H' ≡ₚ heap_descs H) as Ed.
  { unfold heap_descs. rewrite drop_buckets, drop_split. simpl. by rewrite <- Permutation_middle. }
  assert (heap_pages H ≡ₚ bpage b :: heap_pages H') as Ep by (unfold heap_pages; by rewrite drop_buckets, drop_split).
  assert (forall x, x ∈ R -> x ∈ buckets H) as Hin by (intros x Hx; rewrite drop_split; set_solver).
  pose proof (hw_chains _ _ Hwf) as Hc. simpl in Hc. rewrite Hdir in Hc.
  apply Forall2_app_inv in Hc as [Hc1 Hc2]; [|done]. apply Forall2_cons in Hc2 as [[Hl Hbs] Hc2]. simpl in Hl, Hbs.
  split.
  - rewrite Hdir'. pose proof (hw_sizes _ _ Hwf) as Hs. rewrite Hdir in Hs. rewrite <- Hs. by rewrite !fmap_app.
  - rewrite Hdir'. simpl. apply Forall2_app; [|constructor; [split|]]; simpl; [|done| |].
    + apply (chains_ext (W s)); [intros e He; apply (sizes_ok Hwf); rewrite Hdir; set_solver| | |done].
      * intros x Hx. eapply (page_aligned Hwf), bucket_page, Hin. set_solver.
      * intros x a Hx. apply drop_other. set_solver.
    + apply Forall_forall. rewrite Forall_forall in Hbs. intros x Hx. assert (x ∈ R) as HxR by set_solver.
      apply (bucket_ok_inner (W s)); [apply (sizes_ok Hwf (size, c)); rewrite Hdir; set_solver| | |apply Hbs; set_solver].
      * by eapply (page_aligned Hwf), bucket_page, Hin.
      * intros a. by apply drop_inner.
    + apply (chains_ext (W s)); [intros e He; apply (sizes_ok Hwf); rewrite Hdir; set_solver| | |done].
      * intros x Hx. eapply (page_aligned Hwf), bucket_page, Hin. set_solver.
      * intros x a Hx. apply drop_other. set_solver.
  - rewrite Hfree. simpl. split_and!; [done| |].
    + eapply linked_in; [exact Hl|]. rewrite fmap_app. set_solver.
    + rewrite Hnext. eapply linked_ext; [|apply Hwf]. intros d Hd. by apply drop_fdesc.
  - rewrite Ed. apply Hwf.
  - pose proof (hw_desc_in _ _ Hwf) as Hd. by rewrite <- Ed in Hd.
  - pose proof (hw_pages _ _ Hwf) as Hp. rewrite Ep in Hp. by apply NoDup_cons in Hp as [_ Hp].
  - by apply Forall_forall.
  - done.
Qed.
End drop.

(** The descriptor before [b] in its chain, or the null pointer. *)
Definition before (l1 : list bucket) : Z := default 0 (last (desc <$> l1)).

Lemma before_snoc l1 x : before (l1 ++ [x]) = desc x.
Proof. unfold before. rewrite fmap_app. change (desc <$> [x]) with [desc x]. by rewrite last_snoc. Qed.

Lemma linked_mid w off p l1 x d l2 : linked w off p (l1 ++ x :: d :: l2) -> w (x + off) = d.
Proof. revert p. induction l1 as [|a l1 IH]; intros p; simpl; [naive_solver|]. intros (_ & _ & H). by eapply IH. Qed.

(** The code's test that [prev] is still right. *)
Lemma before_links s c l1 b l2 :
  linked (W s) 4 c (desc <$> l1 ++ b :: l2) ->
  (if istrue (before l1) then W s (before l1 + 4) else c) = desc b /\ (istrue (before l1) = false -> l1 = []).
Proof.
  intros Hl. destruct l1 as [|x l1 _] using rev_ind.
  - simpl in Hl. by destruct Hl as [-> _].
  - rewrite before_snoc. rewrite <- app_assoc, fmap_app in Hl. simpl in Hl.
    assert (desc x <> 0) as Hx by (eapply linked_in; [exact Hl|set_solver]).
    unfold istrue. rewrite (proj2 (Z.eqb_neq _ _)) by done. simpl. split; [by eapply linked_mid|done].
Qed.

Section drop_bucket.
Context (s : allocator) (L1 L2 : list (list bucket)) (l1 l2 : list bucket) (b : bucket) (F P : list Z).
Context (D1 D2 : list (Z * Z)) (size c : Z).
#[local] Abbreviation H := (Heap (L1 ++ (l1 ++ b :: l2) :: L2) F P).
#[local] Abbreviation H' := (Heap (L1 ++ (l1 ++ l2) :: L2) (desc b :: F) P).
Context (Hwf : heap_wf s H) (Hdir : bucket_dir s = D1 ++ (size, c) :: D2) (Hlen : length D1 = length L1).

(** The two ways of unlinking. *)
Definition unlinked (s' : allocator) : Prop :=
  same_but_words (s <| bucket_dir := bucket_dir s' |>) s' /\
  (exists c', bucket_dir s' = D1 ++ (size, c') :: D2 /\ linked (W s') 4 c' (desc <$> l1 ++ l2)) /\
  forall a, (forall y, y ∈ l1 -> ~ (desc y + 4 <= a < desc y + 8)) -> W s' a = W s a.

Lemma unlink_spec :
  wp (if istrue (before l1) then write_word (d_next (before l1)) (W s (desc b + 4))
      else if negb (c =? desc b) then panic "malloc bucket chains corrupted"
      else set_chain (lenz D1) size (W s (desc b + 4))) (fun _ s' => unlinked s') s.
Proof using Hwf Hdir Hlen.
  pose proof (hw_chains _ _ Hwf) as Hc. simpl in Hc. rewrite Hdir in Hc.
  apply Forall2_app_inv in Hc as [_ Hc]; [|done]. apply Forall2_cons in Hc as [[Hl _] _]. simpl in Hl.
  destruct (before_links _ _ _ _ _ Hl) as [Hbl Hnil]. pose proof (buckets_split L1 l1 b l2 L2 F P) as HR.
  destruct (istrue (before l1)) eqn:E.
  - assert (exists m x, l1 = m ++ [x]) as (m & x & El).
    { destruct (exists_last (l := l1)) as (m & x & El); [|by exists m, x]. intros ->. by unfold before in E; simpl in E. }
    assert (before l1 = desc x) as Eb by (rewrite El; apply before_snoc). rewrite Eb in *.
    assert (x ∈ l1) as Hx1 by (rewrite El; set_solver).
    assert (x ∈ buckets H) as Hx by (rewrite HR; set_solver).
    destruct (desc_facts Hwf (desc x) (bucket_desc x Hx)) as [Hx16 _]. unfold d_next. heap_steps.
    set (s' := put (desc x + 4) (W s (desc b + 4)) s).
    assert (forall a, ~ (desc x + 4 <= a < desc x + 8) -> W s' a = W s a) as Hout.
    { intros a Ha. unfold s'. rewrite W_put_ne; [done|dmlia|lia]. }
    split_and!; [done| |intros a Ha; by apply Hout, Ha].
    exists c. split; [done|]. rewrite El in Hl |- *. rewrite <- app_assoc, fmap_app in Hl. rewrite <- app_assoc, fmap_app.
    change ([x] ++ b :: l2) with (x :: b :: l2) in Hl. change ([x] ++ l2) with (x :: l2). rewrite !fmap_cons in Hl. rewrite fmap_cons.
    eapply linked_remove; [exact Hl|unfold s'; by rewrite W_put_eq|]. intros d Hd. apply Hout.
    assert (d ∈ heap_descs H /\ d <> desc x) as [Hd1 Hd2].
    { pose proof (hw_descs _ _ Hwf) as Hnd. apply NoDup_app in Hnd as (Hnd & _ & _).
      assert (buckets H ≡ₚ x :: (m ++ l2) ++ b :: (mjoin L1 ++ mjoin L2)) as Hsp.
      { rewrite HR, El. rewrite <- !Permutation_middle. simpl. solve_Permutation. }
      rewrite Hsp in Hnd. rewrite fmap_cons, fmap_app in Hnd. apply NoDup_cons in Hnd as [Hnd _].
      rewrite <- fmap_app in Hd. split; [|intros ->; apply Hnd, elem_of_app; by left].
      apply elem_of_app. left. rewrite Hsp. rewrite fmap_cons, fmap_app. set_solver. }
    assert (desc x ∈ heap_descs H) as Hdx by by apply bucket_desc.
    intros Ha. apply (desc_desc_apart Hwf d (desc x) (d + 4)); try done; lia.
  - rewrite (Hnil eq_refl) in *. simpl in Hbl. subst c. rewrite Z.eqb_refl. simpl. unfold set_chain. heap_steps.
    split_and!; [by destruct s| |done].
    exists (W s (desc b + 4)). split; [|].
    + simpl. change (setz (bucket_dir s) (lenz D1) (size, W s (desc b + 4)) = D1 ++ (size, W s (desc b + 4)) :: D2).
      rewrite Hdir. apply setz_middle.
    + destruct Hl as (_ & _ & Hl). rewrite (Hnil eq_refl). exact Hl.
Qed.

Lemma split_page : exists k, 0 <= k < TOTAL_PAGES /\ bpage b = page_address k /\
  getz (memory_map (pages s)) k = Some 1 /\ page_address k < HIGH_MEMORY (pages s).
Proof using Hwf. apply (page_owned Hwf), bucket_page, split_in. Qed.

Lemma drop_pages p : p ∈ heap_pages H' -> p ∈ heap_pages H /\ p <> bpage b.
Proof using Hwf.
  intros Hp. assert (heap_pages H ≡ₚ bpage b :: heap_pages H') as Ep.
  { unfold heap_pages. rewrite buckets_split. unfold buckets. simpl. by rewrite join_app. }
  pose proof (hw_pages _ _ Hwf) as Hnd. rewrite Ep in Hnd |- *. apply NoDup_cons in Hnd as [Hnd _].
  split; [by right|congruence].
Qed.

Lemma drop_bucket_spec :
  wp (drop_bucket (lenz D1) size (desc b) (before l1)) (fun _ s' => heap_wf s' H' /\
    (forall a, page_of a ∉ P -> W s' a = W s a) /\
    (forall j, page_address j <> bpage b -> getz (memory_map (pages s')) j = getz (memory_map (pages s)) j)) s.
Proof using Hwf Hdir Hlen.
  pose proof (hw_chains _ _ Hwf) as Hc. simpl in Hc. rewrite Hdir in Hc.
  apply Forall2_app_inv in Hc as [_ Hc]; [|done]. apply Forall2_cons in Hc as [[Hl _] _]. simpl in Hl.
  destruct (before_links _ _ _ _ _ Hl) as [Hbl _]. destruct split_page as (k & Hk & Epg & Hone & Hlt).
  pose proof (desc_facts Hwf (desc b) (bucket_desc b split_in)) as [Hb16 HbP].
  destruct (bucket_facts Hwf b split_in) as [_ Hok].
  assert (forall y a, y ∈ b :: l1 -> desc y <= a < desc y + 16 -> page_of a ∈ P) as Hdp.
  { intros y a Hy Ha. assert (y ∈ buckets H) as Hyb by (rewrite buckets_split; set_solver).
    rewrite (desc_in_page Hwf (desc y) a) by (done || by apply bucket_desc). by apply (desc_facts Hwf), bucket_desc. }
  assert (forall y, y ∈ l1 -> desc y <> desc b) as Hne.
  { intros y Hy E. pose proof (hw_descs _ _ Hwf) as Hnd. apply NoDup_app in Hnd as (Hnd & _ & _).
    rewrite buckets_split, fmap_cons in Hnd. apply NoDup_cons in Hnd as [Hnd _]. apply Hnd. rewrite <- E.
    apply list_elem_of_fmap_2. set_solver. }
  unfold drop_bucket. heap_steps. rewrite Hdir. eapply wp_valid; [apply getz_middle|]. cbn beta iota.
  heap_steps. apply wp_mono with (Q := fun n s' => n = desc b /\ s' = s).
  { unfold d_next. destruct (istrue (before l1)); [apply wp_read_word|apply wp_ret]; by split. }
  intros n s0 [-> ->]. rewrite Z.eqb_refl. heap_steps. eapply wp_mono; [apply unlink_spec|].
  intros _ s1 (Hsame & (c' & Hdir1 & Hlink) & Hout). heap_steps.
  assert (forall a, desc b <= a < desc b + 16 -> W s1 a = W s a) as Hb1.
  { intros a Ha. apply Hout. intros y Hy Hya. assert (y ∈ buckets H) as Hyb by (rewrite buckets_split; set_solver).
    apply (desc_desc_apart Hwf (desc y) (desc b) a); [by apply bucket_desc|apply bucket_desc, split_in|by apply Hne|lia|done]. }
  rewrite Hb1, (bk_page _ _ _ Hok), Epg by lia. apply wp_zoom.
  eapply (wp_free_page k 1); [lia| | |lia|].
  { rewrite (sb_high _ _ Hsame). simpl. by rewrite u32_id by apply (po_high _ (hw_pool _ _ Hwf)). }
  { by rewrite (sb_map _ _ Hsame). }
  heap_steps. lazymatch goal with |- heap_wf ?x _ /\ _ => set (s' := x) end.
  assert (free_bucket_desc s1 = free_bucket_desc s) as Hf1 by apply Hsame.
  assert (memory_map (pages s') = setz (memory_map (pages s)) k 0) as Hm by (unfold s'; simpl; by rewrite (sb_map _ _ Hsame)).
  assert (HIGH_MEMORY (pages s') = HIGH_MEMORY (pages s)) as Hh by (unfold s'; simpl; by rewrite (sb_high _ _ Hsame)).
  assert (forall a, ~ (desc b + 4 <= a < desc b + 8) -> W s' a = W s1 a) as Hw'.
  { intros a Ha. unfold s', d_next. rewrite W_fdesc, W_put_ne, W_map; [done|dmlia|lia]. }
  split_and!.
  - apply (heap_drop_bucket s s' L1 L2 l1 l2 b F P D1 D2 size c c'); try done.
    + eapply linked_ext; [|exact Hlink]. intros a Ha. apply Hw'.
      assert (a ∈ heap_descs H /\ a <> desc b) as [Ha1 Ha2].
      { pose proof (hw_descs _ _ Hwf) as Hnd. apply NoDup_app in Hnd as (Hnd & _ & _).
        rewrite buckets_split, fmap_cons in Hnd. apply NoDup_cons in Hnd as [Hnd _].
        apply list_elem_of_fmap in Ha as (y & -> & Hy).
        split; [apply bucket_desc; rewrite buckets_split; set_solver|]. intros E. apply Hnd. rewrite <- E.
        apply list_elem_of_fmap_2. set_solver. }
      intros Hab. apply (desc_desc_apart Hwf a (desc b) (a + 4)); [done|apply bucket_desc, split_in|done|lia|lia].
    + unfold s', d_next. by rewrite W_fdesc, W_put_eq.
    + intros a Ha Hy. rewrite Hw' by lia. by apply Hout.
    + intros q Hq. destruct (drop_pages q Hq) as [Hq1 Hq2]. destruct (page_owned Hwf q Hq1) as (j & Hj & -> & H1 & H2).
      exists j. rewrite Hm, Hh, getz_setz_ne; [done|]. intros ->. by apply Hq2.
    + destruct (hw_pool _ _ Hwf) as [P1 P2 P3]. split; rewrite ?Hm, ?Hh; [by rewrite lenz_setz|done|].
      intros j Hj. rewrite getz_setz_ne; [by apply P3|]. intros ->. lia.
  - intros a Ha. rewrite Hw'; [apply Hout; intros y Hy Hya|intros Hba]; apply Ha.
    + apply (Hdp y); [by right|lia].
    + apply (Hdp b); [by left|lia].
  - intros j Hj. rewrite Hm. apply getz_setz_ne. congruence.
Qed.
End drop_bucket.

(** ** [free_s] *)

Lemma find_page_spec s size fuel bs d prev page :
  linked (W s) 4 d (desc <$> bs) -> Forall (bucket_ok (W s) size) bs -> (length bs <= fuel)%nat ->
  wp (find_page fuel d prev page) (fun r s' => s' = s /\
    match r with
    | Some (d', prev') => exists l1 b l2, bs = l1 ++ b :: l2 /\ d' = desc b /\ bpage b = page /\
        prev' = default prev (last (desc <$> l1))
    | None => Forall (fun b => bpage b <> page) bs
    end) s.
Proof.
  revert d prev bs. induction fuel as [|fuel IH]; intros d prev [|b bs] Hl Hb Hf; simpl in Hl, Hf; try lia; simpl.
  1,2: subst d; simpl; wp_steps; by split.
  destruct Hl as (-> & Hd & Hl). apply Forall_cons in Hb as [Hb Hbs].
  rewrite (proj2 (Z.eqb_neq _ _)) by done. heap_steps. rewrite (bk_page _ _ _ Hb).
  destruct (Z.eqb_spec (bpage b) page) as [E|E]; heap_steps.
  - split; [done|]. by exists [], b, bs.
  - unfold d_next. eapply wp_mono; [apply IH; [done|done|lia]|].
    intros [[d' prev']|] s' [-> Hr]; (split; [done|]); [|by constructor].
    destruct Hr as (l1 & b' & l2 & -> & -> & Hp & ->). exists (b :: l1), b', l2. split_and!; try done.
    rewrite fmap_cons, last_cons. by destruct (last (desc <$> l1)).
Qed.

Lemma find_object_spec s D L i page size :
  Forall2 (chain_ok (W s)) D L -> Forall (fun bs => (length bs <= chain_fuel)%nat) L ->
  (exists b, b ∈ mjoin L /\ bpage b = page /\ size <= bsize b) ->
  wp (find_object D i page size) (fun r s' => s' = s /\ exists D1 bsz c D2 L1 l1 b l2 L2,
    r = (i + lenz D1, bsz, desc b, before l1) /\ D = D1 ++ (bsz, c) :: D2 /\ L = L1 ++ (l1 ++ b :: l2) :: L2 /\
    length D1 = length L1 /\ bpage b = page) s.
Proof.
  intros HD. revert i. induction HD as [|[bsz c] bs D L Hc HD IH]; intros i Hf (b & Hb & Hp & Hs).
  { by apply elem_of_nil in Hb. }
  apply Forall_cons in Hf as [Hf1 Hf].
  assert (b ∉ bs -> wp (find_object D (i + 1) page size) (fun r s' => s' = s /\ exists D1 bsz' c' D2 L1 l1 b l2 L2,
    r = (i + lenz D1, bsz', desc b, before l1) /\ (bsz, c) :: D = D1 ++ (bsz', c') :: D2 /\ bs :: L = L1 ++ (l1 ++ b :: l2) :: L2 /\
    length D1 = length L1 /\ bpage b = page) s) as Hnext.
  { intros Hn. eapply wp_mono; [apply IH; [done|]; exists b; simpl in Hb; set_solver|].
    intros r s' (-> & D1 & bsz' & c' & D2 & L1 & l1 & b' & l2 & L2 & -> & -> & -> & Hlen & Hp'). split; [done|].
    exists ((bsz, c) :: D1), bsz', c', D2, (bs :: L1), l1, b', l2, L2. rewrite lenz_cons.
    split_and!; try done; [do 3 f_equal; lia|simpl; lia]. }
  destruct Hc as [Hl Hbs]. simpl in Hl, Hbs. cbn [find_object]. destruct (Z.ltb_spec bsz size) as [Hlt|Hge].
  - apply Hnext. intros Hin. rewrite Forall_forall in Hbs. pose proof (bk_size _ _ _ (Hbs b Hin)). lia.
  - heap_steps. eapply wp_mono; [eapply find_page_spec; done|]. intros [[d prev]|] s' [-> Hr].
    + destruct Hr as (l1 & b' & l2 & -> & -> & Hp' & ->). heap_steps. split; [done|].
      exists [], bsz, c, D, [], l1, b', l2, L. split_and!; try done. unfold lenz. simpl. by rewrite Z.add_0_r.
    + apply Hnext. intros Hin. rewrite Forall_forall in Hr. by apply (Hr b).
Qed.

Lemma chains_bound s H : heap_wf s H -> Forall (fun bs => (length bs <= chain_fuel)%nat) (chains H).
Proof.
  intros Hwf. apply Forall_forall. intros bs (L1 & L2 & E)%list_elem_of_split.
  etransitivity; [|by apply (buckets_bound Hwf)]. unfold buckets. rewrite E, join_app. simpl. rewrite !length_app. lia.
Qed.

Lemma same_page_bucket s H b b' : heap_wf s H -> b ∈ buckets H -> b' ∈ buckets H -> bpage b = bpage b' -> b = b'.
Proof.
  intros Hwf (R & HR)%elem_of_Permutation Hb' E. pose proof (hw_pages _ _ Hwf) as Hp.
  apply NoDup_app in Hp as (Hp & _ & _). rewrite HR, fmap_cons in Hp. apply NoDup_cons in Hp as [Hp _].
  rewrite HR in Hb'. apply elem_of_cons in Hb' as [->|Hb']; [done|]. destruct Hp. rewrite E. by apply list_elem_of_fmap_2.
Qed.

Section freed.
Context (s : allocator) (L1 L2 : list (list bucket)) (l1 l2 : list bucket) (b : bucket) (F P : list Z).
Context (D1 D2 : list (Z * Z)) (bsz c : Z).
#[local] Abbreviation H := (Heap (L1 ++ (l1 ++ b :: l2) :: L2) F P).
#[local] Abbreviation R := (mjoin L1 ++ (l1 ++ l2) ++ mjoin L2).
Context (Hwf : heap_wf s H) (Hused : Forall (fun b => bused b <> []) R) (p : Z) (us : list Z) (Hus : bused b ≡ₚ p :: us).
Context (Hdir : bucket_dir s = D1 ++ (bsz, c) :: D2) (Hlen : length D1 = length L1).

Lemma freed_block : blocks H ≡ₚ (p, bsize b) :: (((fun o => (o, bsize b)) <$> us) ++ (R ≫= bucket_blocks)).
Proof using Hus.
  rewrite (blocks_perm _ _ _ (buckets_split _ _ _ _ _ _ _)). unfold bucket_blocks at 1. rewrite Hus. by rewrite fmap_cons.
Qed.

(** The words a call writes: the object, and descriptors. *)
Lemma freed_frame H' s' :
  blocks H' ≡ₚ ((fun o => (o, bsize b)) <$> us) ++ (R ≫= bucket_blocks) ->
  (forall a, page_of a ∉ P -> ~ (p <= a < p + 4) -> W s' a = W s a) ->
  (forall j, page_address j <> bpage b -> getz (memory_map (pages s')) j = getz (memory_map (pages s)) j) ->
  contents_same H' s s' /\ elsewhere_same H H' s s'.
Proof using All.
  intros Ebl Hw Hc. assert (p ∈ bused b) as Hp by (rewrite Hus; set_solver).
  destruct (block_facts _ _ _ _ Hwf split_in Hp) as (Hs & _ & H1 & H2 & H3 & _ & H4). pose proof (is_size_facts _ Hs) as (Hsz & _).
  split.
  - intros [q n] a Hin Ha. simpl in Ha. rewrite Ebl in Hin.
    assert ((q, n) ∈ blocks H) as HinH by (rewrite freed_block; by right).
    pose proof (blocks_apart _ _ _ _ _ _ Hwf (buckets_split _ _ _ _ _ _ _) Hus) as Hap. rewrite Forall_forall in Hap.
    specialize (Hap _ Hin). unfold apart in Hap. simpl in Hap. apply block_in in HinH as (x & Hx & Hq & ->).
    destruct (block_facts _ _ _ _ Hwf Hx Hq) as (_ & _ & H5 & H6 & H7 & _). apply Hw; [|lia].
    rewrite (page_of_in (bpage x)) by (done || lia). intros HP. by apply (page_not_dpage Hwf x (bpage x) Hx).
  - split.
    + intros a Ha. apply Hw; [set_solver|]. intros Hpa. apply Ha, elem_of_app. left.
      rewrite (page_of_in (bpage b)) by (done || lia). apply bucket_page, split_in.
    + intros j Hj. apply Hc. intros E. apply Hj. rewrite E. apply elem_of_app. left. apply bucket_page, split_in.
Qed.

Lemma freed_spec :
  wp (let! refcnt := give_object p (desc b) in
      if istrue refcnt then ret tt else drop_bucket (lenz D1) bsz (desc b) (before l1))
    (fun _ s' => exists H', heap_ok s' H' /\ blocks H ≡ₚ (p, bsize b) :: blocks H' /\
      contents_same H' s s' /\ elsewhere_same H H' s s') s.
Proof using All.
  apply wp_bind. eapply wp_mono; [by apply (give_object_spec s L1 L2 l1 l2 b F P Hwf p us)|].
  intros r s1 (-> & Hsame & Hout & Hwf1). set (b' := Bucket _ _ _ _ us) in Hwf1.
  assert (desc b ∈ heap_descs H) as Hd by apply bucket_desc, split_in.
  assert (forall a, page_of a ∉ P -> ~ (p <= a < p + 4) -> W s1 a = W s a) as Hw1.
  { intros a Ha Hpa. apply Hout; [|done]. intros Hda. apply Ha. rewrite (desc_in_page Hwf (desc b)) by done.
    by apply (desc_facts Hwf). }
  pose proof (buckets_split L1 l1 b' l2 L2 F P) as HR'.
  assert (forall H', blocks H' ≡ₚ ((fun o => (o, bsize b)) <$> us) ++ (R ≫= bucket_blocks) -> blocks H ≡ₚ (p, bsize b) :: blocks H') as Hbl.
  { intros H' E. by rewrite freed_block, E. }
  unfold istrue. destruct (Z.eqb_spec (lenz us) 0) as [E0|E0]; simpl.
  - assert (us = []) as Eus by (apply length_zero_iff_nil; unfold lenz in E0; lia).
    pose proof Hdir as Hdir1. rewrite <- (sb_dir _ _ Hsame) in Hdir1. eapply wp_mono; [by apply (drop_bucket_spec s1 L1 L2 l1 l2 b' F P D1 D2 bsz c)|].
    intros _ s2 (Hwf2 & Hw2 & Hc2). exists (Heap (L1 ++ (l1 ++ l2) :: L2) (desc b :: F) P).
    assert (buckets (Heap (L1 ++ (l1 ++ l2) :: L2) (desc b :: F) P) = R) as EB by (unfold buckets; simpl; by rewrite join_app).
    assert (blocks (Heap (L1 ++ (l1 ++ l2) :: L2) (desc b :: F) P) ≡ₚ ((fun o => (o, bsize b)) <$> us) ++ (R ≫= bucket_blocks)) as Ebl.
    { unfold blocks. by rewrite EB, Eus. }
    split_and!; [split; [done|by rewrite EB]|by apply Hbl|..]; apply freed_frame; try done.
    1,3: intros a Ha Hpa; rewrite Hw2 by done; by apply Hw1.
    all: intros j Hj; rewrite Hc2 by done; by rewrite (sb_map _ _ Hsame).
  - apply wp_ret. exists (Heap (L1 ++ (l1 ++ b' :: l2) :: L2) F P).
    pose proof (blocks_perm _ _ _ HR') as Ebl.
    split_and!; [split; [done|rewrite HR'; constructor; [|done]]|by apply Hbl|..].
    + intros Eu. simpl in Eu. by rewrite Eu in E0.
    + by apply freed_frame; [|done|intros; rewrite (sb_map _ _ Hsame)].
    + by apply freed_frame; [|done|intros; rewrite (sb_map _ _ Hsame)].
Qed.
End freed.

(** C3: In a heap in order, [malloc] either finds no page left in the machine, or
    gives out a block of the smallest size that fits: aligned to its size, above
    the first megabyte, and apart from every block that is out. The heap is in
    order again and has exactly this block more; the contents of all blocks, and
    all words and counts of pages that are not the allocator's, are as before.
    More than a page is refused. *)
Theorem malloc_spec s H len :
  heap_ok s H -> 0 <= len ->
  if len <=? 4096 then
    wp_oom (malloc len) (fun p s' => exists size H', best_size len size /\ heap_ok s' H' /\
      blocks H' ≡ₚ (p, size) :: blocks H /\ Forall (apart (p, size)) (blocks H) /\
      LOW_MEM <= p /\ p mod size = 0 /\ contents_same H s s' /\ elsewhere_same H H' s s') s
  else malloc len s = Panic "malloc: bad arg" s.
Proof. apply malloc_correct. Qed.

(** C4: Any block that is out can be given back, with its size or a smaller one,
    or 0: [free_s] returns, the heap is in order and has exactly this block less,
    the contents of all others are as before, and nothing outside the
    allocator's pages changes. *)
Theorem free_s_spec s H p size n :
  heap_ok s H -> (p, size) ∈ blocks H -> n <= size ->
  wp (free_s p n) (fun _ s' => exists H', heap_ok s' H' /\ blocks H ≡ₚ (p, size) :: blocks H' /\
    contents_same H' s s' /\ elsewhere_same H H' s s') s.
Proof.
  intros [Hwf Hused] (b & Hb & Hpb & ->)%block_in Hn.
  destruct (block_facts _ _ _ _ Hwf Hb Hpb) as (Hs & Hobj & H1 & H2 & H3 & H4 & Hpg). apply is_size_facts in Hs as (Hs & _).
  unfold free_s. assert (Z.land (u32 p) 0xfffff000 = bpage b) as ->.
  { assert (is_u32 p) as Hu by (unfold is_u32; unfold LOW_MEM in H4; lia).
    rewrite u32_id, Z.land_comm by done. change (frame p = bpage b). rewrite frame_mod by done. exact Hpg. }
  heap_steps. eapply wp_mono.
  { apply (find_object_spec s (bucket_dir s) (chains H) 0 (bpage b) n); [apply Hwf|by eapply chains_bound|by exists b]. }
  intros r s0 (-> & D1 & bsz & c & D2 & L1 & l1 & b0 & l2 & L2 & -> & Hdir & EL & Hlen & Hp0). rewrite Z.add_0_l.
  destruct H as [C F P]. simpl in EL. subst C.
  assert (b = b0) as <- by (by apply (same_page_bucket _ _ _ _ Hwf Hb split_in)).
  apply elem_of_Permutation in Hpb as (us & Hus). rewrite buckets_split in Hused. apply Forall_cons in Hused as [_ Hused].
  by apply (freed_spec s L1 L2 l1 l2 b F P D1 D2 bsz c Hwf Hused p us).
Qed.

(** ** The first calls of a machine *)

Lemma pool_of_inv K m : page_inv K m -> pool_ok m.
Proof.
  intros Hi. split; [apply Hi| |apply Hi]. pose proof (inv_high _ _ Hi) as Hh. rewrite TOTAL_PAGES_eq in Hh.
  unfold is_u32. unfold page_address, LOW_MEM in Hh. lia.
Qed.

(** Before the first call. *)
Definition first_state (m : mm) : allocator := Allocator m empty_bucket_dir 0.
Definition empty_heap : heap := Heap (replicate 9 []) [] [].

Lemma empty_heap_ok m : pool_ok m -> heap_ok (first_state m) empty_heap.
Proof.
  intros Hp. split; [|constructor]. split; [done| |done|constructor..|done].
  simpl. repeat (apply Forall2_cons; split; [by split|]). constructor.
Qed.

Definition start : allocator := first_state empty_machine.

Lemma start_ok : heap_ok start empty_heap.
Proof. eapply empty_heap_ok, pool_of_inv, page_inv_empty. Qed.

Lemma malloc_spec_witness :
  heap_ok start empty_heap /\ is_ok (malloc 100 start) = true /\
  wp_oom (malloc 100) (fun p s' => exists size H', best_size 100 size /\ heap_ok s' H' /\
      blocks H' ≡ₚ (p, size) :: blocks empty_heap /\ Forall (apart (p, size)) (blocks empty_heap) /\
      LOW_MEM <= p /\ p mod size = 0 /\ contents_same empty_heap start s' /\ elsewhere_same empty_heap H' start s') start.
Proof.
  split; [exact start_ok|]. split; [vm_compute; reflexivity|].
  pose proof (malloc_spec start empty_heap 100 start_ok ltac:(lia)) as Hm.
  destruct (Z.leb_spec 100 4096); [exact Hm|lia].
Defined.

(** The state after [malloc(100)], and the block it gave. *)
Definition one_out : allocator := final (malloc 100 start).
Definition the_block : Z := match malloc 100 start with Ok p _ => p | _ => 0 end.

Lemma best_100 size : best_size 100 size -> size = 128.
Proof.
  intros (Hs & Hl & Hmin). assert (size <= 128) by (apply Hmin; [unfold is_size; simpl; do 3 right; left|lia]).
  unfold is_size in Hs. repeat (apply elem_of_cons in Hs as [->|Hs]; [simpl in *; lia|]). by apply elem_of_nil in Hs.
Qed.

Lemma wp_oom_ok {A} (m : M allocator A) (Q : A -> allocator -> Prop) s :
  wp_oom m Q s -> is_ok (m s) = true -> exists a s', m s = Ok a s' /\ Q a s'.
Proof. unfold wp_oom. destruct (m s) as [a s'| | | |]; [|done..]. intros HQ _. by exists a, s'. Qed.

Lemma start_ok_100 : is_ok (malloc 100 start) = true.
Proof. vm_compute. reflexivity. Qed.

Lemma one_out_ok : exists H, heap_ok one_out H /\ (the_block, 128) ∈ blocks H.
Proof.
  pose proof (malloc_correct start empty_heap 100 start_ok ltac:(lia)) as Hm. destruct (Z.leb_spec 100 4096); [|lia].
  destruct (wp_oom_ok _ _ _ Hm start_ok_100) as (p & s' & E & size & H' & Hb & Hwf & Hbl & _).
  apply best_100 in Hb as ->. unfold one_out, the_block. rewrite E. exists H'. split; [exact Hwf|]. rewrite Hbl. by left.
Qed.

Lemma free_s_spec_witness :
  exists H, heap_ok one_out H /\ (the_block, 128) ∈ blocks H /\
  wp (free_s the_block 100) (fun _ s' => exists H', heap_ok s' H' /\ blocks H ≡ₚ (the_block, 128) :: blocks H' /\
    contents_same H' one_out s' /\ elsewhere_same H H' one_out s') one_out.
Proof.
  destruct one_out_ok as (H & Hok & Hin). exists H. split; [exact Hok|]. split; [exact Hin|].
  exact (free_s_spec one_out H the_block 128 100 Hok Hin ltac:(lia)).
Defined.
