(* ===== verification/Sys.v ===== *)
(** * Identity, groups and time of a task: kernel/sys.c

    The calls that are not implemented return an error. *)

From Stdlib Require Import ZArith Lia.
From stdpp Require Import base numbers list gmap strings.
From S2P Require Import Prelude Memory Task Sched TtyData Kernel CharDev.

Definition not_implemented : M sched Z := ret (- ENOSYS).
Definition sys_ftime := not_implemented.
Definition sys_break := not_implemented.
Definition sys_ptrace := not_implemented.
Definition sys_stty := not_implemented.
Definition sys_gtty := not_implemented.
Definition sys_rename := not_implemented.
Definition sys_prof := not_implemented.
Definition sys_acct := not_implemented.
Definition sys_phys := not_implemented.
Definition sys_lock := not_implemented.
Definition sys_mpx := not_implemented.
Definition sys_ulimit := not_implemented.

(** ** Users and groups *)

Definition sys_setregid (rgid new_egid : Z) : M sched Z :=
  let! t := get_current in
  let! su := gets suser in
  let! denied :=
    (if 0 <? rgid then
       if (gid t =? rgid) || su then do! update_current (fun t => t <| gid := u16 rgid |>) in ret false
       else ret true
     else ret false) in
  if denied : bool then ret (- EPERM) else
  let! t := get_current in
  if 0 <? new_egid then
    if (gid t =? new_egid) || (egid t =? new_egid) || (sgid t =? new_egid) || su then
      do! update_current (fun t => t <| egid := u16 new_egid |>) in ret 0
    else ret (- EPERM)
  else ret 0.

Definition sys_setgid (gid : Z) : M sched Z := sys_setregid gid gid.

Definition sys_setreuid (ruid new_euid : Z) : M sched Z :=
  let! t := get_current in
  let old_ruid := uid t in
  let! su := gets suser in
  let! denied :=
    (if 0 <? ruid then
       if (euid t =? ruid) || (old_ruid =? ruid) || su
       then do! update_current (fun t => t <| uid := u16 ruid |>) in ret false
       else ret true
     else ret false) in
  if denied : bool then ret (- EPERM) else
  let! t := get_current in
  if 0 <? new_euid then
    if (old_ruid =? new_euid) || (euid t =? new_euid) || su then
      do! update_current (fun t => t <| euid := u16 new_euid |>) in ret 0
    else
      do! update_current (fun t => t <| uid := old_ruid |>) in ret (- EPERM)
  else ret 0.

Definition sys_setuid (uid : Z) : M sched Z := sys_setreuid uid uid.

(** ** Process groups and sessions *)

(** The first task with the number, from slot [i] on. *)
Fixpoint find_pid (l : list (option task_struct)) (i n : Z) : option (Z * task_struct) :=
  match l with
  | [] => None
  | Some t :: l => if pid t =? n then Some (i, t) else find_pid l (i + 1) n
  | None :: l => find_pid l (i + 1) n
  end.

Definition sys_setpgid (n pgid : Z) : M sched Z :=
  let! t := get_current in
  let n := if istrue n then n else pid t in
  let pgid := if istrue pgid then pgid else pid t in
  let! l := gets task in
  match find_pid l 0 n with
  | None => ret (- ESRCH)
  | Some (i, p) =>
    if istrue (leader p) then ret (- EPERM) else
    if negb (session p =? session t) then ret (- EPERM) else
    do! update_task i (fun p => p <| pgrp := pgid |>) in
    ret 0
  end.

Definition sys_getpgrp : M sched Z := let! t := get_current in ret (pgrp t).

Definition sys_setsid : M sched Z :=
  let! t := get_current in
  let! su := gets suser in
  if istrue (leader t) && negb su then ret (- EPERM) else
  do! update_current (fun t => t <| leader := 1 |> <| pgrp := pid t |> <| session := pid t |> <| tty := -1 |>) in
  ret (pid t).

Definition sys_umask (mask : Z) : M sched Z :=
  let! t := get_current in
  do! update_current (fun t => t <| umask := Z.land mask 0x1ff |>) in
  ret (umask t).

(** ** Memory and time *)

Definition sys_brk (end_data_seg : Z) : M sched Z :=
  let! t := get_current in
  do! when ((end_code t <=? end_data_seg) && (end_data_seg <? u32 (start_stack t - 16384)))
    (update_current (fun t => t <| brk := end_data_seg |>)) in
  let! t := get_current in
  ret (s32 (brk t)).

Definition sys_time (tloc : Z) : M kernel Z :=
  let! i := gets (fun s => CURRENT_TIME (sch s)) in
  do! when (istrue tloc) (do! verify_area tloc 4 in put_fs_long i tloc) in
  ret i.

Definition sys_stime (tptr : Z) : M kernel Z :=
  let! su := on_sched (gets suser) in
  if negb su then ret (- EPERM) else
  let! v := get_fs_long tptr in
  do! on_sched (modify (fun s => s <| startup_time := s32 (v - jiffies s ÷ HZ) |>)) in
  ret 0.

Definition sys_times (tbuf : Z) : M kernel Z :=
  do! when (istrue tbuf) (
    do! verify_area tbuf 16 in
    let! t := on_sched get_current in
    do! put_fs_long (utime t) tbuf in
    do! put_fs_long (stime t) (tbuf + 4) in
    do! put_fs_long (cutime t) (tbuf + 8) in
    put_fs_long (cstime t) (tbuf + 12)) in
  gets (fun s => jiffies (sch s)).

(** Five strings of eight characters. *)
Definition thisname : list Z :=
  [108; 105; 110; 117; 120; 32; 46; 48; 0; 110; 111; 100; 101; 110; 97; 109; 101; 0;
   114; 101; 108; 101; 97; 115; 101; 32; 0; 118; 101; 114; 115; 105; 111; 110; 32; 0;
   109; 97; 99; 104; 105; 110; 101; 32; 0].

Definition sys_uname (name : Z) : M kernel Z :=
  if negb (istrue name) then ret (- ERROR) else
  do! verify_area name 45 in
  do! put_user thisname name in
  ret 0.
