(* ===== verification/Exit.v ===== *)
(** * Signals between tasks, exit and wait: kernel/exit.c

    A task is named by its slot.  [do_exit] ends in [exit_with]: its last call
    of [schedule] never returns, since no one runs a zombie again. *)

From Stdlib Require Import ZArith Lia.
From stdpp Require Import base numbers list gmap strings.
From S2P Require Import Prelude Memory Task Sched TtyData Kernel Blk Buffer Posix Bitmap Inode TtyIo.
From S2P Require Import Super FileDev Pipe Namei Link CharDev Files.

Definition WNOHANG : Z := 1.
Definition WUNTRACED : Z := 2.

(** ** Sending signals *)

(** [priv] lets the signal pass whoever sends it. *)
Definition send_sig (sig p : Z) (priv : bool) : M sched Z :=
  let! o := gets (fun s => task_at s p) in
  match o with
  | None => ret (- EINVAL)
  | Some t =>
    if (sig <? 1) || (32 <? sig) then ret (- EINVAL) else
    let! c := get_current in
    let! su := gets suser in
    if priv || (euid c =? euid t) || su then
      do! update_task p (fun t => t <| signal ::= fun x => Z.lor x (sigbit sig) |>) in ret 0
    else ret (- EPERM)
  end.

(** From slot [n] down to slot 1. *)
Fixpoint kill_session_loop (n : nat) (session_id : Z) : M sched unit :=
  match n with
  | O => ret tt
  | Datatypes.S n' =>
    let! o := gets (fun s => task_at s (Z.of_nat n)) in
    do! (match o with
         | Some t => when (session t =? session_id)
             (update_task (Z.of_nat n) (fun t => t <| signal ::= fun x => Z.lor x (sigbit SIGHUP) |>))
         | None => ret tt
         end) in
    kill_session_loop n' session_id
  end.
Definition kill_session : M sched unit :=
  let! c := get_current in kill_session_loop (Z.to_nat (NR_TASKS - 1)) (session c).

(** The loops of [sys_kill], over the slots [select] holds of; the error of
    the last task that gave one. *)
Fixpoint kill_loop (n : nat) (select : option task_struct -> bool) (sig : Z) (priv : bool) (retval : Z) : M sched Z :=
  match n with
  | O => ret retval
  | Datatypes.S n' =>
    let! o := gets (fun s => task_at s (Z.of_nat n)) in
    let! retval :=
      (if select o then
         let! err := send_sig sig (Z.of_nat n) priv in ret (if istrue err then err else retval)
       else ret retval) in
    kill_loop n' select sig priv retval
  end.

Definition task_with (f : task_struct -> bool) (o : option task_struct) : bool :=
  match o with Some t => f t | None => false end.

Definition sys_kill (n sig : Z) : M sched Z :=
  let! c := get_current in
  let all := Z.to_nat (NR_TASKS - 1) in
  if n =? 0 then kill_loop all (task_with (fun t => pgrp t =? pid c)) sig true 0
  else if 0 <? n then kill_loop all (task_with (fun t => pid t =? n)) sig false 0
  else if n =? -1 then kill_loop all (fun _ => true) sig false 0
  else kill_loop all (task_with (fun t => pgrp t =? - n)) sig false 0.

(** ** Releasing a task *)

(** [release] up to its call of [schedule]. *)
Definition free_task (p : Z) : M kernel unit :=
  let! o := on_sched (gets (fun s => task_at s p)) in
  match o with
  | None => ret tt
  | Some _ =>
    if p <? 1 then panic "trying to release non-existent task" else
    do! on_sched (modify (fun s => s <| task ::= fun l => setz l p None |>)) in
    let! page := on_sched (let! l := gets task_page in valid (getz l p)) in
    on_memory (free_page page)
  end.

Section exit.
Context {E : Env}.

Definition release (p : Z) : M kernel unit :=
  let! o := on_sched (gets (fun s => task_at s p)) in
  match o with
  | None => ret tt
  | Some _ => do! free_task p in schedule
  end.

(** When there is no father, the task releases itself, and does not run
    again. *)
Definition tell_father (n : Z) : M kernel unit :=
  let! l := on_sched (gets task) in
  match (if istrue n then list_find (fun o => task_with (fun t => pid t =? n) o) l else None) with
  | Some (i, _) => on_sched (update_task (Z.of_nat i) (fun t => t <| signal ::= fun x => Z.lor x (sigbit SIGCHLD) |>))
  | None => let! c := on_sched (gets current) in free_task c
  end.

(** The children of task number [n] become children of init. *)
Definition disown (n i : Z) : M sched unit :=
  let! o := gets (fun s => task_at s i) in
  match o with
  | Some t =>
    if father t =? n then
      do! update_task i (fun t => t <| father := 1 |>) in
      when (state t =? TASK_ZOMBIE) (let! err := send_sig SIGCHLD 1 true in ret tt)
    else ret tt
  | None => ret tt
  end.

Definition close_if_open (i : Z) : M kernel unit :=
  let! r := file_of i in
  match r with Some _ => let! err := sys_close i in ret tt | None => ret tt end.

Definition do_exit {A} (code : Z) : M kernel A :=
  let! t := on_sched get_current in
  let! d1 := valid (getz (ldt t) 1) in
  let! d2 := valid (getz (ldt t) 2) in
  let! err := on_memory (free_page_tables (get_base d1) (get_limit d1)) in
  let! err := on_memory (free_page_tables (get_base d2) (get_limit d2)) in
  do! on_sched (for_range 0 (Z.to_nat NR_TASKS) (disown (pid t))) in
  do! for_range 0 (Z.to_nat NR_OPEN) close_if_open in
  let! t := on_sched get_current in
  do! iput (pwd t) in
  do! on_sched (update_current (fun t => t <| pwd := None |>)) in
  let! t := on_sched get_current in
  do! iput (root t) in
  do! on_sched (update_current (fun t => t <| root := None |>)) in
  let! t := on_sched get_current in
  do! iput (executable t) in
  do! on_sched (update_current (fun t => t <| executable := None |>)) in
  let! t := on_sched get_current in
  do! when (istrue (leader t) && (0 <=? tty t)) (set_tty_with (tty t) (fun x => x <| tty_pgrp := 0 |>)) in
  do! on_sched (modify (fun s => s <| last_task_used_math ::=
        fun o => if bool_decide (o = Some (current s)) then None else o |>)) in
  do! when (istrue (leader t)) (on_sched kill_session) in
  do! on_sched (update_current (fun t => t <| state := TASK_ZOMBIE |> <| exit_code := code |>)) in
  do! tell_father (father t) in
  exit_with code.

Definition sys_exit (error_code : Z) : M kernel Z := do_exit (Z.shiftl (Z.land error_code 0xff) 8).

(** ** Waiting for a child *)

(** The tasks a call of [waitpid] asks about. *)
Definition awaited (n : Z) (c t : task_struct) : bool :=
  (father t =? pid c) &&
  (if 0 <? n then pid t =? n else if n =? 0 then pgrp t =? pgrp c else if n =? -1 then true else pgrp t =? - n).

(** From slot [n] down to slot 1: [inl] the value to return, or [inr] the
    flag. *)
Fixpoint wait_scan (n : nat) (pid_arg stat_addr options flag : Z) : M kernel (Z + Z) :=
  match n with
  | O => ret (inr flag)
  | Datatypes.S n' =>
    let i := Z.of_nat n in
    let! o := on_sched (gets (fun s => task_at s i)) in
    let! me := on_sched (gets current) in
    let! c := on_sched get_current in
    match o with
    | None => wait_scan n' pid_arg stat_addr options flag
    | Some t =>
      if (i =? me) || negb (awaited pid_arg c t) then wait_scan n' pid_arg stat_addr options flag else
      if state t =? TASK_STOPPED then
        if negb (istrue (Z.land options WUNTRACED)) then wait_scan n' pid_arg stat_addr options flag else
        do! put_fs_long 0x7f stat_addr in
        ret (inl (pid t))
      else if state t =? TASK_ZOMBIE then
        do! on_sched (update_current (fun c => c <| cutime ::= fun x => s32 (x + utime t) |>
                                                 <| cstime ::= fun x => s32 (x + stime t) |>)) in
        do! release i in
        do! put_fs_long (exit_code t) stat_addr in
        ret (inl (pid t))
      else wait_scan n' pid_arg stat_addr options 1
    end
  end.

(** From [repeat]. *)
Fixpoint waitpid_loop (fuel : nat) (pid_arg stat_addr options : Z) : M kernel Z :=
  match fuel with
  | O => Prelude.blocked
  | Datatypes.S fuel' =>
    let! r := wait_scan (Z.to_nat (NR_TASKS - 1)) pid_arg stat_addr options 0 in
    match r with
    | inl v => ret v
    | inr flag =>
      if negb (istrue flag) then ret (- ECHILD) else
      if istrue (Z.land options WNOHANG) then ret 0 else
      do! on_sched (update_current (fun t => t <| state := TASK_INTERRUPTIBLE |>)) in
      do! schedule in
      do! on_sched (update_current (fun t => t <| signal ::= fun x => Z.land x (u32 (Z.lnot (sigbit SIGCHLD))) |>)) in
      let! t := on_sched get_current in
      if istrue (signal t) then ret (- EINTR) else waitpid_loop fuel' pid_arg stat_addr options
    end
  end.

Definition sys_waitpid (pid stat_addr options : Z) : M kernel Z :=
  do! verify_area stat_addr 4 in
  waitpid_loop (Datatypes.S patience) pid stat_addr options.

End exit.
