(* ===== verification/Signal.v ===== *)
(** * Signals: kernel/signal.c

    The handler's frame that [do_signal] builds on the user's stack; the
    registers it gets are those [system_call] pushed. *)

From Stdlib Require Import ZArith Lia.
From stdpp Require Import base numbers list gmap strings.
From S2P Require Import Prelude Memory Task Sched TtyData Kernel CharDev Exit.

Definition sys_sgetmask : M sched Z := let! t := get_current in ret (s32 (blocked t)).

Definition sys_ssetmask (newmask : Z) : M sched Z :=
  let! t := get_current in
  do! update_current (fun t => t <| blocked := Z.land (u32 newmask) (u32 (Z.lnot (sigbit SIGKILL))) |>) in
  ret (s32 (blocked t)).

(** [struct sigaction] as its 16 bytes. *)
Definition sigaction_bytes (a : sigaction_t) : list Z :=
  bytes_of 4 (sa_handler a) ++ bytes_of 4 (sa_mask a) ++ bytes_of 4 (sa_flags a) ++ bytes_of 4 (sa_restorer a).
Definition sigaction_of (l : list Z) : sigaction_t :=
  let w k := value_of (take 4 (drop (4 * k) l)) in SigAction (w 0%nat) (w 1%nat) (w 2%nat) (w 3%nat).

Definition save_old (from : sigaction_t) (to : Z) : M kernel unit :=
  do! verify_area to 16 in put_user (sigaction_bytes from) to.
Definition get_new (from : Z) : M kernel sigaction_t :=
  let! l := get_user 16 from in ret (sigaction_of l).

Definition bad_signal (signum : Z) : bool := (signum <? 1) || (32 <? signum) || (signum =? SIGKILL).

Definition action_of (signum : Z) : M sched sigaction_t :=
  let! t := get_current in valid (getz (sigaction t) (signum - 1)).
Definition set_action (signum : Z) (f : sigaction_t -> sigaction_t) : M sched unit :=
  let! a := action_of signum in
  update_current (fun t => t <| sigaction ::= fun l => setz l (signum - 1) (f a) |>).

Definition sys_signal (signum handler restorer : Z) : M sched Z :=
  if bad_signal signum then ret (-1) else
  let! old := action_of signum in
  do! set_action signum (fun _ => SigAction (u32 handler) 0 (Z.lor SA_ONESHOT SA_NOMASK) (u32 restorer)) in
  ret (s32 (sa_handler old)).

Definition sys_sigaction (signum action oldaction : Z) : M kernel Z :=
  if bad_signal signum then ret (-1) else
  let! tmp := on_sched (action_of signum) in
  let! new := get_new action in
  do! on_sched (set_action signum (fun _ => new)) in
  do! when (istrue oldaction) (save_old tmp oldaction) in
  do! on_sched (set_action signum (fun a =>
        a <| sa_mask := if istrue (Z.land (sa_flags a) SA_NOMASK) then 0 else Z.lor (sa_mask a) (sigbit signum) |>)) in
  ret 0.

(** ** Delivery *)

(** What [do_signal] finds on the kernel's stack, and may change there. *)
Record frame := Frame { fr_eip : Z; fr_esp : Z }.

Fixpoint push_longs (l : list Z) (a : Z) : M kernel unit :=
  match l with
  | [] => ret tt
  | v :: l => do! put_fs_long v a in push_longs l (a + 4)
  end.

Definition do_signal `{Env} (signr eax ecx edx eip eflags esp : Z) : M kernel frame :=
  let! sa := on_sched (action_of signr) in
  if sa_handler sa =? 1 then ret (Frame eip esp) else
  if (sa_handler sa =? 0) && (signr =? SIGCHLD) then ret (Frame eip esp) else
  if sa_handler sa =? 0 then do_exit (s32 (Z.shiftl 1 (signr - 1))) else
  do! when (istrue (Z.land (sa_flags sa) SA_ONESHOT))
    (on_sched (set_action signr (fun a => a <| sa_handler := 0 |>))) in
  let nomask := istrue (Z.land (sa_flags sa) SA_NOMASK) in
  let longs := if nomask then 7 else 8 in
  let esp := u32 (esp - 4 * longs) in
  do! verify_area esp (longs * 4) in
  let! t := on_sched get_current in
  do! push_longs (sa_restorer sa :: signr :: (if nomask then [] else [blocked t]) ++ [eax; ecx; edx; eflags; eip]) esp in
  do! on_sched (update_current (fun t => t <| blocked ::= fun b => Z.lor b (sa_mask sa) |>)) in
  ret (Frame (sa_handler sa) esp).
