(* ===== verification/Fork.v ===== *)
(** * Making tasks: kernel/fork.c, and the processor's tables of tasks

    A task structure is one page of memory: [task_page] keeps the address of
    the page of each slot, and [copy_process] takes the page from mm/. *)

From Stdlib Require Import ZArith Lia.
From stdpp Require Import base numbers list gmap strings.
From S2P Require Import Prelude Memory Task Sched TtyData Kernel.

(** ** Descriptors of tasks: include/asm/system.h *)

(** [_set_tssldt_desc(n, addr, type)] *)
Definition set_tssldt_desc (d : descriptor) (addr type : Z) : descriptor :=
  let d := desc_store_byte d 0 104 in
  let d := desc_store_byte d 1 0 in
  let d := desc_store_byte d 2 addr in
  let d := desc_store_byte d 3 (Z.shiftr addr 8) in
  let d := desc_store_byte d 4 (Z.shiftr addr 16) in
  let d := desc_store_byte d 5 type in
  let d := desc_store_byte d 6 0 in
  desc_store_byte d 7 (Z.shiftr addr 24).

Definition set_gdt_with (n : Z) (f : descriptor -> descriptor) : M sched unit :=
  let! l := gets gdt in
  let! d := valid (getz l n) in
  modify (fun s => s <| gdt ::= fun l => setz l n (f d) |>).
Definition set_tss_desc (n addr : Z) : M sched unit := set_gdt_with n (fun d => set_tssldt_desc d addr 0x89).
Definition set_ldt_desc (n addr : Z) : M sched unit := set_gdt_with n (fun d => set_tssldt_desc d addr 0x82).

(** The offsets of the members [ldt] and [tss] of [struct task_struct]. *)
Definition LDT_OFFSET : Z := 720.
Definition TSS_OFFSET : Z := 744.

(** [schedule_init] without the ports of the timer and the interrupt gates. *)
Definition clear_task (i : Z) : M sched unit :=
  do! modify (fun s => s <| task ::= fun l => setz l i None |>) in
  do! set_gdt_with (FIRST_TSS_ENTRY + 2 * i) (fun _ => Desc 0 0) in
  set_gdt_with (FIRST_LDT_ENTRY + 2 * i) (fun _ => Desc 0 0).
Definition schedule_init : M sched unit :=
  let! pages := gets task_page in
  let! p := valid (getz pages 0) in
  do! set_tss_desc FIRST_TSS_ENTRY (p + TSS_OFFSET) in
  do! set_ldt_desc FIRST_LDT_ENTRY (p + LDT_OFFSET) in
  for_range 1 (Z.to_nat (NR_TASKS - 1)) clear_task.

(** ** [find_empty_process] *)

Definition pid_used (l : list (option task_struct)) (n : Z) : bool :=
  existsb (fun t => match t with Some t => pid t =? n | None => false end) l.

Definition next_pid (n : Z) : Z := if s32 (n + 1) <? 0 then 1 else s32 (n + 1).

(** [goto repeat]; one number more than there are tasks is enough. *)
Fixpoint fresh_pid (fuel : nat) (l : list (option task_struct)) (n : Z) : option Z :=
  match fuel with
  | O => None
  | Datatypes.S fuel' =>
    let n := next_pid n in
    if pid_used l n then fresh_pid fuel' l n else Some n
  end.

(** The first empty slot, from slot [i] on. *)
Fixpoint empty_slot (l : list (option task_struct)) (i : Z) : option Z :=
  match l with
  | [] => None
  | None :: _ => Some i
  | Some _ :: l => empty_slot l (i + 1)
  end.

Definition find_empty_process : M sched Z :=
  let! l := gets task in
  let! n := gets last_pid in
  match fresh_pid (Datatypes.S (length l)) l n with
  | None => Prelude.blocked
  | Some n =>
    do! modify (fun s => s <| last_pid := n |>) in
    ret (default (- EAGAIN) (empty_slot (drop 1 l) 1))
  end.

(** ** [copy_process] *)

(** Slot [nr], which holds the copy, gets its part of the linear memory.  The
    limits are those of the running task's descriptors. *)
Definition copy_mem (nr : Z) : M kernel Z :=
  let! c := on_sched get_current in
  let! d1 := valid (getz (ldt c) 1) in
  let! d2 := valid (getz (ldt c) 2) in
  if negb (get_base d2 =? get_base d1) then panic "We don't support separate I&D" else
  if get_limit d2 <? get_limit d1 then panic "Bad data_limit" else
  let base := u32 (nr * 0x4000000) in
  do! on_sched (update_task nr (fun p =>
        p <| start_code := base |> <| ldt ::= fun l => alter (fun d => set_base d base) 2%nat (alter (fun d => set_base d base) 1%nat l) |>)) in
  let! err := on_memory (copy_page_tables (get_base d2) base (get_limit d2)) in
  if istrue err then
    do! on_memory (free_page_tables base (get_limit d2)) in
    ret (- ENOMEM)
  else ret 0.

(** The registers of the parent, pushed by the system call. *)
Record regs := Regs {
  g_ebp : Z; g_edi : Z; g_esi : Z; g_gs : Z; g_ebx : Z; g_ecx : Z; g_edx : Z; g_fs : Z; g_es : Z; g_ds : Z;
  g_eip : Z; g_cs : Z; g_eflags : Z; g_esp : Z; g_ss : Z
}.

Definition child_tss (nr p : Z) (r : regs) (t : tss_struct) : tss_struct :=
  let w x := Z.land x 0xffff in
  Tss 0 (p + PAGE_SIZE) KERNEL_DATA_SEG (esp1 t) (ss1 t) (esp2 t) (ss2 t) (cr3 t) (g_eip r) (g_eflags r)
    0 (g_ecx r) (g_edx r) (g_ebx r) (g_esp r) (g_ebp r) (g_esi r) (g_edi r) (w (g_es r))
    (w (g_cs r)) (w (g_ss r)) (w (g_ds r)) (w (g_fs r)) (w (g_gs r)) (LDT_of nr) 0x80000000 (i387 t).

(** The copy of the task structure, with what the child does not inherit. *)
Definition child_task (nr p last_pid jiffies : Z) (r : regs) (t : task_struct) : task_struct :=
  t <| state := TASK_UNINTERRUPTIBLE |> <| pid := last_pid |> <| father := pid t |> <| counter := priority t |>
    <| signal := 0 |> <| alarm := 0 |> <| leader := 0 |> <| utime := 0 |> <| stime := 0 |> <| cutime := 0 |>
    <| cstime := 0 |> <| start_time := jiffies |> <| tss ::= child_tss nr p r |>.

Fixpoint share_files (l : list (option Z)) : M kernel unit :=
  match l with
  | [] => ret tt
  | None :: l => share_files l
  | Some f :: l => do! set_file f (fun f => f <| f_count ::= fun c => u16 (c + 1) |>) in share_files l
  end.
Definition share_inode (o : option Z) : M kernel unit :=
  match o with
  | None => ret tt
  | Some i => set_inode i (fun n => n <| i_count ::= fun c => u16 (c + 1) |>)
  end.

(** [fnsave] stores the unit and initialises it; [fninit_state] is its state
    then. *)
Definition save_fpu (fninit_state : list Z) (nr : Z) : M sched unit :=
  let! last := gets last_task_used_math in
  let! c := gets current in
  if bool_decide (last = Some c) then
    let! f := gets fpu in
    do! update_task nr (fun p => p <| tss ::= fun x => x <| i387 := f |> |>) in
    modify (fun s => s <| fpu := fninit_state |>)
  else ret tt.

Definition copy_process (fninit_state : list Z) (nr : Z) (r : regs) : M kernel Z :=
  let! p := on_memory get_free_page in
  if p =? 0 then ret (- EAGAIN) else
  let! c := on_sched get_current in
  do! on_sched (modify (fun s =>
        s <| task ::= fun l => setz l nr (Some (child_task nr p (last_pid s) (jiffies s) r c)) |>
          <| task_page ::= fun l => setz l nr p |>)) in
  do! on_sched (save_fpu fninit_state nr) in
  let! err := copy_mem nr in
  if istrue err then
    do! on_sched (modify (fun s => s <| task ::= fun l => setz l nr None |>)) in
    do! on_memory (free_page p) in
    ret (- EAGAIN)
  else
  do! share_files (filp c) in
  do! share_inode (pwd c) in
  do! share_inode (root c) in
  do! share_inode (executable c) in
  do! on_sched (set_tss_desc (FIRST_TSS_ENTRY + nr * 2) (p + TSS_OFFSET)) in
  do! on_sched (set_ldt_desc (FIRST_LDT_ENTRY + nr * 2) (p + LDT_OFFSET)) in
  do! on_sched (update_task nr (fun p => p <| state := TASK_RUNNING |>)) in
  on_sched (gets last_pid).
