(* ===== verification/Exec.v ===== *)
(** * Executing a program: fs/exec.c

    The strings of arguments and environment are copied into pages for the top
    of the new program's memory; after the old memory is gone the tables of
    pointers are built below them. *)

From Stdlib Require Import ZArith Lia.
From stdpp Require Import base numbers list gmap strings.
From S2P Require Import Prelude Memory Task Sched TtyData Kernel Blk Buffer Posix Bitmap Inode TtyIo.
From S2P Require Import Super FileDev Pipe Namei Link CharDev Files.

Definition MAX_ARG_PAGES : Z := 32.
Definition ENOEXEC : Z := 8.

(** Steps that are enough to reach the end of a string or of an array in user
    memory: every byte that goes on is a byte of [user] that is not zero, and a
    run that comes back to its first address never ends. The kernel's own buffer
    has 1023 bytes. *)
Definition string_fuel : M kernel nat := gets (fun s => (1024 + size (user s))%nat).

(** ** The tables of pointers *)

(** [while (get_fs_byte(p++));] *)
Fixpoint skip_string (fuel : nat) (p : Z) : M kernel Z :=
  match fuel with
  | O => Prelude.blocked
  | Datatypes.S fuel' =>
    let! c := get_fs_byte p in
    let p := u32 (p + 1) in
    if istrue c then skip_string fuel' p else ret p
  end.

(** The addresses of [n] strings from [p] on go to [table], and a null. *)
Fixpoint put_pointers (n : nat) (p table : Z) : M kernel Z :=
  match n with
  | O => do! put_fs_long 0 table in ret p
  | Datatypes.S n' =>
    do! put_fs_long p table in
    let! fuel := string_fuel in
    let! p := skip_string fuel p in
    put_pointers n' p (u32 (table + 4))
  end.

Definition create_tables (p argc envc : Z) : M kernel Z :=
  let sp := Z.land 0xfffffffc p in
  let envp := u32 (sp - 4 * (envc + 1)) in
  let argv := u32 (envp - 4 * (argc + 1)) in
  do! put_fs_long envp (u32 (argv - 4)) in
  do! put_fs_long argv (u32 (argv - 8)) in
  do! put_fs_long argc (u32 (argv - 12)) in
  let! p := put_pointers (Z.to_nat argc) p argv in
  let! p := put_pointers (Z.to_nat envc) p envp in
  ret (u32 (argv - 12)).

(** [while (get_fs_long(tmp++)) i++;] *)
Fixpoint count_loop (fuel : nat) (tmp i : Z) : M kernel Z :=
  match fuel with
  | O => Prelude.blocked
  | Datatypes.S fuel' =>
    let! v := get_fs_long tmp in
    if istrue v then count_loop fuel' (u32 (tmp + 4)) (i + 1) else ret i
  end.
Definition count (argv : Z) : M kernel Z :=
  if istrue argv then let! fuel := string_fuel in count_loop fuel argv 0 else ret 0.

(** ** Copying strings

    Which of the two pointers are followed in user memory is the last argument
    of [copy_strings] in the code; here it is given as the routine that reads
    the array and the one that reads a string. *)

(** [do len++ while (get_fs_byte(tmp++))]: the length with the final zero, and
    the address behind it. *)
Fixpoint string_length (fuel : nat) (get : Z -> M kernel Z) (tmp len : Z) : M kernel (Z * Z) :=
  match fuel with
  | O => Prelude.blocked
  | Datatypes.S fuel' =>
    let! c := get tmp in
    let tmp := u32 (tmp + 1) in
    if istrue c then string_length fuel' get tmp (len + 1) else ret (len + 1, tmp)
  end.

(** The page that holds the byte [p], allocated when it is needed: 0 when there
    is none. *)
Definition arg_page (page : list Z) (p : Z) : M kernel (Z * list Z) :=
  let! pag := valid (getz page (p / 4096)) in
  if istrue pag then ret (pag, page) else
  let! pag := on_memory get_free_page in
  ret (pag, setz page (p / 4096) pag).

(** [while (len)], from the last byte of the string down: [p], [offset] and
    [pag] afterwards, none when there was no page. *)
Fixpoint copy_down (len : nat) (get : Z -> M kernel Z) (tmp p offset pag : Z) (page : list Z)
  : M kernel (option (Z * Z * Z) * list Z) :=
  match len with
  | O => ret (Some (p, offset, pag), page)
  | Datatypes.S len' =>
    let p := u32 (p - 1) in
    let tmp := u32 (tmp - 1) in
    let offset := offset - 1 in
    let! '(offset, pag, page) :=
      (if offset <? 0 then
         let! '(pag, page) := arg_page page p in ret (p mod 4096, pag, page)
       else ret (offset, pag, page)) in
    if negb (istrue pag) then ret (None, page) else
    let! c := get tmp in
    do! on_memory (store_byte (pag + offset) c) in
    copy_down len' get tmp p offset pag page
  end.

(** [while (argc > 0)]; the comparison [p - len < 0] of unsigned numbers is
    never true. *)
Fixpoint copy_args (argc : nat) (arg : Z -> M kernel Z) (get : Z -> M kernel Z) (p offset pag : Z) (page : list Z)
  : M kernel (Z * list Z) :=
  match argc with
  | O => ret (p, page)
  | Datatypes.S n =>
    let! tmp := arg (Z.of_nat n) in
    if negb (istrue tmp) then panic "argc is wrong" else
    let! fuel := string_fuel in
    let! '(len, tmp) := string_length fuel get tmp 0 in
    let! '(r, page) := copy_down (Z.to_nat len) get tmp p offset pag page in
    match r with
    | None => ret (0, page)
    | Some (p, offset, pag) => copy_args n arg get p offset pag page
    end
  end.

Definition copy_strings (argc : Z) (arg get : Z -> M kernel Z) (page : list Z) (p : Z) : M kernel (Z * list Z) :=
  if negb (istrue p) then ret (0, page) else copy_args (Z.to_nat argc) arg get p 0 0 page.

(** The arrays and strings of a call: in user memory, one string of it, or one
    in the buffer of the kernel. *)
Definition user_array (argv i : Z) : M kernel Z := get_fs_long (u32 (argv + 4 * i)).
Definition one_string (s i : Z) : M kernel Z := ret s.
Definition kernel_byte (kbuf : Z) (buf : list Z) (a : Z) : M kernel Z := valid (getz buf (a - kbuf)).

(** ** The segments of the new program *)

(** [_set_limit] of include/linux/sched.h. *)
Definition set_limit (d : descriptor) (limit : Z) : descriptor :=
  let l := Z.shiftr (u32 (limit - 1)) 12 in
  let d' := desc_store_byte (desc_store_byte d 0 l) 1 (Z.shiftr l 8) in
  desc_store_byte d' 6 (Z.lor (u8 (Z.shiftr l 16)) (Z.land (desc_byte d 6) 0xf0)).

Definition set_ldt (i : Z) (f : descriptor -> descriptor) : M kernel unit :=
  let! t := on_sched get_current in
  let! d := valid (getz (ldt t) i) in
  on_sched (update_current (fun t => t <| ldt ::= fun l => setz l i (f d) |>)).

(** [for (i = MAX_ARG_PAGES - 1; i >= 0; i--)] *)
Fixpoint put_arg_pages (n : nat) (page : list Z) (data_base : Z) : M kernel unit :=
  match n with
  | O => ret tt
  | Datatypes.S i =>
    let data_base := u32 (data_base - 4096) in
    let! pag := valid (getz page (Z.of_nat i)) in
    do! (if istrue pag then let! r := on_memory (put_page pag data_base) in ret tt else ret tt) in
    put_arg_pages i page data_base
  end.

(** What the program finds through fs from now on: at the top of its segment
    the bytes of the pages, elsewhere what page faults will bring. *)
Definition page_byte (m : mm) (a : Z) : Z := get_byte (word m a) (a mod 4).
Fixpoint page_map (n : nat) (m : mm) (pag a : Z) (u : gmap Z Z) : gmap Z Z :=
  match n with
  | O => u
  | Datatypes.S n' => page_map n' m pag a (<[a + Z.of_nat n' := page_byte m (pag + Z.of_nat n')]> u)
  end.
Fixpoint arg_memory (page : list Z) (m : mm) (a : Z) (u : gmap Z Z) : gmap Z Z :=
  match page with
  | [] => u
  | pag :: page => arg_memory page m (a + 4096) (if istrue pag then page_map (Z.to_nat 4096) m pag a u else u)
  end.

Definition change_ldt (text_size : Z) (page : list Z) : M kernel Z :=
  let code_limit := Z.land (u32 (text_size + 4096 - 1)) 0xFFFFF000 in
  let data_limit := 0x4000000 in
  let! t := on_sched get_current in
  let! d := valid (getz (ldt t) 1) in
  let code_base := get_base d in
  do! set_ldt 1 (fun d => set_limit (set_base d code_base) code_limit) in
  do! set_ldt 2 (fun d => set_limit (set_base d code_base) data_limit) in
  do! put_arg_pages (Z.to_nat MAX_ARG_PAGES) page (u32 (code_base + data_limit)) in
  do! modify (fun s => s <| user := arg_memory page (memory s) (data_limit - 4096 * MAX_ARG_PAGES) ∅ |>) in
  ret data_limit.

(** ** The header and the first line of a script *)

Record exec := Exec {
  a_magic : Z; a_text : Z; a_data : Z; a_bss : Z; a_syms : Z; a_entry : Z; a_trsize : Z; a_drsize : Z
}.
Definition ZMAGIC : Z := 267. (* 0413 *)
Definition SEGMENT_SIZE : Z := 1024.
Definition exec_size : Z := 32.
Definition _N_HDROFF : Z := SEGMENT_SIZE - exec_size.
Definition N_TXTOFF (ex : exec) : Z := if a_magic ex =? ZMAGIC then _N_HDROFF + exec_size else exec_size.

Definition read_exec (l : list Z) : option exec :=
  m ← le32 l 0; t ← le32 l 4; d ← le32 l 8; b ← le32 l 12; s ← le32 l 16; e ← le32 l 20; tr ← le32 l 24; dr ← le32 l 28;
  Some (Exec m t d b s e tr dr).

(** The sums of the sizes are unsigned 32-bit numbers. *)
Definition good_header (ex : exec) (i_size : Z) : bool :=
  negb (negb (a_magic ex =? ZMAGIC) || istrue (a_trsize ex) || istrue (a_drsize ex) ||
    (0x3000000 <? u32 (a_text ex + a_data ex + a_bss ex)) ||
    (i_size <? u32 (a_text ex + a_data ex + a_syms ex + N_TXTOFF ex))).

(** [strncpy(buf, b_data + 2, 1022)] and the zero behind: up to the first zero,
    and zeros. *)
Fixpoint strncpy_list (n : nat) (l : list Z) : list Z :=
  match n, l with
  | O, _ => []
  | n, [] => replicate n 0
  | Datatypes.S n', c :: l => if istrue c then c :: strncpy_list n' l else replicate n 0
  end.
Definition script_buffer (l : list Z) : list Z := strncpy_list 1022 (drop 2 l) ++ [0].

(** [strchr(buf, '\n')]: the index, from [i] on. *)
Fixpoint strchr_list (l : list Z) (c i : Z) : option Z :=
  match l with
  | [] => None
  | b :: l => if b =? c then Some i else if istrue b then strchr_list l c (i + 1) else None
  end.

Definition is_blank (c : Z) : bool := (c =? 32) || (c =? 9).
Fixpoint skip_blanks (l : list Z) (i : Z) : Z :=
  match l with
  | [] => i
  | c :: l => if is_blank c then skip_blanks l (i + 1) else i
  end.

(** From the start of the interpreter's name: where it ends, and where the part
    behind the last slash begins. *)
Fixpoint interp_end (l : list Z) (i i_name : Z) : Z * Z :=
  match l with
  | [] => (i, i_name)
  | c :: l => if istrue c && negb (is_blank c) then interp_end l (i + 1) (if c =? 47 then i + 1 else i_name) else (i, i_name)
  end.

(** The buffer with its zeros, the name, its last part, and the argument. *)
Definition parse_script (buf : list Z) : option (list Z * Z * Z * option Z) :=
  nl ← strchr_list buf 10 0;
  let buf := setz buf nl 0 in
  let interp := skip_blanks buf 0 in
  c ← getz buf interp;
  if negb (istrue c) then None else
  let '(e, i_name) := interp_end (drop (Z.to_nat interp) buf) interp interp in
  c ← getz buf e;
  if istrue c then Some (setz buf e 0, interp, i_name, Some (e + 1)) else Some (buf, interp, i_name, None).

(** ** do_execve *)

(** A kernel buffer in memory. *)
Fixpoint write_bytes (l : list Z) (a : Z) (u : gmap Z Z) : gmap Z Z :=
  match l with
  | [] => u
  | b :: l => write_bytes l (a + 1) (<[u32 a := b]> u)
  end.

Section execve.
Context {E : Env}.
(** The address of [buf] on the kernel's stack. *)
Context (kbuf : Z).

(** What the call leaves: its result, and, when the program starts, the new
    instruction and stack pointers, which it writes into the saved registers. *)
Record started := Started { new_eip : Z; new_esp : Z }.

Fixpoint free_args (page : list Z) : M mm unit :=
  match page with
  | [] => ret tt
  | pag :: page => do! free_page pag in free_args page
  end.

Definition exec_error1 (page : list Z) (retval : Z) : M kernel (Z * option started) :=
  do! on_memory (free_args page) in ret (retval, None).
Definition exec_error2 (inode : Z) (page : list Z) (retval : Z) : M kernel (Z * option started) :=
  do! iput (Some inode) in exec_error1 page retval.

(** [set_fs(get_ds())], and back: paths are read from the buffer. *)
Definition in_kernel_segment {A} (buf : list Z) (m : M kernel A) : M kernel A :=
  let! old := gets user in
  do! modify (fun s => s <| user := write_bytes buf kbuf ∅ |>) in
  let! r := m in
  do! modify (fun s => s <| user := old |>) in
  ret r.

(** The user and group of the program, and whether it may be run. *)
Definition exec_ids (n : m_inode) (t : task_struct) (su : bool) : Z * Z * bool :=
  let i := i_mode n in
  let e_uid := if istrue (Z.land i S_ISUID) then i_uid n else euid t in
  let e_gid := if istrue (Z.land i S_ISGID) then i_gid n else egid t in
  let i := if i_uid n =? euid t then Z.shiftr i 6 else if i_gid n =? egid t then Z.shiftr i 3 else i in
  (e_uid, e_gid, istrue (Z.land i 1) || (istrue (Z.land (i_mode n) 0x49) && su)).

Definition reset_handlers (l : list sigaction_t) : list sigaction_t :=
  map (fun a => if sa_handler a =? 1 then a else a <| sa_handler := 0 |>) l.

Definition close_flagged (i : Z) : M kernel unit :=
  let! t := on_sched get_current in
  when (istrue (Z.land (Z.shiftr (close_on_exec t) i) 1)) (let! r := sys_close i in ret tt).

(** The rest of the last page of the program's data. *)
Fixpoint clear_rest (fuel : nat) (i : Z) : M kernel unit :=
  match fuel with
  | O => Prelude.blocked
  | Datatypes.S fuel' =>
    if istrue (Z.land i 0xfff) then do! put_fs_byte 0 (u32 i) in clear_rest fuel' (s32 (i + 1)) else ret tt
  end.

(** From the point of no return. *)
Definition start_program (inode : Z) (ex : exec) (page : list Z) (p argc envc e_uid e_gid : Z)
  : M kernel (Z * option started) :=
  let! t := on_sched get_current in
  do! (match executable t with Some e => iput (Some e) | None => ret tt end) in
  do! on_sched (update_current (fun t => t <| executable := Some inode |> <| sigaction ::= reset_handlers |>)) in
  do! for_range 0 (Z.to_nat NR_OPEN) close_flagged in
  do! on_sched (update_current (fun t => t <| close_on_exec := 0 |>)) in
  let! t := on_sched get_current in
  let! d1 := valid (getz (ldt t) 1) in
  let! d2 := valid (getz (ldt t) 2) in
  let! r := on_memory (free_page_tables (get_base d1) (get_limit d1)) in
  let! r := on_memory (free_page_tables (get_base d2) (get_limit d2)) in
  do! on_sched (
    let! me := gets current in
    do! modify (fun s => s <| last_task_used_math ::=
          fun o => if bool_decide (o = Some me) then None else o |>) in
    update_current (fun t => t <| used_math := 0 |>)) in
  let! limit := change_ldt (a_text ex) page in
  let! p := create_tables (u32 (p + limit - 4096 * MAX_ARG_PAGES)) argc envc in
  do! on_sched (update_current (fun t =>
        t <| end_code := a_text ex |> <| end_data := u32 (a_text ex + a_data ex) |>
          <| brk := u32 (a_text ex + a_data ex + a_bss ex) |> <| start_stack := Z.land p 0xfffff000 |>
          <| euid := u16 e_uid |> <| egid := u16 e_gid |>)) in
  do! clear_rest (Z.to_nat 4097) (s32 (a_text ex + a_data ex)) in
  ret (0, Some (Started (a_entry ex) p)).

(** From [restart_interp]; [sh_bang] is true behind a first line with [#!]. *)
Fixpoint exec_inode (fuel : nat) (sh_bang : bool) (inode filename argv envp argc envc p : Z) (page : list Z)
  : M kernel (Z * option started) :=
  match fuel with
  | O => Prelude.blocked
  | Datatypes.S fuel' =>
    let! n := get_inode inode in
    if negb (S_ISREG (i_mode n)) then exec_error2 inode page (- EACCES) else
    let! t := on_sched get_current in
    let! su := is_suser in
    let '(e_uid, e_gid, allowed) := exec_ids n t su in
    if negb allowed then exec_error2 inode page (- ENOEXEC) else
    let! zone := valid (getz (i_zone n) 0) in
    let! o := bread (i_dev n) zone in
    match o with
    | None => exec_error2 inode page (- EACCES)
    | Some bh =>
      let! b := get_bh bh in
      let! ex := valid (read_exec (b_data b)) in
      let! c0 := valid (getz (b_data b) 0) in
      let! c1 := valid (getz (b_data b) 1) in
      do! brelse (Some bh) in
      if (c0 =? 35) && (c1 =? 33) && negb sh_bang then
        do! iput (Some inode) in
        match parse_script (script_buffer (b_data b)) with
        | None => exec_error1 page (- ENOEXEC)
        | Some (buf, interp, i_name, i_arg) =>
          let! '(p, page) := copy_strings envc (user_array envp) get_fs_byte page p in
          let! '(p, page) := copy_strings (argc - 1) (user_array (u32 (argv + 4))) get_fs_byte page p in
          let! '(p, page) := copy_strings 1 (one_string filename) get_fs_byte page p in
          let! '(p, page) :=
            (match i_arg with
             | Some a => copy_strings 1 (one_string (kbuf + a)) (kernel_byte kbuf buf) page p
             | None => ret (p, page)
             end) in
          let argc := argc - 1 + 1 + (match i_arg with Some _ => 1 | None => 0 end) in
          let! '(p, page) := copy_strings 1 (one_string (kbuf + i_name)) (kernel_byte kbuf buf) page p in
          let argc := argc + 1 in
          if negb (istrue p) then exec_error1 page (- ENOMEM) else
          let! o := in_kernel_segment buf (namei (kbuf + interp)) in
          match o with
          | None => exec_error1 page (- ENOENT)
          | Some inode => exec_inode fuel' true inode filename argv envp argc envc p page
          end
        end
      else
        let! n := get_inode inode in
        if negb (good_header ex (i_size n)) then exec_error2 inode page (- ENOEXEC) else
        if negb (N_TXTOFF ex =? BLOCK_SIZE) then exec_error2 inode page (- ENOEXEC) else
        let! '(p, page) :=
          (if sh_bang then ret (p, page) else
             let! '(p, page) := copy_strings envc (user_array envp) get_fs_byte page p in
             copy_strings argc (user_array argv) get_fs_byte page p) in
        if negb sh_bang && negb (istrue p) then exec_error2 inode page (- ENOMEM) else
        start_program inode ex page p argc envc e_uid e_gid
    end
  end.

(** [cs] is the code segment the caller came from. *)
Definition do_execve (cs filename argv envp : Z) : M kernel (Z * option started) :=
  if negb (Z.land 0xffff cs =? 0x000f) then panic "execve called from supervisor mode" else
  let! o := namei filename in
  match o with
  | None => ret (- ENOENT, None)
  | Some inode =>
    let! argc := count argv in
    let! envc := count envp in
    exec_inode 2 false inode filename argv envp argc envc (4096 * MAX_ARG_PAGES - 4) (replicate (Z.to_nat MAX_ARG_PAGES) 0)
  end.
End execve.
