(* ===== verification/PageFault.v ===== *)
(** * Pages of programs: share_page and do_no_page of mm/memory.c

    A page that is not there is shared with another task that runs the same
    program, read from the program's file, or a page of zeros. *)

From Stdlib Require Import ZArith Lia.
From stdpp Require Import base numbers list gmap strings.
From S2P Require Import Prelude Memory Task Sched Kernel Blk Buffer Posix Bitmap Inode.

(** From slot [n] down to slot 1. *)
Fixpoint share_scan (n : nat) (me : Z) (c : task_struct) (address : Z) (tasks : list (option task_struct)) : M mm Z :=
  match n with
  | O => ret 0
  | Datatypes.S n' =>
    match getz tasks (Z.of_nat n) ≫= id with
    | None => share_scan n' me c address tasks
    | Some p =>
      if (Z.of_nat n =? me) || negb (bool_decide (executable p = executable c))
      then share_scan n' me c address tasks
      else
        let! shared := try_to_share address (start_code p) (start_code c) in
        if istrue shared then ret 1 else share_scan n' me c address tasks
    end
  end.

Definition share_page (address : Z) : M kernel Z :=
  let! c := on_sched get_current in
  match executable c with
  | None => ret 0
  | Some e =>
    let! n := get_inode e in
    if i_count n <? 2 then ret 0 else
    let! me := on_sched (gets current) in
    let! tasks := on_sched (gets task) in
    on_memory (share_scan (Z.to_nat (NR_TASKS - 1)) me c address tasks)
  end.

Section fault.
Context {E : Env}.

(** The four blocks of a page, from [block] on. *)
Fixpoint page_blocks (n : nat) (inode block : Z) : M kernel (list Z) :=
  match n with
  | O => ret []
  | Datatypes.S n' =>
    let! nr := bmap inode block in
    let! rest := page_blocks n' inode (block + 1) in
    ret (nr :: rest)
  end.

(** Zeros in the [i] bytes below [tmp]. *)
Fixpoint clear_end (i : nat) (tmp : Z) : M mm unit :=
  match i with
  | O => ret tt
  | Datatypes.S i' => do! store_byte (tmp - 1) 0 in clear_end i' (tmp - 1)
  end.

Definition do_no_page (error_code address : Z) : M kernel unit :=
  let address := Z.land address 0xfffff000 in
  let! c := on_sched get_current in
  let tmp := u32 (address - start_code c) in
  match (if end_data c <=? tmp then None else executable c) with
  | None => on_memory (get_empty_page address)
  | Some inode =>
    let! shared := share_page tmp in
    if istrue shared then ret tt else
    let! page := on_memory get_free_page in
    if negb (istrue page) then on_memory oom else
    let! nr := page_blocks 4 inode (1 + tmp / BLOCK_SIZE) in
    let! c := on_sched get_current in
    let! n := (match executable c with Some e => get_inode e | None => fault end) in
    do! bread_page page (i_dev n) nr in
    let! c := on_sched get_current in
    do! on_memory (clear_end (Z.to_nat (s32 (tmp + 4096 - end_data c))) (page + 4096)) in
    let! done := on_memory (put_page page address) in
    if istrue done then ret tt else
    do! on_memory (free_page page) in
    on_memory oom
  end.

End fault.
