(* ===== verification/SysCalls.v ===== *)
(** * The table of system calls: include/linux/sys.h

    The registers ebx, ecx and edx hold the arguments; each call reads as many
    as it has, as the types of its parameters say. *)

From Stdlib Require Import ZArith Lia.
From stdpp Require Import base numbers list gmap strings.
From S2P Require Import Prelude Memory Task Sched TtyData Kernel Blk Buffer Posix Bitmap Inode TtyIo.
From S2P Require Import Super FileDev Pipe Namei Link CharDev Files Sys Signal Fork Exit.

(** A call that only reads and changes the variables of the scheduler, one on
    the whole state, or one that starts in the assembly code of system_call.s
    (fork and execve go on in Fork and Exec), or works on the state of the disk
    driver ([sys_setup] of Hd). *)
Inductive entry : Type :=
| InSched (f : Z -> Z -> Z -> M sched Z)
| InKernel (f : Z -> Z -> Z -> M kernel Z)
| Elsewhere.

Section table.
Context {E : Env}.

Definition sys_call_table : list entry := [
  Elsewhere (* setup *);
  InKernel (fun a _ _ => sys_exit (s32 a));
  Elsewhere (* fork *);
  InKernel (fun a b c => sys_read (u32 a) (u32 b) (s32 c));
  InKernel (fun a b c => sys_write (u32 a) (u32 b) (s32 c));
  InKernel (fun a b c => sys_open (u32 a) (s32 b) (s32 c));
  InKernel (fun a _ _ => sys_close (u32 a));
  InKernel (fun a b c => sys_waitpid (s32 a) (u32 b) (s32 c));
  InKernel (fun a b _ => sys_creat (u32 a) (s32 b));
  InKernel (fun a b _ => sys_link (u32 a) (u32 b));
  InKernel (fun a _ _ => sys_unlink (u32 a));
  Elsewhere (* execve *);
  InKernel (fun a _ _ => sys_chdir (u32 a));
  InKernel (fun a _ _ => sys_time (u32 a));
  InKernel (fun a b c => sys_mknod (u32 a) (s32 b) (s32 c));
  InKernel (fun a b _ => sys_chmod (u32 a) (s32 b));
  InKernel (fun a b c => sys_chown (u32 a) (s32 b) (s32 c));
  InSched (fun _ _ _ => sys_break);
  InKernel (fun a b _ => sys_stat (u32 a) (u32 b));
  InKernel (fun a b c => sys_lseek (u32 a) (s32 b) (s32 c));
  InSched (fun _ _ _ => sys_getpid);
  InKernel (fun a b c => sys_mount (u32 a) (u32 b) (s32 c));
  InKernel (fun a _ _ => sys_umount (u32 a));
  InSched (fun a _ _ => sys_setuid (s32 a));
  InSched (fun _ _ _ => sys_getuid);
  InKernel (fun a _ _ => sys_stime (u32 a));
  InSched (fun _ _ _ => sys_ptrace);
  InSched (fun a _ _ => sys_alarm (s32 a));
  InKernel (fun a b _ => sys_fstat (u32 a) (u32 b));
  InKernel (fun _ _ _ => on_sched sys_pause);
  InKernel (fun a b _ => sys_utime (u32 a) (u32 b));
  InSched (fun _ _ _ => sys_stty);
  InSched (fun _ _ _ => sys_gtty);
  InKernel (fun a b _ => sys_access (u32 a) (s32 b));
  InSched (fun a _ _ => sys_nice (s32 a));
  InSched (fun _ _ _ => sys_ftime);
  InKernel (fun _ _ _ => sys_sync);
  InSched (fun a b _ => sys_kill (s32 a) (s32 b));
  InSched (fun _ _ _ => sys_rename);
  InKernel (fun a b _ => sys_mkdir (u32 a) (s32 b));
  InKernel (fun a _ _ => sys_rmdir (u32 a));
  InKernel (fun a _ _ => sys_dup (u32 a));
  InKernel (fun a _ _ => sys_pipe (u32 a));
  InKernel (fun a _ _ => sys_times (u32 a));
  InSched (fun _ _ _ => sys_prof);
  InSched (fun a _ _ => sys_brk (u32 a));
  InSched (fun a _ _ => sys_setgid (s32 a));
  InSched (fun _ _ _ => sys_getgid);
  InSched (fun a b c => sys_signal (s32 a) (s32 b) (s32 c));
  InSched (fun _ _ _ => sys_geteuid);
  InSched (fun _ _ _ => sys_getegid);
  InSched (fun _ _ _ => sys_acct);
  InSched (fun _ _ _ => sys_phys);
  InSched (fun _ _ _ => sys_lock);
  InKernel (fun a b c => sys_ioctl (u32 a) (u32 b) (u32 c));
  InKernel (fun a b c => sys_fcntl (u32 a) (u32 b) (u32 c));
  InSched (fun _ _ _ => sys_mpx);
  InSched (fun a b _ => sys_setpgid (s32 a) (s32 b));
  InSched (fun _ _ _ => sys_ulimit);
  InKernel (fun a _ _ => sys_uname (u32 a));
  InSched (fun a _ _ => sys_umask (s32 a));
  InKernel (fun a _ _ => sys_chroot (u32 a));
  InKernel (fun a b _ => sys_ustat (s32 a) (u32 b));
  InKernel (fun a b _ => sys_dup2 (u32 a) (u32 b));
  InSched (fun _ _ _ => sys_getppid);
  InSched (fun _ _ _ => sys_getpgrp);
  InSched (fun _ _ _ => sys_setsid);
  InKernel (fun a b c => sys_sigaction (s32 a) (u32 b) (u32 c));
  InSched (fun _ _ _ => sys_sgetmask);
  InSched (fun a _ _ => sys_ssetmask (s32 a));
  InSched (fun a b _ => sys_setreuid (s32 a) (s32 b));
  InSched (fun a b _ => sys_setregid (s32 a) (s32 b))
].
End table.
