(* ===== verification/TtyProofs.v ===== *)
(** * The queues of a terminal are queues

    A queue of 1024 characters, of which one stays free, is a list of at most
    1023 characters: [PUTCH] appends, [GETCH] takes from the front, and the
    editing of a line takes from the back. *)

From Stdlib Require Import ZArith Lia.
From stdpp Require Import base numbers list.
From S2P Require Import Prelude TtyData.

Definition queue_ok (q : tty_queue) : Prop :=
  0 <= q_head q < TTY_BUF_SIZE /\ 0 <= q_tail q < TTY_BUF_SIZE /\ lenz (q_buf q) = TTY_BUF_SIZE.

Definition cell (q : tty_queue) (k : Z) : Z := default 0 (getz (q_buf q) k).
Definition contents (q : tty_queue) : list Z :=
  ring TTY_BUF_SIZE (cell q) (q_tail q) ((q_head q - q_tail q) mod TTY_BUF_SIZE).

Lemma land_1023 x : Z.land x (TTY_BUF_SIZE - 1) = x mod TTY_BUF_SIZE.
Proof. apply (land_low x 10). lia. Qed.
Lemma u32_mod x : u32 x mod TTY_BUF_SIZE = x mod TTY_BUF_SIZE.
Proof. unfold u32. apply Z.mod_mod_divide. by exists 4194304. Qed.

Lemma CHARS_eq q : CHARS q = (q_head q - q_tail q) mod TTY_BUF_SIZE.
Proof. unfold CHARS. by rewrite land_1023, u32_mod. Qed.
Lemma INC_eq a : INC a = (a + 1) mod TTY_BUF_SIZE.
Proof. apply land_1023. Qed.
Lemma DEC_eq a : DEC a = (a - 1) mod TTY_BUF_SIZE.
Proof. unfold DEC. by rewrite land_1023, u32_mod. Qed.

Lemma contents_length q : lenz (contents q) = CHARS q.
Proof.
  unfold contents. rewrite ring_length, CHARS_eq; [done|]. by apply Z.mod_pos_bound.
Qed.

Lemma CHARS_range q : 0 <= CHARS q < TTY_BUF_SIZE.
Proof. rewrite CHARS_eq. by apply Z.mod_pos_bound. Qed.

Lemma LEFT_eq q : LEFT q = TTY_BUF_SIZE - 1 - CHARS q.
Proof. unfold LEFT. rewrite land_1023, u32_mod, CHARS_eq. unfold TTY_BUF_SIZE. dmlia. Qed.

Lemma EMPTY_spec q : queue_ok q -> EMPTY q = (CHARS q =? 0).
Proof.
  intros (H1 & H2 & _). unfold EMPTY. rewrite CHARS_eq. unfold TTY_BUF_SIZE in *.
  destruct (Z.eqb_spec (q_head q) (q_tail q)) as [->|Hne]; [by rewrite Z.sub_diag|].
  symmetry. apply Z.eqb_neq. dmlia.
Qed.

Lemma FULL_eq q : FULL q = (CHARS q =? TTY_BUF_SIZE - 1).
Proof.
  unfold FULL, istrue. rewrite LEFT_eq, negb_involutive. unfold TTY_BUF_SIZE.
  destruct (Z.eqb_spec (CHARS q) (1024 - 1)); [apply Z.eqb_eq|apply Z.eqb_neq]; lia.
Qed.

(** The fields after each macro. *)
Lemma PUTCH_head c q : q_head (PUTCH c q) = (q_head q + 1) mod TTY_BUF_SIZE.
Proof. exact (INC_eq _). Qed.
Lemma PUTCH_tail c q : q_tail (PUTCH c q) = q_tail q.
Proof. done. Qed.
Lemma PUTCH_buf c q : q_buf (PUTCH c q) = setz (q_buf q) (q_head q) (s8 c).
Proof. done. Qed.
Lemma unput_head q : q_head (unput q) = (q_head q - 1) mod TTY_BUF_SIZE.
Proof. exact (DEC_eq _). Qed.
Lemma unput_tail q : q_tail (unput q) = q_tail q.
Proof. done. Qed.
Lemma GETCH_eq q c : getz (q_buf q) (q_tail q) = Some c ->
  exists q', GETCH q = Some (c, q') /\ q_head q' = q_head q /\ q_buf q' = q_buf q /\
    q_tail q' = (q_tail q + 1) mod TTY_BUF_SIZE.
Proof.
  intros Hc. unfold GETCH. rewrite Hc. cbn [mbind option_bind]. eexists. split; [reflexivity|].
  split; [done|]. split; [done|]. exact (INC_eq _).
Qed.
Create HintDb queue.
#[local] Hint Rewrite PUTCH_head PUTCH_tail PUTCH_buf unput_head unput_tail : queue.

(** Closes the arithmetic of heads and tails. *)
Ltac ring_arith := rewrite ?CHARS_eq in *; unfold TTY_BUF_SIZE in *; dmlia.

Lemma PUTCH_contents c q :
  queue_ok q -> FULL q = false -> queue_ok (PUTCH c q) /\ contents (PUTCH c q) = contents q ++ [s8 c].
Proof.
  intros (H1 & H2 & H3) Hf. rewrite FULL_eq in Hf. apply Z.eqb_neq in Hf.
  pose proof (CHARS_range q) as Hr. unfold queue_ok, contents. autorewrite with queue. split.
  { split; [by apply Z.mod_pos_bound|]. split; [done|]. by rewrite lenz_setz. }
  replace (((q_head q + 1) mod TTY_BUF_SIZE - q_tail q) mod TTY_BUF_SIZE) with (CHARS q + 1) by ring_arith.
  rewrite <- CHARS_eq, ring_snoc by (try done; lia). f_equal.
  - apply ring_ext. intros k Hk. unfold cell. rewrite PUTCH_buf, getz_setz_ne; [done|].
    rewrite <- (ring_distance TTY_BUF_SIZE ltac:(done) (q_tail q) (q_head q)) by done. rewrite <- CHARS_eq.
    apply not_eq_sym, (ring_apart TTY_BUF_SIZE ltac:(done) _ (CHARS q)); lia.
  - rewrite CHARS_eq, ring_distance by done. unfold cell. by rewrite PUTCH_buf, getz_setz_eq by lia.
Qed.

Lemma GETCH_contents q :
  queue_ok q -> EMPTY q = false ->
  exists c q', GETCH q = Some (c, q') /\ queue_ok q' /\ contents q = c :: contents q'.
Proof.
  intros Hq He. pose proof Hq as (H1 & H2 & H3). rewrite EMPTY_spec in He by done. apply Z.eqb_neq in He.
  pose proof (CHARS_range q) as Hr.
  destruct (getz_is_Some (q_buf q) (q_tail q)) as [c Hc]; [lia|].
  destruct (GETCH_eq _ _ Hc) as (q' & Hg & Eh & Eb & Et). exists c, q'. split; [done|].
  unfold queue_ok, contents, cell. rewrite Eh, Eb, Et. split.
  { split; [done|]. split; [by apply Z.mod_pos_bound|done]. }
  rewrite <- CHARS_eq, ring_cons by (try done; lia). f_equal; [by rewrite Hc|].
  f_equal. ring_arith.
Qed.

Lemma unput_contents q :
  queue_ok q -> EMPTY q = false ->
  exists c, LAST q = Some c /\ queue_ok (unput q) /\ contents q = contents (unput q) ++ [c].
Proof.
  intros Hq He. pose proof Hq as (H1 & H2 & H3). rewrite EMPTY_spec in He by done. apply Z.eqb_neq in He.
  pose proof (CHARS_range q) as Hr. unfold LAST. rewrite Z.land_comm, land_1023, u32_mod.
  pose proof (Z.mod_pos_bound (q_head q - 1) TTY_BUF_SIZE ltac:(done)) as Hh.
  destruct (getz_is_Some (q_buf q) ((q_head q - 1) mod TTY_BUF_SIZE)) as [c Hc]; [lia|].
  exists c. split; [done|]. unfold queue_ok, contents. autorewrite with queue. split; [done|].
  replace (((q_head q - 1) mod TTY_BUF_SIZE - q_tail q) mod TTY_BUF_SIZE) with (CHARS q - 1) by ring_arith.
  rewrite <- CHARS_eq. replace (CHARS q) with (CHARS q - 1 + 1) at 1 by lia. rewrite ring_snoc by (try done; lia).
  f_equal. f_equal. replace ((q_tail q + (CHARS q - 1)) mod TTY_BUF_SIZE) with ((q_head q - 1) mod TTY_BUF_SIZE) by ring_arith.
  unfold cell. by rewrite Hc.
Qed.

(** C37: the macros on a terminal's queue implement a list of at most 1023
    characters: the counts are its length and the room left, a character that
    is put is appended, the one that is got was the first, and [LAST] and
    [DEC] look at and remove the last. *)
Theorem tty_queue_refines q :
  queue_ok q ->
  CHARS q = lenz (contents q) /\ LEFT q = 1023 - lenz (contents q) /\
  (EMPTY q = true <-> contents q = []) /\ (FULL q = true <-> lenz (contents q) = 1023) /\
  (FULL q = false -> forall c, queue_ok (PUTCH c q) /\ contents (PUTCH c q) = contents q ++ [s8 c]) /\
  (EMPTY q = false ->
   (exists c q', GETCH q = Some (c, q') /\ queue_ok q' /\ contents q = c :: contents q') /\
   (exists c, LAST q = Some c /\ queue_ok (unput q) /\ contents q = contents (unput q) ++ [c])).
Proof.
  intros Hq. rewrite contents_length. split; [done|]. split; [by rewrite LEFT_eq|]. split.
  { rewrite EMPTY_spec, Z.eqb_eq by done. rewrite <- contents_length. split; [|by intros ->].
    destruct (contents q); [done|]. rewrite lenz_cons. pose proof (lenz_nonneg l). lia. }
  split; [rewrite FULL_eq; apply Z.eqb_eq|]. split; [intros Hf c; by apply PUTCH_contents|].
  intros He. split; [by apply GETCH_contents|by apply unput_contents].
Qed.

(** A queue that has gone round: head 1, tail 1022, three characters. *)
Definition wrapped : tty_queue := PUTCH 99 (PUTCH 98 (PUTCH 97 (TtyQueue 0 1022 1022 (replicate 1024 0)))).
Lemma tty_queue_refines_witness :
  contents wrapped = [97; 98; 99] /\ q_head wrapped = 1 /\ CHARS wrapped = lenz (contents wrapped).
Proof.
  split; [vm_compute; reflexivity|]. split; [vm_compute; reflexivity|].
  apply (tty_queue_refines wrapped). split; [split; vm_compute; [discriminate|reflexivity]|].
  split; [split; vm_compute; [discriminate|reflexivity]|vm_compute; reflexivity].
Defined.
