(* ===== verification/UserMem.v ===== *)
(** * Bytes of the user's memory

    What [put_user] stores, [get_user] reads back: the round trips of the
    structures that are handed to the user and taken from him. *)

From Stdlib Require Import ZArith Lia.
From stdpp Require Import base numbers list gmap strings.
From S2P Require Import Prelude Memory Task Sched TtyData Kernel CharDev.

Fixpoint write_user (l : list Z) (a : Z) (u : gmap Z Z) : gmap Z Z :=
  match l with [] => u | c :: l => write_user l (a + 1) (<[u32 a := u8 c]> u) end.
Definition read_user (n : nat) (a : Z) (u : gmap Z Z) : list Z :=
  (fun k => default 0 (u !! u32 (a + k))) <$> seqZ 0 (Z.of_nat n).

Lemma put_user_ok l a s : put_user l a s = Ok tt (s <| user ::= write_user l a |>).
Proof.
  revert a s. induction l as [|c l IH]; intros a s; cbn [put_user write_user]; [by destruct s|].
  unfold bind, put_fs_byte, modify. by rewrite IH.
Qed.

Lemma read_user_S n a u :
  read_user (Datatypes.S n) a u = default 0 (u !! u32 a) :: read_user n (a + 1) u.
Proof.
  unfold read_user. rewrite seqZ_cons, fmap_cons by lia. rewrite Z.add_0_r. f_equal.
  replace (Z.pred (Z.of_nat (Datatypes.S n))) with (Z.of_nat n) by lia.
  replace (seqZ (Z.succ 0) (Z.of_nat n)) with (Z.add 1 <$> seqZ 0 (Z.of_nat n)) by (rewrite fmap_add_seqZ; done).
  rewrite <- list_fmap_compose. apply list_fmap_ext. intros i k _. cbn. f_equal. f_equal. f_equal. lia.
Qed.

Lemma get_user_ok n a s : get_user n a s = Ok (read_user n a (user s)) s.
Proof.
  revert a. induction n as [|n IH]; intros a; [done|]. cbn [get_user]. rewrite read_user_S.
  unfold get_fs_byte, bind, gets. by rewrite IH.
Qed.

(** Writing elsewhere does not change what is read; addresses are modulo 2^32. *)
Lemma write_user_lookup_ne l a u b :
  (forall k, 0 <= k < lenz l -> u32 (a + k) <> b) -> write_user l a u !! b = u !! b.
Proof.
  revert a u. induction l as [|c l IH]; intros a u H; [done|]. cbn [write_user].
  rewrite lenz_cons in H. pose proof (lenz_nonneg l). rewrite IH.
  - apply lookup_insert_ne. rewrite <- (Z.add_0_r a). apply H. lia.
  - intros k Hk. replace (a + 1 + k) with (a + (1 + k)) by lia. apply H. lia.
Qed.

Lemma read_write_user l a u :
  lenz l <= 4294967296 -> read_user (length l) a (write_user l a u) = u8 <$> l.
Proof.
  revert a u. induction l as [|c l IH]; intros a u Hl; [done|].
  rewrite lenz_cons in Hl. cbn [length]. rewrite read_user_S. cbn [write_user]. rewrite fmap_cons. f_equal.
  - rewrite write_user_lookup_ne, lookup_insert; [by rewrite decide_True|]. intros k Hk. unfold u32. dmlia.
  - apply IH. lia.
Qed.

Lemma map_u8_bytes l : Forall is_u8 l -> u8 <$> l = l.
Proof. induction 1 as [|c l Hc _ IH]; cbn; [done|]. by rewrite u8_id, IH. Qed.

(** ** Integers as bytes *)

Lemma bytes_of_u8 n v : Forall is_u8 (bytes_of n v).
Proof. unfold bytes_of. apply Forall_fmap, Forall_true. intros k. apply u8_range. Qed.

Lemma value_of_bytes n v : value_of (bytes_of n v) = v mod 2 ^ (8 * Z.of_nat n).
Proof.
  enough (forall j, value_of (map (fun k => u8 (Z.shiftr v (8 * Z.of_nat k))) (seq j n)) =
    Z.shiftr v (8 * Z.of_nat j) mod 2 ^ (8 * Z.of_nat n)) as H.
  { unfold bytes_of. rewrite (H 0%nat). by rewrite Z.shiftr_0_r. }
  induction n as [|n IH]; intros j; cbn [seq map value_of]; [by rewrite Z.mod_1_r|].
  rewrite IH. unfold u8. rewrite !Z.shiftr_div_pow2 by lia.
  replace (8 * Z.of_nat (S j)) with (8 * Z.of_nat j + 8) by lia.
  replace (8 * Z.of_nat (S n)) with (8 + 8 * Z.of_nat n) by lia.
  rewrite !Z.pow_add_r by lia. rewrite <- Z.div_div by lia. change (2 ^ 8) with 256.
  rewrite (Z.rem_mul_r _ 256) by lia. done.
Qed.

Lemma value_of_bytes_id n v : 0 <= v < 2 ^ (8 * Z.of_nat n) -> value_of (bytes_of n v) = v.
Proof. intros Hv. rewrite value_of_bytes. by apply Z.mod_small. Qed.

Lemma read_user_app n m a u : read_user (n + m) a u = read_user n a u ++ read_user m (a + Z.of_nat n) u.
Proof.
  unfold read_user. rewrite Nat2Z.inj_add, seqZ_app, fmap_app by lia. f_equal.
  rewrite Z.add_0_l. replace (seqZ (Z.of_nat n) (Z.of_nat m)) with (Z.add (Z.of_nat n) <$> seqZ 0 (Z.of_nat m))
    by (rewrite fmap_add_seqZ; f_equal; lia).
  rewrite <- list_fmap_compose. apply list_fmap_ext. intros i k _. cbn. f_equal. f_equal. f_equal. lia.
Qed.

Lemma write_user_app l l' a u : write_user (l ++ l') a u = write_user l' (a + lenz l) (write_user l a u).
Proof.
  revert a u. induction l as [|c l IH]; intros a u; [by rewrite Z.add_0_r|].
  cbn [app write_user]. rewrite IH, lenz_cons. f_equal. lia.
Qed.
