(* ===== verification/Termios.v ===== *)
(** * TCGETS and TCSETS

    What a program reads with TCGETS and sets with TCSETS is the setting of
    the terminal. *)

From Stdlib Require Import ZArith Lia.
From stdpp Require Import base numbers list gmap strings.
From S2P Require Import Prelude Memory Task Sched TtyData Console Kernel TtyIo CharDev UserMem.

(** The fields are words and bytes, and there are [NCCS] control characters. *)
Record termios_ok (t : termios) : Prop := {
  ok_iflag : is_u32 (c_iflag t); ok_oflag : is_u32 (c_oflag t); ok_cflag : is_u32 (c_cflag t);
  ok_lflag : is_u32 (c_lflag t); ok_line : is_u8 (c_line t); ok_cc : Forall is_u8 (c_cc t);
  ok_ncc : lenz (c_cc t) = NCCS
}.

Lemma termios_bytes_u8 t : Forall is_u8 (termios_bytes t).
Proof.
  unfold termios_bytes. rewrite !Forall_app. repeat split; try apply bytes_of_u8.
  - constructor; [apply u8_range|done].
  - apply Forall_fmap, Forall_true. intros c. apply u8_range.
  - by repeat constructor.
Qed.

Lemma termios_bytes_length t : termios_ok t -> length (termios_bytes t) = 36%nat.
Proof.
  intros H. pose proof (ok_ncc _ H) as Hn. unfold lenz, NCCS in Hn. unfold termios_bytes, bytes_of.
  rewrite !length_app, !length_map, !length_seq. cbn. lia.
Qed.

Lemma termios_of_bytes t : termios_ok t -> termios_of (termios_bytes t) = t.
Proof.
  intros [H1 H2 H3 H4 H5 H6 H7]. unfold is_u32 in *. destruct t as [i o c l line cc]; cbn in *.
  assert (map u8 cc = cc) as Ecc by (by apply map_u8_bytes).
  unfold termios_of, termios_bytes. cbn [c_iflag c_oflag c_cflag c_lflag c_line c_cc]. rewrite Ecc.
  f_equal.
  - exact (value_of_bytes_id 4 i H1).
  - exact (value_of_bytes_id 4 o H2).
  - exact (value_of_bytes_id 4 c H3).
  - exact (value_of_bytes_id 4 l H4).
  - change (u8 line + 256 * 0 = line). rewrite u8_id by done. lia.
  - change (take 17 (cc ++ [0; 0]) = cc). apply take_app_length'. unfold lenz, NCCS in H7. lia.
Qed.

(** The part of a routine that changes only memory. *)
Lemma on_memory_frame {A} (m : M mm A) s r s' :
  on_memory m s = Ok r s' -> exists x, s' = s <| memory := x |>.
Proof. unfold on_memory, zoom. destruct (m (memory s)); intros [= <- <-]; eauto. Qed.

Lemma verify_area_frame a n s r s' :
  verify_area a n s = Ok r s' -> exists x, s' = s <| memory := x |>.
Proof.
  unfold verify_area. intros H.
  apply bind_ok_inv in H as (t & s1 & H1 & H). unfold on_sched, zoom in H1.
  destruct (get_current (sch s)) as [t' s0| | | |] eqn:E; [|done..]. injection H1 as <- <-.
  assert (s0 = sch s) as ->.
  { unfold get_current, bind, gets, valid in E. by destruct (current_task (sch s)); [injection E as <- <-|]. }
  apply bind_ok_inv in H as (d & s1 & H2 & H). unfold valid in H2.
  destruct (getz (ldt t') 2); [|done]. injection H2 as <- <-. apply on_memory_frame in H as [x ->].
  exists x. by destruct s.
Qed.

Lemma get_tty_ok s i t : getz (tty_table s) i = Some t -> get_tty i s = Ok t s.
Proof. intros H. unfold get_tty, bind, gets. by rewrite H. Qed.

Lemma set_tty_ok s i t f :
  getz (tty_table s) i = Some t -> set_tty_with i f s = Ok tt (s <| tty_table ::= fun l => setz l i (f t) |>).
Proof. intros H. unfold set_tty_with. rewrite (bind_ok _ _ _ _ _ (get_tty_ok _ _ _ H)). done. Qed.

(** Setting the speed only sends to the ports of the line. *)
Lemma change_speed_ok s i t : getz (tty_table s) i = Some t ->
  exists l, change_speed i s = Ok tt (s <| con ::= fun c => c <| outs := l |> |>).
Proof.
  intros Ht. unfold change_speed. rewrite (bind_ok _ _ _ _ _ (get_tty_ok _ _ _ Ht)). cbv zeta.
  destruct (istrue _); cbn [negb].
  - destruct (getz_is_Some quotient (Z.land (c_cflag (tty_termios t)) CBAUD)) as [q ->].
    { change CBAUD with (Z.ones 4). rewrite Z.land_ones by lia. by apply Z.mod_pos_bound. }
    eexists (_ :: _ :: _ :: _ :: outs (con s)). by destruct s as [??????????????? [] ????].
  - exists (outs (con s)). unfold ret. f_equal. by destruct s as [??????????????? [] ????].
Qed.

(** A terminal's settings that TCGETS stored in the user's memory are set
    again by TCSETS, on the same or another terminal, whatever happened in
    between, as long as those bytes of memory did not change; apart from that
    only the speed is sent to the ports of the line. *)
Theorem get_set_termios s s1 s2 a i j r t t' :
  getz (tty_table s) i = Some t -> termios_ok (tty_termios t) -> get_termios i a s = Ok r s1 ->
  read_user 36 a (user s2) = read_user 36 a (user s1) -> getz (tty_table s2) j = Some t' ->
  exists l, set_termios j a s2 =
    Ok 0 (s2 <| tty_table ::= fun l => setz l j (t' <| tty_termios := tty_termios t |>) |>
             <| con ::= fun c => c <| outs := l |> |>).
Proof.
  intros Ht Hok Hget Hmem Ht'. unfold get_termios in Hget.
  apply bind_ok_inv in Hget as ([] & s0 & Hv & Hget). apply verify_area_frame in Hv as [x Hs0].
  assert (getz (tty_table s0) i = Some t) as Ht0 by (by rewrite Hs0).
  rewrite (bind_ok _ _ _ _ _ (get_tty_ok _ _ _ Ht0)) in Hget.
  rewrite (bind_ok _ _ _ _ _ (put_user_ok _ _ _)) in Hget.
  assert (user s1 = write_user (termios_bytes (tty_termios t)) a (user s0)) as Hu by (by injection Hget as <- <-).
  assert (read_user 36 a (user s2) = termios_bytes (tty_termios t)) as Hb.
  { rewrite Hmem, Hu, <- (termios_bytes_length _ Hok), read_write_user.
    - apply map_u8_bytes, termios_bytes_u8.
    - unfold lenz. rewrite termios_bytes_length by done. done. }
  unfold set_termios. rewrite (bind_ok _ _ _ _ _ (get_user_ok _ _ _)), Hb, termios_of_bytes by done.
  rewrite (bind_ok _ _ _ _ _ (set_tty_ok _ _ _ _ Ht')).
  set (s3 := s2 <| tty_table ::= _ |>). destruct (change_speed_ok s3 j (t' <| tty_termios := tty_termios t |>)) as [l Hl].
  { apply getz_setz_eq. split; [|by eapply getz_Some_lt]. by eapply getz_Some_lt. }
  exists l. by rewrite (bind_ok _ _ _ _ _ Hl).
Qed.
