(* ===== verification/DiskInode.v ===== *)
(** * Inodes on the disk

    What [write_inode] stores in a block, [read_inode] finds again, and the
    other inodes of the block are not touched. *)

From Stdlib Require Import ZArith Lia.
From stdpp Require Import base numbers list gmap strings.
From S2P Require Import Prelude Memory Task Sched Kernel Blk Buffer.

(** ** Halfwords and words of a block *)

Lemma getz_set_le16_ne l i v k : k <> i -> k <> i + 1 -> getz (set_le16 l i v) k = getz l k.
Proof. intros H1 H2. unfold set_le16. by rewrite !getz_setz_ne by congruence. Qed.

Lemma lenz_set_le16 l i v : lenz (set_le16 l i v) = lenz l.
Proof. unfold set_le16. by rewrite !lenz_setz. Qed.

Lemma lenz_set_le32 l i v : lenz (set_le32 l i v) = lenz l.
Proof. unfold set_le32. by rewrite !lenz_set_le16. Qed.

Lemma getz_set_le32_ne l i v k : k < i \/ i + 4 <= k -> getz (set_le32 l i v) k = getz l k.
Proof. intros H. unfold set_le32. by rewrite !getz_set_le16_ne by lia. Qed.

Lemma le16_ext l l' i : getz l i = getz l' i -> getz l (i + 1) = getz l' (i + 1) -> le16 l i = le16 l' i.
Proof. unfold le16. by intros -> ->. Qed.

Lemma le32_ext l l' i : (forall k, i <= k < i + 4 -> getz l k = getz l' k) -> le32 l i = le32 l' i.
Proof.
  intros H. unfold le32. rewrite (le16_ext l l' i), (le16_ext l l' (i + 2)); [done|..]; apply H; lia.
Qed.

Lemma le16_set_le16 l i v : 0 <= i -> i + 1 < lenz l -> is_u16 v -> le16 (set_le16 l i v) i = Some v.
Proof.
  intros H1 H2 Hv. unfold le16, set_le16. rewrite (getz_setz_ne _ (i + 1) i) by lia.
  rewrite !getz_setz_eq by (rewrite ?lenz_setz; lia).
  cbn [mbind option_bind]. f_equal. unfold is_u16, u8 in *. rewrite Z.shiftr_div_pow2 by lia.
  change (2 ^ 8) with 256. dmlia.
Qed.

Lemma le16_set_wide l i v : 0 <= i -> i + 1 < lenz l -> le16 (set_le16 l i v) i = Some (u16 v).
Proof.
  intros H1 H2. rewrite <- (le16_set_le16 l i (u16 v)) by (try apply u16_range; done).
  assert (u8 v = u8 (u16 v) /\ u8 (Z.shiftr v 8) = u8 (Z.shiftr (u16 v) 8)) as [E1 E2].
  { unfold u8, u16. rewrite !Z.shiftr_div_pow2 by lia. change (2 ^ 8) with 256. split; dmlia. }
  unfold set_le16. by rewrite E1, E2.
Qed.

Lemma le32_set_le32 l i v : 0 <= i -> i + 3 < lenz l -> is_u32 v -> le32 (set_le32 l i v) i = Some v.
Proof.
  intros H1 H2 Hv. unfold le32, set_le32.
  rewrite (le16_ext _ (set_le16 l i v) i) by (apply getz_set_le16_ne; lia).
  rewrite !le16_set_wide by (rewrite ?lenz_set_le16; lia). cbn [mbind option_bind]. f_equal.
  unfold is_u32, u16 in *. rewrite Z.shiftr_div_pow2 by lia. change (2 ^ 16) with 65536. dmlia.
Qed.

(** ** The zones *)

Lemma getz_write_zones_ne zs l o k :
  k < o \/ o + 2 * lenz zs <= k -> getz (write_zones l o zs) k = getz l k.
Proof.
  revert l o. induction zs as [|z zs IH]; intros l o H; [done|]. cbn [write_zones].
  rewrite lenz_cons in H. pose proof (lenz_nonneg zs). rewrite IH by lia. apply getz_set_le16_ne; lia.
Qed.

Lemma le16_write_zones zs l o k z :
  Forall is_u16 zs -> zs !! k = Some z -> 0 <= o -> o + 2 * lenz zs <= lenz l ->
  le16 (write_zones l o zs) (o + 2 * Z.of_nat k) = Some z.
Proof.
  intros Hzs. revert l o k. induction Hzs as [|y zs Hy _ IH]; intros l o k Hk Ho Hl; [done|].
  rewrite lenz_cons in Hl. pose proof (lenz_nonneg zs). cbn [write_zones]. destruct k as [|k].
  - injection Hk as ->. rewrite Z.add_0_r.
    rewrite (le16_ext _ (set_le16 l o z)) by (apply getz_write_zones_ne; lia). apply le16_set_le16; [lia|lia|done].
  - replace (o + 2 * Z.of_nat (S k)) with (o + 2 + 2 * Z.of_nat k) by lia.
    apply IH; [done|lia|rewrite lenz_set_le16; lia].
Qed.

Lemma read_write_zones l o zs :
  Forall is_u16 zs -> lenz zs = 9 -> 0 <= o -> o + 32 <= lenz l -> read_zones (write_zones l (o + 14) zs) o = Some zs.
Proof.
  intros Hzs Hn Ho Hl. unfold read_zones. apply mapM_Some_2. apply Forall2_same_length_lookup_2.
  { rewrite length_seqZ. unfold lenz in Hn. lia. }
  intros i k z Hk Hz. apply lookup_seqZ in Hk as [-> _].
  replace (o + 14 + 2 * (0 + Z.of_nat i)) with (o + 14 + 2 * Z.of_nat i) by lia.
  apply le16_write_zones; [done|done|lia|lia].
Qed.

(** ** The inode *)

(** The fields that are kept on the disk have the width they have there. *)
Record disk_ok (n : m_inode) : Prop := {
  ok_mode : is_u16 (i_mode n); ok_uid : is_u16 (i_uid n); ok_size : is_u32 (i_size n);
  ok_mtime : is_u32 (i_mtime n); ok_gid : is_u8 (i_gid n); ok_nlinks : is_u8 (i_nlinks n);
  ok_zones : Forall is_u16 (i_zone n); ok_zone9 : lenz (i_zone n) = 9
}.

(** [n] with the disk's part of [d]. *)
Definition with_disk (d n : m_inode) : m_inode :=
  n <| i_mode := i_mode d |> <| i_uid := i_uid d |> <| i_size := i_size d |> <| i_mtime := i_mtime d |>
    <| i_gid := i_gid d |> <| i_nlinks := i_nlinks d |> <| i_zone := i_zone d |>.

(** The lengths and places of the chain of stores of [write_d_inode]. *)
Ltac frame := repeat first [rewrite lenz_setz | rewrite lenz_set_le16 | rewrite lenz_set_le32]; lia.
Ltac unaffected := rewrite ?getz_write_zones_ne, ?getz_setz_ne, ?getz_set_le32_ne, ?getz_set_le16_ne by lia.

Lemma write_d_inode_ne l o n k :
  k < o \/ o + 32 <= k -> getz (write_d_inode l o n) k = getz l k.
Proof.
  intros H. unfold write_d_inode. cbv zeta.
  assert (lenz (take 9 (i_zone n)) <= 9) by (unfold lenz; rewrite length_take; lia).
  by unaffected.
Qed.

Lemma read_write_d_inode l o n m :
  disk_ok n -> 0 <= o -> o + 32 <= lenz l -> read_d_inode (write_d_inode l o n) o m = Some (with_disk n m).
Proof.
  intros [H1 H2 H3 H4 H5 H6 H7 H8] Ho Hl. unfold read_d_inode, write_d_inode. cbv zeta.
  assert (take 9 (i_zone n) = i_zone n) as Ez by (apply take_ge; unfold lenz in H8; lia). rewrite Ez.
  set (l1 := set_le16 l o (i_mode n)). set (l2 := set_le16 l1 (o + 2) (i_uid n)).
  set (l3 := set_le32 l2 (o + 4) (i_size n)). set (l4 := set_le32 l3 (o + 8) (i_mtime n)).
  set (l5 := setz l4 (o + 12) (u8 (i_gid n))). set (l6 := setz l5 (o + 13) (u8 (i_nlinks n))).
  set (w := write_zones l6 (o + 14) (i_zone n)).
  assert (forall k, k < o + 14 -> getz w k = getz l6 k) as Ew by (intros k Hk; apply getz_write_zones_ne; lia).
  assert (forall k, k < o + 12 -> getz w k = getz l4 k) as E4.
  { intros k Hk. rewrite Ew by lia. unfold l6, l5. by rewrite !getz_setz_ne by lia. }
  assert (forall k, k < o + 8 -> getz w k = getz l3 k) as E3.
  { intros k Hk. rewrite E4 by lia. apply getz_set_le32_ne. lia. }
  assert (forall k, k < o + 4 -> getz w k = getz l2 k) as E2.
  { intros k Hk. rewrite E3 by lia. apply getz_set_le32_ne. lia. }
  assert (forall k, k < o + 2 -> getz w k = getz l1 k) as E1.
  { intros k Hk. rewrite E2 by lia. apply getz_set_le16_ne; lia. }
  rewrite (le16_ext w l1 o), (le16_ext w l2 (o + 2)), (le32_ext w l3 (o + 4)), (le32_ext w l4 (o + 8))
    by (intros; (apply E1 || apply E2 || apply E3 || apply E4); lia).
  unfold l1 at 1, l2 at 1, l3 at 1, l4 at 1.
  rewrite !le16_set_le16, !le32_set_le32 by (try done; unfold l3, l2, l1; frame).
  cbn [mbind option_bind]. rewrite !Ew by lia. unfold l6.
  rewrite (getz_setz_ne _ (o + 13) (o + 12)), (getz_setz_eq _ (o + 13)) by (try unfold l5, l4, l3, l2, l1; frame).
  unfold l5 at 1. rewrite getz_setz_eq by (unfold l4, l3, l2, l1; frame).
  cbn [mbind option_bind]. unfold w. rewrite read_write_zones by (try done; unfold l6, l5, l4, l3, l2, l1; frame).
  cbn [mbind option_bind]. by rewrite !u8_id.
Qed.

Lemma lenz_write_zones zs l o : lenz (write_zones l o zs) = lenz l.
Proof. revert l o. induction zs as [|z zs IH]; intros l o; [done|]. cbn [write_zones]. by rewrite IH, lenz_set_le16. Qed.

Lemma read_d_inode_ext l l' o m :
  (forall k, o <= k < o + 32 -> getz l k = getz l' k) -> read_d_inode l o m = read_d_inode l' o m.
Proof.
  intros H. unfold read_d_inode.
  rewrite (le16_ext l l' o), (le16_ext l l' (o + 2)), (le32_ext l l' (o + 4)), (le32_ext l l' (o + 8)), !H
    by (intros; apply H; lia) || lia.
  enough (read_zones l o = read_zones l' o) as -> by done.
  unfold read_zones. apply Forall_mapM_ext. apply Forall_forall. intros k Hk.
  apply elem_of_seqZ in Hk. apply le16_ext; apply H; lia.
Qed.

Lemma inode_place_inj sb num num' :
  1 <= num < 65536 -> 1 <= num' < 65536 -> is_u16 (s_imap_blocks sb) -> is_u16 (s_zmap_blocks sb) ->
  inode_block sb num = inode_block sb num' -> inode_offset num = inode_offset num' -> num = num'.
Proof.
  unfold inode_block, inode_offset, INODES_PER_BLOCK, is_u16. intros H1 H2 Hi Hz.
  unfold u32. intros Eb Eo. rewrite !(Z.mod_small (_ - 1)) in * by lia. revert Eb Eo.
  rewrite !Z.mod_small by dmlia. dmlia.
Qed.

(** C32: inodes have places of their own on the disk.  What [write_inode] puts
    into the block of an inode is what [read_inode] finds there, field by
    field; any other inode has another block or is read from this one as
    before; and the block keeps its length. *)
Theorem d_inode_roundtrip sb l n m num :
  disk_ok n -> lenz l = BLOCK_SIZE -> 1 <= num < 65536 -> is_u16 (s_imap_blocks sb) -> is_u16 (s_zmap_blocks sb) ->
  let l' := write_d_inode l (inode_offset num) n in
  read_d_inode l' (inode_offset num) m = Some (with_disk n m) /\ lenz l' = BLOCK_SIZE /\
  forall num', 1 <= num' < 65536 -> num' <> num ->
    inode_block sb num' <> inode_block sb num \/
    read_d_inode l' (inode_offset num') m = read_d_inode l (inode_offset num') m.
Proof.
  intros Hn Hl Hnum Hi Hz l'. unfold BLOCK_SIZE in *.
  assert (forall k, 0 <= inode_offset k <= 1024 - 32 /\ inode_offset k mod 32 = 0) as Ho.
  { intros k. unfold inode_offset, INODES_PER_BLOCK. dmlia. }
  destruct (Ho num) as [Hr Hd]. split; [apply read_write_d_inode; [done|lia|lia]|]. split.
  { unfold l', write_d_inode. rewrite lenz_write_zones. repeat first [rewrite lenz_setz|rewrite lenz_set_le16|rewrite lenz_set_le32]. done. }
  intros num' Hnum' Hne. destruct (decide (inode_block sb num' = inode_block sb num)) as [Eb|]; [right|by left].
  apply read_d_inode_ext. intros k Hk. apply write_d_inode_ne.
  assert (inode_offset num' <> inode_offset num) by (intros Eo; eauto using inode_place_inj).
  destruct (Ho num') as [Hr' Hd']. dmlia.
Qed.

Definition sample_inode : m_inode := Inode 0x81b4 0 1234567 700000000 1 2 [5; 6; 7; 8; 9; 10; 11; 12; 13] 0 0 0x301 40 1 0 1 0 0 0 0.
Definition sample_super : super_block_t := Super 256 1024 1 1 12 0 0 SUPER_MAGIC (replicate 8 None) (replicate 8 None) 0x301 None None 0 0 0 0.
Lemma d_inode_roundtrip_witness :
  inode_offset 40 = 224 /\ inode_block sample_super 40 = 5 /\
  read_d_inode (write_d_inode (replicate 1024 7) (inode_offset 40) sample_inode) (inode_offset 40) sample_inode =
    Some (with_disk sample_inode sample_inode).
Proof.
  split; [reflexivity|]. split; [reflexivity|].
  apply (d_inode_roundtrip sample_super (replicate 1024 7) sample_inode sample_inode 40).
  - split; apply (bool_decide_unpack _); vm_compute; exact I.
  - reflexivity.
  - split; [discriminate|reflexivity].
  - apply (bool_decide_unpack _); vm_compute; exact I.
  - apply (bool_decide_unpack _); vm_compute; exact I.
Defined.
