(* ===== verification/TaskProofs.v ===== *)
(** * Tasks: what the calls on a task's own structure, and signals, change *)

From Stdlib Require Import ZArith Lia.
From stdpp Require Import base numbers list gmap strings.
From S2P Require Import Prelude Memory Task Sched WaitQueue Sys Exit Fork.

(** ** One task is changed *)

Lemma get_current_ok s t : current_task s = Some t -> get_current s = Ok t s.
Proof. intros H. unfold get_current, bind, gets. by rewrite H. Qed.

Lemma update_task_ok s i t f :
  task_at s i = Some t -> update_task i f s = Ok tt (s <| task ::= fun l => setz l i (Some (f t)) |>).
Proof. intros H. unfold update_task, bind, gets. by rewrite H. Qed.

(** [s] with the current task replaced. *)
Definition with_current (t : task_struct) (s : sched) : sched := s <| task ::= fun l => setz l (current s) (Some t) |>.

Lemma update_current_ok s t f : current_task s = Some t -> update_current f s = Ok tt (with_current (f t) s).
Proof. intros H. unfold update_current, bind, gets. by rewrite (update_task_ok s (current s) t). Qed.

Lemma current_with_current t s : current_task s <> None -> current_task (with_current t s) = Some t.
Proof. intros H. unfold current_task, with_current. upd. rewrite task_at_update by done. by rewrite decide_True. Qed.

Lemma with_current_twice t t' s : with_current t' (with_current t s) = with_current t' s.
Proof. unfold with_current, over. destruct s; unfold set_task; cbn. f_equal. apply setz_setz. Qed.

Lemma with_current_id t s : current_task s = Some t -> with_current t s = s.
Proof.
  intros H. unfold current_task, task_at in H. unfold with_current. destruct s; unfold over, set_task; cbn in *. f_equal.
  apply setz_id. by destruct (getz task current) as [[]|]; [injection H as ->|..].
Qed.

Lemma suser_current s t : current_task s = Some t -> suser s = (euid t =? 0).
Proof. unfold suser. by intros ->. Qed.

(** ** Identity *)

(** The ids a call may leave in the task: those it had. *)
Definition keeps_user (t t' : task_struct) : Prop :=
  exists u e, t' = t <| uid := u |> <| euid := e |> /\ u ∈ [uid t; euid t] /\ e ∈ [uid t; euid t].
Definition keeps_group (t t' : task_struct) : Prop :=
  exists g e, t' = t <| gid := g |> <| egid := e |> /\ g ∈ [gid t] /\ e ∈ [gid t; egid t; sgid t].

(** The ids are 16-bit. *)
Definition ids_ok (t : task_struct) : Prop :=
  is_u16 (uid t) /\ is_u16 (euid t) /\ is_u16 (gid t) /\ is_u16 (egid t) /\ is_u16 (sgid t).

Lemma task_eta_user t : t <| uid := uid t |> <| euid := euid t |> = t.
Proof. by destruct t. Qed.
Lemma task_eta_group t : t <| gid := gid t |> <| egid := egid t |> = t.
Proof. by destruct t. Qed.

Lemma wp_get_current s t (Q : task_struct -> sched -> Prop) : current_task s = Some t -> Q t s -> wp get_current Q s.
Proof. intros H HQ. unfold wp. by rewrite (get_current_ok _ _ H). Qed.
Lemma wp_update_current s t f (Q : unit -> sched -> Prop) :
  current_task s = Some t -> Q tt (with_current (f t) s) -> wp (update_current f) Q s.
Proof. intros H HQ. unfold wp. by rewrite (update_current_ok _ _ _ H). Qed.

(** Runs a call on the current task, on every path. *)
Ltac now_current := first [eassumption | apply current_with_current; congruence].
Ltac task_steps :=
  repeat first
    [ wp_step; cbv beta
    | eapply wp_get_current; [now_current|]; cbv beta
    | eapply wp_update_current; [now_current|]; cbv beta
    | match goal with |- wp (if ?b then _ else _) _ _ => destruct b eqn:? end
    | match goal with |- wp (when ?b _) _ _ => destruct b eqn:? end ].

(** The ids of a leaf are among the old ones. *)
Ltac member Hw :=
  rewrite ?orb_true_iff, ?Z.eqb_eq in *; rewrite ?Hw; set_unfold; naive_solver.

Lemma setreuid_keeps s t ruid new_euid :
  current_task s = Some t -> euid t <> 0 -> ids_ok t ->
  wp (sys_setreuid ruid new_euid) (fun r s' => exists t', s' = with_current t' s /\ keeps_user t t' /\ (r < 0 -> t' = t)) s.
Proof.
  intros Ht Hpriv (Hu & He & _). unfold sys_setreuid.
  assert (forall x, x ∈ [uid t; euid t] -> u16 x = x) as Hw by (intros x Hx; set_unfold; apply u16_id; naive_solver).
  assert (suser s = false) as Hsu by (rewrite (suser_current s t) by done; by apply Z.eqb_neq).
  task_steps; rewrite ?with_current_twice; (eexists; split; [first [reflexivity|symmetry; by apply with_current_id]|]);
    rewrite ?Hsu, ?orb_false_r in *;
    repeat match goal with H : context [over _ _ _] |- _ => progress upd_in H end; breflect;
    match goal with |- keeps_user ?t ?t' /\ _ =>
      split; [exists (uid t'), (euid t'); split; [by destruct t|upd; split; member Hw]
             |first [lia | intros _; by destruct t]]
    end.
Qed.

Lemma setregid_keeps s t rgid new_egid :
  current_task s = Some t -> euid t <> 0 -> ids_ok t ->
  wp (sys_setregid rgid new_egid) (fun r s' => exists t', s' = with_current t' s /\ keeps_group t t' /\ (r < 0 -> t' = t)) s.
Proof.
  intros Ht Hpriv (_ & _ & Hg & He & Hs). unfold sys_setregid.
  assert (forall x, x ∈ [gid t; egid t; sgid t] -> u16 x = x) as Hw by (intros x Hx; set_unfold; apply u16_id; naive_solver).
  assert (suser s = false) as Hsu by (rewrite (suser_current s t) by done; by apply Z.eqb_neq).
  task_steps; rewrite ?with_current_twice; (eexists; split; [first [reflexivity|symmetry; by apply with_current_id]|]);
    rewrite ?Hsu, ?orb_false_r in *;
    repeat match goal with H : context [over _ _ _] |- _ => progress upd_in H end; breflect;
    try match goal with H : gid t = rgid |- _ => rewrite <- H in *; rewrite (u16_id (gid t)) in * by done end;
    match goal with |- keeps_group ?t ?t' /\ _ =>
      split; [exists (gid t'), (egid t'); split; [by destruct t|upd; split; member Hw]
             |first [lia | intros _; by destruct t]]
    end.
Qed.

(** C31: a task without privilege gets no id it does not have.  Whatever it
    asks of [sys_setreuid] and [sys_setregid], the calls return, only its own
    real and effective ids may be different, each of them is then one of the
    ids the task had before, and after an error they are unchanged. *)
Theorem unprivileged_ids s t a b :
  current_task s = Some t -> euid t <> 0 -> ids_ok t ->
  wp (sys_setreuid a b) (fun r s' => exists t', s' = with_current t' s /\ keeps_user t t' /\ (r < 0 -> t' = t)) s /\
  wp (sys_setregid a b) (fun r s' => exists t', s' = with_current t' s /\ keeps_group t t' /\ (r < 0 -> t' = t)) s.
Proof. intros Ht He Hi. split; [by apply setreuid_keeps|by apply setregid_keeps]. Qed.

(** User 100, who runs a program of user 200. *)
Definition guest : task_struct := (plain_task 1 15) <| uid := 100 |> <| euid := 200 |> <| gid := 10 |> <| egid := 20 |>.
Lemma unprivileged_ids_witness :
  exists r s t', sys_setreuid 200 1 (idle_sched [None; Some guest]) = Ok r s /\
    s = with_current t' (idle_sched [None; Some guest]) /\ keeps_user guest t'.
Proof.
  destruct (unprivileged_ids (idle_sched [None; Some guest]) guest 200 1) as [H _].
  - reflexivity.
  - discriminate.
  - apply (bool_decide_unpack _). vm_compute. exact I.
  - apply wp_ok in H as (r & s & E & t' & Hs & Hk & _). exists r, s, t'.
    split; [exact E|]. split; [exact Hs|exact Hk].
Defined.

(** ** Who gets a signal: [sys_kill] *)

(** ** What one [send_sig] does *)

(** Its result for the task in a slot, sent by a task with the effective
    user [e]; and the task afterwards. *)
Definition send_err (e sig : Z) (priv : bool) (o : option task_struct) : Z :=
  match o with
  | None => - EINVAL
  | Some t =>
    if (sig <? 1) || (32 <? sig) then - EINVAL else
    if priv || (e =? euid t) || (e =? 0) then 0 else - EPERM
  end.
Definition add_signal (sig : Z) (t : task_struct) : task_struct := t <| signal ::= fun x => Z.lor x (sigbit sig) |>.
Definition sent (e sig : Z) (priv : bool) (select : option task_struct -> bool) (o : option task_struct) : option task_struct :=
  if select o && (send_err e sig priv o =? 0) then add_signal sig <$> o else o.

(** Only the tasks differ, and the running one has the effective user [e]. *)
Record same_but_tasks (s s' : sched) : Prop := { same_rest : s' <| task := task s |> = s }.

Lemma same_but_tasks_refl s : same_but_tasks s s.
Proof. split. by destruct s. Qed.
Lemma same_but_tasks_update s i t : same_but_tasks s (s <| task ::= fun l => setz l i t |>).
Proof. split. by destruct s. Qed.
Lemma same_but_tasks_trans s1 s2 s3 : same_but_tasks s1 s2 -> same_but_tasks s2 s3 -> same_but_tasks s1 s3.
Proof. intros [H1] [H2]. split. rewrite <- H1, <- H2. by destruct s3. Qed.
Lemma same_but_tasks_current s s' : same_but_tasks s s' -> current s' = current s.
Proof. intros [H]. by rewrite <- H. Qed.

Definition runs_as (e : Z) (s : sched) : Prop := exists c, current_task s = Some c /\ euid c = e.

Lemma send_sig_run e sig p priv s :
  runs_as e s ->
  exists s', send_sig sig p priv s = Ok (send_err e sig priv (task_at s p)) s' /\ same_but_tasks s s' /\
    forall j, task_at s' j = if decide (j = p) then sent e sig priv (fun _ => true) (task_at s j) else task_at s j.
Proof.
  intros (c & Hc & He). unfold send_sig, bind at 1, gets at 1.
  destruct (task_at s p) as [t|] eqn:Ht; cbn [send_err].
  2: { exists s. split; [done|]. split; [apply same_but_tasks_refl|]. intros j. case_decide as E; [subst j|done].
       unfold sent. by rewrite Ht. }
  assert (forall j, send_err e sig priv (Some t) <> 0 ->
    task_at s j = if decide (j = p) then sent e sig priv (fun _ => true) (task_at s j) else task_at s j) as Hno.
  { intros j Herr. case_decide as E; [subst j|done]. unfold sent. rewrite Ht. by rewrite (proj2 (Z.eqb_neq _ _)). }
  unfold send_err in Hno. destruct ((sig <? 1) || (32 <? sig)) eqn:Hsig.
  { exists s. split; [done|]. split; [apply same_but_tasks_refl|]. intros j. by apply Hno. }
  rewrite (bind_ok _ _ _ _ _ (get_current_ok _ _ Hc)). unfold bind at 1, gets at 1.
  rewrite (suser_current _ _ Hc), He. destruct (priv || (e =? euid t) || (e =? 0)) eqn:Hp.
  2: { exists s. split; [done|]. split; [apply same_but_tasks_refl|]. intros j. by apply Hno. }
  rewrite (bind_ok _ _ _ _ _ (update_task_ok _ _ _ _ Ht)). eexists. split; [done|].
  split; [apply same_but_tasks_update|]. intros j. rewrite task_at_update by (by rewrite Ht). case_decide as E; [|done].
  subst j. unfold sent, send_err. by rewrite Ht, Hsig, Hp.
Qed.

(** The sender's user stays, also when it gets the signal itself. *)
Lemma runs_as_sent e sig priv s s' p :
  runs_as e s -> same_but_tasks s s' ->
  (forall j, task_at s' j = if decide (j = p) then sent e sig priv (fun _ => true) (task_at s j) else task_at s j) ->
  runs_as e s'.
Proof.
  intros (c & Hc & He) Hs Hj. unfold runs_as, current_task. rewrite (same_but_tasks_current _ _ Hs), Hj.
  unfold current_task in Hc. rewrite Hc. case_decide; [|by eauto].
  unfold sent. destruct (_ && _); [|by eauto]. eexists. split; [done|]. by rewrite <- He.
Qed.

(** ** The loop *)

(** The result: [r], or the error of the lowest slot that gave one. *)
Definition kill_ret (err : Z -> Z) (n r r' : Z) : Prop :=
  (r' = r /\ forall i, 1 <= i <= n -> err i = 0) \/
  (exists i, 1 <= i <= n /\ err i <> 0 /\ r' = err i /\ forall j, 1 <= j < i -> err j = 0).

Definition slot_err (e sig : Z) (priv : bool) (select : option task_struct -> bool) (s : sched) (i : Z) : Z :=
  if select (task_at s i) then send_err e sig priv (task_at s i) else 0.

Lemma kill_loop_run n e sig priv select s r :
  runs_as e s ->
  exists s' r', kill_loop n select sig priv r s = Ok r' s' /\ same_but_tasks s s' /\
    (forall j, task_at s' j = if decide (1 <= j <= Z.of_nat n) then sent e sig priv select (task_at s j) else task_at s j) /\
    kill_ret (slot_err e sig priv select s) (Z.of_nat n) r r'.
Proof.
  revert s r. induction n as [|n IH]; intros s r He.
  { exists s, r. split; [done|]. split; [apply same_but_tasks_refl|]. split.
    - intros j. by rewrite decide_False by lia.
    - left. split; [done|lia]. }
  cbn [kill_loop]. unfold bind at 1, gets at 1.
  assert (exists s1 r1, (if select (task_at s (Z.of_nat (S n)))
      then let! err := send_sig sig (Z.of_nat (S n)) priv in ret (if istrue err then err else r) else ret r) s = Ok r1 s1 /\
    same_but_tasks s s1 /\ runs_as e s1 /\
    (forall j, task_at s1 j = if decide (j = Z.of_nat (S n)) then sent e sig priv select (task_at s j) else task_at s j) /\
    r1 = (if istrue (slot_err e sig priv select s (Z.of_nat (S n))) then slot_err e sig priv select s (Z.of_nat (S n)) else r))
    as (s1 & r1 & Hrun & Hs1 & He1 & Hj1 & Hr1).
  { unfold slot_err. destruct (select (task_at s (Z.of_nat (S n)))) eqn:Hsel.
    - destruct (send_sig_run e sig (Z.of_nat (S n)) priv s He) as (s1 & Hrun & Hs1 & Hj1).
      exists s1. eexists. rewrite (bind_ok _ _ _ _ _ Hrun). split; [done|]. split; [done|].
      split; [by eapply runs_as_sent|]. split; [|done]. intros j. rewrite Hj1. case_decide as E; [|done]. subst j.
      unfold sent. by rewrite Hsel.
    - exists s, r. split; [done|]. split; [apply same_but_tasks_refl|]. split; [done|]. split; [|done].
      intros j. case_decide as E; [subst j|done]. unfold sent. by rewrite Hsel. }
  rewrite (bind_ok _ _ _ _ _ Hrun). destruct (IH s1 r1 He1) as (s' & r' & Hrun' & Hs' & Hj' & Hr').
  assert (forall i, i <> Z.of_nat (S n) -> slot_err e sig priv select s1 i = slot_err e sig priv select s i) as Herr.
  { intros i Hi. unfold slot_err. by rewrite Hj1, decide_False. }
  exists s', r'. split; [done|]. split; [by eapply same_but_tasks_trans|]. split.
  { intros j. rewrite Hj', Hj1. repeat case_decide; try lia; done. }
  destruct Hr' as [[-> Hz]|(i & Hi & Hne & -> & Hz)].
  - rewrite Hr1. unfold istrue. destruct (Z.eqb_spec (slot_err e sig priv select s (Z.of_nat (S n))) 0) as [E|E]; cbn [negb].
    + left. split; [done|]. intros i Hi. destruct (decide (i = Z.of_nat (S n))) as [->|]; [done|].
      rewrite <- Herr by done. apply Hz. lia.
    + right. exists (Z.of_nat (S n)). split; [lia|]. split; [done|]. split; [done|]. intros j Hj.
      rewrite <- Herr by lia. apply Hz. lia.
  - right. exists i. split; [lia|]. rewrite Herr in * by lia. split; [done|]. split; [done|]. intros j Hj.
    rewrite <- Herr by lia. apply Hz. lia.
Qed.

(** ** The call *)

(** The tasks a call asks for, and whether permission is asked for. *)
Definition kill_select (n : Z) (c : task_struct) (o : option task_struct) : bool :=
  if n =? 0 then task_with (fun t => pgrp t =? pid c) o
  else if 0 <? n then task_with (fun t => pid t =? n) o
  else if n =? -1 then true
  else task_with (fun t => pgrp t =? - n) o.

(** C23: [sys_kill] always returns.  Exactly the selected tasks of the slots 1
    to 63 that the sender may signal (it has their effective user, is the
    superuser, or called with pid 0) get the signal added to their set; slot 0
    and everything else is unchanged.  The result is 0 when every selected
    slot accepted it, otherwise the error of the lowest one that did not; an
    empty slot, which only -1 selects, counts as one that did not. *)
Theorem sys_kill_spec s c n sig :
  current_task s = Some c ->
  exists s' r, sys_kill n sig s = Ok r s' /\ same_but_tasks s s' /\
    (forall j, task_at s' j =
      if decide (1 <= j < NR_TASKS) then sent (euid c) sig (n =? 0) (kill_select n c) (task_at s j) else task_at s j) /\
    kill_ret (slot_err (euid c) sig (n =? 0) (kill_select n c) s) (NR_TASKS - 1) 0 r.
Proof.
  intros Hc. unfold sys_kill. rewrite (bind_ok _ _ _ _ _ (get_current_ok _ _ Hc)). cbv zeta.
  pose proof (fun select priv => kill_loop_run (Z.to_nat (NR_TASKS - 1)) (euid c) sig priv select s 0
    (ex_intro _ c (conj Hc eq_refl))) as H.
  assert (forall select : option task_struct -> bool, select = kill_select n c ->
    exists s' r, kill_loop (Z.to_nat (NR_TASKS - 1)) select sig (n =? 0) 0 s = Ok r s' /\ same_but_tasks s s' /\
    (forall j, task_at s' j =
      if decide (1 <= j < NR_TASKS) then sent (euid c) sig (n =? 0) select (task_at s j) else task_at s j) /\
    kill_ret (slot_err (euid c) sig (n =? 0) select s) (NR_TASKS - 1) 0 r) as Hgen.
  { intros select _. destruct (H select (n =? 0)) as (s' & r & H1 & H2 & H3 & H4). exists s', r.
    split; [done|]. split; [done|]. split; [|done]. intros j. rewrite H3. unfold NR_TASKS.
    destruct (decide (1 <= j <= Z.of_nat (Z.to_nat (64 - 1)))), (decide (1 <= j < 64)); lia || done. }
  unfold kill_select in *.
  destruct (Z.eqb_spec n 0); [by apply Hgen|]. destruct (0 <? n) eqn:?; [by apply Hgen|].
  destruct (n =? -1); by apply Hgen.
Qed.

(** A task of the example sends SIGHUP with pid 0. *)
Lemma sys_kill_spec_witness :
  exists s r, sys_kill 0 SIGHUP (sch three_tasks) = Ok r s /\ same_but_tasks (sch three_tasks) s.
Proof.
  destruct (current_task (sch three_tasks)) as [c|] eqn:Hc; [|vm_compute in Hc; discriminate].
  destruct (sys_kill_spec (sch three_tasks) c 0 SIGHUP Hc) as (s & r & H1 & H2 & _).
  exists s, r. split; [exact H1|exact H2].
Defined.

(** ** Process numbers and slots: [find_empty_process]

    The numbers go round from 1 to 2^31-1; the search for one that no task has
    ends before it has gone round. *)

(** ** The order of the numbers *)

Definition PIDS : Z := 2147483647.

Lemma next_pid_spec n : 0 <= n <= PIDS -> next_pid n = n mod PIDS + 1.
Proof.
  unfold next_pid, PIDS. intros Hn. destruct (decide (n = 2147483647)) as [->|Hne]; [done|].
  rewrite Z.mod_small by lia. unfold s32. rewrite Z.mod_small by lia.
  rewrite (proj2 (Z.ltb_ge _ _)) by lia. lia.
Qed.

Lemma iter_next_pid k n :
  0 <= n <= PIDS -> Nat.iter (Datatypes.S k) next_pid n = (n + Z.of_nat k) mod PIDS + 1.
Proof.
  intros Hn. induction k as [|k IH].
  - cbn [Nat.iter nat_rect]. rewrite next_pid_spec by done. by rewrite Z.add_0_r.
  - change (Nat.iter (S (S k)) next_pid n) with (next_pid (Nat.iter (S k) next_pid n)).
    rewrite IH. pose proof (Z.mod_pos_bound (n + Z.of_nat k) PIDS ltac:(done)).
    rewrite next_pid_spec by lia. f_equal. rewrite Z.add_mod_idemp_l by done. f_equal. lia.
Qed.

Lemma iter_next_pid_inj n i j :
  0 <= n <= PIDS -> Z.of_nat i < PIDS -> Z.of_nat j < PIDS ->
  Nat.iter (Datatypes.S i) next_pid n = Nat.iter (Datatypes.S j) next_pid n -> i = j.
Proof.
  intros Hn Hi Hj. rewrite !iter_next_pid by done. unfold PIDS in *. intros H. dmlia.
Qed.

(** ** The numbers in use *)

Definition pids (l : list (option task_struct)) : list Z := omap (fmap pid) l.

Lemma pid_used_spec l n : pid_used l n = true <-> n ∈ pids l.
Proof.
  unfold pid_used, pids. rewrite existsb_exists, list_elem_of_omap. split.
  - intros ([t|] & Hin & Ht); [|done]. apply Z.eqb_eq in Ht. exists (Some t).
    rewrite list_elem_of_In. cbn. by rewrite Ht.
  - intros ([t|] & Hin & [= <-]). exists (Some t). rewrite <- list_elem_of_In. cbn. by rewrite Z.eqb_refl.
Qed.

Lemma pids_length l : (length (pids l) <= length l)%nat.
Proof. induction l as [|[t|] l IH]; cbn; unfold pids in *; cbn in *; lia. Qed.

(** Not every one of the next numbers is in use. *)
Lemma some_pid_free l n :
  0 <= n <= PIDS -> Z.of_nat (length l) < PIDS ->
  exists k, (k <= length l)%nat /\ pid_used l (Nat.iter (Datatypes.S k) next_pid n) = false.
Proof.
  intros Hn Hl. destruct (decide (Exists (fun k => pid_used l (Nat.iter (S k) next_pid n) = false) (seq 0 (S (length l)))))
    as [He|He].
  - apply Exists_exists in He as (k & Hk & Hf). apply elem_of_seq in Hk. exists k. split; [lia|done].
  - exfalso. pose (f := fun k : nat => Nat.iter (Datatypes.S k) next_pid n).
    assert (length (f <$> seq 0 (S (length l))) <= length (pids l))%nat as Hlen.
    { apply submseteq_length, NoDup_submseteq.
      - apply NoDup_fmap_2_strong; [|apply NoDup_seq]. intros i j Hi Hj. apply elem_of_seq in Hi, Hj.
        apply iter_next_pid_inj; [done| |]; lia.
      - intros x (k & -> & Hk)%list_elem_of_fmap. apply pid_used_spec.
        destruct (pid_used l (f k)) eqn:E; [done|]. destruct He. apply Exists_exists. eauto. }
    rewrite length_fmap, length_seq in Hlen. pose proof (pids_length l). lia.
Qed.

(** The search stops at the first free number. *)
Lemma fresh_pid_spec k l n :
  pid_used l (Nat.iter (Datatypes.S k) next_pid n) = false ->
  exists j, (j <= k)%nat /\ fresh_pid (Datatypes.S k) l n = Some (Nat.iter (Datatypes.S j) next_pid n) /\
    pid_used l (Nat.iter (Datatypes.S j) next_pid n) = false /\
    forall i, (i < j)%nat -> pid_used l (Nat.iter (Datatypes.S i) next_pid n) = true.
Proof.
  revert n. induction k as [|k IH]; intros n Hk.
  - exists 0%nat. cbn in *. rewrite Hk. split; [lia|]. split; [done|]. split; [done|lia].
  - change (fresh_pid (S (S k)) l n) with
      (if pid_used l (next_pid n) then fresh_pid (S k) l (next_pid n) else Some (next_pid n)).
    destruct (pid_used l (next_pid n)) eqn:E.
    + destruct (IH (next_pid n)) as (j & Hj & Hr & Hf & Hu).
      { rewrite <- Nat.iter_succ_r. exact Hk. }
      exists (S j). rewrite Hr, (Nat.iter_succ_r (S j)). split; [lia|]. split; [done|].
      split; [done|]. intros [|i] Hi; [exact E|]. rewrite (Nat.iter_succ_r (S i)). apply Hu. lia.
    + exists 0%nat. split; [lia|]. split; [done|]. split; [exact E|lia].
Qed.

Lemma fresh_pid_mono a b l n x : (a <= b)%nat -> fresh_pid a l n = Some x -> fresh_pid b l n = Some x.
Proof.
  revert b n. induction a as [|a IH]; intros b n Hab; [done|]. destruct b as [|b]; [lia|].
  cbn [fresh_pid]. destruct (pid_used l (next_pid n)); [apply IH; lia|done].
Qed.

(** ** The slot *)

Lemma empty_slot_spec l i :
  match empty_slot l i with
  | Some k => i <= k /\ getz l (k - i) = Some None /\ forall j, i <= j < k -> exists t, getz l (j - i) = Some (Some t)
  | None => forall j x, getz l j = Some x -> exists t, x = Some t
  end.
Proof.
  revert i. induction l as [|[t|] l IH]; intros i; cbn [empty_slot].
  - intros j x. unfold getz. by destruct (j <? 0).
  - assert (forall j, 0 < j -> getz (Some t :: l) j = getz l (j - 1)) as Hc.
    { intros j Hj. unfold getz. rewrite !(proj2 (Z.ltb_ge _ _)) by lia.
      by replace (Z.to_nat j) with (S (Z.to_nat (j - 1))) by lia. }
    specialize (IH (i + 1)). destruct (empty_slot l (i + 1)) as [k|].
    + destruct IH as (H1 & H2 & H3). split; [lia|]. split.
      * rewrite Hc by lia. rewrite <- H2. f_equal. lia.
      * intros j Hj. destruct (decide (j = i)) as [->|]; [exists t; by rewrite Z.sub_diag|].
        destruct (H3 j) as [t' Ht']; [lia|]. exists t'. rewrite Hc by lia. rewrite <- Ht'. f_equal. lia.
    + intros j x Hx. pose proof (getz_Some_lt _ _ _ Hx). destruct (decide (j = 0)) as [->|].
      * injection Hx as <-. eauto.
      * rewrite Hc in Hx by lia. by apply (IH (j - 1)).
  - rewrite Z.sub_diag. split; [lia|]. split; [done|lia].
Qed.

(** C28: [find_empty_process] always returns.  The new [last_pid] is the first
    number after the old one, in the order from 1 to 2^31-1 and back, that no
    task has; the result is the first empty slot from slot 1 on, or [-EAGAIN]
    when there is none; nothing else changes. *)
Theorem find_empty_process_spec s :
  0 <= last_pid s <= PIDS -> Z.of_nat (length (task s)) < PIDS ->
  exists j r n, n = Nat.iter (Datatypes.S j) next_pid (last_pid s) /\
    find_empty_process s = Ok r (s <| last_pid := n |>) /\
    1 <= n <= PIDS /\ pid_used (task s) n = false /\
    (forall i, (i < j)%nat -> pid_used (task s) (Nat.iter (Datatypes.S i) next_pid (last_pid s)) = true) /\
    ((r = - EAGAIN /\ forall i, 1 <= i -> getz (task s) i <> Some None) \/
     (1 <= r /\ task_at s r = None /\ getz (task s) r = Some None /\
      forall i, 1 <= i < r -> exists t, task_at s i = Some t)).
Proof.
  intros Hn Hl. destruct (some_pid_free (task s) (last_pid s) Hn Hl) as (k & Hk & Hfree).
  destruct (fresh_pid_spec _ _ _ Hfree) as (j & Hj & Hr & Hf & Hu).
  exists j, (default (- EAGAIN) (empty_slot (drop 1 (task s)) 1)), (Nat.iter (S j) next_pid (last_pid s)).
  split; [done|].
  assert (forall i, 1 <= i -> getz (drop 1 (task s)) (i - 1) = getz (task s) i) as Hdrop.
  { intros i Hi. unfold getz. rewrite !(proj2 (Z.ltb_ge _ _)) by lia. rewrite lookup_drop. f_equal. lia. }
  split.
  { unfold find_empty_process, bind, gets, ret, modify. erewrite fresh_pid_mono; [reflexivity| |exact Hr]. lia. }
  split.
  { rewrite iter_next_pid by done.
    pose proof (Z.mod_pos_bound (last_pid s + Z.of_nat j) PIDS ltac:(done)). lia. }
  split; [done|]. split; [done|].
  pose proof (empty_slot_spec (drop 1 (task s)) 1) as He. destruct (empty_slot (drop 1 (task s)) 1) as [r|]; cbn.
  - right. destruct He as (H1 & H2 & H3). rewrite Hdrop in H2 by lia. split; [done|].
    unfold task_at. rewrite H2. split; [done|]. split; [done|]. intros i Hi.
    destruct (H3 i Hi) as [t Ht]. rewrite Hdrop in Ht by lia. rewrite Ht. by exists t.
  - left. split; [done|]. intros i Hi Hc. rewrite <- Hdrop in Hc by done. by destruct (He _ _ Hc).
Qed.

(** The tasks of the example have the numbers 0 to 3 and the slots 0 to 3;
    after number 1, numbers 2 and 3 are in use. *)
Definition after_one : sched := (sch three_tasks) <| last_pid := 1 |>.
Lemma find_empty_process_spec_witness :
  pid_used (task after_one) 2 = true /\ exists n r, find_empty_process after_one = Ok r (after_one <| last_pid := n |>) /\
    pid_used (task after_one) n = false.
Proof.
  split; [reflexivity|].
  destruct (find_empty_process_spec after_one) as (j & r & n & _ & H1 & _ & H2 & _);
    [split; discriminate|reflexivity|eauto].
Defined.
