(* ===== verification/CallTypes.v ===== *)
(** * Every call leaves the tasks well typed

    The fields of a task that system calls change, at their widths in
    include/linux/sched.h. *)

From Stdlib Require Import ZArith Lia.
From stdpp Require Import base numbers list gmap strings.
From S2P Require Import Prelude Memory Task Sched WaitQueue Kernel Blk Sys Signal Exit TaskProofs.
From S2P Require Import SysCalls.

Record sigaction_typed (a : sigaction_t) : Prop := {
  sa_words : Forall is_u32 [sa_handler a; sa_mask a; sa_flags a; sa_restorer a]
}.

Record typed (t : task_struct) : Prop := {
  ty_long : Forall is_s32 [priority t; pid t; father t; pgrp t; session t; leader t; alarm t; tty t];
  ty_short : Forall is_u16 [uid t; euid t; gid t; egid t; sgid t; umask t];
  ty_word : Forall is_u32 [signal t; blocked t; brk t];
  ty_actions : length (sigaction t) = 32%nat /\ Forall sigaction_typed (sigaction t)
}.

(** There is a current task, and every task is well typed. *)
Record sched_ok (s : sched) : Prop := {
  so_current : is_Some (current_task s);
  so_typed : forall i t, task_at s i = Some t -> typed t;
  so_jiffies : is_s32 (jiffies s)
}.

(** What a call must do: return a [long], and keep the types. *)
Definition returns (m : M sched Z) : Prop := forall s, sched_ok s -> wp m (fun r s' => is_s32 r /\ sched_ok s') s.

(** ** The steps of a call *)

Lemma wp_current s (Q : task_struct -> sched -> Prop) :
  sched_ok s -> (forall t, current_task s = Some t -> typed t -> Q t s) -> wp get_current Q s.
Proof.
  intros Hs HQ. destruct (so_current _ Hs) as [t Ht]. eapply wp_get_current; [done|].
  apply HQ; [done|]. by eapply so_typed.
Qed.

Lemma wp_update s i t f (Q : unit -> sched -> Prop) :
  sched_ok s -> task_at s i = Some t -> typed (f t) -> (forall s', sched_ok s' -> Q tt s') -> wp (update_task i f) Q s.
Proof.
  intros Hs Ht Hf HQ. unfold wp. rewrite (update_task_ok _ _ _ _ Ht). apply HQ.
  assert (task_at s i <> None) as Hi by (by rewrite Ht). split.
  - unfold current_task. upd. change (current (s <| task ::= _ |>)) with (current s). rewrite task_at_update by done.
    case_decide; [by eexists|apply Hs].
  - intros j u. rewrite task_at_update by done. case_decide; [by intros [= <-]|apply Hs].
  - apply Hs.
Qed.

Lemma wp_update_cur s f (Q : unit -> sched -> Prop) :
  sched_ok s -> (forall t, typed t -> typed (f t)) -> (forall s', sched_ok s' -> Q tt s') -> wp (update_current f) Q s.
Proof.
  intros Hs Hf HQ. destruct (so_current _ Hs) as [t Ht]. unfold update_current. wp_step. wp_step. cbv beta.
  eapply wp_update; [done|exact Ht|apply Hf; by eapply so_typed|done].
Qed.

(** Types of the values that are stored. *)
Lemma u16_typed x : is_u16 (u16 x).
Proof. apply u16_range. Qed.
Lemma word_ones x : is_u32 x <-> Z.land x (Z.ones 32) = x.
Proof.
  rewrite Z.land_ones by lia. change (2 ^ 32) with 4294967296. unfold is_u32. split; [intros; by apply Z.mod_small|].
  intros <-. by apply Z.mod_pos_bound.
Qed.
Lemma land_typed x m : is_u32 m -> is_u32 (Z.land x m).
Proof. rewrite !word_ones. intros H. by rewrite <- Z.land_assoc, H. Qed.
Lemma lor_typed x y : is_u32 x -> is_u32 y -> is_u32 (Z.lor x y).
Proof. rewrite !word_ones. intros Hx Hy. by rewrite Z.land_lor_distr_l, Hx, Hy. Qed.
Lemma short_long x : is_u16 x -> is_s32 x.
Proof. unfold is_u16, is_s32. lia. Qed.

(** A task whose fields are changed to values of their types. *)
Ltac typed_fields H :=
  split; upd; try apply H; repeat apply Forall_cons_2; try apply Forall_nil_2;
  try solve [apply u16_typed|apply s32_range|apply u32_range|
    repeat match goal with H' : typed _ |- _ => destruct H' end; decompose_Forall_hyps; done].

(** ** The calls *)

Lemma returns_error : returns not_implemented.
Proof. intros s Hs. split; [done|done]. Qed.

(** A call that only reads a field. *)
Lemma returns_field f : (forall t, typed t -> is_s32 (f t)) -> returns (let! t := get_current in ret (f t)).
Proof. intros Hf s Hs. wp_step. apply wp_current; [done|]. intros t _ Ht. split; [by apply Hf|done]. Qed.

(** Follows a call on every path. *)
Ltac call_step :=
  first
  [ wp_step; cbv beta
  | apply wp_current; [assumption|]; intros
  | apply wp_update_cur; [assumption|intros|intros]
  | match goal with |- wp (if ?b then _ else _) _ _ => destruct b eqn:? end
  | match goal with |- wp (when ?b _) _ _ => destruct b eqn:?; cbn [when] end ].
Ltac call_steps := repeat call_step; cbv beta.
Ltac field_of H := destruct H; decompose_Forall_hyps; done.

Ltac typed_goal := match goal with H : typed ?t |- typed ?g => match g with context [t] => typed_fields H end end.
Ltac result := split; [|assumption].

Lemma quot_long x : is_s32 x -> is_s32 (x ÷ HZ).
Proof. unfold is_s32, HZ. intros H. Z.to_euclidean_division_equations. lia. Qed.

Lemma returns_nice n : returns (sys_nice n).
Proof. intros s Hs. unfold sys_nice. call_steps; [typed_goal|done..]. Qed.

Lemma returns_alarm n : returns (sys_alarm n).
Proof.
  intros s Hs. unfold sys_alarm. call_steps.
  - typed_goal. destruct (0 <? n); [apply s32_range|done].
  - result. destruct (istrue _); [apply quot_long, s32_range|field_of H0].
Qed.

Lemma returns_umask n : returns (sys_umask n).
Proof.
  intros s Hs. unfold sys_umask. call_steps.
  - typed_goal. change 0x1ff with (Z.ones 9). rewrite Z.land_ones by lia.
    pose proof (Z.mod_pos_bound n (2 ^ 9) ltac:(lia)). unfold is_u16. lia.
  - result. apply short_long. field_of H0.
Qed.

Lemma returns_brk a : is_u32 a -> returns (sys_brk a).
Proof.
  intros Ha s Hs. unfold sys_brk. call_steps; [typed_goal|result; apply s32_range..].
Qed.

Lemma returns_setregid a b : returns (sys_setregid a b).
Proof. intros s Hs. unfold sys_setregid. call_steps; try typed_goal; by result. Qed.

Lemma returns_setreuid a b : returns (sys_setreuid a b).
Proof.
  intros s Hs. unfold sys_setreuid. call_steps; try typed_goal; try by result.
Qed.

Lemma returns_setsid : returns sys_setsid.
Proof.
  intros s Hs. unfold sys_setsid. call_steps; try typed_goal; result; [done|field_of H0].
Qed.

Lemma find_pid_spec l i n j p : find_pid l i n = Some (j, p) -> getz l (j - i) = Some (Some p) /\ pid p = n.
Proof.
  revert i. induction l as [|o l IH]; intros i; [done|]. cbn [find_pid].
  assert (forall j, getz l (j - (i + 1)) = Some (Some p) -> getz (o :: l) (j - i) = Some (Some p)) as Hcons.
  { intros k Hk. pose proof (getz_Some_lt _ _ _ Hk). unfold getz in *. revert Hk.
    rewrite !(proj2 (Z.ltb_ge _ 0)) by lia. by replace (Z.to_nat (k - i)) with (S (Z.to_nat (k - (i + 1)))) by lia. }
  destruct o as [t|]; [destruct (Z.eqb_spec (pid t) n) as [Hn|]; [intros [= <- <-]; by rewrite Z.sub_diag|]|];
    intros Hf; apply IH in Hf as [H1 H2]; eauto.
Qed.

Lemma returns_setpgid a b : is_s32 b -> returns (sys_setpgid a b).
Proof.
  intros Hb s Hs. unfold sys_setpgid. call_step. call_step. call_step. call_step. cbv beta zeta.
  destruct (find_pid _ 0 _) as [[i p]|] eqn:Hf; [|by result].
  apply find_pid_spec in Hf as [Hi _]. rewrite Z.sub_0_r in Hi.
  assert (task_at s i = Some p) as Hp by (unfold task_at; by rewrite Hi).
  pose proof (so_typed _ Hs _ _ Hp).
  destruct (istrue (leader p)); [by result|]. destruct (negb _); [by result|]. call_step.
  eapply wp_update; [done|exact Hp| |intros; by result].
  typed_goal. destruct (istrue b); [done|field_of H0].
Qed.

Lemma returns_ssetmask m : returns (sys_ssetmask m).
Proof.
  intros s Hs. unfold sys_ssetmask. call_steps.
  - typed_goal. apply land_typed, u32_range.
  - result. apply s32_range.
Qed.

Lemma wp_action s n (Q : sigaction_t -> sched -> Prop) :
  sched_ok s -> 1 <= n <= 32 -> (forall a, sigaction_typed a -> Q a s) -> wp (action_of n) Q s.
Proof.
  intros Hs Hn HQ. unfold action_of. call_step. call_step. destruct (ty_actions t H0) as [Hl Ha].
  destruct (getz_is_Some (sigaction t) (n - 1)) as [a Ea]; [unfold lenz; lia|]. rewrite Ea.
  apply HQ. by eapply getz_Forall.
Qed.

Lemma typed_action t n a : typed t -> sigaction_typed a -> typed (t <| sigaction ::= fun l => setz l n a |>).
Proof.
  intros Ht Ha. destruct (ty_actions t Ht) as [Hl Hf]. split; upd; try apply Ht.
  split; [|by apply setz_Forall]. pose proof (lenz_setz (sigaction t) n a) as E. unfold lenz in E. lia.
Qed.

Lemma returns_signal n h r : returns (sys_signal n h r).
Proof.
  intros s Hs. unfold sys_signal. destruct (bad_signal n) eqn:Hb; [by result|].
  assert (1 <= n <= 32) as Hn by (unfold bad_signal in Hb; breflect; lia).
  call_step. apply wp_action; [done|done|]. intros old Hold. call_step. unfold set_action at 1. call_step.
  apply wp_action; [done|done|]. intros a Ha. apply wp_update_cur; [done| |].
  - intros t Ht. apply typed_action; [done|]. split. repeat apply Forall_cons_2; try apply Forall_nil_2; try apply u32_range; done.
  - intros s' Hs'. result. apply s32_range.
Qed.

Lemma sigbit_typed n : is_u32 (sigbit n).
Proof. apply u32_range. Qed.

Lemma send_sig_ok sig p priv s : sched_ok s -> wp (send_sig sig p priv) (fun r s' => is_s32 r /\ sched_ok s') s.
Proof.
  intros Hs. unfold send_sig. call_step. call_step. cbv beta. destruct (task_at s p) as [t|] eqn:Ht; [|by result].
  destruct (_ || _); [by result|]. call_step. call_step. call_step. call_step. call_step.
  - pose proof (so_typed _ Hs _ _ Ht). call_step. eapply wp_update; [done|exact Ht| |intros; by result].
    typed_goal. apply lor_typed; [field_of H1|apply sigbit_typed].
  - by result.
Qed.

Lemma kill_loop_ok n select sig priv v s :
  is_s32 v -> sched_ok s -> wp (kill_loop n select sig priv v) (fun r s' => is_s32 r /\ sched_ok s') s.
Proof.
  revert v s. induction n as [|n IH]; intros v s Hv Hs; [by result|]. cbn [kill_loop]. call_step. call_step. call_step.
  destruct (select _).
  - call_step. eapply wp_mono; [by apply send_sig_ok|]. intros e s' [He Hs']. call_step. apply IH; [by destruct (istrue e)|done].
  - call_step. by apply IH.
Qed.

Lemma returns_kill n sig : returns (sys_kill n sig).
Proof.
  intros s Hs. unfold sys_kill. call_step. call_step.
  destruct (n =? 0); [by apply kill_loop_ok|]. destruct (0 <? n); [by apply kill_loop_ok|].
  destruct (n =? -1); by apply kill_loop_ok.
Qed.

(** ** The table *)

Definition entry_ok (e : entry) : Prop :=
  match e with InSched f => forall a b c, returns (f a b c) | _ => True end.

Lemma sys_call_table_ok `{Env} : Forall entry_ok sys_call_table.
Proof.
  unfold sys_call_table. repeat apply Forall_cons_2; try exact I; try apply Forall_nil_2.
  all: intros a b c; cbv beta; lazymatch goal with
  | |- returns (sys_nice _) => apply returns_nice
  | |- returns (sys_alarm _) => apply returns_alarm
  | |- returns (sys_umask _) => apply returns_umask
  | |- returns (sys_brk _) => apply returns_brk, u32_range
  | |- returns (sys_setregid _ _) => apply returns_setregid
  | |- returns (sys_setgid _) => apply returns_setregid
  | |- returns (sys_setreuid _ _) => apply returns_setreuid
  | |- returns (sys_setuid _) => apply returns_setreuid
  | |- returns sys_setsid => apply returns_setsid
  | |- returns (sys_setpgid _ _) => apply returns_setpgid, s32_range
  | |- returns (sys_ssetmask _) => apply returns_ssetmask
  | |- returns (sys_signal _ _ _) => apply returns_signal
  | |- returns (sys_kill _ _) => apply returns_kill
  | |- returns (sys_sgetmask) => apply (returns_field (fun t => s32 (blocked t))); intros; apply s32_range
  | |- returns ?m => first [change m with not_implemented; apply returns_error
      |unfold m; apply returns_field; intros t Ht; first [field_of Ht|apply short_long; field_of Ht]]
  end.
Qed.


Lemma sched_ok_intro s :
  is_Some (current_task s) -> Forall (fun o => match o with Some t => typed t | None => True end) (task s) ->
  is_s32 (jiffies s) -> sched_ok s.
Proof.
  intros Hc Ht Hj. split; [done| |done]. intros i t Hi. unfold task_at in Hi.
  destruct (getz (task s) i) as [[u|]|] eqn:E; [|done..]. injection Hi as ->.
  exact (getz_Forall _ _ _ _ Ht E).
Qed.

