(* ===== verification/FileCounts.v ===== *)
(** * Counts of open files

    [f_count] of a file is the number of descriptors, of all tasks, that refer
    to it.  [dupfd] and [sys_close] keep it so. *)

From Stdlib Require Import ZArith Lia.
From stdpp Require Import base numbers list gmap strings.
From S2P Require Import Prelude Memory Task Sched WaitQueue TaskProofs TtyData Kernel Inode CharDev.
From S2P Require Import Pipe Files.

(** ** Counting *)

Definition fd_refs (f : Z) (l : list (option Z)) : Z :=
  Z.of_nat (length (filter (fun x => x = Some f) l)).
Definition task_refs (f : Z) (o : option task_struct) : Z := match o with Some t => fd_refs f (filp t) | None => 0 end.
Definition refs (l : list (option task_struct)) (f : Z) : Z := foldr Z.add 0 (task_refs f <$> l).

Definition one (b : bool) : Z := if b then 1 else 0.

Lemma fd_refs_setz l fd x y f :
  getz l fd = Some x ->
  fd_refs f (setz l fd y) = fd_refs f l - one (bool_decide (x = Some f)) + one (bool_decide (y = Some f)).
Proof.
  unfold getz, setz, fd_refs. destruct (fd <? 0); [done|]. generalize (Z.to_nat fd). clear fd. intros n.
  revert n. induction l as [|z l IH]; intros [|n] Hx; try done.
  - injection Hx as ->. cbn [list_insert insert]. rewrite !filter_cons. unfold one.
    repeat case_bool_decide; repeat case_decide; cbn [length]; try lia; done.
  - cbn [list_insert insert]. rewrite !filter_cons. specialize (IH n Hx).
    destruct (decide (z = Some f)); cbn [length]; rewrite ?Nat2Z.inj_succ; [|exact IH]. etransitivity; [apply f_equal, IH|lia].
Qed.

Lemma fd_refs_nonneg f l : 0 <= fd_refs f l <= lenz l.
Proof. unfold fd_refs, lenz. pose proof (length_filter (fun x => x = Some f) l). lia. Qed.

Lemma refs_setz l i o o' f :
  getz l i = Some o -> refs (setz l i o') f = refs l f - task_refs f o + task_refs f o'.
Proof.
  unfold getz, setz, refs. destruct (i <? 0); [done|]. generalize (Z.to_nat i). clear i. intros n.
  revert n. induction l as [|z l IH]; intros [|n] Hx; try done.
  - injection Hx as ->. cbn. lia.
  - specialize (IH n Hx). cbn. etransitivity; [apply f_equal; exact IH|cbn; lia].
Qed.

Lemma refs_bound l f k :
  0 <= k -> (forall t, Some t ∈ l -> lenz (filp t) <= k) -> 0 <= refs l f <= k * lenz l.
Proof.
  intros Hk. unfold refs. induction l as [|o l IH]; intros H; [change (0 <= 0 <= k * 0); lia|]. rewrite lenz_cons.
  change (0 <= task_refs f o + foldr Z.add 0 (task_refs f <$> l) <= k * (1 + lenz l)).
  assert (0 <= task_refs f o <= k).
  { destruct o as [t|]; cbn [task_refs]; [|lia]. pose proof (fd_refs_nonneg f (filp t)). specialize (H t ltac:(left)). lia. }
  assert (forall t, Some t ∈ l -> lenz (filp t) <= k) as Hl by (intros t Ht; apply H; by right).
  specialize (IH Hl). lia.
Qed.

(** A referenced file has a positive count. *)
Lemma refs_pos l i t fd f :
  getz l i = Some (Some t) -> getz (filp t) fd = Some (Some f) -> 1 <= refs l f.
Proof.
  intros Hi Hfd. pose proof (refs_setz l i (Some t) None f Hi) as E. cbn [task_refs] in E.
  pose proof (fd_refs_setz (filp t) fd (Some f) None f Hfd) as E'. unfold one in E'. case_bool_decide; [|done].
  rewrite bool_decide_false in E' by done. pose proof (fd_refs_nonneg f (setz (filp t) fd None)).
  enough (0 <= refs (setz l i None) f) by lia. unfold refs. clear. induction (setz l i None) as [|o l' IH]; [done|].
  cbn. enough (0 <= task_refs f o) by lia. destruct o; cbn; [apply fd_refs_nonneg|lia].
Qed.

(** ** The invariant *)

Record files_ok (s : kernel) : Prop := {
  fo_tasks : lenz (task (sch s)) <= NR_TASKS;
  fo_filp : forall i t, task_at (sch s) i = Some t -> lenz (filp t) = NR_OPEN;
  fo_valid : forall i t fd f, task_at (sch s) i = Some t -> getz (filp t) fd = Some (Some f) -> 0 <= f < lenz (file_table s);
  fo_count : forall f x, getz (file_table s) f = Some x -> f_count x = refs (task (sch s)) f
}.

Lemma task_at_Some s i t : task_at s i = Some t <-> getz (task s) i = Some (Some t).
Proof. unfold task_at. destruct (getz (task s) i) as [[]|]; cbn; naive_solver. Qed.

Lemma refs_small s f : files_ok s -> 0 <= refs (task (sch s)) f <= 1280.
Proof.
  intros H. pose proof (fo_tasks _ H). unfold NR_TASKS in *.
  enough (0 <= refs (task (sch s)) f <= NR_OPEN * lenz (task (sch s))) by (unfold NR_OPEN in *; lia).
  apply refs_bound; [done|]. intros t (i & Hi)%list_elem_of_lookup. rewrite (fo_filp _ H (Z.of_nat i) t); [done|].
  apply task_at_Some. unfold getz. rewrite (proj2 (Z.ltb_ge _ _)) by lia. by rewrite Nat2Z.id.
Qed.

(** The current task's descriptor [fd] becomes [y], and the count of file [f]
    changes with it. *)
Definition redirect (s : kernel) (t : task_struct) (fd : Z) (y : option Z) (f : Z) (x : file) (d : Z) : kernel :=
  s <| sch ::= with_current (t <| close_on_exec ::= fun b => Z.ldiff b (Z.shiftl 1 fd) |> <| filp ::= fun l => setz l fd y |>) |>
    <| file_table ::= fun l => setz l f (x <| f_count ::= fun c => u16 (c + d) |>) |>.

Lemma redirect_files_ok s t fd x y z f d :
  files_ok s -> current_task (sch s) = Some t -> getz (filp t) fd = Some z -> getz (file_table s) f = Some x ->
  (y = None \/ y = Some f) -> (z = None \/ z = Some f) -> d = one (bool_decide (y = Some f)) - one (bool_decide (z = Some f)) ->
  files_ok (redirect s t fd y f x d).
Proof.
  intros H Ht Hz Hx Hy Hz' Hd. pose proof Ht as Hi. apply task_at_Some in Hi.
  set (t' := t <| close_on_exec ::= fun b => Z.ldiff b (Z.shiftl 1 fd) |> <| filp ::= fun l => setz l fd y |>).
  assert (filp t' = setz (filp t) fd y) as Et' by (unfold t'; by upd).
  assert (forall i u, task_at (with_current t' (sch s)) i = Some u -> u = t' \/ task_at (sch s) i = Some u) as Hcase.
  { intros i u. unfold with_current. rewrite task_at_update by (unfold current_task in Ht; by rewrite Ht).
    destruct (decide (i = current (sch s))); intros Hu; [left; congruence|by right]. }
  assert (file_table (redirect s t fd y f x d) = setz (file_table s) f (x <| f_count ::= fun c => u16 (c + d) |>)) as Ef by done.
  assert (sch (redirect s t fd y f x d) = with_current t' (sch s)) as Es by done.
  assert (task (with_current t' (sch s)) = setz (task (sch s)) (current (sch s)) (Some t')) as El by done.
  split.
  - rewrite Es, El, lenz_setz. apply H.
  - intros i u. rewrite Es. intros [->|Hu]%Hcase; [|by eapply fo_filp].
    rewrite Et', lenz_setz. by eapply fo_filp.
  - intros i u k g. rewrite Es, Ef, lenz_setz. intros [->|Hu]%Hcase Hg; [|by eapply fo_valid].
    rewrite Et' in Hg. destruct (decide (k = fd)) as [->|Hne].
    + rewrite getz_setz_eq in Hg by (by eapply getz_Some_lt). destruct Hy as [->| ->]; [done|]. injection Hg as <-.
      by eapply getz_Some_lt.
    + rewrite getz_setz_ne in Hg by done. by eapply fo_valid.
  - intros g w. rewrite Es, Ef, El. rewrite (refs_setz _ _ (Some t)) by done. cbn [task_refs]. rewrite Et'.
    rewrite (fd_refs_setz _ _ z) by done. intros Hw. pose proof (refs_small s g H) as Hsmall.
    destruct (decide (g = f)) as [->|Hne].
    + rewrite getz_setz_eq in Hw by (by eapply getz_Some_lt). injection Hw as <-. upd.
      rewrite (fo_count _ H f x Hx). rewrite u16_id; [lia|].
      assert (z = Some f -> 1 <= refs (task (sch s)) f) by (intros ->; by eapply refs_pos).
      unfold is_u16. rewrite Hd. unfold one. repeat case_bool_decide; naive_solver lia.
    + rewrite getz_setz_ne in Hw by done. rewrite (fo_count _ H g w Hw).
      rewrite !bool_decide_false by (destruct Hy as [->| ->], Hz' as [->| ->]; congruence). cbn. lia.
Qed.

(** ** Running the calls *)

Lemma on_sched_current s t : current_task (sch s) = Some t -> on_sched get_current s = Ok t s.
Proof.
  intros H. unfold on_sched, zoom. rewrite (get_current_ok _ _ H). by destruct s.
Qed.
Lemma on_sched_update s t f :
  current_task (sch s) = Some t -> on_sched (update_current f) s = Ok tt (s <| sch ::= with_current (f t) |>).
Proof. intros H. unfold on_sched, zoom. by rewrite (update_current_ok _ _ _ H). Qed.

Lemma file_of_ok s t fd y :
  current_task (sch s) = Some t -> 0 <= fd < NR_OPEN -> getz (filp t) fd = Some y -> file_of fd s = Ok y s.
Proof.
  intros Ht Hfd Hy. unfold file_of. rewrite (proj2 (Z.ltb_ge fd 0)), (proj2 (Z.leb_gt NR_OPEN fd)) by lia. cbn [orb].
  rewrite (bind_ok _ _ _ _ _ (on_sched_current _ _ Ht)). by rewrite Hy.
Qed.

(** The three assignments the calls share. *)
Lemma redirect_run {A} s t fd y f x d (k : M kernel A) :
  current_task (sch s) = Some t -> getz (file_table s) f = Some x ->
  (do! clear_close_on_exec fd in do! set_filp fd y in do! set_file f (fun f => f <| f_count ::= fun c => u16 (c + d) |>) in k) s =
  k (redirect s t fd y f x d).
Proof.
  intros Ht Hx. unfold clear_close_on_exec, set_filp. rewrite (bind_ok _ _ _ _ _ (on_sched_update _ _ _ Ht)).
  set (t1 := t <| close_on_exec ::= _ |>). set (s1 := s <| sch ::= _ |>).
  assert (current_task (sch s1) = Some t1) as Ht1 by (apply current_with_current; by rewrite Ht).
  rewrite (bind_ok _ _ _ _ _ (on_sched_update _ _ _ Ht1)). set (s2 := s1 <| sch ::= _ |>).
  assert (getz (file_table s2) f = Some x) as Hx2 by done.
  rewrite (bind_ok _ _ _ _ _ (set_file_ok _ _ _ _ Hx2)). f_equal. unfold redirect.
  assert (s2 = s <| sch ::= with_current (t1 <| filp ::= fun l => setz l fd y |>) |>) as ->; [|done].
  unfold s2, s1. transitivity (s <| sch ::= fun c => with_current (t1 <| filp ::= fun l => setz l fd y |>) (with_current t1 c) |>).
  - by destruct s.
  - destruct s. unfold over, set_sch. cbn. by rewrite with_current_twice.
Qed.

Lemma free_fd_spec n arg l :
  let r := free_fd n arg l in arg <= r <= arg + Z.of_nat n /\
  (forall k, arg <= k < r -> exists g, getz l k = Some (Some g)) /\
  (r < arg + Z.of_nat n -> forall g, getz l r <> Some (Some g)).
Proof.
  cbv zeta. revert arg. induction n as [|n IH]; intros arg; cbn [free_fd].
  { split; [lia|]. split; lia. }
  destruct (getz l arg) as [[g|]|] eqn:E.
  2,3: (split; [lia|]; split; [lia|]; intros _ g; by rewrite E).
  destruct (IH (arg + 1)) as (H1 & H2 & H3). split; [lia|]. split.
  - intros k Hk. destruct (decide (k = arg)) as [->|]; [by exists g|]. apply H2. lia.
  - intros Hr. apply H3. lia.
Qed.

Lemma redirect_current s t fd y f x d :
  current_task (sch s) = Some t ->
  current_task (sch (redirect s t fd y f x d)) =
    Some (t <| close_on_exec ::= fun b => Z.ldiff b (Z.shiftl 1 fd) |> <| filp ::= fun l => setz l fd y |>).
Proof. intros Ht. apply current_with_current. by rewrite Ht. Qed.

(** What [dupfd] does, from the descriptors of the task. *)
Definition dup_result (t : task_struct) (fd arg : Z) : Z :=
  match (if (fd <? 0) || (NR_OPEN <=? fd) then None else getz (filp t) fd ≫= id) with
  | None => - EBADF
  | Some _ =>
    if NR_OPEN <=? arg then - EINVAL else
    let new := free_fd (Z.to_nat (NR_OPEN - arg)) arg (filp t) in
    if NR_OPEN <=? new then - EMFILE else new
  end.

Lemma dupfd_run s t fd arg :
  current_task (sch s) = Some t -> files_ok s ->
  (dup_result t fd arg < 0 /\ dupfd fd arg s = Ok (dup_result t fd arg) s) \/
  (exists f x, 0 <= fd < NR_OPEN /\ getz (filp t) fd = Some (Some f) /\ getz (file_table s) f = Some x /\ arg < NR_OPEN /\
    dup_result t fd arg < NR_OPEN /\ dup_result t fd arg = free_fd (Z.to_nat (NR_OPEN - arg)) arg (filp t) /\
    dupfd fd arg s = Ok (dup_result t fd arg) (redirect s t (dup_result t fd arg) (Some f) f x 1)).
Proof.
  intros Ht Hok. pose proof Ht as Hi. unfold current_task in Hi. pose proof (fo_filp _ Hok _ _ Hi) as Hlen.
  unfold dup_result, dupfd. destruct ((fd <? 0) || (NR_OPEN <=? fd)) eqn:Hfd.
  { left. split; [done|]. unfold file_of. by rewrite Hfd. }
  breflect. destruct (getz_is_Some (filp t) fd) as [y Hy]; [lia|]. rewrite Hy. cbn [mbind option_bind id].
  rewrite (bind_ok _ _ _ _ _ (file_of_ok _ _ _ _ Ht (conj H H0) Hy)).
  destruct y as [f|]; [|by left]. destruct (NR_OPEN <=? arg) eqn:Harg; [by left|]. breflect.
  rewrite (bind_ok _ _ _ _ _ (on_sched_current _ _ Ht)). cbv zeta.
  destruct (NR_OPEN <=? free_fd _ _ _) eqn:Hnew; [by left|]. breflect. right.
  destruct (getz_is_Some (file_table s) f) as [x Hx]; [by eapply fo_valid|].
  exists f, x. do 6 (split; [done|]). by rewrite (redirect_run _ _ _ _ _ _ 1 _ Ht Hx).
Qed.

(** C24: [dupfd] gives the lowest free descriptor from [arg] on, which then
    refers to the same open file as [fd], and fails with the right error and
    nothing changed in the three other cases.  The counts of open files stay
    the numbers of descriptors that refer to them. *)
Theorem dupfd_spec s t fd arg :
  current_task (sch s) = Some t -> files_ok s -> 0 <= arg ->
  exists r s', dupfd fd arg s = Ok r s' /\ files_ok s' /\
    ((s' = s /\
      ((r = - EBADF /\ forall f, 0 <= fd < NR_OPEN -> getz (filp t) fd <> Some (Some f)) \/
       (r = - EINVAL /\ NR_OPEN <= arg) \/
       (r = - EMFILE /\ forall k, arg <= k < NR_OPEN -> exists f, getz (filp t) k = Some (Some f)))) \/
     (arg <= r < NR_OPEN /\ getz (filp t) r = Some None /\
      (forall k, arg <= k < r -> exists g, getz (filp t) k = Some (Some g)) /\
      exists f t', getz (filp t) fd = Some (Some f) /\ current_task (sch s') = Some t' /\
        filp t' = setz (filp t) r (Some f))).
Proof.
  intros Ht Hok Harg. pose proof Ht as Hi. unfold current_task in Hi. pose proof (fo_filp _ Hok _ _ Hi) as Hlen.
  pose proof (free_fd_spec (Z.to_nat (NR_OPEN - arg)) arg (filp t)) as (F1 & F2 & F3).
  destruct (dupfd_run s t fd arg Ht Hok) as [[Hneg Hrun]|(f & x & Hfd & Hf & Hx & Harg' & Hlt & Er & Hrun)].
  - exists (dup_result t fd arg), s. split; [done|]. split; [done|]. left. split; [done|].
    revert Hneg. unfold dup_result. destruct ((fd <? 0) || (NR_OPEN <=? fd)) eqn:Hfd; breflect.
    { intros _. left. split; [done|]. destruct Hfd; breflect; lia. }
    destruct (getz (filp t) fd) as [[f|]|]; [|by left..]. cbn [mbind option_bind id].
    destruct (NR_OPEN <=? arg) eqn:Ha; breflect; [by right; left|]. destruct (NR_OPEN <=? free_fd _ _ _) eqn:Hn; breflect.
    + intros _. right. right. split; [done|]. intros k Hk. apply F2. lia.
    + intros Hneg. lia.
  - exists (dup_result t fd arg). eexists. split; [exact Hrun|]. rewrite Er in *. rewrite Z2Nat.id in F3 by lia.
    assert (getz (filp t) (free_fd (Z.to_nat (NR_OPEN - arg)) arg (filp t)) = Some None) as Hnone.
    { destruct (getz_is_Some (filp t) (free_fd (Z.to_nat (NR_OPEN - arg)) arg (filp t))) as [[g|] Hy]; [lia| |done].
      destruct (F3 ltac:(lia) g Hy). }
    split.
    { eapply redirect_files_ok; [done|done|exact Hnone|done|by right|by left|]. rewrite bool_decide_true by done.
      by rewrite bool_decide_false. }
    right. split; [lia|]. split; [done|]. split; [exact F2|]. exists f. eexists. split; [done|].
    split; [by apply redirect_current|]. by upd.
Qed.

(** A close takes one reference away, and releases the inode with the last. *)
Lemma close_run `{Env} s t fd f x :
  current_task (sch s) = Some t -> 0 <= fd < NR_OPEN -> getz (filp t) fd = Some (Some f) ->
  getz (file_table s) f = Some x -> 1 <= f_count x < 65536 ->
  sys_close fd s = (if f_count x =? 1 then do! iput (f_inode x) in ret 0 else ret 0) (redirect s t fd None f x (-1)).
Proof.
  intros Ht Hfd Hf Hx Hc. unfold sys_close. rewrite (proj2 (Z.ltb_ge fd 0)), (proj2 (Z.leb_gt NR_OPEN fd)) by lia. cbn [orb].
  transitivity ((do! clear_close_on_exec fd in do! set_filp fd None in
    do! set_file f (fun f => f <| f_count ::= fun c => u16 (c + -1) |>) in
    if f_count x =? 1 then do! iput (f_inode x) in ret 0 else ret 0) s); [|by rewrite (redirect_run s t fd None f x)].
  unfold clear_close_on_exec. rewrite !(bind_ok _ _ _ _ _ (on_sched_update _ _ _ Ht)).
  set (t2 := t <| close_on_exec ::= _ |>). set (s2 := s <| sch ::= _ |>).
  assert (current_task (sch s2) = Some t2) as Ht2 by (apply current_with_current; by rewrite Ht).
  rewrite (bind_ok _ _ _ _ _ (file_of_ok s2 t2 fd (Some f) Ht2 Hfd Hf)).
  unfold set_filp. rewrite !(bind_ok _ _ _ _ _ (on_sched_update _ _ _ Ht2)). set (s3 := s2 <| sch ::= _ |>).
  assert (getz (file_table s3) f = Some x) as Hx3 by done.
  rewrite (bind_ok _ _ _ _ _ (get_file_ok _ _ _ Hx3)). rewrite (proj2 (Z.eqb_neq _ 0)) by lia.
  rewrite !(bind_ok _ _ _ _ _ (set_file_ok _ _ _ _ Hx3)).
  set (x4 := x <| f_count ::= _ |>). set (s4 := s3 <| file_table ::= _ |>).
  assert (getz (file_table s4) f = Some x4) as Hx4.
  { change (getz (setz (file_table s3) f x4) f = Some x4). apply getz_setz_eq. by eapply getz_Some_lt. }
  rewrite (bind_ok _ _ _ _ _ (get_file_ok _ _ _ Hx4)).
  assert (f_count x4 = f_count x - 1) as Hc4 by (apply u16_id; unfold is_u16; lia).
  rewrite Hc4. unfold istrue. change (f_inode x4) with (f_inode x).
  destruct (Z.eqb_spec (f_count x - 1) 0), (Z.eqb_spec (f_count x) 1); lia || done.
Qed.

(** Updates of two fields, done and taken back. *)
Lemma filp_filp t h h' : t <| filp ::= h |> <| filp ::= h' |> = t <| filp ::= fun x => h' (h x) |>.
Proof. by destruct t. Qed.
Lemma close_close t g g' : t <| close_on_exec ::= g |> <| close_on_exec ::= g' |> = t <| close_on_exec ::= fun x => g' (g x) |>.
Proof. by destruct t. Qed.
Lemma filp_close t g h : t <| filp ::= h |> <| close_on_exec ::= g |> = t <| close_on_exec ::= g |> <| filp ::= h |>.
Proof. by destruct t. Qed.
Lemma filp_same t h : h (filp t) = filp t -> t <| filp ::= h |> = t.
Proof. intros H. destruct t. unfold over, Task.set_filp. cbn in *. by rewrite H. Qed.
Lemma close_ext t g g' : g (close_on_exec t) = g' (close_on_exec t) -> t <| close_on_exec ::= g |> = t <| close_on_exec ::= g' |>.
Proof. intros H. unfold over, set_close_on_exec. by rewrite H. Qed.

Lemma task_back t g h h' :
  g (g (close_on_exec t)) = g (close_on_exec t) -> h' (h (filp t)) = filp t ->
  t <| close_on_exec ::= g |> <| filp ::= h |> <| close_on_exec ::= g |> <| filp ::= h' |> = t <| close_on_exec ::= g |>.
Proof.
  intros H1 H2. rewrite filp_close, filp_filp, close_close. rewrite (close_ext _ (fun x => g (g x)) g) by exact H1.
  by apply filp_same.
Qed.

Lemma sch_table s a b : s <| file_table ::= b |> <| sch ::= a |> = s <| sch ::= a |> <| file_table ::= b |>.
Proof. by destruct s. Qed.
Lemma table_table s b b' : s <| file_table ::= b |> <| file_table ::= b' |> = s <| file_table ::= fun x => b' (b x) |>.
Proof. by destruct s. Qed.
Lemma sch_sch s a a' : s <| sch ::= a |> <| sch ::= a' |> = s <| sch ::= fun x => a' (a x) |>.
Proof. by destruct s. Qed.
Lemma table_same s b : b (file_table s) = file_table s -> s <| file_table ::= b |> = s.
Proof. intros H. destruct s. unfold over, set_file_table. cbn in *. by rewrite H. Qed.
Lemma sch_ext s a a' : a (sch s) = a' (sch s) -> s <| sch ::= a |> = s <| sch ::= a' |>.
Proof. intros H. unfold over, set_sch. by rewrite H. Qed.

Lemma kernel_back s a b a' b' c :
  b' (b (file_table s)) = file_table s -> a' (a (sch s)) = c (sch s) ->
  s <| sch ::= a |> <| file_table ::= b |> <| sch ::= a' |> <| file_table ::= b' |> = s <| sch ::= c |>.
Proof.
  intros H1 H2. rewrite sch_table, table_table, sch_sch. rewrite (sch_ext _ _ c) by exact H2.
  by apply table_same.
Qed.
Lemma count_back x : 0 <= f_count x < 65535 ->
  x <| f_count ::= fun c => u16 (c + 1) |> <| f_count ::= fun c => u16 (c + -1) |> = x.
Proof.
  intros Hc. destruct x as [? ? c ? ?]. unfold over, set_f_count. cbn -[u16] in *. f_equal.
  rewrite (u16_id (c + 1)) by (unfold is_u16; lia). rewrite u16_id; [lia|unfold is_u16; lia].
Qed.

(** Taking a reference back restores everything but the flag. *)
Lemma redirect_back s t fd f x :
  current_task (sch s) = Some t -> getz (filp t) fd = Some None -> getz (file_table s) f = Some x ->
  0 <= f_count x < 65535 ->
  redirect (redirect s t fd (Some f) f x 1)
    (t <| close_on_exec ::= fun b => Z.ldiff b (Z.shiftl 1 fd) |> <| filp ::= fun l => setz l fd (Some f) |>)
    fd None f (x <| f_count ::= fun c => u16 (c + 1) |>) (-1) =
    s <| sch ::= with_current (t <| close_on_exec ::= fun b => Z.ldiff b (Z.shiftl 1 fd) |>) |>.
Proof.
  intros Ht Hn Hx Hc. unfold redirect. apply kernel_back.
  - rewrite count_back, setz_setz by done. by apply setz_id.
  - rewrite task_back.
    + apply with_current_twice.
    + rewrite Z.ldiff_ldiff_l. by rewrite Z.lor_diag.
    + rewrite setz_setz. by apply setz_id.
Qed.

(** Closing the descriptor a successful [dupfd] gave takes everything
    back: the call returns 0 without releasing the file, and only the
    descriptor's close-on-exec flag may be different from before. *)
Theorem close_after_dup `{Env} s t fd arg r s1 :
  current_task (sch s) = Some t -> files_ok s -> 0 <= arg -> dupfd fd arg s = Ok r s1 -> 0 <= r ->
  sys_close r s1 = Ok 0 (s <| sch ::= with_current (t <| close_on_exec ::= fun b => Z.ldiff b (Z.shiftl 1 r) |>) |>).
Proof.
  intros Ht Hok Harg Hdup Hr. pose proof Ht as Hi. unfold current_task in Hi. pose proof (fo_filp _ Hok _ _ Hi) as Hlen.
  pose proof (free_fd_spec (Z.to_nat (NR_OPEN - arg)) arg (filp t)) as (F1 & _ & F3).
  destruct (dupfd_run s t fd arg Ht Hok) as [[Hneg Hrun]|(f & x & Hfd & Hf & Hx & Harg' & Hlt & Er & Hrun)];
    rewrite Hrun in Hdup; injection Hdup as <- <-; [lia|]. rewrite Er in *. rewrite Z2Nat.id in F3 by lia.
  set (new := free_fd (Z.to_nat (NR_OPEN - arg)) arg (filp t)) in *.
  destruct (getz_is_Some (filp t) new) as [[g|] Hnew]; [lia|by destruct (F3 ltac:(lia) g)|].
  pose proof (refs_small s f Hok) as Hsmall. apply task_at_Some in Hi. pose proof (refs_pos _ _ _ _ _ Hi Hf) as Hpos.
  rewrite <- (fo_count _ Hok f x Hx) in Hsmall, Hpos.
  assert (f_count (x <| f_count ::= fun c => u16 (c + 1) |>) = f_count x + 1) as Hc1 by (apply u16_id; unfold is_u16; lia).
  erewrite close_run; [|by apply redirect_current|done| | |rewrite Hc1; lia].
  - rewrite Hc1, (proj2 (Z.eqb_neq _ 1)) by lia. rewrite redirect_back; [done|done|done|done|lia].
  - upd. apply getz_setz_eq. by eapply getz_Some_lt.
  - apply getz_setz_eq. by eapply getz_Some_lt.
Qed.
