(* ===== verification/PipeProofs.v ===== *)
(** * A pipe is a queue of bytes

    The page of a pipe holds at most 4095 bytes; [write_pipe] appends what it
    takes from the writer's memory, [read_pipe] moves the first bytes to the
    reader's. *)

From Stdlib Require Import ZArith Lia.
From stdpp Require Import base numbers list gmap strings.
From S2P Require Import Prelude Memory Task Sched TtyData Kernel Bitmap Inode Pipe CharDev UserMem.

(** ** Bytes of memory *)

Lemma get_put_byte w j k v :
  0 <= j < 4 -> 0 <= k < 4 -> get_byte (put_byte w k v) j = if k =? j then u8 v else get_byte w j.
Proof.
  intros Hj Hk. unfold get_byte, put_byte. apply Z.bits_inj_iff'. intros n Hn. rewrite u8_bits by done.
  destruct (Z.ltb_spec n 8) as [Hn8|Hn8]; cbn [andb].
  2: { destruct (k =? j); rewrite u8_bits by done; by rewrite (proj2 (Z.ltb_ge _ _) Hn8). }
  rewrite Z.shiftr_spec, Z.lor_spec, Z.ldiff_spec, !Z.shiftl_spec by lia.
  change 255 with (Z.ones 8). destruct (Z.eqb_spec k j) as [->|Hne].
  - replace (n + 8 * j - 8 * j) with n by lia. rewrite Z.ones_spec_low by lia. by rewrite andb_false_r.
  - rewrite (u8_bits _ n) by done. rewrite (proj2 (Z.ltb_lt n 8) Hn8), Z.shiftr_spec by lia. cbn [andb].
    destruct (decide (k < j)).
    + rewrite Z.ones_spec_high, u8_bits by lia. rewrite (proj2 (Z.ltb_ge (n + 8 * j - 8 * k) 8)) by lia.
      by rewrite andb_true_r, orb_false_r.
    + rewrite !(Z.testbit_neg_r _ (n + 8 * j - 8 * k)) by lia. by rewrite andb_true_r, orb_false_r.
Qed.

Definition mem_byte (m : mm) (a : Z) : Z := get_byte (word m a) (a mod 4).

Lemma mem_byte_store m a v b :
  mem_byte (set_phys (<[a / 4 := put_byte (word m a) (a mod 4) v]> (phys m)) m) b = if a =? b then u8 v else mem_byte m b.
Proof.
  unfold mem_byte, word. cbn [phys set_phys]. destruct (decide (a / 4 = b / 4)) as [E|Hne].
  - rewrite E, lookup_insert, decide_True by done. cbn [from_option id]. rewrite get_put_byte by (apply Z.mod_pos_bound; lia).
    destruct (Z.eqb_spec (a mod 4) (b mod 4)), (Z.eqb_spec a b); try done; exfalso; dmlia.
  - rewrite lookup_insert_ne by done. destruct (Z.eqb_spec a b); [by subst|done].
Qed.

Lemma store_byte_ok a v m :
  store_byte a v m = Ok tt (set_phys (<[a / 4 := put_byte (word m a) (a mod 4) v]> (phys m)) m).
Proof. done. Qed.

(** ** Moving bytes *)

(** [n] bytes of the page from offset [o] on, from the writer's memory. *)
Lemma user_to_pipe_run page o buf n s :
  0 <= page -> page + PAGE_SIZE <= 4294967296 -> 0 <= o -> 0 <= n -> o + n <= PAGE_SIZE ->
  exists m, user_to_pipe page o buf n s = Ok tt (s <| memory := m |>) /\
    (forall k, 0 <= k < n -> mem_byte m (page + (o + k)) = u8 (default 0 (user s !! u32 (buf + k)))) /\
    (forall a, a < page + o \/ page + o + n <= a -> mem_byte m a = mem_byte (memory s) a).
Proof.
  intros Hp Hp' Ho Hn Hon. unfold user_to_pipe, PAGE_SIZE in *.
  assert (forall j lo t, 0 <= lo -> lo + Z.of_nat j <= n -> user t = user s ->
    exists m, for_range lo j (fun k => let! c := get_fs_byte (buf + k) in on_memory (store_byte (u32 (page + (o + k))) c)) t =
      Ok tt (t <| memory := m |>) /\
      (forall k, lo <= k < lo + Z.of_nat j -> mem_byte m (page + (o + k)) = u8 (default 0 (user s !! u32 (buf + k)))) /\
      (forall a, a < page + o + lo \/ page + o + lo + Z.of_nat j <= a -> mem_byte m a = mem_byte (memory t) a)) as H.
  2: { destruct (H (Z.to_nat n) 0 s) as (m & H1 & H2 & H3); [lia|lia|done|]. rewrite Z2Nat.id in * by lia.
       exists m. split; [done|]. split; [done|]. intros a Ha. apply H3. lia. }
  induction j as [|j IH]; intros lo t Hlo Hj Hu; cbn [for_range].
  { exists (memory t). split; [by destruct t|]. split; [lia|done]. }
  unfold bind at 1 2, get_fs_byte at 1, gets. rewrite u32_id by (unfold is_u32; lia).
  unfold on_memory at 1, zoom. rewrite store_byte_ok. cbv beta iota.
  set (c := default 0 (user t !! u32 (buf + lo))). set (a0 := page + (o + lo)).
  set (t1 := t <| memory := _ |>). destruct (IH (lo + 1) t1) as (m & H1 & H2 & H3); [lia|lia|by rewrite <- Hu|].
  exists m. split; [rewrite H1; by destruct t|].
  assert (forall a, mem_byte (memory t1) a = if a0 =? a then u8 c else mem_byte (memory t) a) as Hm1.
  { intros a. apply mem_byte_store. }
  split.
  - intros k Hk. destruct (decide (k = lo)) as [->|]; [|apply H2; lia].
    rewrite H3, Hm1 by lia. unfold a0. by rewrite Z.eqb_refl, <- Hu.
  - intros a Ha. rewrite H3, Hm1 by lia. by rewrite (proj2 (Z.eqb_neq _ _)) by lia.
Qed.

Lemma pipe_to_user_run page o buf n s :
  0 <= page -> page + PAGE_SIZE <= 4294967296 -> 0 <= o -> 0 <= n -> o + n <= PAGE_SIZE ->
  pipe_to_user page o buf n s =
    Ok tt (s <| user ::= write_user ((fun k => mem_byte (memory s) (page + (o + k))) <$> seqZ 0 n) buf |>).
Proof.
  intros Hp Hp' Ho Hn Hon. unfold pipe_to_user, PAGE_SIZE in *.
  assert (forall j lo t, 0 <= lo -> lo + Z.of_nat j <= n -> memory t = memory s ->
    for_range lo j (fun k => let! c := on_memory (load_byte (u32 (page + (o + k)))) in put_fs_byte c (buf + k)) t =
      Ok tt (t <| user ::= write_user ((fun k => mem_byte (memory s) (page + (o + k))) <$> seqZ lo (Z.of_nat j)) (buf + lo) |>)) as H.
  2: { specialize (H (Z.to_nat n) 0 s). rewrite Z2Nat.id, Z.add_0_r in H by lia. apply H; [lia|lia|done]. }
  induction j as [|j IH]; intros lo t Hlo Hj Hm; cbn [for_range]; [by destruct t|].
  unfold bind at 1 2, on_memory at 1, zoom, load_byte, bind, load, gets, ret. rewrite u32_id by (unfold is_u32; lia).
  unfold put_fs_byte at 1, modify. rewrite IH; [|lia|lia|by rewrite <- Hm; destruct t].
  rewrite (seqZ_cons lo) by lia. rewrite fmap_cons. cbn [write_user].
  replace (Z.pred (Z.of_nat (S j))) with (Z.of_nat j) by lia. replace (Z.succ lo) with (lo + 1) by lia.
  replace (buf + (lo + 1)) with (buf + lo + 1) by lia. unfold mem_byte. rewrite <- !Hm. by destruct t.
Qed.

(** ** The state of a pipe *)

Record pipe_ok (s : kernel) (i : Z) (n : m_inode) (head tail : Z) : Prop := {
  po_inode : getz (inode_table s) i = Some n;
  po_head : getz (i_zone n) 0 = Some head;
  po_tail : getz (i_zone n) 1 = Some tail;
  po_head_range : 0 <= head < PAGE_SIZE;
  po_tail_range : 0 <= tail < PAGE_SIZE;
  po_page : 0 <= i_size n /\ i_size n + PAGE_SIZE <= 4294967296
}.

Definition page_cell (s : kernel) (n : m_inode) (k : Z) : Z := mem_byte (memory s) (i_size n + k).
Definition used (head tail : Z) : Z := (head - tail) mod PAGE_SIZE.
Definition pipe_bytes (s : kernel) (n : m_inode) (head tail : Z) : list Z :=
  ring PAGE_SIZE (page_cell s n) tail (used head tail).

(** [s] with the pipe's inode and the memory replaced. *)
Definition pipe_step (s : kernel) (i : Z) (n : m_inode) (m : mm) (u : gmap Z Z) : kernel :=
  s <| inode_table ::= fun l => setz l i n |> <| memory := m |> <| user := u |>.

Lemma inode_inode s f g : s <| inode_table ::= f |> <| inode_table ::= g |> = s <| inode_table ::= fun l => g (f l) |>.
Proof. by destruct s. Qed.
Lemma memory_inode s m f : s <| memory := m |> <| inode_table ::= f |> = s <| inode_table ::= f |> <| memory := m |>.
Proof. by destruct s. Qed.
Lemma user_inode s u f : s <| user := u |> <| inode_table ::= f |> = s <| inode_table ::= f |> <| user := u |>.
Proof. by destruct s. Qed.
Lemma memory_memory s m m' : s <| memory := m |> <| memory := m' |> = s <| memory := m' |>.
Proof. by destruct s. Qed.
Lemma user_memory s u m : s <| user := u |> <| memory := m |> = s <| memory := m |> <| user := u |>.
Proof. by destruct s. Qed.
Lemma user_user s u u' : s <| user := u |> <| user := u' |> = s <| user := u' |>.
Proof. by destruct s. Qed.
Lemma memory_same s : s <| memory := memory s |> = s.
Proof. by destruct s. Qed.
Lemma user_same s : s <| user := user s |> = s.
Proof. by destruct s. Qed.
Lemma inode_ext s f g : f (inode_table s) = g (inode_table s) -> s <| inode_table ::= f |> = s <| inode_table ::= g |>.
Proof. intros H. unfold over, set_inode_table. by rewrite H. Qed.
Lemma inode_same s f : f (inode_table s) = inode_table s -> s <| inode_table ::= f |> = s.
Proof. intros H. rewrite (inode_ext s f (fun l => l)) by done. by destruct s. Qed.

Lemma pipe_step_twice s i n m u n' m' u' : pipe_step (pipe_step s i n m u) i n' m' u' = pipe_step s i n' m' u'.
Proof.
  unfold pipe_step. rewrite user_inode, user_memory, user_user, memory_inode, memory_memory, inode_inode.
  do 2 f_equal. apply inode_ext. apply setz_setz.
Qed.

Lemma pipe_step_id s i n : getz (inode_table s) i = Some n -> pipe_step s i n (memory s) (user s) = s.
Proof.
  intros H. unfold pipe_step. rewrite (inode_same s) by (by apply setz_id). by rewrite memory_same, user_same.
Qed.

Lemma used_range head tail : 0 <= used head tail < PAGE_SIZE.
Proof. by apply Z.mod_pos_bound. Qed.

Lemma PIPE_SIZE_ok s i n head tail : pipe_ok s i n head tail -> PIPE_SIZE n = Some (used head tail).
Proof.
  intros [_ H1 H2 _ _ _]. unfold PIPE_SIZE, PIPE_HEAD, PIPE_TAIL. rewrite H1, H2. cbn [mbind option_bind].
  f_equal. apply (land_low _ 12). lia.
Qed.

Section pipe_proofs.
Context {E : Env}.

Lemma pipe_wait_run s i n size k :
  getz (inode_table s) i = Some n -> size n = Some k -> k <> 0 ->
  pipe_wait (Datatypes.S patience) i size s = Ok (Some k) s.
Proof.
  intros Hn Hk Hne. cbn [pipe_wait]. rewrite (bind_ok _ _ _ _ _ (get_inode_ok _ _ _ Hn)), Hk.
  unfold bind, valid, ret, istrue. by rewrite (proj2 (Z.eqb_neq _ _) Hne).
Qed.

(** Moving the head or the tail: zone [z] of the inode. *)
Definition moved (n : m_inode) (z v : Z) : m_inode := n <| i_zone ::= fun l => setz l z v |>.

Lemma get_zone_ok s i n z v : getz (inode_table s) i = Some n -> getz (i_zone n) z = Some v -> get_zone i z s = Ok v s.
Proof. intros Hn Hv. unfold get_zone. rewrite (bind_ok _ _ _ _ _ (get_inode_ok _ _ _ Hn)). by rewrite Hv. Qed.

Lemma move_run s i n z v chars :
  getz (inode_table s) i = Some n -> getz (i_zone n) z = Some v -> 0 <= v -> 0 <= chars -> v + chars <= PAGE_SIZE ->
  (let! w := get_zone i z in set_zone i z (Z.land (u16 (w + chars)) (PAGE_SIZE - 1))) s =
    Ok tt (pipe_step s i (moved n z ((v + chars) mod PAGE_SIZE)) (memory s) (user s)).
Proof.
  intros Hn Hv H1 H2 H3. rewrite (bind_ok _ _ _ _ _ (get_zone_ok _ _ _ _ _ Hn Hv)).
  unfold set_zone. rewrite (set_inode_ok _ _ _ _ Hn). unfold PAGE_SIZE in *. rewrite (land_low _ 12) by lia.
  rewrite (u16_id (v + chars)) by (unfold is_u16; lia). change (2 ^ 12) with 4096.
  rewrite u16_id by (unfold is_u16; pose proof (Z.mod_pos_bound (v + chars) 4096); lia).
  unfold pipe_step, moved. by destruct s.
Qed.

End pipe_proofs.

(** ** One round of writing, and of reading *)

(** The cells of a stretch that does not go round. *)
Lemma ring_straight (get : Z -> Z) k n :
  0 <= k -> k + n <= PAGE_SIZE -> ring PAGE_SIZE get k n = (fun j => get (k + j)) <$> seqZ 0 n.
Proof.
  intros Hk Hn. apply list_fmap_ext. intros x y Hy. apply lookup_seqZ in Hy. by rewrite Z.mod_small by lia.
Qed.

(** Writing behind the last byte does not touch the others. *)
Lemma behind_last head tail k c chars :
  0 <= head < PAGE_SIZE -> 0 <= tail < PAGE_SIZE -> head + chars <= PAGE_SIZE -> chars <= PAGE_SIZE - 1 - used head tail ->
  0 <= k < used head tail -> (tail + k) mod PAGE_SIZE = c -> c < head \/ head + chars <= c.
Proof.
  intros Hh Ht Hle Hroom Hk Hc. destruct (decide (c < head \/ head + chars <= c)) as [|Hin]; [done|exfalso].
  apply (ring_apart PAGE_SIZE ltac:(done) tail (used head tail) k (used head tail + (c - head))); [done|lia|].
  rewrite Hc. unfold used in *. unfold PAGE_SIZE in *. dmlia.
Qed.

Lemma write_round s i n head tail chars buf :
  pipe_ok s i n head tail -> 0 < chars -> head + chars <= PAGE_SIZE -> chars <= PAGE_SIZE - 1 - used head tail ->
  exists n' m, i_count n' = i_count n /\ i_size n' = i_size n /\
    (do! move_head i chars in let! n := get_inode i in user_to_pipe (i_size n) head buf chars) s =
      Ok tt (pipe_step s i n' m (user s)) /\
    pipe_ok (pipe_step s i n' m (user s)) i n' ((head + chars) mod PAGE_SIZE) tail /\
    pipe_bytes (pipe_step s i n' m (user s)) n' ((head + chars) mod PAGE_SIZE) tail =
      pipe_bytes s n head tail ++ (u8 <$> read_user (Z.to_nat chars) buf (user s)).
Proof.
  intros Hok Hc Hle Hroom. pose proof Hok as [Hn Hh Ht Hhr Htr Hp].
  set (head' := (head + chars) mod PAGE_SIZE). set (n' := moved n 0 head').
  set (s1 := pipe_step s i n' (memory s) (user s)).
  assert (getz (inode_table s1) i = Some n') as Hn1 by (apply getz_setz_eq; by eapply getz_Some_lt).
  destruct (user_to_pipe_run (i_size n) head buf chars s1) as (m & Hrun & Hin & Hout); [lia|lia|lia|lia|lia|].
  exists n', m. split; [done|]. split; [done|]. split; [|split].
  - unfold move_head. rewrite (bind_ok _ _ _ _ _ (move_run s i n 0 head chars Hn Hh ltac:(lia) ltac:(lia) Hle)).
    fold head' n' s1. rewrite (bind_ok _ _ _ _ _ (get_inode_ok _ _ _ Hn1)). change (i_size n') with (i_size n).
    rewrite Hrun. unfold s1, pipe_step. by rewrite user_memory, memory_memory.
  - split; [exact Hn1| | |by apply Z.mod_pos_bound|done|done].
    + apply getz_setz_eq. by eapply getz_Some_lt.
    + change (getz (setz (i_zone n) 0 head') 1 = Some tail). by rewrite getz_setz_ne.
  - unfold pipe_bytes. pose proof (used_range head tail). assert (used head' tail = used head tail + chars) as ->.
    { unfold used, head', PAGE_SIZE in *. dmlia. }
    rewrite ring_app by (try done; lia). f_equal.
    + apply ring_ext. intros k Hk. unfold page_cell. apply Hout.
      destruct (behind_last head tail k _ chars Hhr Htr Hle Hroom Hk eq_refl); lia.
    + unfold used. rewrite ring_distance by done. rewrite ring_straight by lia.
      unfold read_user. rewrite Z2Nat.id by lia. rewrite <- list_fmap_compose.
      apply list_fmap_ext. intros x y Hy. apply lookup_seqZ in Hy. exact (Hin y ltac:(lia)).
Qed.

Lemma read_round s i n head tail chars buf :
  pipe_ok s i n head tail -> 0 < chars -> tail + chars <= PAGE_SIZE -> chars <= used head tail ->
  exists n', i_count n' = i_count n /\ i_size n' = i_size n /\
    let s' := pipe_step s i n' (memory s) (write_user (take (Z.to_nat chars) (pipe_bytes s n head tail)) buf (user s)) in
    (do! move_tail i chars in let! n := get_inode i in pipe_to_user (i_size n) tail buf chars) s = Ok tt s' /\
    pipe_ok s' i n' head ((tail + chars) mod PAGE_SIZE) /\
    pipe_bytes s' n' head ((tail + chars) mod PAGE_SIZE) = drop (Z.to_nat chars) (pipe_bytes s n head tail).
Proof.
  intros Hok Hc Hle Hroom. pose proof Hok as [Hn Hh Ht Hhr Htr Hp].
  set (tail' := (tail + chars) mod PAGE_SIZE). set (n' := moved n 1 tail').
  set (s1 := pipe_step s i n' (memory s) (user s)). pose proof (used_range head tail).
  assert (getz (inode_table s1) i = Some n') as Hn1 by (apply getz_setz_eq; by eapply getz_Some_lt).
  assert (pipe_bytes s n head tail = ring PAGE_SIZE (page_cell s n) tail chars ++
    ring PAGE_SIZE (page_cell s n) tail' (used head tail - chars)) as Eb.
  { unfold pipe_bytes. rewrite <- ring_app by (try done; lia). f_equal. lia. }
  assert (Z.to_nat chars = length (ring PAGE_SIZE (page_cell s n) tail chars)) as Elen.
  { pose proof (ring_length PAGE_SIZE (page_cell s n) tail chars ltac:(lia)) as El. unfold lenz in El. lia. }
  exists n'. split; [done|]. split; [done|]. cbv zeta. rewrite Eb, Elen, take_app_length, drop_app_length. split; [|split].
  - unfold move_tail. rewrite (bind_ok _ _ _ _ _ (move_run s i n 1 tail chars Hn Ht ltac:(lia) ltac:(lia) Hle)).
    fold tail' n' s1. rewrite (bind_ok _ _ _ _ _ (get_inode_ok _ _ _ Hn1)). change (i_size n') with (i_size n).
    rewrite pipe_to_user_run by lia. rewrite ring_straight by lia. unfold page_cell.
    change (memory s1) with (memory s). unfold s1, pipe_step. done.
  - split; [exact Hn1| | |done|by apply Z.mod_pos_bound|done].
    + change (getz (setz (i_zone n) 1 tail') 0 = Some head). by rewrite getz_setz_ne.
    + apply getz_setz_eq. by eapply getz_Some_lt.
  - unfold pipe_bytes. assert (used head tail' = used head tail - chars) as ->; [|done].
    unfold used, tail', PAGE_SIZE in *. dmlia.
Qed.

(** ** The loops *)

Section loops.
Context {E : Env}.

(** The rest of a loop's body, after a round. *)
Lemma after_round {A B} (m1 : M kernel unit) (m2 : M kernel A) (f : A -> M kernel unit) s s1 (K : M kernel B) :
  (do! m1 in let! n := m2 in f n) s = Ok tt s1 -> (do! m1 in let! n := m2 in do! f n in K) s = K s1.
Proof.
  intros Hrun. rewrite <- (bind_ok _ (fun _ => K) _ _ _ Hrun). unfold bind.
  by destruct (m1 s) as [? t| | | |]; [destruct (m2 t)|..].
Qed.

(** A reader of an empty pipe without writers gives up. *)
Lemma pipe_wait_closed s i n size :
  getz (inode_table s) i = Some n -> size n = Some 0 -> i_count n <> 2 ->
  pipe_wait (Datatypes.S patience) i size s = Ok None (s <| woken ::= cons (i_wait i) |>).
Proof.
  intros Hn Hs Hc. cbn [pipe_wait]. rewrite (bind_ok _ _ _ _ _ (get_inode_ok _ _ _ Hn)), Hs.
  unfold bind at 1, valid, ret at 1. cbn [istrue Z.eqb negb]. rewrite (bind_ok _ _ _ _ _ (wake_up_ok (i_wait i) s)).
  assert (getz (inode_table (s <| woken ::= cons (i_wait i) |>)) i = Some n) as Hn' by done.
  rewrite (bind_ok _ _ _ _ _ (get_inode_ok _ _ _ Hn')). by rewrite (proj2 (Z.eqb_neq _ _)).
Qed.

Lemma write_loop fuel i s n head tail count buf written :
  pipe_ok s i n head tail -> 0 <= count <= PAGE_SIZE - 1 - used head tail -> count <= Z.of_nat fuel ->
  exists n' m head', i_count n' = i_count n /\ i_size n' = i_size n /\
    write_pipe_loop fuel i buf count written s = Ok (written + count, false) (pipe_step s i n' m (user s)) /\
    pipe_ok (pipe_step s i n' m (user s)) i n' head' tail /\
    pipe_bytes (pipe_step s i n' m (user s)) n' head' tail =
      pipe_bytes s n head tail ++ (u8 <$> read_user (Z.to_nat count) buf (user s)).
Proof.
  revert s n head count buf written. induction fuel as [|fuel IH]; intros s n head count buf written Hok Hc Hf.
  all: destruct (decide (count = 0)) as [->|Hne]; [|try lia].
  1,2: exists n, (memory s), head; rewrite pipe_step_id, Z.add_0_r by apply Hok; cbn;
    rewrite app_nil_r; repeat split; done || apply Hok.
  cbn [write_pipe_loop]. rewrite (proj2 (Z.leb_gt _ _)) by lia. pose proof (used_range head tail) as Hu.
  pose proof (PIPE_SIZE_ok _ _ _ _ _ Hok) as Hsize.
  rewrite (bind_ok _ _ _ _ _ (pipe_wait_run s i n pipe_room (PAGE_SIZE - 1 - used head tail) (po_inode _ _ _ _ _ Hok)
    ltac:(unfold pipe_room; by rewrite Hsize) ltac:(lia))).
  rewrite (bind_ok _ _ _ _ _ (get_zone_ok _ _ _ _ _ (po_inode _ _ _ _ _ Hok) (po_head _ _ _ _ _ Hok))).
  set (chars := Z.min (Z.min (PAGE_SIZE - head) count) (PAGE_SIZE - 1 - used head tail)).
  pose proof (po_head_range _ _ _ _ _ Hok) as Hhr.
  destruct (write_round s i n head tail chars buf Hok) as (n1 & m1 & E1 & E2 & Hrun & Hok1 & Hb1); [lia|lia|lia|].
  set (s1 := pipe_step s i n1 m1 (user s)) in *.
  rewrite (after_round _ _ _ _ _ _ Hrun).
  assert (used ((head + chars) mod PAGE_SIZE) tail = used head tail + chars) as Eu by (unfold used, PAGE_SIZE in *; dmlia).
  destruct (IH s1 n1 ((head + chars) mod PAGE_SIZE) (count - chars) (buf + chars) (written + chars) Hok1)
    as (n' & m & head' & E1' & E2' & Hrun' & Hok' & Hb'); [rewrite Eu; lia|lia|].
  unfold s1 in *. rewrite pipe_step_twice in *. cbn [user pipe_step] in *. exists n', m, head'.
  change (user (pipe_step s i n1 m1 (user s))) with (user s) in *.
  split; [congruence|]. split; [congruence|]. split; [rewrite Hrun'; do 2 f_equal; lia|]. split; [done|].
  rewrite Hb', Hb1, <- app_assoc. f_equal. rewrite <- fmap_app. f_equal.
  replace (Z.to_nat count) with (Z.to_nat chars + Z.to_nat (count - chars))%nat by lia.
  rewrite read_user_app. do 2 f_equal. lia.
Qed.

Lemma read_loop fuel i s n head tail count buf read :
  pipe_ok s i n head tail -> 0 <= count -> count <= Z.of_nat fuel -> count <= used head tail \/ i_count n <> 2 ->
  exists n' tail', let k := Z.min count (used head tail) in let closed := used head tail <? count in
    let s' := pipe_step s i n' (memory s) (write_user (take (Z.to_nat k) (pipe_bytes s n head tail)) buf (user s)) in
    i_count n' = i_count n /\ i_size n' = i_size n /\
    read_pipe_loop fuel i buf count read s =
      Ok (read + k, closed) (if closed then s' <| woken ::= cons (i_wait i) |> else s') /\
    pipe_ok s' i n' head tail' /\ pipe_bytes s' n' head tail' = drop (Z.to_nat k) (pipe_bytes s n head tail).
Proof.
  revert s n tail count buf read. induction fuel as [|fuel IH]; intros s n tail count buf read Hok Hc Hf Hw.
  all: pose proof (used_range head tail) as Hu; destruct (decide (count = 0)) as [->|Hne]; [|try lia].
  1,2: exists n, tail; cbv zeta; rewrite Z.min_l, (proj2 (Z.ltb_ge _ _)), Z.add_0_r by lia; cbn [Z.to_nat take drop write_user];
    rewrite pipe_step_id by apply Hok; done.
  cbn [read_pipe_loop]. rewrite (proj2 (Z.leb_gt _ _)) by lia.
  pose proof (PIPE_SIZE_ok _ _ _ _ _ Hok) as Hsize. pose proof (po_inode _ _ _ _ _ Hok) as Hn.
  destruct (decide (used head tail = 0)) as [E0|E0].
  { exists n, tail. cbv zeta. rewrite E0, Z.min_r, (proj2 (Z.ltb_lt _ _)), Z.add_0_r by lia.
    cbn [Z.to_nat take drop write_user]. rewrite pipe_step_id by done. do 2 (split; [done|]). split; [|done].
    rewrite E0 in Hsize. rewrite (bind_ok _ _ _ _ _ (pipe_wait_closed s i n PIPE_SIZE Hn Hsize ltac:(destruct Hw; [lia|done]))).
    done. }
  rewrite (bind_ok _ _ _ _ _ (pipe_wait_run s i n PIPE_SIZE _ Hn Hsize E0)).
  rewrite (bind_ok _ _ _ _ _ (get_zone_ok _ _ _ _ _ Hn (po_tail _ _ _ _ _ Hok))).
  set (chars := Z.min (Z.min (PAGE_SIZE - tail) count) (used head tail)).
  pose proof (po_tail_range _ _ _ _ _ Hok) as Htr.
  destruct (read_round s i n head tail chars buf Hok) as (n1 & E1 & E2 & Hrun & Hok1 & Hb1); [lia|lia|lia|].
  set (s1 := pipe_step s i n1 _ _) in *.
  rewrite (after_round _ _ _ _ _ _ Hrun).
  assert (used head ((tail + chars) mod PAGE_SIZE) = used head tail - chars) as Eu by (unfold used, PAGE_SIZE in *; dmlia).
  destruct (IH s1 n1 ((tail + chars) mod PAGE_SIZE) (count - chars) (buf + chars) (read + chars) Hok1)
    as (n' & tail' & E1' & E2' & Hrun' & Hok' & Hb'); [lia|lia|rewrite Eu; destruct Hw; [left; lia|right; congruence]|].
  rewrite Eu, Hb1 in *. unfold s1 in *. rewrite pipe_step_twice in *.
  set (l := pipe_bytes s n head tail) in *.
  change (memory (pipe_step s i n1 _ _)) with (memory s) in *.
  change (user (pipe_step s i n1 _ _)) with (write_user (take (Z.to_nat chars) l) buf (user s)) in *.
  set (k := Z.min count (used head tail)).
  assert (lenz l = used head tail) as Hl by (apply ring_length; lia).
  assert (Z.min (count - chars) (used head tail - chars) = k - chars) as Ek by lia. rewrite Ek in *.
  assert (write_user (take (Z.to_nat (k - chars)) (drop (Z.to_nat chars) l)) (buf + chars)
    (write_user (take (Z.to_nat chars) l) buf (user s)) = write_user (take (Z.to_nat k) l) buf (user s)) as Ew.
  { replace (take (Z.to_nat k) l) with (take (Z.to_nat chars) l ++ take (Z.to_nat (k - chars)) (drop (Z.to_nat chars) l)).
    - rewrite write_user_app. f_equal. unfold lenz in *. rewrite length_take. lia.
    - replace (Z.to_nat k) with (Z.to_nat chars + Z.to_nat (k - chars))%nat by lia. by rewrite take_take_drop. }
  rewrite Ew in *. exists n', tail'. cbv zeta. split; [congruence|]. split; [congruence|]. split; [|split].
  - rewrite Hrun'. destruct (Z.ltb_spec (used head tail - chars) (count - chars)), (Z.ltb_spec (used head tail) count);
      try lia; do 2 f_equal; lia.
  - done.
  - rewrite Hb', drop_drop. f_equal. lia.
Qed.

(** C11: a pipe is a queue of bytes.  [write_pipe], when there is room for
    [count] bytes, does not wait, returns [count] and appends the bytes of the
    writer's memory.  [read_pipe], when there are [count] bytes or no writer
    is left, returns the number of bytes it takes, [count] or all there are;
    they are the first ones, in order, and stay no longer in the pipe.  Both
    wake the other end and change nothing else. *)
Theorem pipe_refines i s n head tail count buf :
  pipe_ok s i n head tail -> 0 <= count ->
  (count <= PAGE_SIZE - 1 - used head tail ->
   exists n' m head', let s' := pipe_step s i n' m (user s) in
     write_pipe i buf count s = Ok count (s' <| woken ::= cons (i_wait i) |>) /\
     pipe_ok s' i n' head' tail /\
     pipe_bytes s' n' head' tail = pipe_bytes s n head tail ++ (u8 <$> read_user (Z.to_nat count) buf (user s))) /\
  (count <= used head tail \/ i_count n <> 2 ->
   exists n' tail' k, k = Z.min count (lenz (pipe_bytes s n head tail)) /\
     let s' := pipe_step s i n' (memory s) (write_user (take (Z.to_nat k) (pipe_bytes s n head tail)) buf (user s)) in
     read_pipe i buf count s = Ok k (s' <| woken ::= cons (i_wait i) |>) /\
     pipe_ok s' i n' head tail' /\
     pipe_bytes s' n' head tail' = drop (Z.to_nat k) (pipe_bytes s n head tail)).
Proof.
  intros Hok Hc. split.
  - intros Hroom. destruct (write_loop (Z.to_nat count) i s n head tail count buf 0 Hok) as (n' & m & head' & _ & _ & Hrun & Hok' & Hb);
      [lia|lia|]. exists n', m, head'. cbv zeta. split; [|done].
    unfold write_pipe. by rewrite (bind_ok _ _ _ _ _ Hrun).
  - intros Hw. destruct (read_loop (Z.to_nat count) i s n head tail count buf 0 Hok Hc) as (n' & tail' & _ & _ & Hrun & Hok' & Hb);
      [lia|done|]. exists n', tail', (Z.min count (used head tail)).
    unfold pipe_bytes at 1. rewrite ring_length by apply used_range. split; [done|]. cbv zeta. split; [|done].
    unfold read_pipe. rewrite (bind_ok _ _ _ _ _ Hrun). by destruct (used head tail <? count).
Qed.
End loops.
