(* ===== verification/FileBlocks.v ===== *)
(** * The blocks of a file

    What a block of a file is, through the zones of its inode and the blocks of
    zone numbers, when the blocks are in the cache; and that [bmap] finds it
    without changing anything. *)

From Stdlib Require Import ZArith Lia.
From stdpp Require Import base numbers list gmap strings.
From S2P Require Import Prelude Memory Task Sched Kernel Blk Buffer BufferHash BufferInv.
From S2P Require Import Posix Bitmap Inode FileDev.

(** ** Blocks in the cache *)

(** Buffer [bh] holds the block, read, unlocked, and with room to count one
    more user. *)
Record usable (l : list buffer_head) (dev block bh : Z) (b : buffer_head) : Prop := {
  us_entry : getz l bh = Some b;
  us_dev : b_dev b = dev;
  us_block : b_blocknr b = block;
  us_read : b_uptodate b <> 0;
  us_lock : b_lock b = 0;
  us_count : 0 <= b_count b < 255
}.

Definition in_cache (l : list buffer_head) (dev block : Z) (data : list Z) : Prop :=
  exists bh b, usable l dev block bh b /\ b_data b = data.

(** ** The zones of a file *)

(** Entry [k] of the block [z] of zone numbers. *)
Definition entry_at (l : list buffer_head) (dev z k v : Z) : Prop :=
  exists data, in_cache l dev z data /\ le16 data (2 * k) = Some v.

(** The zone of block [k], 0 for a hole. *)
Definition zone_of (l : list buffer_head) (n : m_inode) (k z : Z) : Prop :=
  if k <? 7 then getz (i_zone n) k = Some z else
  if k <? 519 then
    exists t, getz (i_zone n) 7 = Some t /\
      (t = 0 /\ z = 0 \/ t <> 0 /\ entry_at l (i_dev n) t (k - 7) z)
  else
    exists t, getz (i_zone n) 8 = Some t /\
      (t = 0 /\ z = 0 \/ t <> 0 /\ exists u, entry_at l (i_dev n) t ((k - 519) / 512) u /\
        (u = 0 /\ z = 0 \/ u <> 0 /\ entry_at l (i_dev n) u ((k - 519) mod 512) z)).

Definition MAX_BLOCKS : Z := 7 + 512 + 512 * 512.

(** The contents of block [k]: zeros in a hole. *)
Definition file_block (l : list buffer_head) (n : m_inode) (k : Z) (data : list Z) : Prop :=
  exists z, zone_of l n k z /\
    (z = 0 /\ data = replicate 1024 0 \/ z <> 0 /\ in_cache l (i_dev n) z data /\ lenz data = 1024).

(** Releasing a buffer wakes those who wait for one, and nobody else notices. *)
Definition released (n : nat) (s : kernel) : kernel := s <| woken ::= app (replicate n buffer_wait) |>.

Lemma released_0 s : released 0 s = s.
Proof. by destruct s. Qed.
Lemma released_add n m s : released n (released m s) = released (n + m) s.
Proof.
  transitivity (s <| woken := replicate n buffer_wait ++ replicate m buffer_wait ++ woken s |>); [done|].
  by rewrite app_assoc, <- replicate_add.
Qed.
Lemma released_inv n s : cache_inv s -> cache_inv (released n s).
Proof. intros H. exact H. Qed.

Section run.
Context {E : Env}.

(** [bread] of a block that is in the cache. *)
Definition held (b : buffer_head) : buffer_head := b <| b_count ::= Z.add 1 |>.

Lemma bread_cached s dev block bh b :
  cache_inv s -> dev <> 0 -> usable (bhs s) dev block bh b ->
  bread dev block s = Ok (Some bh) (put_bh bh (held b) s).
Proof.
  intros Hs Hd [Hb Ed Eb Hu Hl Hc]. unfold bread, bread_with, getblk. cbn [getblk_n getblk_loop]. unfold getblk_pass.
  pose proof (get_from_hash_table_hit s dev block bh b Hs Hd Hb Ed Eb Hl) as Hit.
  assert (b <| b_count ::= fun c => u8 (c + 1) |> = held b) as Hheld.
  { refine (f_equal (fun c => b <| b_count := c |>) _). rewrite u8_id by (unfold is_u8; lia). lia. }
  rewrite Hheld in Hit. change (s <| bhs ::= _ |>) with (put_bh bh (held b) s) in Hit.
  rewrite bind_assoc. rewrite (bind_ok _ _ s (Some bh) (put_bh bh (held b) s)).
  2:{ unfold bind at 1. by rewrite Hit. }
  rewrite (bind_ok _ _ _ bh (put_bh bh (held b) s)) by done.
  run (get_bh_ok _ _ _ (get_put_bh bh b (held b) s Hb)).
  change (b_uptodate (held b)) with (b_uptodate b). unfold istrue. by rewrite (proj2 (Z.eqb_neq _ 0) Hu).
Qed.

Lemma brelse_held s bh b :
  getz (bhs s) bh = Some (held b) -> b_lock b = 0 -> 0 <= b_count b < 255 ->
  brelse (Some bh) s = Ok tt (released 1 (put_bh bh b s)).
Proof.
  intros Hb Hl Hc. unfold brelse. run (wait_on_buffer_free s bh (held b) Hb Hl). run (get_bh_ok _ _ _ Hb).
  change (b_count (held b)) with (1 + b_count b). unfold istrue. rewrite (proj2 (Z.eqb_neq (1 + b_count b) 0)) by lia.
  cbn [negb]. run (set_bh_ok s bh (held b) (fun b => b <| b_count ::= fun c => u8 (c - 1) |>) Hb).
  rewrite wake_up_ok. f_equal. refine (f_equal (fun b => put_bh bh b s <| woken ::= cons buffer_wait |>) _).
  transitivity (b <| b_count := u8 (1 + b_count b - 1) |>); [done|].
  rewrite u8_id by (unfold is_u8; lia). replace (1 + b_count b - 1) with (b_count b) by lia. by destruct b.
Qed.

Lemma put_held_id s bh b : getz (bhs s) bh = Some b -> put_bh bh b (put_bh bh (held b) s) = s.
Proof. intros H. rewrite put_bh_put. by apply put_bh_id. Qed.

(** ** [bmap] finds the zone *)

Lemma block_zone_ok s inode n k z :
  getz (inode_table s) inode = Some n -> getz (i_zone n) k = Some z -> get_zone inode k s = Ok z s.
Proof. intros Hn Hz. unfold get_zone. run (get_inode_ok _ _ _ Hn). by rewrite Hz. Qed.

Lemma bmap_zone_ok s inode n k z create :
  getz (inode_table s) inode = Some n -> getz (i_zone n) k = Some z -> create = false \/ z <> 0 ->
  bmap_zone inode k create s = Ok tt s.
Proof.
  intros Hn Hz Hc. unfold bmap_zone. run (block_zone_ok _ _ _ _ _ Hn Hz). unfold istrue.
  destruct Hc as [-> | Hc]; [done|]. rewrite (proj2 (Z.eqb_neq z 0) Hc). by destruct create.
Qed.

Lemma bmap_indirect_ok s inode n t k v create :
  cache_inv s -> getz (inode_table s) inode = Some n -> i_dev n <> 0 -> entry_at (bhs s) (i_dev n) t k v ->
  create = false \/ v <> 0 -> bmap_indirect inode t k create s = Ok v (released 1 s).
Proof.
  intros Hs Hn Hd (data & (bh & b & Hu & <-) & He) Hc. pose proof Hu as [Hb _ _ _ Hl Hcount].
  unfold bmap_indirect. run (get_inode_ok _ _ _ Hn). run (bread_cached s _ _ _ _ Hs Hd Hu).
  set (s1 := put_bh bh (held b) s). assert (getz (inode_table s1) inode = Some n) as Hn1 by exact Hn.
  run (get_inode_ok _ _ _ Hn1). assert (getz (bhs s1) bh = Some (held b)) as Hb1 by exact (get_put_bh _ _ _ _ Hb).
  assert (bmap_entry (i_dev n) bh k create s1 = Ok v s1) as Hent.
  { unfold bmap_entry, zone_entry. rewrite bind_assoc. run (get_bh_ok _ _ _ Hb1).
    change (b_data (held b)) with (b_data b). rewrite He. cbn [valid]. run_step. unfold istrue.
    destruct Hc as [-> | Hc]; [done|]. rewrite (proj2 (Z.eqb_neq v 0) Hc). by destruct create. }
  run Hent. run (brelse_held s1 bh b Hb1 Hl Hcount). by unfold s1; rewrite put_held_id.
Qed.

Lemma _bmap_ok s inode n k z create :
  cache_inv s -> getz (inode_table s) inode = Some n -> i_dev n <> 0 -> 0 <= k < MAX_BLOCKS ->
  zone_of (bhs s) n k z -> create = false \/ z <> 0 ->
  exists m, _bmap inode k create s = Ok z (released m s).
Proof.
  intros Hs Hn Hd Hk Hz Hc. unfold MAX_BLOCKS in Hk. unfold _bmap, zone_of in *.
  rewrite (proj2 (Z.ltb_ge k 0)), (proj2 (Z.leb_gt _ k)) by lia. destruct (k <? 7) eqn:H7.
  { exists 0%nat. rewrite released_0. run (bmap_zone_ok _ _ _ _ _ _ Hn Hz Hc). exact (block_zone_ok _ _ _ _ _ Hn Hz). }
  replace (k - 7 <? 512) with (k <? 519) by (apply eq_true_iff_eq; rewrite !Z.ltb_lt; lia).
  destruct (k <? 519) eqn:H519.
  - destruct Hz as (t & Ht & [[-> ->] | [Ht0 He]]).
    + exists 0%nat. rewrite released_0. destruct Hc as [-> |]; [|done].
      run (bmap_zone_ok _ _ _ _ _ false Hn Ht (or_introl eq_refl)). by run (block_zone_ok _ _ _ _ _ Hn Ht).
    + exists 1%nat. run (bmap_zone_ok _ _ _ _ _ create Hn Ht (or_intror Ht0)). run (block_zone_ok _ _ _ _ _ Hn Ht).
      unfold istrue. rewrite (proj2 (Z.eqb_neq t 0) Ht0). by apply (bmap_indirect_ok _ _ n).
  - destruct Hz as (t & Ht & [[-> ->] | (Ht0 & u & He & Hz)]).
    + exists 0%nat. rewrite released_0. destruct Hc as [-> |]; [|done].
      run (bmap_zone_ok _ _ _ _ _ false Hn Ht (or_introl eq_refl)). by run (block_zone_ok _ _ _ _ _ Hn Ht).
    + run (bmap_zone_ok _ _ _ _ _ create Hn Ht (or_intror Ht0)). run (block_zone_ok _ _ _ _ _ Hn Ht).
      unfold istrue. rewrite (proj2 (Z.eqb_neq t 0) Ht0). cbn [negb].
      replace (k - 7 - 512) with (k - 519) by lia. rewrite Z.shiftr_div_pow2 by lia. change (2 ^ 9) with 512.
      change 511 with (2 ^ 9 - 1). rewrite land_low by lia. change (2 ^ 9) with 512.
      assert (create = false \/ u <> 0) as Hcu by (destruct Hz as [[-> ->] | [? _]]; tauto).
      run (bmap_indirect_ok _ _ n _ _ _ create Hs Hn Hd He Hcu). destruct Hz as [[-> ->] | [Hu0 Hz]].
      * by exists 1%nat.
      * rewrite (proj2 (Z.eqb_neq u 0) Hu0). cbn [negb]. exists 2%nat. rewrite <- (released_add 1 1).
        apply (bmap_indirect_ok _ _ n); try done.
Qed.
End run.
