(* ===== verification/FileRead.v ===== *)
(** * Reading a file gives its bytes

    A file is the bytes of its blocks, one after the other; [sys_read] copies
    those from the position on, up to the size, to the user. *)

From Stdlib Require Import ZArith Lia.
From stdpp Require Import base numbers list gmap strings.
From S2P Require Import Prelude Memory Task Sched Kernel Blk Buffer BufferInv.
From S2P Require Import Posix Bitmap Inode FileDev CharDev Files UserMem FileBlocks FileCounts.

(** Byte [i] of a file with the given blocks, and [n] bytes from [pos] on. *)
Definition file_byte (blocks : Z -> list Z) (i : Z) : Z := default 0 (getz (blocks (i / 1024)) (i mod 1024)).
Definition file_bytes (blocks : Z -> list Z) (pos n : Z) : list Z := file_byte blocks <$> seqZ pos n.

Lemma lenz_file_bytes blocks pos n : 0 <= n -> lenz (file_bytes blocks pos n) = n.
Proof. intros H. unfold file_bytes, lenz. rewrite length_fmap, length_seqZ. lia. Qed.

Lemma file_bytes_app blocks pos n m : 0 <= n -> 0 <= m ->
  file_bytes blocks pos (n + m) = file_bytes blocks pos n ++ file_bytes blocks (pos + n) m.
Proof. intros Hn Hm. unfold file_bytes. rewrite seqZ_app, fmap_app by lia. done. Qed.

(** The part of a block that lies in the range. *)
Lemma file_bytes_block blocks pos n data :
  0 <= pos -> blocks (pos / 1024) = data -> lenz data = 1024 -> 0 <= n -> pos mod 1024 + n <= 1024 ->
  file_bytes blocks pos n = (fun k => default 0 (getz data (pos mod 1024 + k))) <$> seqZ 0 n.
Proof.
  intros Hp Hd Hl Hn Hc. unfold file_bytes. replace (seqZ pos n) with (Z.add pos <$> seqZ 0 n)
    by (rewrite fmap_add_seqZ; f_equal; lia).
  rewrite <- list_fmap_compose. apply list_fmap_ext. intros i k Hk. apply lookup_seqZ in Hk. cbn.
  unfold file_byte. assert ((pos + k) / 1024 = pos / 1024) as -> by dmlia.
  assert ((pos + k) mod 1024 = pos mod 1024 + k) as -> by dmlia. by rewrite Hd.
Qed.

(** ** Copying to the user *)

Lemma put_bytes_ok (f : Z -> Z) (body : Z -> M kernel unit) n j buf s :
  (forall k s', 0 <= k < j + Z.of_nat n -> bhs s' = bhs s -> body k s' = put_fs_byte (f k) (buf + k) s') -> 0 <= j ->
  for_range j n body s = Ok tt (s <| user ::= write_user (f <$> seqZ j (Z.of_nat n)) (buf + j) |>).
Proof.
  revert j s. induction n as [|n IH]; intros j s Hb Hj; cbn [for_range]; [by destruct s|].
  rewrite (bind_ok _ _ _ tt (s <| user ::= fun u => <[u32 (buf + j) := u8 (f j)]> u |>)) by (rewrite Hb by (done || lia); done).
  rewrite IH by (lia || (intros k s' Hk Hs'; apply Hb; [lia|exact Hs'])).
  rewrite (seqZ_cons j (Z.of_nat (Datatypes.S n))) by lia. replace (Z.pred (Z.of_nat (Datatypes.S n))) with (Z.of_nat n) by lia.
  replace (buf + (j + 1)) with (buf + j + 1) by lia. done.
Qed.

Lemma write_user_app_over l l' a (s : kernel) :
  s <| user ::= write_user (l ++ l') a |> = s <| user ::= write_user l a |> <| user ::= write_user l' (a + lenz l) |>.
Proof. exact (f_equal (fun u => s <| user := u |>) (write_user_app l l' a (user s))). Qed.

Section read.
Context {E : Env}.

Lemma block_to_user_ok s bh b off buf n :
  getz (bhs s) bh = Some b -> 0 <= off -> 0 <= n -> off + n <= lenz (b_data b) ->
  block_to_user bh off buf n s =
    Ok tt (s <| user ::= write_user ((fun k => default 0 (getz (b_data b) (off + k))) <$> seqZ 0 n) buf |>).
Proof.
  intros Hb Ho Hn Hl. unfold block_to_user. rewrite (put_bytes_ok (fun k => default 0 (getz (b_data b) (off + k))) _ _ _ buf); [|..].
  - rewrite Z2Nat.id, Z.add_0_r by lia. done.
  - intros k s' Hk Hs'. rewrite <- Hs' in Hb. run (get_bh_ok _ _ _ Hb).
    destruct (getz_is_Some (b_data b) (off + k)) as [c Hc]; [lia|]. by rewrite Hc.
  - lia.
Qed.

Lemma zero_user_ok s buf n : 0 <= n ->
  zero_user buf n s = Ok tt (s <| user ::= write_user ((fun k => default 0 (getz (replicate 1024 0) k)) <$> seqZ 0 n) buf |>).
Proof.
  intros Hn. unfold zero_user. rewrite (put_bytes_ok (fun k => default 0 (getz (replicate 1024 0) k)) _ _ _ buf); [|..].
  - rewrite Z2Nat.id, Z.add_0_r by lia. done.
  - intros k s' Hk Hs'. destruct (decide (k < 1024)); [by rewrite getz_replicate by lia|].
    rewrite (proj2 (getz_None _ _)); [done|]. right. rewrite lenz_replicate. lia.
  - lia.
Qed.

(** ** One round of the loop *)

(** [n] bytes are read into [buf]. *)
Definition read_step (filp : Z) (f : file) (l : list Z) (buf : Z) (s : kernel) : kernel :=
  s <| file_table ::= fun t => setz t filp (f <| f_pos := f_pos f + lenz l |>) |> <| user ::= write_user l buf |>.

Lemma block_at_ok s inode n k pos data :
  cache_inv s -> getz (inode_table s) inode = Some n -> i_dev n <> 0 -> 0 <= pos -> k = pos / 1024 -> k < MAX_BLOCKS ->
  file_block (bhs s) n k data ->
  exists m, lenz data = 1024 /\
    ((data = replicate 1024 0 /\ block_at inode pos s = Ok (Some None) (released m s)) \/
     exists bh b, getz (bhs s) bh = Some b /\ b_data b = data /\ b_lock b = 0 /\ 0 <= b_count b < 255 /\
       block_at inode pos s = Ok (Some (Some bh)) (put_bh bh (held b) (released m s))).
Proof.
  intros Hs Hn Hd Hp -> Hk (z & Hz & H).
  destruct (_bmap_ok s inode n (pos / 1024) z false Hs Hn Hd) as [m Hm]; [split; [apply Z.div_pos|]; lia|done|by left|].
  exists m. unfold block_at, bmap. change BLOCK_SIZE with 1024. rewrite Z.quot_div_nonneg by lia. rewrite (bind_ok _ _ _ _ _ Hm).
  destruct H as [[-> ->] | (Hz0 & (bh & b & Hu & <-) & Hl)].
  - split; [apply lenz_replicate|]. by left.
  - split; [done|]. right. exists bh, b. destruct Hu as [Hb Ed Eb Hu Hlk Hc]. do 4 (split; [done|]).
    unfold istrue. rewrite (proj2 (Z.eqb_neq z 0) Hz0). cbn [negb].
    assert (getz (inode_table (released m s)) inode = Some n) as Hn' by exact Hn. run (get_inode_ok _ _ _ Hn').
    assert (usable (bhs (released m s)) (i_dev n) z bh b) as Hu' by (by split).
    by run (bread_cached (released m s) _ _ _ _ (released_inv m s Hs) Hd Hu').
Qed.

Lemma file_read_round fuel s inode n filp f buf left blocks :
  cache_inv s -> getz (inode_table s) inode = Some n -> i_dev n <> 0 -> getz (file_table s) filp = Some f ->
  0 <= f_pos f -> f_pos f + left < 2147483648 -> f_pos f / 1024 < MAX_BLOCKS -> 0 < left ->
  file_block (bhs s) n (f_pos f / 1024) (blocks (f_pos f / 1024)) ->
  exists m, let chars := Z.min (1024 - f_pos f mod 1024) left in
    file_read_loop (Datatypes.S fuel) inode filp buf left s =
    file_read_loop fuel inode filp (buf + chars) (left - chars)
      (released m (read_step filp f (file_bytes blocks (f_pos f) chars) buf s)).
Proof.
  intros Hs Hn Hd Hf Hp Hmax Hk Hleft Hblk. set (pos := f_pos f) in *. set (chars := Z.min (1024 - pos mod 1024) left).
  pose proof (Z.mod_pos_bound pos 1024 ltac:(lia)) as Hmod.
  destruct (block_at_ok s inode n _ pos _ Hs Hn Hd Hp eq_refl Hk Hblk) as (m & Hlen & Hcase).
  pose proof (file_bytes_block blocks pos chars _ Hp eq_refl Hlen ltac:(lia) ltac:(lia)) as Hbytes.
  pose proof (lenz_file_bytes blocks pos chars ltac:(lia)) as Hcl.
  assert (f <| f_pos ::= fun p => s32 (p + chars) |> = f <| f_pos := pos + chars |>) as Hfp.
  { refine (f_equal (fun p => f <| f_pos := p |>) _). apply s32_id. unfold is_s32. lia. }
  cbn [file_read_loop]. rewrite (proj2 (Z.eqb_neq left 0)) by lia. run (get_file_ok _ _ _ Hf). fold pos.
  destruct Hcase as [[Hdata Hat] | (bh & b & Hb & Hdata & Hlk & Hc & Hat)]; rewrite (bind_ok _ _ _ _ _ Hat).
  - exists m. cbv zeta. assert (getz (file_table (released m s)) filp = Some f) as Hf' by exact Hf.
    run (get_file_ok _ _ _ Hf'). fold pos. change BLOCK_SIZE with 1024. rewrite Z.rem_mod_nonneg by lia. fold chars.
    run (set_file_ok _ _ _ (fun f => f <| f_pos ::= fun p => s32 (p + chars) |>) Hf'). rewrite Hfp.
    rewrite (bind_ok _ _ _ _ _ (zero_user_ok _ buf chars ltac:(lia))).
    assert ((fun k => default 0 (getz (replicate 1024 0) k)) <$> seqZ 0 chars = file_bytes blocks pos chars) as ->.
    { rewrite Hbytes, Hdata. apply list_fmap_ext. intros i k Hi. apply lookup_seqZ in Hi. rewrite !getz_replicate by lia. done. }
    unfold read_step. rewrite Hcl. reflexivity.
  - exists (1 + m)%nat. cbv zeta. set (s1 := put_bh bh (held b) (released m s)).
    assert (getz (file_table s1) filp = Some f) as Hf' by exact Hf.
    run (get_file_ok _ _ _ Hf'). fold pos. change BLOCK_SIZE with 1024. rewrite Z.rem_mod_nonneg by lia. fold chars.
    run (set_file_ok _ _ _ (fun f => f <| f_pos ::= fun p => s32 (p + chars) |>) Hf'). rewrite Hfp.
    set (s2 := s1 <| file_table ::= _ |>).
    assert (getz (bhs s2) bh = Some (held b)) as Hb2 by exact (get_put_bh bh b (held b) (released m s) Hb).
    rewrite bind_assoc. rewrite (bind_ok _ _ _ _ _ (block_to_user_ok s2 bh (held b) (pos mod 1024) buf chars Hb2
      ltac:(lia) ltac:(lia) ltac:(change (b_data (held b)) with (b_data b); rewrite Hdata; lia))).
    change (b_data (held b)) with (b_data b). rewrite Hdata, <- Hbytes.
    set (s3 := s2 <| user ::= _ |>). assert (getz (bhs s3) bh = Some (held b)) as Hb3 by exact Hb2.
    run (brelse_held s3 bh b Hb3 Hlk Hc). f_equal. rewrite <- released_add.
    transitivity (released 1 (released m (read_step filp f (file_bytes blocks pos chars) buf (put_bh bh b (put_bh bh (held b) s)))));
      [|by rewrite put_held_id]. unfold read_step. rewrite Hcl. reflexivity.
Qed.

(** ** The whole call *)

Lemma read_step_nil filp f buf s : getz (file_table s) filp = Some f -> read_step filp f [] buf s = s.
Proof.
  intros Hf. unfold read_step. cbn [lenz length Z.of_nat]. change (lenz (@nil Z)) with 0. rewrite Z.add_0_r.
  transitivity (s <| file_table := file_table s |> <| user := user s |>); [|by destruct s].
  refine (f_equal (fun l => s <| file_table := l |> <| user := user s |>) _).
  transitivity (setz (file_table s) filp f); [by destruct f|]. by apply setz_id.
Qed.

Lemma read_step_step filp f l l' buf m s :
  read_step filp (f <| f_pos := f_pos f + lenz l |>) l' (buf + lenz l) (released m (read_step filp f l buf s)) =
  released m (read_step filp f (l ++ l') buf s).
Proof.
  unfold read_step at 3. rewrite write_user_app_over, lenz_app, Z.add_assoc.
  exact (f_equal (fun t => released m (s <| file_table := t |> <| user ::= write_user l buf |> <| user ::= write_user l' (buf + lenz l) |>))
    (setz_setz (file_table s) filp _ _)).
Qed.

Lemma read_loop_ok fuel s inode n filp f buf left blocks :
  cache_inv s -> getz (inode_table s) inode = Some n -> i_dev n <> 0 -> getz (file_table s) filp = Some f ->
  0 <= f_pos f -> f_pos f + left < 2147483648 -> 0 <= left <= Z.of_nat fuel ->
  (forall k, f_pos f / 1024 <= k -> 1024 * k < f_pos f + left -> k < MAX_BLOCKS /\ file_block (bhs s) n k (blocks k)) ->
  exists m, file_read_loop fuel inode filp buf left s =
    Ok 0 (released m (read_step filp f (file_bytes blocks (f_pos f) left) buf s)).
Proof.
  revert s f buf left. induction fuel as [|fuel IH]; intros s f buf left Hs Hn Hd Hf Hp Hmax Hfuel Hblk.
  { assert (left = 0) as -> by lia. exists 0%nat. by rewrite released_0, read_step_nil. }
  destruct (decide (left = 0)) as [-> | Hleft].
  { exists 0%nat. by rewrite released_0, read_step_nil. }
  pose proof (Z.mod_pos_bound (f_pos f) 1024 ltac:(lia)) as Hmod.
  destruct (Hblk (f_pos f / 1024)) as [Hk Hb]; [lia|dmlia|].
  destruct (file_read_round fuel s inode n filp f buf left blocks) as [m Hm]; [done..|lia|done|]. cbv zeta in Hm.
  set (chars := Z.min (1024 - f_pos f mod 1024) left) in *. set (l := file_bytes blocks (f_pos f) chars) in *.
  assert (lenz l = chars) as Hl by (apply lenz_file_bytes; lia).
  destruct (IH (released m (read_step filp f l buf s)) (f <| f_pos := f_pos f + lenz l |>) (buf + chars) (left - chars)) as [m' Hm'];
    [exact Hs|exact Hn|exact Hd| |upd; lia|upd; lia|lia| |].
  - upd. apply getz_setz_eq. by apply getz_Some_lt in Hf.
  - upd. intros k Hk1 Hk2. apply Hblk; [|lia]. rewrite Hl in Hk1. transitivity ((f_pos f + chars) / 1024); [|done]. apply Z.div_le_mono; lia.
  - exists (m' + m)%nat. rewrite Hm, Hm'. f_equal. upd. rewrite Hl, <- Hl, read_step_step, released_add.
    rewrite Hl. unfold l. rewrite <- file_bytes_app by lia. replace (chars + (left - chars)) with left by lia. done.
Qed.

(** The kinds of a file exclude each other. *)
Lemma regular_kind m : S_ISREG m = true -> S_ISCHR m = false /\ S_ISBLK m = false.
Proof. unfold S_ISREG, S_ISCHR, S_ISBLK. intros ->%Z.eqb_eq. done. Qed.

(** [sys_read] on a regular file, to the reading of the bytes up to the size. *)
Lemma sys_read_ok s t fd h f inode n buf count blocks c :
  c = Z.max 0 (Z.min count (i_size n - f_pos f)) ->
  cache_inv s -> current_task (sch s) = Some t -> 0 <= fd < NR_OPEN -> getz (filp t) fd = Some (Some h) ->
  getz (file_table s) h = Some f -> f_inode f = Some inode -> getz (inode_table s) inode = Some n ->
  i_pipe n = 0 -> S_ISREG (i_mode n) = true -> i_dev n <> 0 -> 0 < count -> 0 <= f_pos f ->
  0 <= i_size n < 2147483648 -> f_pos f + count < 2147483648 -> verify_area buf count s = Ok tt s ->
  (forall k, f_pos f / 1024 <= k -> 1024 * k < f_pos f + c -> k < MAX_BLOCKS /\ file_block (bhs s) n k (blocks k)) ->
  (c = 0 /\ sys_read fd buf count s = Ok 0 s) \/
  (0 < c /\ exists m, sys_read fd buf count s =
     Ok c (released m (read_step h f (file_bytes blocks (f_pos f) c) buf s)
             <| inode_table ::= fun l => setz l inode (n <| i_atime := u32 (CURRENT_TIME (sch s)) |>) |>)).
Proof.
  intros Ec Hs Ht Hfd Hy Hf Hfi Hn Hpipe Hreg Hd Hc Hp Hsz Hmax Hv Hblk. destruct (regular_kind _ Hreg) as [Hchr Hblkdev].
  assert (sys_read fd buf count s = (if c <=? 0 then ret 0 else file_read inode h buf c) s) as ->.
  { unfold sys_read. rewrite (proj2 (Z.ltb_ge count 0)) by lia. run (file_of_ok s t fd _ Ht Hfd Hy).
    rewrite (proj2 (Z.eqb_neq count 0)) by lia. run Hv. run (get_file_ok _ _ _ Hf). rewrite Hfi. cbn [valid]. run_step.
    run (get_inode_ok _ _ _ Hn). rewrite Hpipe, Hchr, Hblkdev, Hreg, orb_true_r. cbn [istrue Z.eqb negb].
    unfold read_count. rewrite !u32_id by (unfold is_u32; lia). destruct (Z.ltb_spec (i_size n) (count + f_pos f)).
    - rewrite s32_id by (unfold is_s32; lia). destruct (Z.leb_spec (i_size n - f_pos f) 0), (Z.leb_spec c 0); try lia; [done|].
      by replace c with (i_size n - f_pos f) by lia.
    - destruct (Z.leb_spec count 0), (Z.leb_spec c 0); try lia. by replace c with count by lia. }
  destruct (decide (c = 0)) as [Hc0|Hc0]; [left; split; [done|]; by rewrite Hc0|]. right. split; [lia|]. rewrite (proj2 (Z.leb_gt c 0)) by lia.
  destruct (read_loop_ok (Z.to_nat c) s inode n h f buf c blocks) as [m Hm]; try done; try lia. exists m.
  unfold file_read. rewrite (proj2 (Z.leb_gt c 0)) by lia. rewrite (bind_ok _ _ _ _ _ Hm). cbv beta. run_step.
  rewrite Z.sub_0_r. unfold istrue. rewrite (proj2 (Z.eqb_neq c 0)) by lia. cbn [negb].
  match goal with |- bind (set_inode _ ?g) _ ?s1 = _ => assert (getz (inode_table s1) inode = Some n) as Hn1 by exact Hn;
    run (set_inode_ok s1 inode n g Hn1) end. reflexivity.
Qed.
(** C9: reading a regular file. When nothing has to be waited for, since the
    blocks in question are in the cache, and the user's pages are writable,
    [sys_read] returns the number of bytes from the position to the size of
    the file, at most [count]; these bytes of the file, zeros where it has
    holes, are then at [buf], whatever blocks they come from, directly or
    through one or two blocks of zone numbers. The position moves by as many,
    the inode's time of access is now, and nothing else changes but that those
    who wait for a buffer were woken. *)
Theorem sys_read_spec s t fd h f inode n buf count blocks (c := Z.max 0 (Z.min count (i_size n - f_pos f))) :
  cache_inv s -> current_task (sch s) = Some t -> 0 <= fd < NR_OPEN -> getz (filp t) fd = Some (Some h) ->
  getz (file_table s) h = Some f -> f_inode f = Some inode -> getz (inode_table s) inode = Some n ->
  i_pipe n = 0 -> S_ISREG (i_mode n) = true -> i_dev n <> 0 -> 0 < count -> 0 <= f_pos f ->
  0 <= i_size n < 2147483648 -> f_pos f + count < 2147483648 -> verify_area buf count s = Ok tt s ->
  (forall k, f_pos f / 1024 <= k -> 1024 * k < f_pos f + c -> k < MAX_BLOCKS /\ file_block (bhs s) n k (blocks k)) ->
  (c = 0 /\ sys_read fd buf count s = Ok 0 s) \/
  (0 < c /\ exists m, sys_read fd buf count s =
     Ok c (released m (read_step h f (file_bytes blocks (f_pos f) c) buf s)
             <| inode_table ::= fun l => setz l inode (n <| i_atime := u32 (CURRENT_TIME (sch s)) |>) |>)).
Proof. apply sys_read_ok. reflexivity. Qed.
End read.
