(* ===== verification/FileWrite.v ===== *)
(** * Writing a file changes its bytes

    What [sys_write] does to the blocks of a file that has them already, and
    that reading gives back what was written. *)

From Stdlib Require Import ZArith Lia.
From stdpp Require Import base numbers list gmap strings.
From S2P Require Import Prelude Memory Task Sched Kernel Blk Buffer BufferInv.
From S2P Require Import Posix Bitmap Inode FileDev CharDev Files UserMem FileBlocks FileCounts FileRead.

(** ** The map of a file *)

(** The zone of block [k] is [z], found through the blocks [ts]. *)
Definition zone_path (l : list buffer_head) (n : m_inode) (k : Z) (ts : list Z) (z : Z) : Prop :=
  if k <? 7 then ts = [] /\ getz (i_zone n) k = Some z else
  if k <? 519 then
    exists t, getz (i_zone n) 7 = Some t /\
      (t = 0 /\ z = 0 \/ t <> 0 /\ ts = [t] /\ entry_at l (i_dev n) t (k - 7) z)
  else
    exists t, getz (i_zone n) 8 = Some t /\
      (t = 0 /\ z = 0 \/ t <> 0 /\ exists u, entry_at l (i_dev n) t ((k - 519) / 512) u /\
        (u = 0 /\ z = 0 /\ ts = [t] \/ u <> 0 /\ ts = [t; u] /\ entry_at l (i_dev n) u ((k - 519) mod 512) z)).

(** The first [hi] blocks of the file: where they are and what is in them. No
    block of the file is two of its blocks, or one of its blocks of zone
    numbers. *)
Record file_map (l : list buffer_head) (n : m_inode) (hi : Z) (zones : Z -> Z) (tables : Z -> list Z) (blocks : Z -> list Z) : Prop := {
  fm_max : hi <= MAX_BLOCKS;
  fm_path k : 0 <= k < hi -> zone_path l n k (tables k) (zones k);
  fm_data k : 0 <= k < hi ->
    zones k = 0 /\ blocks k = replicate 1024 0 \/ zones k <> 0 /\ in_cache l (i_dev n) (zones k) (blocks k) /\ lenz (blocks k) = 1024;
  fm_apart k k' : 0 <= k < hi -> 0 <= k' < hi -> zones k <> 0 -> zones k = zones k' -> k = k';
  fm_tables k k' : 0 <= k < hi -> 0 <= k' < hi -> zones k <> 0 -> zones k ∉ tables k'
}.

Lemma zone_path_zone l n k ts z : zone_path l n k ts z -> zone_of l n k z.
Proof.
  unfold zone_path, zone_of. destruct (k <? 7); [tauto|]. destruct (k <? 519).
  - intros (t & Ht & [H | (H1 & _ & H2)]); exists t; tauto.
  - intros (t & Ht & [H | (H1 & u & He & H)]); exists t; [tauto|]. split; [done|]. right. split; [done|].
    exists u. tauto.
Qed.

Lemma file_map_block l n hi zones tables blocks k :
  file_map l n hi zones tables blocks -> 0 <= k < hi -> file_block l n k (blocks k).
Proof.
  intros M Hk. exists (zones k). split; [eapply zone_path_zone, fm_path; done|]. by apply (fm_data _ _ _ _ _ _ M).
Qed.

(** ** Changing the data of one block *)

(** [d] over the elements of [l] from [off] on. *)
Fixpoint put_at (l : list Z) (off : Z) (d : list Z) : list Z :=
  match d with [] => l | c :: d => put_at (setz l off c) (off + 1) d end.

Lemma lenz_put_at l off d : lenz (put_at l off d) = lenz l.
Proof. revert l off. induction d as [|c d IH]; intros l off; cbn; [done|]. by rewrite IH, lenz_setz. Qed.

Lemma getz_put_at l off d i : 0 <= off -> off + lenz d <= lenz l ->
  getz (put_at l off d) i = if decide (off <= i < off + lenz d) then getz d (i - off) else getz l i.
Proof.
  revert l off. induction d as [|c d IH]; intros l off Ho Hl; cbn [put_at].
  { change (lenz (@nil Z)) with 0. case_decide; [lia|done]. }
  rewrite lenz_cons in *. pose proof (lenz_nonneg d). rewrite IH by (rewrite ?lenz_setz; lia).
  destruct (decide (i = off)) as [->|Hne].
  - rewrite decide_False, decide_True by lia. rewrite Z.sub_diag. by rewrite getz_setz_eq by lia.
  - rewrite getz_setz_ne by done. repeat case_decide; try lia; [|done].
    rewrite getz_cons_S by lia. f_equal. lia.
Qed.

(** Buffer [bh] with other data, to be written back. *)
Definition new_data (b : buffer_head) (data : list Z) : buffer_head := b <| b_data := data |> <| b_dirt := 1 |>.

Lemma usable_new l dev z bh b data : usable l dev z bh b -> usable (setz l bh (new_data b data)) dev z bh (new_data b data).
Proof. intros [Hb Ed Eb Hu Hl Hc]. split; try done. apply getz_setz_eq. by apply getz_Some_lt in Hb. Qed.

Lemma in_cache_other l dev z bh b data z' data' :
  usable l dev z bh b -> z' <> z -> in_cache l dev z' data' -> in_cache (setz l bh (new_data b data)) dev z' data'.
Proof.
  intros [Hb Ed Eb Hu Hl Hc] Hne (bh' & b' & [Hb' Ed' Eb' Hu' Hl' Hc'] & Hd). exists bh', b'. split; [|done].
  split; try done. rewrite getz_setz_ne; [done|]. intros ->. congruence.
Qed.

Lemma entry_at_other l dev z bh b data t k v :
  usable l dev z bh b -> t <> z -> entry_at l dev t k v -> entry_at (setz l bh (new_data b data)) dev t k v.
Proof. intros Hu Hne (d & Hd & He). exists d. split; [|done]. by eapply in_cache_other. Qed.

Lemma zone_path_other l n k ts z z0 bh b data :
  usable l (i_dev n) z0 bh b -> z0 ∉ ts -> zone_path l n k ts z -> zone_path (setz l bh (new_data b data)) n k ts z.
Proof.
  intros Hu Hts. unfold zone_path. destruct (k <? 7); [done|]. destruct (k <? 519).
  - intros (t & Ht & [H | (H1 & -> & H2)]); exists t; [tauto|]. split; [done|]. right. do 2 (split; [done|]).
    eapply entry_at_other; [done|set_solver|done].
  - intros (t & Ht & [H | (H1 & u & He & H)]); exists t; [tauto|]. split; [done|]. right. split; [done|].
    exists u. destruct H as [(-> & -> & ->) | (Hu0 & -> & He')].
    + split; [eapply entry_at_other; [done|set_solver|done]|]. by left.
    + split; [eapply entry_at_other; [done|set_solver|done]|]. right. do 2 (split; [done|]).
      eapply entry_at_other; [done|set_solver|done].
Qed.

(** The map after block [k] got new data. *)
Lemma file_map_new l n hi zones tables blocks k bh b data :
  file_map l n hi zones tables blocks -> 0 <= k < hi -> zones k <> 0 -> usable l (i_dev n) (zones k) bh b -> lenz data = 1024 ->
  file_map (setz l bh (new_data b data)) n hi zones tables (fun j => if decide (j = k) then data else blocks j).
Proof.
  intros M Hk Hz Hu Hd. split; [apply M| |..].
  - intros j Hj. eapply zone_path_other; [done|by apply (fm_tables _ _ _ _ _ _ M)|by apply M].
  - intros j Hj. destruct (decide (j = k)) as [->|Hne].
    + right. split; [done|]. split; [|done]. exists bh, (new_data b data). split; [by apply usable_new|done].
    + destruct (fm_data _ _ _ _ _ _ M j Hj) as [H | (Hz' & Hc & Hl)]; [by left|]. right. split; [done|].
      split; [|done]. eapply in_cache_other; [done| |done]. intros E. apply Hne. by apply (fm_apart _ _ _ _ _ _ M).
  - intros j j'. apply M.
  - intros j j'. apply M.
Qed.

(** The size after a write that ends at [p]. *)
Definition grown (n : m_inode) (p : Z) : m_inode := if i_size n <? p then n <| i_size := p |> <| i_dirt := 1 |> else n.

Lemma grown_fields n p : i_zone (grown n p) = i_zone n /\ i_dev (grown n p) = i_dev n.
Proof. unfold grown. by destruct (i_size n <? p). Qed.
Lemma grown_grown n p q : p <= q -> grown (grown n p) q = grown n q.
Proof.
  intros H. unfold grown. destruct (Z.ltb_spec (i_size n) p); [|done]. upd.
  destruct (Z.ltb_spec (i_size n) q); [|lia]. destruct (Z.ltb_spec p q); [done|]. by replace q with p by lia.
Qed.

(** The map does not depend on the other fields of the inode. *)
Lemma file_map_inode l n n' hi zones tables blocks :
  i_zone n' = i_zone n -> i_dev n' = i_dev n -> file_map l n hi zones tables blocks -> file_map l n' hi zones tables blocks.
Proof.
  intros Ez Ed [H1 H2 H3 H4 H5]. split; try done.
  - intros k Hk. specialize (H2 k Hk). unfold zone_path in *. by rewrite Ez, Ed.
  - intros k Hk. rewrite Ed. by apply H3.
Qed.

(** The buffer cache and an inode after the write of some bytes. *)
Definition wrote (l : list buffer_head) (inode : Z) (n : m_inode) (s : kernel) : kernel :=
  s <| bhs := l |> <| inode_table ::= fun t => setz t inode n |>.

Lemma wrote_inv l inode n n' s :
  cache_inv s -> getz (inode_table s) inode = Some n -> i_dev n' = i_dev n -> same_links (bhs s) l ->
  cache_inv (wrote l inode n' s).
Proof.
  intros Hs Hn Ed Hl. apply (cache_inv_ext s); try done. destruct Hs as [_ Hsd]. apply setz_Forall; [done|].
  rewrite Ed. by apply (getz_Forall _ _ _ _ Hsd Hn).
Qed.

Lemma same_links_trans l1 l2 l3 : same_links l1 l2 -> same_links l2 l3 -> same_links l1 l3.
Proof. intros [H1 H2] [H3 H4]. split; [congruence|]. intros i. by rewrite H4. Qed.

Section write.
Context {E : Env}.

Lemma put_at_for_range (body : Z -> M kernel unit) n j s bh b off buf :
  getz (bhs s) bh = Some b -> 0 <= j -> 0 <= off -> off + j + Z.of_nat n <= lenz (b_data b) ->
  (forall k s' b', getz (bhs s') bh = Some b' -> lenz (b_data b') = lenz (b_data b) -> user s' = user s ->
     0 <= k < j + Z.of_nat n ->
     body k s' = Ok tt (put_bh bh (b' <| b_data ::= fun l => setz l (off + k) (default 0 (user s' !! u32 (buf + k))) |>) s')) ->
  for_range j n body s =
    Ok tt (put_bh bh (b <| b_data ::= fun l => put_at l (off + j) (read_user n (buf + j) (user s)) |>) s).
Proof.
  revert j s b. induction n as [|n IH]; intros j s b Hb Hj Ho Hl Hbody; cbn [for_range].
  { unfold ret. f_equal. symmetry. transitivity (put_bh bh b s); [by destruct b|by apply put_bh_id]. }
  rewrite (bind_ok _ _ _ _ _ (Hbody j s b Hb eq_refl eq_refl ltac:(lia))).
  set (b1 := b <| b_data ::= _ |>). set (s1 := put_bh bh b1 s).
  assert (lenz (b_data b1) = lenz (b_data b)) as Hl1 by apply lenz_setz.
  rewrite (IH (j + 1) s1 b1) by (first [exact (get_put_bh _ _ _ _ Hb) | lia | intros k s' b' H1 H2 H3 H4; apply Hbody; [done|congruence|exact H3|lia]]).
  f_equal. unfold s1. rewrite put_bh_put. change (user (put_bh bh b1 s)) with (user s).
  rewrite read_user_S, !Z.add_assoc. done.
Qed.

Lemma user_to_block_ok s bh b off buf n :
  getz (bhs s) bh = Some b -> 0 <= off -> 0 <= n -> off + n <= lenz (b_data b) ->
  user_to_block bh off buf n s =
    Ok tt (put_bh bh (b <| b_data ::= fun l => put_at l off (read_user (Z.to_nat n) buf (user s)) |>) s).
Proof.
  intros Hb Ho Hn Hl. unfold user_to_block. rewrite (put_at_for_range _ (Z.to_nat n) 0 s bh b off buf); [|done|lia|lia|lia|].
  - by rewrite !Z.add_0_r.
  - intros k s' b' Hb' Hl' Hu Hk. unfold get_fs_byte. run_step. run (get_bh_ok _ _ _ Hb').
    destruct (getz_is_Some (b_data b') (off + k)) as [c Hc]; [lia|]. rewrite Hc. cbn [valid]. run_step.
    by rewrite (set_bh_ok _ _ _ _ Hb').
Qed.

(** ** One round of the loop *)

Lemma grow_ok s inode n p : getz (inode_table s) inode = Some n ->
  when (i_size n <? p) (set_inode inode (fun n => n <| i_size := p |> <| i_dirt := 1 |>)) s =
    Ok tt (s <| inode_table ::= fun t => setz t inode (grown n p) |>).
Proof.
  intros Hn. unfold grown. destruct (i_size n <? p); cbn [when]; [exact (set_inode_ok _ _ _ (fun n => n <| i_size := p |> <| i_dirt := 1 |>) Hn)|].
  unfold ret. f_equal. transitivity (s <| inode_table := inode_table s |>); [by destruct s|].
  exact (f_equal (fun t => s <| inode_table := t |>) (eq_sym (setz_id _ _ _ Hn))).
Qed.

Lemma file_write_round fuel s inode n buf count pos i hi zones tables blocks :
  cache_inv s -> getz (inode_table s) inode = Some n -> i_dev n <> 0 ->
  file_map (bhs s) n hi zones tables blocks -> 0 <= pos < 1024 * hi -> zones (pos / 1024) <> 0 -> i < count ->
  pos + (count - i) < 2147483648 ->
  exists m l', let k := pos / 1024 in let c := Z.min (1024 - pos mod 1024) (count - i) in
    let data := put_at (blocks k) (pos mod 1024) (read_user (Z.to_nat c) buf (user s)) in
    file_write_loop (Datatypes.S fuel) inode buf count pos i s =
      file_write_loop fuel inode (buf + c) count (pos + c) (i + c) (released m (wrote l' inode (grown n (pos + c)) s)) /\
    same_links (bhs s) l' /\ file_map l' n hi zones tables (fun j => if decide (j = k) then data else blocks j).
Proof.
  intros Hs Hn Hd M Hp Hz Hi Hmax. set (k := pos / 1024) in *. set (c := Z.min (1024 - pos mod 1024) (count - i)).
  pose proof (Z.mod_pos_bound pos 1024 ltac:(lia)) as Hmod. assert (0 <= k < hi) as Hk by (unfold k; dmlia).
  pose proof (fm_max _ _ _ _ _ _ M) as Hhi.
  destruct (fm_data _ _ _ _ _ _ M k Hk) as [[? _]|(_ & (bh & b & Hu & Hdata) & Hlen)]; [done|].
  destruct (_bmap_ok s inode n k (zones k) true Hs Hn Hd) as [m Hm]; [lia|by eapply zone_path_zone, fm_path|by right|].
  set (data := put_at (blocks k) (pos mod 1024) (read_user (Z.to_nat c) buf (user s))).
  exists (1 + m)%nat, (setz (bhs s) bh (new_data b data)). cbv zeta.
  assert (lenz (read_user (Z.to_nat c) buf (user s)) = c) as Hc.
  { unfold read_user, lenz. rewrite length_fmap, length_seqZ. lia. }
  split; [|split].
  - cbn [file_write_loop]. rewrite (proj2 (Z.leb_gt count i)) by lia. change BLOCK_SIZE with 1024.
    rewrite Z.quot_div_nonneg by lia. fold k. unfold create_block. rewrite (bind_ok _ _ _ _ _ Hm).
    unfold istrue at 1. rewrite (proj2 (Z.eqb_neq _ 0) Hz). cbn [negb]. set (s1 := released m s).
    assert (getz (inode_table s1) inode = Some n) as Hn1 by exact Hn. run (get_inode_ok _ _ _ Hn1).
    assert (usable (bhs s1) (i_dev n) (zones k) bh b) as Hu1 by exact Hu. pose proof Hu1 as [Hb1 _ _ _ Hlk Hcnt].
    run (bread_cached s1 _ _ _ _ (released_inv m s Hs) Hd Hu1).
    set (bd := held b <| b_dirt := 1 |>). rewrite (bind_ok _ _ _ tt (put_bh bh bd s1)).
    2:{ rewrite (set_bh_ok _ _ _ (fun b => b <| b_dirt := 1 |>) (get_put_bh bh b (held b) s1 Hb1)). f_equal. exact (put_bh_put bh (held b) bd s1). }
    rewrite Z.rem_mod_nonneg by lia. fold c.
    rewrite (s32_id (pos + c)) by (unfold is_s32; lia). rewrite (u32_id (pos + c)) by (unfold is_u32; lia).
    assert (getz (inode_table (put_bh bh bd s1)) inode = Some n) as Hn2 by exact Hn. run (get_inode_ok _ _ _ Hn2).
    rewrite (bind_ok _ _ _ _ _ (grow_ok _ _ _ (pos + c) Hn2)).
    set (s3 := put_bh bh bd s1 <| inode_table ::= fun t => setz t inode (grown n (pos + c)) |>).
    assert (getz (bhs s3) bh = Some bd) as Hb3 by exact (get_put_bh bh b bd s1 Hb1).
    rewrite (bind_ok _ _ _ _ _ (user_to_block_ok s3 bh bd (pos mod 1024) buf c Hb3 ltac:(lia) ltac:(lia)
      ltac:(change (b_data bd) with (b_data b); rewrite Hdata; lia))).
    assert (bd <| b_data ::= fun l => put_at l (pos mod 1024) (read_user (Z.to_nat c) buf (user s3)) |> = held (new_data b data)) as ->.
    { unfold data. rewrite <- Hdata. reflexivity. }
    run (brelse_held _ bh (new_data b data) (get_put_bh bh bd (held (new_data b data)) s3 Hb3) Hlk Hcnt).
    f_equal. rewrite put_bh_put, <- released_add.
    exact (f_equal (fun l => released 1 (released m (s <| bhs := l |> <| inode_table ::= fun t => setz t inode (grown n (pos + c)) |>)))
      (setz_setz (bhs s) bh _ _)).
  - apply (same_links_set _ _ b); [apply Hu|done].
  - apply (file_map_new _ _ _ _ _ _ k bh b); try done. unfold data. by rewrite lenz_put_at.
Qed.

(** ** All rounds *)

Definition user_byte (u : gmap Z Z) (a : Z) : Z := default 0 (u !! u32 a).

Lemma getz_read_user n a u i : 0 <= i < Z.of_nat n -> getz (read_user n a u) i = Some (user_byte u (a + i)).
Proof.
  intros Hi. unfold read_user, getz. rewrite (proj2 (Z.ltb_ge i 0)) by lia.
  rewrite list_lookup_fmap, (proj2 (lookup_seqZ _ _ _ (0 + i))) by lia. done.
Qed.

(** The bytes after one round. *)
Lemma file_byte_new blocks pos c buf u j :
  0 <= pos -> lenz (blocks (pos / 1024)) = 1024 -> 0 <= c -> pos mod 1024 + c <= 1024 -> 0 <= j ->
  file_byte (fun k => if decide (k = pos / 1024) then put_at (blocks (pos / 1024)) (pos mod 1024) (read_user (Z.to_nat c) buf u) else blocks k) j =
  if decide (pos <= j < pos + c) then user_byte u (buf + (j - pos)) else file_byte blocks j.
Proof.
  intros Hp Hl Hc Hpc Hj. unfold file_byte. pose proof (Z.mod_pos_bound pos 1024 ltac:(lia)).
  assert (lenz (read_user (Z.to_nat c) buf u) = c) as Hlc by (unfold read_user, lenz; rewrite length_fmap, length_seqZ; lia).
  destruct (decide (j / 1024 = pos / 1024)) as [Ek|Ek].
  - rewrite getz_put_at, Hlc by lia.
    assert (j mod 1024 - pos mod 1024 = j - pos) as Ed by dmlia.
    destruct (decide (pos <= j < pos + c)).
    + rewrite decide_True by lia. rewrite getz_read_user, Ed by lia. done.
    + rewrite decide_False by lia. by rewrite Ek.
  - rewrite decide_False; [done|]. intros Hr. apply Ek. dmlia.
Qed.

Lemma wrote_wrote l l' inode n p q m s :
  p <= q ->
  wrote l' inode (grown (grown n p) q) (released m (wrote l inode (grown n p) s)) =
  released m (wrote l' inode (grown n q) s).
Proof.
  intros H. rewrite grown_grown by done.
  exact (f_equal (fun t => released m (s <| bhs := l' |> <| inode_table := t |>)) (setz_setz (inode_table s) inode _ _)).
Qed.

Lemma write_loop_ok fuel s inode n buf count pos i hi zones tables blocks :
  cache_inv s -> getz (inode_table s) inode = Some n -> i_dev n <> 0 -> file_map (bhs s) n hi zones tables blocks ->
  0 <= pos -> i < count -> count - i <= Z.of_nat fuel -> pos + (count - i) <= 1024 * hi -> pos + (count - i) < 2147483648 ->
  (forall k, pos / 1024 <= k -> 1024 * k < pos + (count - i) -> zones k <> 0) ->
  exists m l' blocks',
    file_write_loop fuel inode buf count pos i s =
      Ok (pos + (count - i), count) (released m (wrote l' inode (grown n (pos + (count - i))) s)) /\
    same_links (bhs s) l' /\ file_map l' n hi zones tables blocks' /\
    (forall j, 0 <= j -> file_byte blocks' j =
       if decide (pos <= j < pos + (count - i)) then user_byte (user s) (buf + (j - pos)) else file_byte blocks j).
Proof.
  revert s n buf pos i blocks. induction fuel as [|fuel IH]; intros s n buf pos i blocks Hs Hn Hd M Hp Hi Hfuel Hhi Hmax Hz; [lia|].
  pose proof (Z.mod_pos_bound pos 1024 ltac:(lia)) as Hmod. assert (0 <= pos / 1024 < hi) as Hk by dmlia.
  assert (zones (pos / 1024) <> 0) as Hz0 by (apply Hz; [done|dmlia]).
  destruct (file_write_round fuel s inode n buf count pos i hi zones tables blocks) as (m & l1 & Hw & Hsl & M1); try done; [lia|].
  set (c := Z.min (1024 - pos mod 1024) (count - i)) in *. set (blocks1 := fun k => if decide (k = pos / 1024) then _ else blocks k) in M1.
  destruct (fm_data _ _ _ _ _ _ M _ Hk) as [[? _]|(_ & _ & Hlen)]; [done|].
  assert (forall j, 0 <= j -> file_byte blocks1 j =
    if decide (pos <= j < pos + c) then user_byte (user s) (buf + (j - pos)) else file_byte blocks j) as Hb1
    by (intros j Hj; apply file_byte_new; lia || done).
  destruct (decide (count <= i + c)) as [Hend|Hmore].
  - assert (c = count - i) as Ec by lia. exists m, l1, blocks1. rewrite Hw. split; [|by rewrite Ec in Hb1].
    rewrite Ec. replace (i + (count - i)) with count by lia. destruct fuel; cbn [file_write_loop]; [done|].
    by rewrite (proj2 (Z.leb_le count count)) by lia.
  - set (n1 := grown n (pos + c)) in *. set (s1 := released m (wrote l1 inode n1 s)) in *.
    destruct (grown_fields n (pos + c)) as [Ez Ed].
    destruct (IH s1 n1 (buf + c) (pos + c) (i + c) blocks1) as (m' & l2 & blocks2 & Hw2 & Hsl2 & M2 & Hb2); try lia.
    + by apply released_inv, (wrote_inv _ _ n).
    + apply getz_setz_eq. by apply getz_Some_lt in Hn.
    + unfold n1; by rewrite Ed.
    + by eapply file_map_inode, M1.
    + intros k Hk1 Hk2. apply Hz; [|lia]. transitivity ((pos + c) / 1024); [|done]. apply Z.div_le_mono; lia.
    + replace (pos + c + (count - (i + c))) with (pos + (count - i)) in * by lia.
      exists (m' + m)%nat, l2, blocks2. rewrite Hw, Hw2. split.
      { f_equal. unfold s1, n1. by rewrite wrote_wrote, released_add by lia. }
      split; [by eapply same_links_trans|]. split; [by eapply file_map_inode, M2|].
      intros j Hj. rewrite Hb2, Hb1 by done. change (user s1) with (user s).
      replace (buf + c + (j - (pos + c))) with (buf + (j - pos)) by lia. repeat case_decide; done || lia.
Qed.

(** ** The calls *)

(** The file, the inode and its block list after [sys_write] of [count] bytes at
    [pos]. *)
Definition written_file (f : file) (pos : Z) : file :=
  if istrue (Z.land (f_flags f) O_APPEND) then f else f <| f_pos := pos |>.
Definition written_inode (f : file) (n : m_inode) (pos now : Z) : m_inode :=
  let n := (grown n pos) <| i_mtime := u32 now |> in
  if istrue (Z.land (f_flags f) O_APPEND) then n else n <| i_ctime := u32 now |>.
Definition write_pos (f : file) (n : m_inode) : Z :=
  if istrue (Z.land (f_flags f) O_APPEND) then i_size n else f_pos f.

Lemma written_inode_fields f n pos now :
  i_zone (written_inode f n pos now) = i_zone n /\ i_dev (written_inode f n pos now) = i_dev n /\
  i_pipe (written_inode f n pos now) = i_pipe n /\ i_mode (written_inode f n pos now) = i_mode n /\
  i_size (written_inode f n pos now) = Z.max (i_size n) pos.
Proof.
  unfold written_inode, grown. destruct (istrue _), (Z.ltb_spec (i_size n) pos); upd; repeat split; lia.
Qed.

Lemma sys_write_ok s t fd h f inode n buf count hi zones tables blocks :
  cache_inv s -> current_task (sch s) = Some t -> 0 <= fd < NR_OPEN -> getz (filp t) fd = Some (Some h) ->
  getz (file_table s) h = Some f -> f_inode f = Some inode -> getz (inode_table s) inode = Some n ->
  i_pipe n = 0 -> S_ISREG (i_mode n) = true -> i_dev n <> 0 -> 0 < count -> 0 <= f_pos f -> 0 <= i_size n ->
  file_map (bhs s) n hi zones tables blocks ->
  write_pos f n + count <= 1024 * hi -> write_pos f n + count < 2147483648 ->
  (forall k, write_pos f n / 1024 <= k -> 1024 * k < write_pos f n + count -> zones k <> 0) ->
  exists m l' blocks',
    sys_write fd buf count s =
      Ok count (released m (wrote l' inode (written_inode f n (write_pos f n + count) (CURRENT_TIME (sch s))) s
        <| file_table ::= fun l => setz l h (written_file f (write_pos f n + count)) |>)) /\
    same_links (bhs s) l' /\ file_map l' n hi zones tables blocks' /\
    (forall j, 0 <= j -> file_byte blocks' j =
       if decide (write_pos f n <= j < write_pos f n + count) then user_byte (user s) (buf + (j - write_pos f n))
       else file_byte blocks j).
Proof.
  intros Hs Ht Hfd Hy Hf Hfi Hn Hpipe Hreg Hd Hc Hp Hsz M Hhi Hmax Hz. destruct (regular_kind _ Hreg) as [Hchr Hblk].
  assert (0 <= write_pos f n) as Hwp by (unfold write_pos; destruct (istrue _); lia).
  destruct (write_loop_ok (Z.to_nat count) s inode n buf count (write_pos f n) 0 hi zones tables blocks)
    as (m & l' & blocks' & Hw & Hsl & M' & Hb); try done; try lia.
  { intros k H1 H2. apply Hz; lia. }
  rewrite !Z.sub_0_r in *. exists m, l', blocks'. split; [|done].
  unfold sys_write. rewrite (proj2 (Z.ltb_ge count 0)) by lia. run (file_of_ok s t fd _ Ht Hfd Hy).
  rewrite (proj2 (Z.eqb_neq count 0)) by lia. run (get_file_ok _ _ _ Hf). rewrite Hfi. cbn [valid]. run_step.
  run (get_inode_ok _ _ _ Hn). rewrite Hpipe, Hchr, Hblk, Hreg. cbn [istrue Z.eqb negb].
  unfold file_write. run (get_file_ok _ _ _ Hf). run (get_inode_ok _ _ _ Hn).
  replace (if istrue (Z.land (f_flags f) O_APPEND) then s32 (i_size n) else f_pos f) with (write_pos f n).
  2:{ unfold write_pos in *. destruct (istrue _); [|done]. rewrite s32_id; [done|]. unfold is_s32. lia. }
  rewrite (bind_ok _ _ _ _ _ Hw). cbv beta iota. set (p := write_pos f n + count) in *. run_step.
  change (CURRENT_TIME (sch (released _ _))) with (CURRENT_TIME (sch s)). set (now := CURRENT_TIME (sch s)).
  set (s1 := released m _). set (n1 := grown n p).
  assert (getz (inode_table s1) inode = Some n1) as Hn1 by (apply getz_setz_eq; by apply getz_Some_lt in Hn).
  run (set_inode_ok s1 inode n1 (fun n => n <| i_mtime := u32 now |>) Hn1).
  set (n2 := n1 <| i_mtime := u32 now |>). set (s2 := s1 <| inode_table ::= fun l => setz l inode n2 |>).
  assert (getz (inode_table s2) inode = Some n2) as Hn2 by (apply getz_setz_eq; by apply getz_Some_lt in Hn1).
  assert (getz (file_table s2) h = Some f) as Hf2 by exact Hf. run (get_file_ok _ _ _ Hf2).
  unfold istrue at 2. rewrite (proj2 (Z.eqb_neq count 0)) by lia. cbn [negb].
  assert (s2 = released m (wrote l' inode n2 s)) as Hs2.
  { exact (f_equal (fun t => released m (s <| bhs := l' |> <| inode_table := t |>)) (setz_setz (inode_table s) inode _ _)). }
  unfold written_inode, written_file. fold n1 n2. destruct (istrue (Z.land (f_flags f) O_APPEND)); cbn [negb when].
  - run_step. rewrite Hs2. unfold ret. f_equal. symmetry.
    transitivity (released m (wrote l' inode n2 (s <| file_table := file_table s |>))); [|by destruct s].
    exact (f_equal (fun t => released m (wrote l' inode n2 (s <| file_table := t |>))) (setz_id _ _ _ Hf)).
  - rewrite bind_assoc. run (set_file_ok _ _ _ (fun f => f <| f_pos := p |>) Hf2).
    set (s3 := s2 <| file_table ::= fun l => setz l h (f <| f_pos := p |>) |>).
    assert (getz (inode_table s3) inode = Some n2) as Hn3 by exact Hn2.
    run (set_inode_ok s3 inode n2 (fun n => n <| i_ctime := u32 now |>) Hn3). unfold ret. f_equal.
    exact (f_equal (fun t => released m (s <| bhs := l' |> <| file_table ::= fun l => setz l h (f <| f_pos := p |>) |> <| inode_table := t |>))
      (eq_trans (f_equal (fun t => setz t inode _) (setz_setz (inode_table s) inode n1 n2)) (setz_setz (inode_table s) inode _ _))).
Qed.

(** [verify_area] looks at the tasks and the page tables only. *)
Lemma verify_area_same s s' t addr size :
  current_task (sch s) = Some t -> sch s' = sch s -> memory s' = memory s ->
  verify_area addr size s = Ok tt s -> verify_area addr size s' = Ok tt s'.
Proof.
  intros Ht Hsch Hmem. assert (current_task (sch s') = Some t) as Ht' by (by rewrite Hsch).
  unfold verify_area. rewrite (bind_ok _ _ _ _ _ (on_sched_current _ _ Ht)), (bind_ok _ _ _ _ _ (on_sched_current _ _ Ht')).
  destruct (getz (ldt t) 2) as [d|]; [|done]. cbn [valid]. run_step. run_step. cbv zeta.
  unfold on_memory, zoom. rewrite Hmem. set (v := verify_pages _ _ (memory s)). destruct v as [[] m'| | | |]; try done.
  intros [= Em]. assert (m' = memory s) as -> by (by apply (f_equal memory) in Em). rewrite <- Hmem. by destruct s'.
Qed.

Lemma sys_lseek_ok s t fd h f inode n pos :
  current_task (sch s) = Some t -> 0 <= fd < NR_OPEN -> getz (filp t) fd = Some (Some h) ->
  getz (file_table s) h = Some f -> f_inode f = Some inode -> getz (inode_table s) inode = Some n ->
  i_pipe n = 0 -> 1 <= MAJOR (i_dev n) <= 3 -> 0 <= pos ->
  sys_lseek fd pos 0 s = Ok pos (s <| file_table ::= fun l => setz l h (f <| f_pos := pos |>) |>).
Proof.
  intros Ht Hfd Hy Hf Hfi Hn Hp Hm Hpos. unfold sys_lseek. run (file_of_ok s t fd _ Ht Hfd Hy). run (get_file_ok _ _ _ Hf).
  rewrite Hfi. run (get_inode_ok _ _ _ Hn). unfold IS_SEEKABLE. rewrite (proj2 (Z.leb_le 1 _)), (proj2 (Z.leb_le _ 3)) by lia.
  cbn [andb negb]. rewrite Hp. cbn [istrue Z.eqb negb]. unfold seek_to. cbn [Z.eqb]. rewrite (proj2 (Z.ltb_ge pos 0)) by lia.
  by run (set_file_ok s h f (fun f => f <| f_pos := pos |>) Hf).
Qed.

(** C7: what is written is read back. In a regular file whose blocks are there
    and in the cache, no two of them the same, writing [count] bytes at the
    position, seeking back and reading as many gives [count], and the bytes at
    [buf2] are the bytes that were at [buf], over block boundaries and through
    the blocks of zone numbers, also when the file grows within its blocks. The
    rest of the user's memory is as before, and the buffer cache is in order. *)
Theorem write_read_back s t fd h f inode n buf count buf2 hi zones tables blocks :
  cache_inv s -> current_task (sch s) = Some t -> 0 <= fd < NR_OPEN -> getz (filp t) fd = Some (Some h) ->
  getz (file_table s) h = Some f -> f_inode f = Some inode -> istrue (Z.land (f_flags f) O_APPEND) = false ->
  getz (inode_table s) inode = Some n -> i_pipe n = 0 -> S_ISREG (i_mode n) = true -> i_dev n <> 0 ->
  1 <= MAJOR (i_dev n) <= 3 -> 0 < count -> 0 <= f_pos f -> 0 <= i_size n < 2147483648 ->
  file_map (bhs s) n hi zones tables blocks -> f_pos f + count <= 1024 * hi -> f_pos f + count < 2147483648 ->
  (forall k, f_pos f / 1024 <= k -> 1024 * k < f_pos f + count -> zones k <> 0) ->
  verify_area buf2 count s = Ok tt s ->
  exists s',
    (do! sys_write fd buf count in do! sys_lseek fd (f_pos f) 0 in sys_read fd buf2 count) s = Ok count s' /\
    read_user (Z.to_nat count) buf2 (user s') = u8 <$> read_user (Z.to_nat count) buf (user s) /\
    (forall a, (forall k, 0 <= k < count -> u32 (buf2 + k) <> a) -> user s' !! a = user s !! a) /\ cache_inv s'.
Proof.
  intros Hs Ht Hfd Hy Hf Hfi Happ Hn Hpipe Hreg Hd Hmaj Hc Hp Hsz M Hhi Hmax Hz Hv.
  assert (write_pos f n = f_pos f) as Hwp by (unfold write_pos; by rewrite Happ).
  destruct (sys_write_ok s t fd h f inode n buf count hi zones tables blocks) as (m & l' & blocks' & Hw & Hsl & M' & Hb);
    try done; rewrite ?Hwp; try done; [lia|]. rewrite Hwp in *. rewrite (bind_ok _ _ _ _ _ Hw).
  set (pos := f_pos f) in *. set (n' := written_inode f n (pos + count) _). set (f' := written_file f (pos + count)).
  destruct (written_inode_fields f n (pos + count) (CURRENT_TIME (sch s))) as (Ez & Ed & Ep & Em & Esz). fold n' in Ez, Ed, Ep, Em, Esz.
  set (s1 := released m _). assert (getz (file_table s1) h = Some f') as Hf1 by (apply getz_setz_eq; by apply getz_Some_lt in Hf).
  assert (getz (inode_table s1) inode = Some n') as Hn1 by (apply getz_setz_eq; by apply getz_Some_lt in Hn).
  assert (f_inode f' = Some inode) as Hfi1 by (unfold f', written_file; by rewrite Happ).
  run (sys_lseek_ok s1 t fd h f' inode n' pos Ht Hfd Hy Hf1 Hfi1 Hn1 ltac:(congruence) ltac:(rewrite Ed; done) Hp).
  set (f2 := f' <| f_pos := pos |>). set (s2 := s1 <| file_table ::= _ |>).
  assert (cache_inv s2) as Hs2 by (apply (wrote_inv l' inode n n' s Hs Hn Ed Hsl)).
  assert (getz (file_table s2) h = Some f2) as Hf2 by (apply getz_setz_eq; by apply getz_Some_lt in Hf1).
  assert (file_map (bhs s2) n' hi zones tables blocks') as M2 by (by apply (file_map_inode l' n)).
  destruct (sys_read_ok s2 t fd h f2 inode n' buf2 count blocks' count) as [[? _]|[_ [m' Hr]]];
    try done; try lia; try congruence.
  - change (f_pos f2) with pos. lia.
  - by apply (verify_area_same s s2 t).
  - change (f_pos f2) with pos. intros k H1 H2. pose proof (fm_max _ _ _ _ _ _ M). assert (0 <= k < hi) by (split; [apply Z.le_trans with (pos / 1024); [apply Z.div_pos; lia|done]|lia]).
    split; [lia|]. by apply (file_map_block _ _ _ _ _ _ _ M2).
  - exists (released m' (read_step h f2 (file_bytes blocks' (f_pos f2) count) buf2 s2)
      <| inode_table ::= fun l => setz l inode (n' <| i_atime := u32 (CURRENT_TIME (sch s2)) |>) |>).
    split; [exact Hr|]. change (f_pos f2) with pos.
    assert (file_bytes blocks' pos count = read_user (Z.to_nat count) buf (user s)) as Hbytes.
    { unfold file_bytes, read_user. rewrite Z2Nat.id by lia. replace (seqZ pos count) with (Z.add pos <$> seqZ 0 count)
        by (rewrite fmap_add_seqZ; f_equal; lia).
      rewrite <- list_fmap_compose. apply list_fmap_ext. intros i k Hk. apply lookup_seqZ in Hk. cbn.
      rewrite Hb, decide_True by lia. unfold user_byte. by replace (buf + (pos + k - pos)) with (buf + k) by lia. }
    pose proof (lenz_file_bytes blocks' pos count ltac:(lia)) as Hlb. upd. change (user s2) with (user s).
    split; [|split].
    + rewrite <- Hbytes, <- (read_write_user _ buf2 (user s)) by lia. do 2 f_equal. unfold lenz in Hlb. lia.
    + intros a Ha. apply write_user_lookup_ne. by rewrite Hlb.
    + apply (cache_inv_ext s2); try done. apply setz_Forall; [apply Hs2|]. destruct Hs2 as [_ Hsd].
      by apply (getz_Forall _ _ _ _ Hsd Hn1).
Qed.
End write.
