(* ===== verification/FileIoExamples.v ===== *)
(** * A concrete file that is read and written *)

From Stdlib Require Import ZArith Lia.
From stdpp Require Import base numbers list gmap strings.
From S2P Require Import Prelude Memory Task Sched WaitQueue TtyData Console VideoRam ConsoleProofs Kernel Blk Buffer BufferInv.
From S2P Require Import CacheExamples Posix Bitmap BitmapSearch Inode TtyIo FileDev Pipe CharDev Files UserMem Termios TaskProofs.
From S2P Require Import FileCounts PipeProofs FileBlocks FileRead FileWrite.

(** ** Concrete machines for terminals and files *)

(** The first clear bit of a map whose first nine bits are set. *)
Definition nine_set : list Z := 255 :: 1 :: replicate 1022 0.
Lemma find_first_zero_spec_witness :
  find_first_zero nine_set = Some (first_clear nine_set) /\ first_clear nine_set = 9.
Proof.
  split; [|vm_compute; reflexivity]. apply (find_first_zero_spec nine_set).
  - apply (bool_decide_unpack _). vm_compute. exact I.
  - vm_compute. reflexivity.
Defined.

(** The settings of the console go through address 0x5000 to a serial line. *)
Definition console_settings : kernel := final (get_termios 0 0x5000 bare).
Lemma get_set_termios_witness :
  exists s t, set_termios 1 0x5000 console_settings = Ok 0 s /\ getz (tty_table bare) 0 = Some t /\
    (tty_termios <$> getz (tty_table s) 1) = Some (tty_termios t).
Proof.
  destruct (getz (tty_table bare) 0) as [t|] eqn:Ht; [|discriminate].
  destruct (getz (tty_table console_settings) 1) as [t'|] eqn:Ht'; [|discriminate].
  destruct (get_set_termios bare console_settings console_settings 0x5000 0 1 0 t t') as [l E].
  - exact Ht.
  - injection Ht as <-. split; apply (bool_decide_unpack _); vm_compute; exact I.
  - vm_compute. reflexivity.
  - reflexivity.
  - exact Ht'.
  - eexists _, t. split; [exact E|]. split; [reflexivity|].
    clear E. injection Ht as <-. vm_compute. reflexivity.
Defined.

(** Escape, Z and two letters wait to be shown on a colour screen. *)
Definition with_query : kernel :=
  bare <| con := ega_screen |>
       <| tty_table ::= fun l => match l with
          | t :: l => t <| write_q ::= fun q => PUTCH 98 (PUTCH 97 (PUTCH 90 (PUTCH 27 q))) |> :: l
          | [] => [] end |>.

(** [console_write] can leave the queue it empties nearly full.  It counts
    the characters before its loop; when one of them asks for the terminal's
    name, the echo of the answer enters [console_write] again, which takes the
    rest, and the outer loop then takes as many characters again from the
    empty queue: its tail passes its head. *)
Theorem console_query_overrun :
  exists s s' t t', tty_write_fn (E := quiet) 0 s = Ok tt s' /\ getz (tty_table s) 0 = Some t /\
    getz (tty_table s') 0 = Some t' /\ CHARS (write_q t) = 4 /\ CHARS (write_q t') = 1022.
Proof.
  exists with_query, (final (tty_write_fn (E := quiet) 0 with_query)).
  eexists _, _. split; [|split; [reflexivity|split; [|split; [vm_compute; reflexivity|]]]].
  - vm_compute. reflexivity.
  - vm_compute. reflexivity.
  - vm_compute. reflexivity.
Qed.

(** A test of [files_ok]. *)
Definition files_okb (s : kernel) : bool :=
  let ok_fd y := match y with Some f => (0 <=? f) && (f <? lenz (file_table s)) | None => true end in
  let ok_task o := match o with Some t => (lenz (filp t) =? NR_OPEN) && forallb ok_fd (filp t) | None => true end in
  (lenz (task (Kernel.sch s)) <=? NR_TASKS) && forallb ok_task (task (Kernel.sch s)) &&
  forallb (fun k => match getz (file_table s) k with Some x => f_count x =? refs (task (Kernel.sch s)) k | None => true end)
    (seqZ 0 (lenz (file_table s))).

Lemma getz_In {A} (l : list A) i x : getz l i = Some x -> In x l.
Proof. unfold getz. destruct (i <? 0); [done|]. intros H. apply list_elem_of_In. by eapply list_elem_of_lookup_2. Qed.

Lemma files_okb_sound s : files_okb s = true -> files_ok s.
Proof.
  unfold files_okb. rewrite !andb_true_iff, !forallb_forall. intros [[H1 H2] H3]. apply Z.leb_le in H1.
  assert (forall i t, task_at (Kernel.sch s) i = Some t -> lenz (filp t) = NR_OPEN /\
    forall fd f, getz (filp t) fd = Some (Some f) -> 0 <= f < lenz (file_table s)) as Ht.
  { intros i t Hi. apply task_at_Some, getz_In, H2 in Hi. apply andb_true_iff in Hi as [Hl Hf].
    split; [by apply Z.eqb_eq|]. intros fd f Hfd. rewrite forallb_forall in Hf. apply getz_In, Hf in Hfd. breflect. lia. }
  split; [done|by intros i t Hi; apply (Ht i)|intros i t fd f Hi; by apply (Ht i)|].
  intros f x Hf. pose proof (getz_Some_lt _ _ _ Hf) as Hr. specialize (H3 f). rewrite Hf in H3. apply Z.eqb_eq, H3.
  apply list_elem_of_In, elem_of_seqZ. lia.
Qed.

(** Task 1 has descriptor 0 on file 3, and nothing else is open. *)
Definition reader : task_struct := (plain_task 1 15) <| filp ::= fun l => setz l 0 (Some 3) |>.
Definition one_open : kernel :=
  bare <| Kernel.sch := idle_sched [Some (plain_task 0 15); Some reader] |>
       <| file_table ::= fun l => setz l 3 (File 1 0 1 (Some 0) 0) |>.

Lemma dupfd_spec_witness :
  exists r s, dupfd 0 5 one_open = Ok r s /\ files_ok s.
Proof.
  destruct (dupfd_spec one_open reader 0 5) as (r & s & H1 & H2 & _).
  - reflexivity.
  - apply files_okb_sound. vm_compute. reflexivity.
  - discriminate.
  - exists r, s. split; [exact H1|exact H2].
Defined.

Definition after_dup : kernel := final (dupfd 0 5 one_open).
Lemma close_after_dup_witness :
  exists s, dupfd 0 5 one_open = Ok 5 after_dup /\ sys_close (E := quiet) 5 after_dup = Ok 0 s.
Proof.
  assert (dupfd 0 5 one_open = Ok 5 after_dup) as Hd by (vm_compute; reflexivity).
  eexists. split; [exact Hd|].
  apply (close_after_dup (H := quiet) one_open reader 0 5 5 after_dup).
  - reflexivity.
  - apply files_okb_sound. vm_compute. reflexivity.
  - discriminate.
  - exact Hd.
  - discriminate.
Defined.

(** Inode 2 is an empty pipe that is about to go round; its page is at 3 MB,
    and the writer has five bytes at address 256. *)
Definition open_pipe : kernel :=
  bare <| inode_table ::= fun l => setz l 2 (Inode 0 0 0x300000 0 0 0 [4094; 4094; 0; 0; 0; 0; 0; 0; 0] 0 0 0 0 2 0 0 1 0 0 0) |>
       <| user := write_user [104; 101; 108; 108; 111] 256 ∅ |>.
Lemma pipe_refines_witness :
  exists s n m head, write_pipe (E := quiet) 2 256 5 open_pipe = Ok 5 s /\
    pipe_bytes (pipe_step open_pipe 2 n m (user open_pipe)) n head 4094 = [104; 101; 108; 108; 111].
Proof.
  destruct (getz (inode_table open_pipe) 2) as [n|] eqn:Hn; [|discriminate].
  destruct (pipe_refines (E := quiet) 2 open_pipe n 4094 4094 5 256) as [H _].
  - injection Hn as <-. split; try reflexivity; split; vm_compute; congruence.
  - discriminate.
  - destruct H as (n' & m & head & H1 & _ & H2); [vm_compute; congruence|].
    eexists _, n', m, head. split; [exact H1|]. etransitivity; [exact H2|]. injection Hn as <-. vm_compute. reflexivity.
Defined.

#[local] Existing Instances quiet quiet_cooperative.

(** Two blocks of the disk are in buffers of their own. *)
Definition two_blocks : kernel := final ((let! _ := getblk 0x301 5 in getblk 0x301 6) four_buffers).

Lemma two_blocks_inv : cache_inv two_blocks.
Proof.
  destruct (wlp_returns (let! _ := getblk 0x301 5 in getblk 0x301 6) (fun _ s => cache_inv s) four_buffers) as (r & s & Hr & Hs).
  - vm_compute. reflexivity.
  - apply wlp_bind. eapply wlp_mono; [apply getblk_spec; [vm_compute; split; congruence|vm_compute; split; congruence|apply four_buffers_fresh]|].
    intros bh s [Hs _]. eapply wlp_mono; [apply getblk_spec; [vm_compute; split; congruence|vm_compute; split; congruence|exact Hs]|].
    by intros bh' s' [H' _].
  - unfold two_blocks. by rewrite Hr.
Qed.

(** A file of these two blocks. *)
Definition filled (c : Z) (b : buffer_head) : buffer_head := b <| b_uptodate := 1 |> <| b_data := replicate 1024 c |>.
Definition the_file : m_inode := Inode 0x81a4 0 1500 0 0 1 [5; 6; 0; 0; 0; 0; 0; 0; 0] 0 0 0x301 12 1 0 0 0 0 0 0.

(** Task 1 has it open as descriptor 0, shortly before the end of the first
    block, and a greeting in its memory. *)
Definition opened (s : kernel) : kernel :=
  s <| bhs ::= fun l => match l with x :: y :: l => filled 97 x :: filled 98 y :: l | _ => l end |>
    <| inode_table ::= fun l => setz l 2 the_file |>
    <| file_table ::= fun l => setz l 3 (File 3 2 1 (Some 2) 1020) |>
    <| sch := idle_sched [Some (plain_task 0 15); Some ((plain_task 1 15) <| filp ::= fun l => setz l 0 (Some 3) |>)] |>
    <| user := write_user [104; 101; 108; 108; 111; 33] 256 ∅ |>.
Definition io_kernel : kernel := opened two_blocks.

Lemma opened_inv s : cache_inv s -> cache_inv (opened s).
Proof.
  intros Hs. apply (cache_inv_ext s); [|done|done| |done].
  - unfold opened. upd. destruct (bhs s) as [|x [|y l]]; try done. split; [done|]. intros i. unfold getz.
    destruct (i <? 0); [done|]. by destruct (Z.to_nat i) as [|[|k]].
  - apply setz_Forall; [apply Hs|]. vm_compute. split; congruence.
Qed.

Lemma io_kernel_inv : cache_inv io_kernel.
Proof. apply opened_inv, two_blocks_inv. Qed.

Definition letters (k : Z) : list Z := replicate 1024 (97 + k).
Definition io_zones (k : Z) : Z := if k <? 2 then 5 + k else 0.

Lemma io_kernel_map : file_map (bhs io_kernel) the_file 2 io_zones (fun _ => []) letters.
Proof.
  assert (forall k, 0 <= k < 2 -> k = 0 \/ k = 1) as H2 by lia. split.
  - vm_compute. congruence.
  - intros k [-> | ->]%H2; by vm_compute.
  - intros k Hk. right. split; [unfold io_zones; case_match; lia|]. split; [|done].
    apply H2 in Hk as [-> | ->].
    + destruct (getz (bhs io_kernel) 0) as [b|] eqn:Hb; [|vm_compute in Hb; discriminate]. exists 0, b.
      vm_compute in Hb. injection Hb as <-. split; [|reflexivity]. split; vm_compute; try reflexivity; try congruence. by split.
    + destruct (getz (bhs io_kernel) 1) as [b|] eqn:Hb; [|vm_compute in Hb; discriminate]. exists 1, b.
      vm_compute in Hb. injection Hb as <-. split; [|reflexivity]. split; vm_compute; try reflexivity; try congruence. by split.
  - intros k k' [-> | ->]%H2 [-> | ->]%H2; vm_compute; congruence.
  - intros k k' _ _ _. apply not_elem_of_nil.
Qed.

Definition io_task : task_struct := (plain_task 1 15) <| filp ::= fun l => setz l 0 (Some 3) |>.
Definition io_file : file := File 3 2 1 (Some 2) 1020.

(** Of the ten bytes asked for, all ten are there: four of the first block and
    six of the second. *)
Lemma sys_read_spec_witness :
  exists m, sys_read 0 512 10 io_kernel =
    Ok 10 (released m (read_step 3 io_file ([97; 97; 97; 97] ++ replicate 6 98) 512 io_kernel)
      <| inode_table ::= fun l => setz l 2 (the_file <| i_atime := u32 (CURRENT_TIME (sch io_kernel)) |>) |>).
Proof.
  destruct (sys_read_spec (E := quiet) io_kernel io_task 0 3 io_file 2 the_file 512 10 letters) as [[Hc _] | [_ H]].
  - exact io_kernel_inv.
  - by vm_compute.
  - by vm_compute.
  - by vm_compute.
  - by vm_compute.
  - reflexivity.
  - by vm_compute.
  - reflexivity.
  - by vm_compute.
  - by vm_compute.
  - reflexivity.
  - by vm_compute.
  - by vm_compute.
  - by vm_compute.
  - by vm_compute.
  - intros k H1 H2. change (0 <= k) in H1. change (1024 * k < 1030) in H2. assert (0 <= k < 2) as Hk by lia. split; [unfold MAX_BLOCKS; lia|].
    by apply (file_map_block _ _ _ _ _ _ _ io_kernel_map).
  - vm_compute in Hc. discriminate.
  - exact H.
Defined.

(** The six bytes of the greeting go over the end of the first block, and come back at 512. *)
Lemma write_read_back_witness :
  exists s, (do! sys_write 0 256 6 in do! sys_lseek 0 1020 0 in sys_read 0 512 6) io_kernel = Ok 6 s /\
    read_user 6 512 (user s) = [104; 101; 108; 108; 111; 33].
Proof.
  destruct (write_read_back (E := quiet) io_kernel io_task 0 3 io_file 2 the_file 256 6 512 2 io_zones (fun _ => []) letters)
    as (s & H1 & H2 & _).
  - exact io_kernel_inv.
  - by vm_compute.
  - by vm_compute.
  - by vm_compute.
  - by vm_compute.
  - reflexivity.
  - reflexivity.
  - by vm_compute.
  - reflexivity.
  - by vm_compute.
  - by vm_compute.
  - by vm_compute.
  - reflexivity.
  - by vm_compute.
  - by vm_compute.
  - exact io_kernel_map.
  - by vm_compute.
  - reflexivity.
  - intros k Hk1 Hk2. change (0 <= k) in Hk1. change (1024 * k < 1026) in Hk2.
    assert (k = 0 \/ k = 1) as [-> | ->] by lia; by vm_compute.
  - by vm_compute.
  - exists s. split; [exact H1|]. etransitivity; [exact H2|]. by vm_compute.
Defined.
