(* ===== verification/ExecStack.v ===== *)
(** * The stack of a new program

    [create_tables] finds the strings of the arguments and of the environment
    at [p] and builds below them what [main] is called with: the count, the two
    pointers, and the two tables they point to, each closed by a null. *)

From Stdlib Require Import ZArith Lia.
From stdpp Require Import base numbers list gmap strings.
From S2P Require Import Prelude Memory Task Sched TtyData Kernel CharDev Exec UserMem CacheExamples.

(** ** What is meant *)

(** The strings [ss], each with its final zero, are in memory from [p] on. *)
Fixpoint strings_at (u : gmap Z Z) (p : Z) (ss : list (list Z)) : Prop :=
  match ss with
  | [] => True
  | l :: ss =>
    Forall (fun c => c <> 0) l /\ read_user (length l + 1) p u = l ++ [0] /\ strings_at u (p + lenz l + 1) ss
  end.

(** Where each of them starts, and where the last one ends. *)
Fixpoint starts (p : Z) (ss : list (list Z)) : list Z :=
  match ss with [] => [] | l :: ss => p :: starts (p + lenz l + 1) ss end.
Fixpoint strings_end (p : Z) (ss : list (list Z)) : Z :=
  match ss with [] => p | l :: ss => strings_end (p + lenz l + 1) ss end.

(** Words as they are in memory. *)
Definition words (l : list Z) : list Z := l ≫= bytes_of 4.

(** The stack at its pointer [sp], when the strings are at [p]. *)
Definition stack_words (sp p : Z) (args envs : list (list Z)) : list Z :=
  let argv := sp + 12 in
  let envp := argv + 4 * (lenz args + 1) in
  [lenz args; argv; envp] ++ (starts p args ++ [0]) ++ (starts (strings_end p args) envs ++ [0]).
Definition stack_pointer (p : Z) (args envs : list (list Z)) : Z :=
  p - p mod 4 - 4 * (lenz args + lenz envs + 5).

(** ** Memory *)

Lemma lenz_words l : lenz (words l) = 4 * lenz l.
Proof. unfold words. induction l as [|w l IH]; [done|].
  rewrite bind_cons, lenz_app, IH, lenz_cons. change (lenz (bytes_of 4 w)) with 4. lia.
Qed.

Lemma words_app l l' : words (l ++ l') = words l ++ words l'.
Proof. apply bind_app. Qed.

Lemma words_u8 l : Forall is_u8 (words l).
Proof. apply Forall_bind, Forall_true. intros w. apply bytes_of_u8. Qed.

Lemma put_fs_long_ok v a s : put_fs_long v a s = Ok tt (s <| user ::= write_user (bytes_of 4 v) a |>).
Proof.
  assert (forall x, u8 (u8 x) = u8 x) as Hu by (intros x; apply u8_id, u8_range).
  change (bytes_of 4 v) with [u8 (Z.shiftr v 0); u8 (Z.shiftr v 8); u8 (Z.shiftr v 16); u8 (Z.shiftr v 24)].
  cbn [write_user]. rewrite !Hu, <- !Z.add_assoc. destruct s; reflexivity.
Qed.

Lemma read_user_ne n p l a u :
  0 <= a -> a + lenz l <= p -> p + Z.of_nat n <= 4294967296 ->
  read_user n p (write_user l a u) = read_user n p u.
Proof.
  intros Ha Hp Hn. unfold read_user. apply list_fmap_ext. intros i k Hk.
  apply lookup_seqZ in Hk. rewrite write_user_lookup_ne; [done|].
  intros j Hj. unfold u32. rewrite !Z.mod_small; lia.
Qed.

Lemma strings_end_le p ss : p <= strings_end p ss.
Proof. revert p. induction ss as [|l ss IH]; intros p; cbn; [lia|]. specialize (IH (p + lenz l + 1)). pose proof (lenz_nonneg l). lia. Qed.

Lemma strings_at_below u p ss l a :
  0 <= a -> a + lenz l <= p -> strings_end p ss < 4294967296 ->
  strings_at u p ss -> strings_at (write_user l a u) p ss.
Proof.
  revert p. induction ss as [|x ss IH]; intros p Ha Hp He H; cbn in *; [done|]. destruct H as (H1 & H2 & H3).
  pose proof (strings_end_le (p + lenz x + 1) ss). pose proof (lenz_nonneg x).
  split; [done|]. split; [|apply IH; done || lia].
  rewrite read_user_ne; [done..|]. unfold lenz in *. lia.
Qed.

Lemma strings_at_app u p ss ss' :
  strings_at u p (ss ++ ss') <-> strings_at u p ss /\ strings_at u (strings_end p ss) ss'.
Proof. revert p. induction ss as [|l ss IH]; intros p; cbn; [tauto|]. rewrite IH. tauto. Qed.

Lemma strings_end_app p ss ss' : strings_end p (ss ++ ss') = strings_end (strings_end p ss) ss'.
Proof. revert p. induction ss as [|l ss IH]; intros p; cbn; [done|]. apply IH. Qed.

(** A string is not longer than the bytes that are not zero. *)
Lemma string_size u p l n :
  0 <= p -> p + lenz l + 1 <= 4294967296 -> Forall (fun c => c <> 0) l -> read_user (length l + n) p u = l ++ replicate n 0 ->
  (length l <= size u)%nat.
Proof.
  intros Hp Hl HF Hr. rewrite read_user_app in Hr. apply app_inj_1 in Hr as [Hr _]; [|unfold read_user; by rewrite length_fmap, length_seqZ, Nat2Z.id].
  pose (ks := seqZ p (lenz l)). assert (list_to_set ks ⊆@{gset Z} dom u) as Hs.
  { intros k Hk. apply elem_of_list_to_set, elem_of_seqZ in Hk. apply elem_of_dom.
    destruct (u !! k) eqn:Hu; [done|]. exfalso.
    assert (read_user (length l) p u !! Z.to_nat (k - p) = Some 0) as H0.
    { unfold read_user. rewrite list_lookup_fmap, (proj2 (lookup_seqZ _ _ _ (k - p))) by (unfold lenz in *; lia).
      cbn. replace (p + (k - p)) with k by lia. rewrite u32_id by (unfold is_u32; lia). by rewrite Hu. }
    rewrite Hr in H0. by apply (Forall_lookup_1 _ _ _ _ HF) in H0. }
  apply subseteq_size in Hs. rewrite size_dom, size_list_to_set in Hs by apply NoDup_seqZ.
  unfold ks in Hs. rewrite length_seqZ in Hs. unfold lenz in Hs. lia.
Qed.

Lemma write_words_cons w l a u :
  write_user (words (w :: l)) a u = write_user (words l) (a + 4) (write_user (bytes_of 4 w) a u).
Proof. exact (write_user_app (bytes_of 4 w) (words l) a u). Qed.

(** The state after writing a word and more behind it. *)
Lemma upd_words_cons w l a s :
  s <| user ::= write_user (bytes_of 4 w) a |> <| user ::= write_user (words l) (a + 4) |> =
  s <| user ::= write_user (words (w :: l)) a |>.
Proof. exact (f_equal (fun u => s <| user := u |>) (eq_sym (write_words_cons w l a (user s)))). Qed.

Lemma upd_words_app l l' a b s :
  b = a + 4 * lenz l ->
  s <| user ::= write_user (words l) a |> <| user ::= write_user (words l') b |> =
  s <| user ::= write_user (words (l ++ l')) a |>.
Proof.
  intros ->. transitivity (s <| user := write_user (words l') (a + 4 * lenz l) (write_user (words l) a (user s)) |>); [done|].
  by rewrite <- lenz_words, <- write_user_app, <- words_app.
Qed.

(** ** The loops *)

Lemma skip_string_ok fuel l p s :
  0 <= p -> p + lenz l + 1 < 4294967296 -> (length l < fuel)%nat ->
  Forall (fun c => c <> 0) l -> read_user (length l + 1) p (user s) = l ++ [0] ->
  skip_string fuel p s = Ok (p + lenz l + 1) s.
Proof.
  revert fuel p. induction l as [|c l IH]; intros fuel p Hp Hl Hf HF Hr; destruct fuel as [|fuel]; cbn [length] in Hf; try lia;
    cbn [skip_string]; unfold get_fs_byte, bind, gets; cbn [length Nat.add app] in Hr; rewrite read_user_S in Hr.
  - injection Hr as ->. change (lenz []) with 0 in *. cbn [istrue Z.eqb negb]. rewrite u32_id by (unfold is_u32; lia).
    unfold ret. f_equal. lia.
  - injection Hr as -> Hr. apply Forall_cons in HF as [Hc HF]. rewrite lenz_cons in *. pose proof (lenz_nonneg l).
    unfold istrue. rewrite (proj2 (Z.eqb_neq c 0)) by done. cbn [negb]. rewrite u32_id by (unfold is_u32; lia).
    rewrite IH by (done || lia). f_equal. lia.
Qed.

Lemma put_pointers_ok ss p table s :
  0 <= table -> table + 4 * (lenz ss + 1) <= p -> strings_end p ss < 4294967296 -> strings_at (user s) p ss ->
  put_pointers (length ss) p table s = Ok (strings_end p ss) (s <| user ::= write_user (words (starts p ss ++ [0])) table |>).
Proof.
  revert p table s. induction ss as [|l ss IH]; intros p table s Ht Hp He Hs; cbn [put_pointers length strings_end starts app].
  { unfold bind. rewrite put_fs_long_ok. done. }
  pose proof (strings_end_le (p + lenz l + 1) ss). pose proof (lenz_nonneg l). pose proof (lenz_nonneg ss).
  rewrite lenz_cons in Hp. cbn [strings_end] in He. unfold bind, string_fuel, gets. rewrite put_fs_long_ok.
  apply (strings_at_below _ _ _ (bytes_of 4 p) table) in Hs; [|done|change (lenz (bytes_of 4 p)) with 4; lia|done].
  cbn [strings_at] in Hs. destruct Hs as (Hl1 & Hl2 & Hl3).
  pose proof (string_size _ p l 1 ltac:(lia) ltac:(lia) Hl1 Hl2) as Hsz.
  change (size (user _)) with (size (write_user (bytes_of 4 p) table (user s))).
  rewrite (skip_string_ok _ l) by (done || lia).
  rewrite (u32_id (table + 4)) by (unfold is_u32; lia). rewrite IH by (done || lia).
  f_equal. apply upd_words_cons.
Qed.

(** Writes to different places may change their order. *)
Lemma write_user_comm l l' a b u :
  0 <= a -> 0 <= b -> a + lenz l <= 4294967296 -> b + lenz l' <= 4294967296 ->
  a + lenz l <= b \/ b + lenz l' <= a ->
  write_user l a (write_user l' b u) = write_user l' b (write_user l a u).
Proof.
  revert a u. induction l as [|c l IH]; intros a u Ha Hb Hla Hlb Hd; [done|]. rewrite lenz_cons in *.
  pose proof (lenz_nonneg l). pose proof (lenz_nonneg l'). cbn [write_user]. rewrite <- IH by lia. f_equal.
  apply map_eq. intros k. destruct (decide (k = u32 a)) as [->|Hk].
  - rewrite lookup_insert, decide_True by done. rewrite write_user_lookup_ne; [by rewrite lookup_insert, decide_True|].
    intros j Hj. unfold u32. rewrite !Z.mod_small; lia.
  - rewrite lookup_insert_ne by done. clear IH. revert b Hb Hlb Hd. revert u.
    induction l' as [|d l' IH]; intros u b Hb Hlb Hd; cbn [write_user]; [by rewrite lookup_insert_ne|].
    rewrite lenz_cons in *. pose proof (lenz_nonneg l'). rewrite IH by lia.
    rewrite insert_insert_ne; [done|]. unfold u32. rewrite !Z.mod_small; lia.
Qed.

Lemma align_4 p : 0 <= p < 4294967296 -> Z.land 0xfffffffc p = p - p mod 4.
Proof.
  intros Hp. rewrite Z.land_comm. replace 0xfffffffc with (Z.shiftl (Z.ones 30) 2) by reflexivity.
  apply Z.bits_inj_iff'. intros n Hn. rewrite Z.land_spec, Z.shiftl_spec by done.
  assert (p - p mod 4 = Z.shiftl (Z.shiftr p 2) 2) as ->.
  { rewrite Z.shiftr_div_pow2, Z.shiftl_mul_pow2 by lia. change (2 ^ 2) with 4. pose proof (Z.div_mod p 4). lia. }
  rewrite Z.shiftl_spec by done. destruct (decide (n < 2)).
  { rewrite !(Z.testbit_neg_r _ (n - 2)) by lia. by rewrite andb_false_r. }
  rewrite Z.shiftr_spec by lia. replace (n - 2 + 2) with n by lia.
  destruct (decide (n < 32)).
  - rewrite Z.ones_spec_low by lia. apply andb_true_r.
  - rewrite (Z.bits_above_log2 p n); [done|lia|]. destruct (decide (p = 0)) as [->|]; [cbn; lia|].
    apply Z.log2_lt_pow2; [lia|]. apply Z.lt_le_trans with (2 ^ 32); [lia|]. apply Z.pow_le_mono_r; lia.
Qed.

Lemma lenz_starts p ss : lenz (starts p ss) = lenz ss.
Proof. revert p. induction ss as [|l ss IH]; intros p; cbn [starts]; [done|]. by rewrite !lenz_cons, IH. Qed.

(** The three words at the stack pointer are written from the last one down. *)
Lemma put_three_ok {A} x y z a (k : M kernel A) s :
  0 <= a -> a + 12 <= 4294967296 ->
  (do! put_fs_long x (a + 8) in do! put_fs_long y (a + 4) in do! put_fs_long z a in k) s =
  k (s <| user ::= write_user (words [z; y; x]) a |>).
Proof.
  intros Ha Hb. unfold bind. rewrite !put_fs_long_ok. f_equal.
  transitivity (s <| user := write_user (bytes_of 4 z) a (write_user (bytes_of 4 y) (a + 4) (write_user (bytes_of 4 x) (a + 8) (user s))) |>);
    [done|]. transitivity (s <| user := write_user (words [z; y; x]) a (user s) |>); [|done]. f_equal.
  assert (forall w, lenz (bytes_of 4 w) = 4) as L by done.
  rewrite !write_words_cons. replace (a + 4 + 4) with (a + 8) by lia.
  change (write_user (words [])) with (fun (b : Z) (u : gmap Z Z) => u). cbv beta.
  rewrite (write_user_comm (bytes_of 4 y) (bytes_of 4 x)) by (rewrite ?L; lia).
  rewrite (write_user_comm (bytes_of 4 z) (bytes_of 4 x)) by (rewrite ?L; lia).
  by rewrite (write_user_comm (bytes_of 4 z) (bytes_of 4 y)) by (rewrite ?L; lia).
Qed.

Lemma create_tables_ok p args envs s sp :
  strings_at (user s) p (args ++ envs) -> strings_end p (args ++ envs) < 4294967296 ->
  sp = stack_pointer p args envs -> 0 <= sp ->
  create_tables p (lenz args) (lenz envs) s =
  Ok sp (s <| user ::= write_user (words (stack_words sp p args envs)) sp |>).
Proof.
  intros Hs He Hsp H0. unfold stack_pointer in Hsp. rewrite strings_end_app in He.
  pose proof (strings_end_le p args). pose proof (strings_end_le (strings_end p args) envs).
  pose proof (lenz_nonneg args). pose proof (lenz_nonneg envs).
  pose proof (Z.mod_pos_bound p 4 ltac:(lia)).
  set (argv := sp + 12). set (envp := argv + 4 * (lenz args + 1)).
  unfold create_tables. rewrite align_4 by lia. cbv zeta.
  rewrite (u32_id (_ - _ - 4 * (lenz envs + 1))) by (unfold is_u32; lia).
  replace (p - p mod 4 - 4 * (lenz envs + 1)) with envp by lia.
  rewrite (u32_id (envp - _)) by (unfold is_u32; lia). replace (envp - 4 * (lenz args + 1)) with argv by lia.
  replace (u32 (argv - 4)) with (sp + 8) by (rewrite u32_id by (unfold is_u32; lia); lia).
  replace (u32 (argv - 8)) with (sp + 4) by (rewrite u32_id by (unfold is_u32; lia); lia).
  replace (u32 (argv - 12)) with sp by (rewrite u32_id by (unfold is_u32; lia); lia).

  rewrite put_three_ok by lia. unfold bind.
  apply strings_at_app in Hs as [Hs1 Hs2].
  assert (forall l, sp + lenz l <= p -> strings_at (write_user l sp (user s)) p args /\
    strings_at (write_user l sp (user s)) (strings_end p args) envs) as Hk.
  { intros l Hl. split; apply strings_at_below; done || lia. }
  destruct (Hk (words [lenz args; argv; envp])) as [Hs1' Hs2']; [rewrite lenz_words; unfold lenz in *; cbn [length]; lia|].
  replace (Z.to_nat (lenz args)) with (length args) by (unfold lenz; lia).
  rewrite put_pointers_ok by (done || lia).
  rewrite (upd_words_app _ _ sp argv) by done.
  destruct (Hk (words ([lenz args; argv; envp] ++ starts p args ++ [0]))) as [_ Hs2'']; [rewrite lenz_words, !lenz_app, lenz_starts; unfold lenz in *; cbn [length]; lia|].
  replace (Z.to_nat (lenz envs)) with (length envs) by (unfold lenz; lia).
  rewrite put_pointers_ok by (done || lia).
  rewrite (upd_words_app _ _ sp envp) by (rewrite !lenz_app, lenz_starts; unfold lenz in *; cbn [length]; lia).
  unfold stack_words. fold argv envp. by rewrite <- app_assoc.
Qed.

(** ** The claim *)

(** C17: [create_tables], called with the addresses of the strings that
    [copy_strings] has left at [p], always returns: the stack pointer is
    aligned, and from it on there are the number of arguments, the address of
    the table of arguments, the address of the table of the environment, and
    the two tables, which hold in order the address of each string and a null
    behind the last. The strings keep their places and bytes, and no other byte
    of the memory and no other part of the state changes. *)
Theorem create_tables_spec p args envs s (sp := stack_pointer p args envs) (ws := stack_words sp p args envs) :
  strings_at (user s) p (args ++ envs) -> strings_end p (args ++ envs) < 4294967296 -> 0 <= sp ->
  exists s', create_tables p (lenz args) (lenz envs) s = Ok sp s' /\
    s' = s <| user ::= write_user (words ws) sp |> /\ sp mod 4 = 0 /\
    read_user (4 * length ws) sp (user s') = words ws /\ strings_at (user s') p (args ++ envs) /\
    (forall a, ~ sp <= a < sp + 4 * lenz ws -> 0 <= a -> user s' !! a = user s !! a).
Proof.
  intros Hs He H0. eexists. rewrite (create_tables_ok _ _ _ _ sp) by done. split; [done|]. split; [done|].
  assert (sp + 4 * lenz ws <= p) as Hws.
  { unfold ws, stack_words. rewrite !lenz_app, !lenz_starts. subst sp. unfold stack_pointer, lenz in *. cbn [length]. dmlia. }
  pose proof (strings_end_le p (args ++ envs)). fold ws. upd.
  split; [subst sp; unfold stack_pointer; dmlia|]. split; [|split].
  - rewrite <- (map_u8_bytes (words ws)) at 2 by apply words_u8. rewrite <- (read_write_user (words ws) sp (user s)) by (rewrite lenz_words; lia).
    do 2 f_equal. pose proof (lenz_words ws). unfold lenz in *. lia.
  - apply strings_at_below; rewrite ?lenz_words; done || lia.
  - intros a Ha Ha0. apply write_user_lookup_ne. rewrite lenz_words. intros k Hk. unfold u32. rewrite Z.mod_small; lia.
Qed.

(** One argument [ls] at 100, and [A=] behind it. *)
Definition two_strings : kernel := bare <| user := write_user [108; 115; 0; 65; 61; 0] 100 (user bare) |>.
Example create_tables_spec_witness :
  exists s', create_tables 100 1 1 two_strings = Ok 72 s' /\
    read_user 28 72 (user s') = words [1; 84; 92; 100; 0; 103; 0] /\
    strings_at (user s') 100 [[108; 115]; [65; 61]].
Proof.
  destruct (create_tables_spec 100 [[108; 115]] [[65; 61]] two_strings) as (s' & H1 & _ & _ & H2 & H3 & _).
  - repeat split; try reflexivity; repeat constructor; discriminate.
  - reflexivity.
  - vm_compute. discriminate.
  - exists s'. split; [exact H1|]. split; [exact H2|exact H3].
Defined.
