(* ===== verification/Ports.v ===== *)
(** * Controllers behind ports

    What a driver does to its controller is the list of its accesses, the
    latest first; what it reads depends on all it did before.  [Machine] is the
    hardware: nothing is assumed of it here. *)

From Stdlib Require Import ZArith Lia.
From stdpp Require Import base numbers list.
From S2P Require Import Prelude.

Inductive access :=
  | In (port : Z)
  | Out (v port : Z)
  | Insw (port : Z)
  | Outsw (data : list Z) (port : Z).

Class Machine := {
  port_byte : list access -> Z -> Z;
  (** byte [k] of the words a string instruction reads *)
  port_words : list access -> Z -> Z -> Z
}.

Section ports.
Context {H : Machine}.

Definition in_b (port : Z) : M (list access) Z := fun t => Ok (u8 (port_byte t port)) (In port :: t).
Definition out_b (v port : Z) : M (list access) unit := fun t => Ok tt (Out (u8 v) port :: t).

(** [rep; insw] and [rep; outsw] of 256 words. *)
Definition words_at (t : list access) (port : Z) : list Z := (fun k => u8 (port_words t port k)) <$> seqZ 0 512.
Definition in_words (port : Z) : M (list access) (list Z) := fun t => Ok (words_at t port) (Insw port :: t).
Definition out_words (data : list Z) (port : Z) : M (list access) unit := fun t =>
  Ok tt (Outsw data port :: t).

(** [outb_p] of each value in turn. *)
Fixpoint outs_b (l : list (Z * Z)) : M (list access) unit :=
  match l with
  | [] => ret tt
  | (v, port) :: l => do! out_b v port in outs_b l
  end.
Definition sent (l : list (Z * Z)) (t : list access) : list access :=
  foldl (fun t x => Out (u8 x.1) x.2 :: t) t l.
End ports.

Lemma outs_b_ok l t : outs_b l t = Ok tt (sent l t).
Proof. revert t. induction l as [|[v port] l IH]; intros t; [done|]. cbn. unfold bind. cbn. apply IH. Qed.

Lemma lenz_words_at `{Machine} t port : lenz (words_at t port) = 512.
Proof. unfold words_at. by rewrite lenz_fmap. Qed.
