(* ===== verification/Hd.v ===== *)
(** * The hard disk driver: kernel/blk_drv/hd.c, include/linux/hdreg.h

    The driver has state of its own besides the kernel's: the parameters of the
    disks, the partitions, the flags of its error handling, the routine the next
    interrupt goes to, and all that passed through the ports. *)

From Stdlib Require Import ZArith Lia.
From stdpp Require Import base numbers list gmap strings.
From S2P Require Import Prelude Memory Task Kernel Blk Buffer Inode Super Ports.

Definition HD_MAJOR : Z := 3.
Definition MAX_ERRORS : Z := 7.
Definition MAX_HD : Z := 2.

Definition HD_DATA : Z := 0x1f0.
Definition HD_ERROR : Z := 0x1f1.
Definition HD_STATUS : Z := 0x1f7.
Definition HD_CMD : Z := 0x3f6.
Definition ERR_STAT : Z := 0x01.
Definition DRQ_STAT : Z := 0x08.
Definition SEEK_STAT : Z := 0x10.
Definition WRERR_STAT : Z := 0x20.
Definition READY_STAT : Z := 0x40.
Definition BUSY_STAT : Z := 0x80.
Definition WIN_RESTORE : Z := 0x10.
Definition WIN_READ : Z := 0x20.
Definition WIN_WRITE : Z := 0x30.
Definition WIN_SPECIFY : Z := 0x91.

(** [ctl] is the control byte of a disk, here [hctl]. *)
Record hd_i_struct := HdInfo { cyl : Z; head : Z; sect : Z; wpcom : Z; lzone : Z; hctl : Z }.
Record hd_struct := HdPart { start_sect : Z; nr_sects : Z }.

(** The routines [do_hd] may point to. *)
Inductive hd_intr := read_intr_p | write_intr_p | recal_intr_p.

Record hd_kernel := HdKernel {
  kern : kernel; trace : list access; recalibrate : Z; reset : Z; hd_info : list hd_i_struct; NR_HD : Z;
  hd : list hd_struct; do_hd : option hd_intr; callable : Z
}.
#[global] Instance hd_kernel_fields : Fields hd_kernel := fun x => HdKernel
  (kern x) (trace x) (recalibrate x) (reset x) (hd_info x) (NR_HD x) (hd x) (do_hd x) (callable x).
#[global] Instance set_kern : Setter kern := ltac:(solve_setter).
#[global] Instance set_trace : Setter trace := ltac:(solve_setter).
#[global] Instance set_recalibrate : Setter recalibrate := ltac:(solve_setter).
#[global] Instance set_reset : Setter reset := ltac:(solve_setter).
#[global] Instance set_hd_info : Setter hd_info := ltac:(solve_setter).
#[global] Instance set_NR_HD : Setter NR_HD := ltac:(solve_setter).
#[global] Instance set_hd : Setter hd := ltac:(solve_setter).
#[global] Instance set_do_hd : Setter do_hd := ltac:(solve_setter).
#[global] Instance set_callable : Setter callable := ltac:(solve_setter).

Definition on_kernel {A} (m : M kernel A) : M hd_kernel A := zoom kern (fun k s => s <| kern := k |>) m.
Definition on_ports {A} (m : M (list access) A) : M hd_kernel A := zoom trace (fun t s => s <| trace := t |>) m.

Section hd.
Context {E : Env} {H : Machine}.

Definition hd_in (port : Z) : M hd_kernel Z := on_ports (in_b port).
Definition hd_outb (v port : Z) : M hd_kernel unit := on_ports (out_b v port).
Definition get_info (drive : Z) : M hd_kernel hd_i_struct := let! l := gets hd_info in valid (getz l drive).

(** [CURRENT_REQ->...]: a fault when the queue is empty. *)
Definition current_req : M hd_kernel (Z * request_t) :=
  on_kernel (let! d := get_dev HD_MAJOR in let! cur := valid (current_request d) in
             let! r := get_req cur in ret (cur, r)).
Definition update_req (f : request_t -> request_t) : M hd_kernel unit :=
  let! '(cur, r) := current_req in on_kernel (set_req cur f).

(** ** The controller *)

(** [while (--retries && (inb_p(HD_STATUS) & 0x80))] *)
Fixpoint ready_loop (retries : nat) : M hd_kernel Z :=
  match retries with
  | O | Datatypes.S O => ret 0
  | Datatypes.S retries =>
    let! v := hd_in HD_STATUS in
    if istrue (Z.land v 0x80) then ready_loop retries else ret (Z.of_nat retries)
  end.
Definition controller_ready : M hd_kernel Z := ready_loop (Z.to_nat 100000).

Definition win_result : M hd_kernel Z :=
  let! i := hd_in HD_STATUS in
  if Z.land i (Z.lor BUSY_STAT (Z.lor READY_STAT (Z.lor WRERR_STAT (Z.lor SEEK_STAT ERR_STAT)))) =?
     Z.lor READY_STAT SEEK_STAT then ret 0 else
  do! (if istrue (Z.land i ERR_STAT) then let! i := hd_in HD_ERROR in ret tt else ret tt) in
  ret 1.

(** What [hd_out] writes, each value with its port. *)
Definition hd_command (info : hd_i_struct) (drive nsect start_sect head cyl cmd : Z) : list (Z * Z) :=
  [(hctl info, HD_CMD); (Z.shiftr (wpcom info) 2, HD_DATA + 1); (nsect, HD_DATA + 2); (start_sect, HD_DATA + 3);
   (cyl, HD_DATA + 4); (Z.shiftr cyl 8, HD_DATA + 5);
   (Z.lor 0xa0 (Z.lor (Z.shiftl drive 4) head), HD_DATA + 6); (cmd, HD_DATA + 7)].

Definition hd_out (drive nsect start_sect head cyl cmd : Z) (intr_addr : hd_intr) : M hd_kernel unit :=
  if (1 <? drive) || (15 <? head) then panic "Trying to write bad sector" else
  let! ready := controller_ready in
  if negb (istrue ready) then panic "HD controller not ready" else
  do! modify (fun s => s <| do_hd := Some intr_addr |>) in
  let! info := get_info drive in
  on_ports (outs_b (hd_command info drive nsect start_sect head cyl cmd)).

Fixpoint busy_loop (n : nat) : M hd_kernel unit :=
  match n with
  | O => ret tt
  | Datatypes.S n =>
    let! v := hd_in HD_STATUS in
    if READY_STAT =? Z.land v (Z.lor BUSY_STAT READY_STAT) then ret tt else busy_loop n
  end.
Definition drive_busy : M hd_kernel Z :=
  do! busy_loop (Z.to_nat 10000) in
  let! i := hd_in HD_STATUS in
  let i := Z.land i (Z.lor BUSY_STAT (Z.lor READY_STAT SEEK_STAT)) in
  ret (if i =? Z.lor READY_STAT SEEK_STAT then 0 else 1).

Definition reset_controller : M hd_kernel unit :=
  do! hd_outb 4 HD_CMD in
  let! info := get_info 0 in
  do! hd_outb (Z.land (hctl info) 0x0f) HD_CMD in
  let! busy := drive_busy in
  let! i := hd_in HD_ERROR in
  ret tt.

Definition reset_hd (nr : Z) : M hd_kernel unit :=
  do! reset_controller in
  let! info := get_info nr in
  hd_out nr (sect info) (sect info) (u32 (head info - 1)) (cyl info) WIN_SPECIFY recal_intr_p.

(** ** Errors *)

(** After the last try the request ends; the flags look at the request that is
    current then. *)
Definition bad_rw_intr : M hd_kernel unit :=
  do! update_req (fun r => r <| r_errors ::= fun e => s32 (e + 1) |>) in
  let! '(_, r) := current_req in
  do! when (MAX_ERRORS <=? r_errors r) (on_kernel (end_request HD_MAJOR 0)) in
  let! '(_, r) := current_req in
  when (MAX_ERRORS ÷ 2 <? r_errors r) (modify (fun s => s <| reset := 1 |>)).

(** ** Starting a request *)

(** [divl] of a 32-bit number: dividing by zero is an exception. *)
Definition divl (n d : Z) : M hd_kernel (Z * Z) :=
  let d := u32 d in if d =? 0 then fault else ret (n / d, n mod d).

(** Track, head and sector of a number: cylinder, head and sector, from 1. *)
Definition chs (info : hd_i_struct) (start_sector : Z) : M hd_kernel (Z * Z * Z) :=
  let! '(track, start_sec) := divl start_sector (sect info) in
  let! '(cyl, head) := divl track (head info) in
  ret (cyl, head, start_sec + 1).

(** [for (i = 0; i < 3000 && !(r = inb_p(HD_STATUS) & DRQ_STAT); i++)] *)
Fixpoint drq_loop (n : nat) (r : Z) : M hd_kernel Z :=
  match n with
  | O => ret r
  | Datatypes.S n =>
    let! v := hd_in HD_STATUS in
    let r := Z.land v DRQ_STAT in
    if istrue r then ret r else drq_loop n r
  end.

(** [port_write(HD_DATA, CURRENT_REQ->buffer, 256)] and the other way. *)
Definition write_sector : M hd_kernel unit :=
  let! '(_, r) := current_req in
  let! buffer := valid (r_buffer r) in
  let! data := on_kernel (load_buffer buffer 512) in
  on_ports (out_words data HD_DATA).
Definition read_sector : M hd_kernel unit :=
  let! data := on_ports (in_words HD_DATA) in
  let! '(_, r) := current_req in
  let! buffer := valid (r_buffer r) in
  on_kernel (store_buffer buffer data).

(** [CURRENT_REQ->buffer += 512] *)
Definition next_sector (r : request_t) : request_t :=
  r <| r_buffer ::= fmap (fun p => (p.1, p.2 + 512)) |> <| r_start_sector ::= fun n => u32 (n + 1) |>.

(** One round from [repeat]: true when there is another one. *)
Definition hd_request_round : M hd_kernel bool :=
  let! o := on_kernel (check_request HD_MAJOR) in
  match o with
  | None => ret false
  | Some r =>
    let partition := MINOR (r_dev r) in
    let nsect := r_nr_sectors r in
    let! nr := gets NR_HD in
    if u32 (5 * nr) <=? partition then do! on_kernel (end_request HD_MAJOR 0) in ret true else
    let! l := gets hd in
    let! part := valid (getz l partition) in
    if u32 (nr_sects part) <? nsect then do! on_kernel (end_request HD_MAJOR 0) in ret true else
    let start_sector := u32 (r_start_sector r + start_sect part) in
    let dev := partition / 5 in
    let! info := get_info dev in
    let! '(cyl, head, start_sec) := chs info start_sector in
    let! reset_flag := gets reset in
    if istrue reset_flag then
      do! modify (fun s => s <| reset := 0 |> <| recalibrate := 1 |>) in
      do! reset_hd dev in
      ret false
    else
    let! recalibrate_flag := gets recalibrate in
    if istrue recalibrate_flag then
      do! modify (fun s => s <| recalibrate := 0 |>) in
      do! hd_out dev (sect info) 0 0 0 WIN_RESTORE recal_intr_p in
      ret false
    else
    if r_cmd r =? WRITE then
      do! hd_out dev nsect start_sec head cyl WIN_WRITE write_intr_p in
      let! r := drq_loop (Z.to_nat 3000) 0 in
      if negb (istrue r) then do! bad_rw_intr in ret true else
      do! write_sector in
      ret false
    else if r_cmd r =? READ then
      do! hd_out dev nsect start_sec head cyl WIN_READ read_intr_p in
      ret false
    else panic "unknown hd-command"
  end.

Fixpoint hd_request_loop (fuel : nat) : M hd_kernel unit :=
  match fuel with
  | O => Prelude.blocked
  | Datatypes.S fuel =>
    let! again := hd_request_round in
    if again then hd_request_loop fuel else ret tt
  end.

(** A round that goes on ends the current request or counts one of its
    [MAX_ERRORS] errors. *)
Definition do_hd_request : M hd_kernel unit := hd_request_loop (Z.to_nat (NR_REQUEST * MAX_ERRORS + 1)).

(** ** Interrupts *)

Definition read_intr : M hd_kernel unit :=
  let! bad := win_result in
  if istrue bad then do! bad_rw_intr in do_hd_request else
  do! read_sector in
  do! update_req (fun r => next_sector (r <| r_errors := 0 |>)) in
  do! update_req (fun r => r <| r_nr_sectors ::= fun n => u32 (n - 1) |>) in
  let! '(_, r) := current_req in
  if istrue (r_nr_sectors r) then modify (fun s => s <| do_hd := Some read_intr_p |>) else
  do! on_kernel (end_request HD_MAJOR 1) in
  do_hd_request.

Definition write_intr : M hd_kernel unit :=
  let! bad := win_result in
  if istrue bad then do! bad_rw_intr in do_hd_request else
  do! update_req (fun r => r <| r_nr_sectors ::= fun n => u32 (n - 1) |>) in
  let! '(_, r) := current_req in
  if istrue (r_nr_sectors r) then
    do! update_req next_sector in
    do! modify (fun s => s <| do_hd := Some write_intr_p |>) in
    write_sector
  else
    do! on_kernel (end_request HD_MAJOR 1) in
    do_hd_request.

Definition recal_intr : M hd_kernel unit :=
  let! bad := win_result in
  do! when (istrue bad) bad_rw_intr in
  do_hd_request.

(** [hd_interrupt] of kernel/system_call.s: the routine is taken, and called
    after the two interrupt controllers are told. *)
Definition hd_interrupt : M hd_kernel unit :=
  do! hd_outb 0x20 0xa0 in
  let! intr := gets do_hd in
  do! modify (fun s => s <| do_hd := None |>) in
  do! hd_outb 0x20 0x20 in
  match intr with
  | Some read_intr_p => read_intr
  | Some write_intr_p => write_intr
  | Some recal_intr_p => recal_intr
  | None => ret tt
  end.

Definition hd_init : M hd_kernel unit :=
  do! on_kernel (set_dev HD_MAJOR (fun d => d <| request_fn := interrupt_driver |>)) in
  let! v := hd_in 0x21 in
  do! hd_outb (Z.land v 0xfb) 0x21 in
  let! v := hd_in 0xa1 in
  hd_outb (Z.land v 0xbf) 0xa1.

(** ** Setting up *)

(** The parameters of a disk in the table of the BIOS. *)
Definition bios_info (bios : list Z) : option hd_i_struct :=
  c ← le16 bios 0; h ← getz bios 2; w ← le16 bios 5; t ← getz bios 8; z ← le16 bios 12; n ← getz bios 14;
  Some (HdInfo c h n w z t).

Definition set_part (i start nr : Z) : M hd_kernel unit :=
  let! l := gets hd in
  let! _ := valid (getz l i) in
  modify (fun s => s <| hd := setz l i (HdPart start nr) |>).

(** The partitions of [drive], from its first block. *)
Definition read_partitions (drive : Z) : M hd_kernel unit :=
  let! o := on_kernel (bread (0x300 + drive * 5) 0) in
  match o with
  | None => panic ""
  | Some bh =>
    let! b := on_kernel (get_bh bh) in
    let! sig0 := valid (getz (b_data b) 510) in
    let! sig1 := valid (getz (b_data b) 511) in
    if negb (sig0 =? 0x55) || negb (sig1 =? 0xaa) then panic "" else
    do! for_range 1 4 (fun i =>
      let p := 0x1be + 16 * (i - 1) in
      let! start := valid (le32 (b_data b) (p + 8)) in
      let! nr := valid (le32 (b_data b) (p + 12)) in
      set_part (drive * 5 + i) (s32 start) (s32 nr)) in
    on_kernel (brelse (Some bh))
  end.

(** [kernel/blk_drv/ramdisk.c]: [nblocks] blocks from [block] on go to [cp]. *)
Fixpoint load_blocks (nblocks : nat) (block cp : Z) : M kernel bool :=
  match nblocks with
  | O => ret true
  | Datatypes.S n =>
    let! rdev := gets ROOT_DEV in
    let! o := (if 2 <? Z.of_nat nblocks then breada rdev block [block + 1; block + 2; -1] else bread rdev block) in
    match o with
    | None => ret false
    | Some bh =>
      let! b := get_bh bh in
      do! ramdisk_write cp (b_data b) in
      do! brelse (Some bh) in
      load_blocks n (block + 1) (u32 (cp + 1024))
    end
  end.

(** An uninitialised [struct super_block]: only the members that are read into it
    are used. *)
Definition any_super : super_block_t := Super 0 0 0 0 0 0 0 0 [] [] 0 None None 0 0 0 0.
Definition ramdisk_load : M kernel unit :=
  let block := 256 in
  let! disk := gets ramdisk in
  if lenz disk =? 0 then ret tt else
  let! rdev := gets ROOT_DEV in
  if negb (MAJOR rdev =? 2) then ret tt else
  let! o := breada rdev (block + 1) [block; block + 2; -1] in
  match o with
  | None => ret tt
  | Some bh =>
    let! b := get_bh bh in
    let! s := valid (read_d_super (b_data b) any_super) in
    do! brelse (Some bh) in
    if negb (s_magic s =? SUPER_MAGIC) then ret tt else
    let nblocks := s32 (Z.shiftl (s_nzones s) (s_log_zone_size s)) in
    if Z.shiftr (lenz disk) 10 <? nblocks then ret tt else
    let! start := gets ramdisk_start in
    let! done := load_blocks (Z.to_nat nblocks) block start in
    when done (modify (fun s => s <| ROOT_DEV := 0x0101 |>))
  end.

(** [bios] are the bytes [BIOS] points to. *)
Definition sys_setup (bios : list Z) : M hd_kernel Z :=
  let! c := gets callable in
  if negb (istrue c) then ret (-1) else
  do! modify (fun s => s <| callable := 0 |>) in
  let! i0 := valid (bios_info bios) in
  let! i1 := valid (bios_info (drop 16 bios)) in
  do! modify (fun s => s <| hd_info := [i0; i1] |>) in
  do! modify (fun s => s <| NR_HD := if istrue (cyl i1) then 2 else 1 |>) in
  let! nr := gets NR_HD in
  do! for_range 0 (Z.to_nat nr) (fun i =>
    let! info := get_info i in
    set_part (i * 5) 0 (s32 (head info * sect info * cyl info))) in
  do! hd_outb 0x12 0x70 in
  let! cmos_disks := hd_in 0x71 in
  do! modify (fun s => s <| NR_HD := if istrue (Z.land cmos_disks 0xf0) then
                                       if istrue (Z.land cmos_disks 0x0f) then 2 else 1
                                     else 0 |>) in
  let! nr := gets NR_HD in
  do! for_range nr (Z.to_nat (2 - nr)) (fun i => set_part (i * 5) 0 0) in
  do! for_range 0 (Z.to_nat nr) read_partitions in
  do! on_kernel ramdisk_load in
  do! on_kernel mount_root in
  ret 0.
End hd.
