(* ===== verification/HdProofs.v ===== *)
(** * Blocks from and to the hard disk

    A controller that keeps to what an AT disk controller does, and what the
    driver makes of it: the sectors of a request, one interrupt after the
    other, for a read and for a write. *)

From Stdlib Require Import ZArith Lia.
From stdpp Require Import base numbers list gmap strings.
From S2P Require Import Prelude Memory Task Kernel Blk CacheExamples Ports Hd.

(** ** The controller

    [idle t]: after the accesses [t] it waits for a command.  [reading t d n k]:
    it is in a read command for drive [d], with [k] sectors left from [n] on,
    numbered through the cylinders, heads and sectors of the drive.
    [writing t d n k]: it is in a write command, and takes the data of sector [n]
    next.  [storing t d n k]: it puts the sector before [n] on the medium, and
    will interrupt. *)

(** A command reaches the registers: control, precompensation, count, sector,
    cylinder, drive and head, command. *)
Definition commanded (cmd drive head ch cl sec n p c : Z) (t : list access) : list access :=
  Out cmd 0x1f7 :: Out (0xa0 + 16 * drive + head) 0x1f6 :: Out ch 0x1f5 :: Out cl 0x1f4 ::
  Out sec 0x1f3 :: Out n 0x1f2 :: Out p 0x1f1 :: Out c 0x3f6 :: t.

(** What the interrupt routine tells the two interrupt controllers. *)
Definition acknowledged (t : list access) : list access := Out 0x20 0x20 :: Out 0x20 0xa0 :: t.

Class AtDisk (H : Machine) := {
  heads : Z -> Z;
  sectors_per_track : Z -> Z;
  medium : list access -> Z -> Z -> list Z;
  idle : list access -> Prop;
  reading : list access -> Z -> Z -> Z -> Prop;
  writing : list access -> Z -> Z -> Z -> Prop;
  storing : list access -> Z -> Z -> Z -> Prop;

  (** only data change the medium *)
  medium_kept a t d n : (forall data, a <> Outsw data HD_DATA) -> medium (a :: t) d n = medium t d n;
  idle_status t : idle t -> Z.land (u8 (port_byte t HD_STATUS)) BUSY_STAT = 0 /\ idle (In HD_STATUS :: t);
  read_command t c p n sec cl ch drive head :
    idle t -> 0 <= drive <= 1 -> 0 <= cl < 256 -> 0 <= ch < 256 ->
    0 <= head < heads drive -> 1 <= sec <= sectors_per_track drive -> 0 < n < 256 ->
    reading (commanded WIN_READ drive head ch cl sec n p c t)
      drive (((cl + 256 * ch) * heads drive + head) * sectors_per_track drive + (sec - 1)) n;
  write_command t c p n sec cl ch drive head :
    idle t -> 0 <= drive <= 1 -> 0 <= cl < 256 -> 0 <= ch < 256 ->
    0 <= head < heads drive -> 1 <= sec <= sectors_per_track drive -> 0 < n < 256 ->
    writing (commanded WIN_WRITE drive head ch cl sec n p c t)
      drive (((cl + 256 * ch) * heads drive + head) * sectors_per_track drive + (sec - 1)) n;
  (** it asks for the data in time, however often it is asked *)
  writing_status t d n k : writing t d n k -> writing (In HD_STATUS :: t) d n k;
  writing_ready t d n k : writing t d n k -> exists j, (j < 3000)%nat /\
    Z.land (u8 (port_byte (Nat.iter j (cons (In HD_STATUS)) t) HD_STATUS)) DRQ_STAT <> 0;
  writing_data t d n k data : writing t d n k -> 0 < k -> lenz data = 512 -> Forall is_u8 data ->
    medium (Outsw data HD_DATA :: t) d n = data /\
    (forall d' n', (d', n') <> (d, n) -> medium (Outsw data HD_DATA :: t) d' n' = medium t d' n') /\
    storing (Outsw data HD_DATA :: t) d (n + 1) (k - 1);
  (** at the interrupt it is ready, on the track, with no error, and goes on *)
  storing_stored t d n k : storing t d n k -> 0 <= k ->
    Z.land (u8 (port_byte (acknowledged t) HD_STATUS)) 0xf1 = 0x50 /\
    if k =? 0 then idle (In HD_STATUS :: acknowledged t) else writing (In HD_STATUS :: acknowledged t) d n k;
  (** the status at an interrupt: ready, on the track, no error *)
  reading_status t d n k : reading t d n k -> 0 < k ->
    Z.land (u8 (port_byte t HD_STATUS)) 0xf1 = 0x50 /\ reading (In HD_STATUS :: t) d n k;
  reading_data t d n k : reading t d n k -> 0 < k ->
    words_at t HD_DATA = medium t d n /\
    (if k =? 1 then idle (Insw HD_DATA :: t) else reading (Insw HD_DATA :: t) d (n + 1) (k - 1));
  reading_other t d n k v port : reading t d n k -> port = 0x20 \/ port = 0xa0 -> reading (Out v port :: t) d n k
}.

(** ** Steps of the driver *)

Lemma on_kernel_ok {A} (m : M kernel A) s a k : m (kern s) = Ok a k -> on_kernel m s = Ok a (s <| kern := k |>).
Proof. intros E. unfold on_kernel, zoom. by rewrite E. Qed.
Lemma on_ports_ok {A} (m : M (list access) A) s a t : m (trace s) = Ok a t -> on_ports m s = Ok a (s <| trace := t |>).
Proof. intros E. unfold on_ports, zoom. by rewrite E. Qed.

(** The request [cur] of the kernel [k] is at the head of the queue of [d]. *)
Record current_is (k : kernel) (d : blk_dev_struct) (cur : Z) (r : request_t) : Prop := {
  current_dev : getz (blk_dev k) HD_MAJOR = Some d;
  current_head : current_request d = Some cur;
  current_entry : getz (request k) cur = Some r
}.
Definition put_req (cur : Z) (r : request_t) (k : kernel) : kernel := k <| request ::= fun l => setz l cur r |>.

Lemma current_put k d cur r r' : current_is k d cur r -> current_is (put_req cur r' k) d cur r'.
Proof.
  intros [H1 H2 H3]. split; [done..|]. apply getz_setz_eq. by apply getz_Some_lt in H3.
Qed.
Lemma put_put cur r r' k : put_req cur r' (put_req cur r k) = put_req cur r' k.
Proof. exact (f_equal (fun l => k <| request := l |>) (setz_setz (request k) cur r r')). Qed.

Lemma kern_id s : s <| kern := kern s |> = s.
Proof. by destruct s. Qed.

Section steps.
Context {E : Env} {H : Machine}.

Lemma hd_in_ok port s : hd_in port s = Ok (u8 (port_byte (trace s) port)) (s <| trace ::= cons (In port) |>).
Proof. reflexivity. Qed.

Lemma get_info_ok drive info s : getz (hd_info s) drive = Some info -> get_info drive s = Ok info s.
Proof. intros Hi. unfold get_info, bind, gets. by rewrite Hi. Qed.

Lemma current_req_ok s d cur r : current_is (kern s) d cur r -> current_req s = Ok (cur, r) s.
Proof.
  intros [H1 H2 H3]. unfold current_req. rewrite (on_kernel_ok _ _ (cur, r) (kern s)); [by destruct s|].
  unfold get_dev, bind at 1 2 3, gets at 1. rewrite H1. cbn [valid ret]. rewrite H2. cbn [valid ret].
  by rewrite (bind_ok _ _ _ _ _ (get_req_ok _ _ _ H3)).
Qed.

Lemma update_req_ok s d cur r f :
  current_is (kern s) d cur r -> update_req f s = Ok tt (s <| kern ::= put_req cur (f r) |>).
Proof.
  intros Hc. unfold update_req. rewrite (bind_ok _ _ _ _ _ (current_req_ok _ _ _ _ Hc)). cbv beta iota.
  exact (on_kernel_ok _ _ _ _ (set_req_ok _ _ _ f (current_entry _ _ _ _ Hc))).
Qed.

Lemma chs_ok info n s :
  0 <= n -> 0 < sect info < 4294967296 -> 0 < head info < 4294967296 ->
  chs info n s = Ok (n / sect info / head info, (n / sect info) mod head info, n mod sect info + 1) s.
Proof.
  intros Hn Hs Hh. unfold chs, divl. rewrite !u32_id by (unfold is_u32; lia).
  rewrite !(proj2 (Z.eqb_neq _ 0)) by lia. done.
Qed.

Lemma drive_byte drive h :
  0 <= drive <= 1 -> 0 <= h < 16 -> u8 (Z.lor 0xa0 (Z.lor (Z.shiftl drive 4) h)) = 0xa0 + 16 * drive + h.
Proof.
  intros Hd Hh.
  assert (forallb (fun d => forallb (fun h => u8 (Z.lor 0xa0 (Z.lor (Z.shiftl d 4) h)) =? 0xa0 + 16 * d + h) (seqZ 0 16))
    (seqZ 0 2) = true) as Hall by (vm_compute; reflexivity).
  rewrite forallb_forall in Hall. specialize (Hall drive). rewrite forallb_forall in Hall.
  apply Z.eqb_eq, Hall; apply list_elem_of_In, elem_of_seqZ; lia.
Qed.

(** A sector number is put together again from its cylinder, head and sector. *)
Lemma chs_number n spt hds : 0 < spt -> 0 < hds -> (n / spt / hds * hds + (n / spt) mod hds) * spt + (n mod spt + 1 - 1) = n.
Proof.
  intros Hs Hh. rewrite (Z.mul_comm _ hds), <- Z.div_mod by lia.
  rewrite Z.add_simpl_r, (Z.mul_comm _ spt), <- Z.div_mod by lia. done.
Qed.

(** The request is for a buffer that is locked. *)
Record locked_for (k : kernel) (r : request_t) (bh : Z) (b : buffer_head) : Prop := {
  lf_major : MAJOR (r_dev r) = HD_MAJOR;
  lf_bh : r_bh r = Some bh;
  lf_entry : getz (bhs k) bh = Some b;
  lf_lock : b_lock b <> 0
}.

Lemma check_request_ok k d cur r bh b :
  current_is k d cur r -> locked_for k r bh b -> check_request HD_MAJOR k = Ok (Some r) k.
Proof.
  intros [H1 H2 H3] [Hm Hb He Hl]. unfold check_request, get_dev, bind at 1 2, gets at 1. rewrite H1. cbn [valid ret].
  rewrite H2, (bind_ok _ _ _ _ _ (get_req_ok _ _ _ H3)), Hm. cbn [Z.eqb HD_MAJOR negb Pos.eqb]. rewrite Hb.
  unfold buffer_locked. rewrite bind_assoc, (bind_ok _ _ _ _ _ (get_bh_ok _ _ _ He)).
  unfold bind, ret, istrue. by rewrite (proj2 (Z.eqb_neq _ 0) Hl).
Qed.

Context {D : AtDisk H}.

Lemma controller_ready_ok s : idle (trace s) ->
  controller_ready s = Ok 99999 (s <| trace ::= cons (In HD_STATUS) |>) /\ idle (In HD_STATUS :: trace s).
Proof.
  intros Hi. apply idle_status in Hi as [Hst Hi]. split; [|done]. unfold controller_ready.
  replace (Z.to_nat 100000) with (Datatypes.S (Datatypes.S (Z.to_nat 99998))) by lia.
  assert (Z.of_nat (Datatypes.S (Z.to_nat 99998)) = 99999) as Hn by lia. revert Hn. generalize (Z.to_nat 99998). intros n Hn.
  cbn [ready_loop].
  rewrite (bind_ok _ _ _ _ _ (hd_in_ok _ _)). change 0x80 with BUSY_STAT. rewrite Hst. cbn [istrue Z.eqb negb]. unfold ret. by rewrite Hn.
Qed.

(** The command reaches the registers, and names the right sector. *)
Lemma hd_out_ok s info drive n k cmd intr :
  idle (trace s) -> getz (hd_info s) drive = Some info -> 0 <= drive <= 1 -> 0 < k < 256 -> is_u8 cmd ->
  head info = heads drive -> sect info = sectors_per_track drive -> 0 < head info <= 16 -> 0 < sect info < 256 ->
  0 <= n < 65536 * head info * sect info ->
  exists hd ch cl sec p c,
    hd_out drive k (n mod sect info + 1) ((n / sect info) mod head info) (n / sect info / head info) cmd intr s =
      Ok tt (s <| trace := commanded cmd drive hd ch cl sec k p c (In HD_STATUS :: trace s) |> <| do_hd := Some intr |>) /\
    idle (In HD_STATUS :: trace s) /\ 0 <= cl < 256 /\ 0 <= ch < 256 /\ 0 <= hd < heads drive /\
    1 <= sec <= sectors_per_track drive /\
    ((cl + 256 * ch) * heads drive + hd) * sectors_per_track drive + (sec - 1) = n.
Proof.
  intros Hi Hinfo Hd Hk Hcmd Hh Hs Hh16 Hs256 Hn. destruct (controller_ready_ok s Hi) as [Hr Hi'].
  pose proof (Z.mod_pos_bound (n / sect info) (head info) ltac:(lia)).
  pose proof (Z.mod_pos_bound n (sect info) ltac:(lia)).
  set (cyl := n / sect info / head info). assert (0 <= cyl < 65536) as Hcyl.
  { unfold cyl. rewrite Z.div_div by lia. split; [apply Z.div_pos; lia|apply Z.div_lt_upper_bound; lia]. }
  exists ((n / sect info) mod head info), (u8 (Z.shiftr cyl 8)), (u8 cyl), (n mod sect info + 1),
    (u8 (Z.shiftr (wpcom info) 2)), (u8 (hctl info)).
  assert (u8 cyl + 256 * u8 (Z.shiftr cyl 8) = cyl) as Hc.
  { unfold u8. rewrite Z.shiftr_div_pow2 by lia. change (2 ^ 8) with 256. dmlia. }
  rewrite Hc, <- Hh, <- Hs. split; [|repeat split; try apply u8_range; try done; try lia; unfold cyl; apply chs_number; lia].
  unfold hd_out. rewrite (proj2 (Z.ltb_ge 1 drive)), (proj2 (Z.ltb_ge 15 _)) by lia. cbn [orb].
  rewrite (bind_ok _ _ _ _ _ Hr). cbn [istrue Z.eqb negb].
  set (s1 := s <| trace ::= cons (In HD_STATUS) |>).
  rewrite (bind_ok _ _ _ _ _ (eq_refl : modify (fun s => s <| do_hd := Some intr |>) s1 = Ok tt (s1 <| do_hd := Some intr |>))).
  erewrite bind_ok by (apply get_info_ok; exact Hinfo).
  rewrite (on_ports_ok _ _ _ _ (outs_b_ok _ _)).
  unfold hd_command, sent, HD_DATA, commanded. cbn [foldl fst snd].
  rewrite drive_byte by lia. rewrite (u8_id k), (u8_id (n mod sect info + 1)), (u8_id cmd) by (unfold is_u8 in *; lia).
  by destruct s.
Qed.

(** What the driver knows of the partition of a request, and of its drive. *)
Record in_partition (s : hd_kernel) (r : request_t) (drive n : Z) : Prop := {
  ip_minor : MINOR (r_dev r) < 5 * NR_HD s;
  ip_disks : NR_HD s <= 2;
  ip_part : exists part, getz (hd s) (MINOR (r_dev r)) = Some part /\
    r_nr_sectors r <= nr_sects part < 4294967296 /\ n = r_start_sector r + start_sect part /\
    0 <= r_start_sector r /\ 0 <= start_sect part;
  ip_drive : drive = MINOR (r_dev r) / 5;
  ip_info : exists info, getz (hd_info s) drive = Some info /\
    head info = heads drive /\ sect info = sectors_per_track drive /\
    0 < head info <= 16 /\ 0 < sect info < 256 /\ n + r_nr_sectors r <= 65536 * head info * sect info
}.

Lemma MINOR_range a : 0 <= MINOR a < 256.
Proof. unfold MINOR. change 0xff with (2 ^ 8 - 1). rewrite land_low by lia. apply Z.mod_pos_bound. lia. Qed.

(** The driver comes to the command. *)
Lemma hd_request_ok s d cur r bh b drive n :
  current_is (kern s) d cur r -> locked_for (kern s) r bh b -> in_partition s r drive n ->
  0 < r_nr_sectors r < 256 -> reset s = 0 -> recalibrate s = 0 ->
  exists info, getz (hd_info s) drive = Some info /\ 0 <= drive <= 1 /\
    head info = heads drive /\ sect info = sectors_per_track drive /\
    0 < head info <= 16 /\ 0 < sect info < 256 /\ 0 <= n < 65536 * head info * sect info /\
    hd_request_round s =
      (let out := hd_out drive (r_nr_sectors r) (n mod sect info + 1) ((n / sect info) mod head info) (n / sect info / head info) in
       if r_cmd r =? WRITE then
         do! out WIN_WRITE write_intr_p in
         let! r := drq_loop (Z.to_nat 3000) 0 in
         if negb (istrue r) then do! bad_rw_intr in ret true else do! write_sector in ret false
       else if r_cmd r =? READ then do! out WIN_READ read_intr_p in ret false
       else panic "unknown hd-command") s.
Proof.
  intros Hc Hl [Hm Hn2 (part & Hp & Hsz & Hn & Hr0 & Hs0) Hdr (info & Hinfo & Hh & Hs & Hh16 & Hs256 & Hlim)] Hk Hres Hrec.
  pose proof (MINOR_range (r_dev r)) as Hmr. exists info. repeat (split; [first [done|subst drive; dmlia|nia]|]).
  unfold hd_request_round.
  rewrite (bind_ok _ _ _ _ _ (on_kernel_ok _ s _ _ (check_request_ok _ _ _ _ _ _ Hc Hl))), kern_id.
  rewrite (bind_ok _ _ s (NR_HD s) s), (proj2 (Z.leb_gt _ _)) by (done || rewrite u32_id; unfold is_u32; lia).
  rewrite (bind_ok _ _ s (hd s) s), Hp by done. cbn [valid].
  rewrite (bind_ok _ _ s part s), (proj2 (Z.ltb_ge _ _)) by (done || rewrite u32_id; unfold is_u32; lia).
  rewrite <- Hdr, <- Hn, (bind_ok _ _ s info s) by (by apply get_info_ok).
  rewrite (u32_id n), (bind_ok _ _ _ _ _ (chs_ok info n s ltac:(lia) ltac:(lia) ltac:(lia))) by (unfold is_u32; nia).
  rewrite (bind_ok _ _ s (reset s) s), Hres by done. cbn [istrue Z.eqb negb].
  rewrite (bind_ok _ _ s (recalibrate s) s), Hrec by done. done.
Qed.

(** One round is enough when it does not ask for another. *)
Lemma do_hd_request_once s s' : hd_request_round s = Ok false s' -> do_hd_request s = Ok tt s'.
Proof.
  intros Hr. unfold do_hd_request.
  replace (Z.to_nat (NR_REQUEST * MAX_ERRORS + 1)) with (Datatypes.S (Z.to_nat (NR_REQUEST * MAX_ERRORS))) by done.
  cbn [hd_request_loop]. by rewrite (bind_ok _ _ _ _ _ Hr).
Qed.

Lemma do_hd_request_read s d cur r bh b drive n :
  current_is (kern s) d cur r -> locked_for (kern s) r bh b -> in_partition s r drive n ->
  r_cmd r = READ -> 0 < r_nr_sectors r < 256 -> reset s = 0 -> recalibrate s = 0 -> idle (trace s) ->
  exists t, do_hd_request s = Ok tt (s <| trace := t |> <| do_hd := Some read_intr_p |>) /\
    reading t drive n (r_nr_sectors r) /\ forall d n, medium t d n = medium (trace s) d n.
Proof.
  intros Hc Hl Hp Hcmd Hk Hres Hrec Hi.
  destruct (hd_request_ok s d cur r bh b drive n) as (info & Hinfo & Hd & Hh & Hs & Hh16 & Hs256 & Hn & He); try done.
  destruct (hd_out_ok s info drive n (r_nr_sectors r) WIN_READ read_intr_p)
    as (hd & ch & cl & sec & p & c & Ho & Hi' & Hcl & Hch & Hhd & Hsec & Hnum); try done.
  eexists. split; [|split].
  - apply do_hd_request_once. rewrite He, Hcmd. cbn [Z.eqb WRITE READ]. by rewrite (bind_ok _ _ _ _ _ Ho).
  - rewrite <- Hnum. by apply read_command.
  - intros d' n'. unfold commanded. by rewrite !medium_kept by done.
Qed.

(** ** One interrupt of a read *)

Lemma win_result_ok s drive n k : reading (trace s) drive n k -> 0 < k ->
  win_result s = Ok 0 (s <| trace ::= cons (In HD_STATUS) |>) /\ reading (In HD_STATUS :: trace s) drive n k.
Proof.
  intros Hr Hk. destruct (reading_status _ _ _ _ Hr Hk) as [Hst Hr']. split; [|done].
  unfold win_result. rewrite (bind_ok _ _ _ _ _ (hd_in_ok _ _)).
  change (Z.lor BUSY_STAT _) with 0xf1. by rewrite Hst.
Qed.

(** A sector of data goes to [off] in a buffer. *)
Definition put_data (b : buffer_head) (off : Z) (data : list Z) : buffer_head :=
  b <| b_data ::= fun l => take (Z.to_nat off) l ++ data ++ drop (Z.to_nat (off + 512)) l |>.

Lemma store_buffer_ok k bh b off data :
  getz (bhs k) bh = Some b -> lenz data = 512 -> off + 512 <= lenz (b_data b) ->
  store_buffer (bh, off) data k = Ok tt (put_bh bh (put_data b off data) k).
Proof.
  intros Hb Hd Ho. unfold store_buffer. cbn [fst snd]. rewrite (bind_ok _ _ _ _ _ (get_bh_ok _ _ _ Hb)), Hd.
  rewrite (proj2 (Z.ltb_ge _ _)) by lia. by rewrite (set_bh_ok _ _ _ _ Hb).
Qed.

Definition read_one (r : request_t) : request_t :=
  next_sector (r <| r_errors := 0 |>) <| r_nr_sectors ::= fun n => u32 (n - 1) |>.

Lemma read_intr_ok s d cur r bh b off drive n :
  current_is (kern s) d cur r -> r_buffer r = Some (bh, off) -> getz (bhs (kern s)) bh = Some b ->
  off + 512 <= lenz (b_data b) -> 0 < r_nr_sectors r < 256 -> reading (trace s) drive n (r_nr_sectors r) ->
  lenz (medium (trace s) drive n) = 512 /\
  read_intr s =
    (if istrue (r_nr_sectors (read_one r)) then modify (fun s => s <| do_hd := Some read_intr_p |>)
     else do! on_kernel (end_request HD_MAJOR 1) in do_hd_request)
      (s <| trace := Insw HD_DATA :: In HD_STATUS :: trace s |>
         <| kern := put_req cur (read_one r) (put_bh bh (put_data b off (medium (trace s) drive n)) (kern s)) |>) /\
  (if r_nr_sectors r =? 1 then idle (Insw HD_DATA :: In HD_STATUS :: trace s)
   else reading (Insw HD_DATA :: In HD_STATUS :: trace s) drive (n + 1) (r_nr_sectors r - 1)).
Proof.
  intros Hc Hb Hbh Ho Hk Hr. destruct (win_result_ok _ _ _ _ Hr) as [Hw Hr']; [lia|].
  destruct (reading_data _ _ _ _ Hr') as [Hd Hr'']; [lia|]. pose proof (lenz_words_at (In HD_STATUS :: trace s) HD_DATA) as Hlen.
  rewrite (medium_kept (In HD_STATUS)) in Hd by done. rewrite Hd in Hlen. split; [done|]. split; [|done].
  unfold read_intr. rewrite (bind_ok _ _ _ _ _ Hw). cbn [istrue Z.eqb negb].
  set (s1 := s <| trace := Insw HD_DATA :: In HD_STATUS :: trace s |>).
  set (k1 := put_bh bh (put_data b off (medium (trace s) drive n)) (kern s)).
  assert (current_is k1 d cur r) as Hc1 by (destruct Hc; split; done).
  rewrite (bind_ok _ _ _ tt (s1 <| kern := k1 |>)).
  2:{ unfold read_sector. rewrite (bind_ok _ _ _ (medium (trace s) drive n) s1).
      2:{ rewrite <- Hd. exact (on_ports_ok (in_words HD_DATA) (s <| trace ::= cons (In HD_STATUS) |>) _ _ eq_refl). }
      rewrite (bind_ok _ _ s1 (cur, r) s1) by (by apply (current_req_ok s1 d)). cbv beta iota. rewrite Hb. cbn [valid].
      rewrite (bind_ok _ _ s1 (bh, off) s1) by done. apply (on_kernel_ok _ s1). by apply store_buffer_ok. }
  assert (current_is (kern (s1 <| kern := k1 |>)) d cur r) as Hc1' by exact Hc1.
  rewrite (bind_ok _ _ _ _ _ (update_req_ok _ d cur r _ Hc1')).
  set (r1 := next_sector (r <| r_errors := 0 |>)). set (s2 := s1 <| kern := k1 |> <| kern ::= put_req cur r1 |>).
  assert (current_is (kern s2) d cur r1) as Hc2 by (eapply current_put, Hc1).
  rewrite (bind_ok _ _ _ _ _ (update_req_ok s2 d cur r1 _ Hc2)).
  set (s3 := s2 <| kern ::= _ |>).
  assert (current_is (kern s3) d cur (read_one r)) as Hc3 by (eapply current_put, Hc2).
  rewrite (bind_ok _ _ _ _ _ (current_req_ok s3 _ _ _ Hc3)). cbv beta iota. f_equal.
  subst s3 s2. change (s1 <| kern := put_req cur (read_one r) (put_req cur r1 k1) |> = s1 <| kern := put_req cur (read_one r) k1 |>).
  by rewrite put_put.
Qed.

Definition end_req (d : blk_dev_struct) (cur : Z) (r : request_t) (bh : Z) (b : buffer_head) (k : kernel) : kernel :=
  put_req cur (r <| r_dev := -1 |>) (put_bh bh (b <| b_uptodate := 1 |> <| b_lock := 0 |>) k)
    <| blk_dev ::= fun l => setz l HD_MAJOR (d <| current_request := r_next r |>) |>
    <| woken ::= fun w => wait_for_request :: b_wait bh :: w |>.

Lemma end_request_ok k d cur r bh b :
  current_is k d cur r -> r_bh r = Some bh -> getz (bhs k) bh = Some b ->
  end_request HD_MAJOR 1 k = Ok tt (end_req d cur r bh b k).
Proof.
  intros [H1 H2 H3] Hb Hbh. pose proof (getz_Some_lt _ _ _ Hbh) as Hr. pose proof (getz_Some_lt _ _ _ H3) as Hc.
  assert (forall k', blk_dev k' = blk_dev k -> get_dev HD_MAJOR k' = Ok d k') as Hd.
  { intros k' Hk'. unfold get_dev, bind, gets. by rewrite Hk', H1. }
  unfold end_request. rewrite (bind_ok _ _ _ _ _ (Hd k eq_refl)), H2. cbn [valid]. rewrite (bind_ok _ _ k cur k) by done.
  rewrite (bind_ok _ _ _ _ _ (get_req_ok _ _ _ H3)), Hb.
  set (k2 := put_bh bh (b <| b_uptodate := 1 |> <| b_lock := 0 |>) k <| woken ::= cons (b_wait bh) |>).
  rewrite (bind_ok _ _ _ tt k2).
  2:{ rewrite (bind_ok _ _ _ _ _ (set_bh_ok _ _ _ _ Hbh)). unfold unlock_buffer.
      set (k1 := k <| bhs ::= _ |>).
      assert (getz (bhs k1) bh = Some (b <| b_uptodate := 1 |>)) as Hbh1 by (apply getz_setz_eq, Hr).
      rewrite (bind_ok _ _ _ _ _ (set_bh_ok _ _ _ _ Hbh1)), wake_up_ok. f_equal.
      exact (f_equal (fun l => k <| bhs := l |> <| woken ::= cons (b_wait bh) |>) (setz_setz (bhs k) bh _ _)). }
  set (k3 := k2 <| woken ::= cons wait_for_request |>). rewrite (bind_ok _ _ _ _ _ (wake_up_ok _ _ : _ = Ok tt k3)).
  assert (getz (request k3) cur = Some r) as H3' by exact H3.
  rewrite (bind_ok _ _ _ _ _ (set_req_ok _ _ _ _ H3')).
  set (k4 := k3 <| request ::= _ |>).
  assert (getz (request k4) cur = Some (r <| r_dev := -1 |>)) as H4 by (apply getz_setz_eq, Hc).
  rewrite (bind_ok _ _ _ _ _ (get_req_ok _ _ _ H4)). unfold set_dev. by rewrite (bind_ok _ _ _ _ _ (Hd k4 eq_refl)).
Qed.

Lemma hd_interrupt_ok s intr : do_hd s = Some intr ->
  hd_interrupt s = match intr with read_intr_p => read_intr | write_intr_p => write_intr | recal_intr_p => recal_intr end
                     (s <| trace := acknowledged (trace s) |> <| do_hd := None |>).
Proof.
  intros Hd. unfold hd_interrupt.
  rewrite (bind_ok _ _ s tt (s <| trace ::= cons (Out 0x20 0xa0) |>)) by done.
  rewrite (bind_ok _ _ _ (Some intr) (s <| trace ::= cons (Out 0x20 0xa0) |>)) by (rewrite <- Hd; done). by destruct intr.
Qed.

Lemma lenz_put_data b off data : 0 <= off -> lenz data = 512 -> off + 512 <= lenz (b_data b) ->
  lenz (b_data (put_data b off data)) = lenz (b_data b).
Proof.
  intros H0 Hd Ho. change (lenz (take (Z.to_nat off) (b_data b) ++ data ++ drop (Z.to_nat (off + 512)) (b_data b)) = lenz (b_data b)).
  unfold lenz in *. rewrite !length_app, length_take, length_drop. lia.
Qed.

(** Two sectors fill a buffer. *)
Lemma put_data_twice b d0 d1 :
  lenz d0 = 512 -> lenz d1 = 512 -> lenz (b_data b) = 1024 ->
  put_data (put_data b 0 d0) 512 d1 = b <| b_data := d0 ++ d1 |>.
Proof.
  intros H0 H1 Hb. pose (step off (d l : list Z) := take (Z.to_nat off) l ++ d ++ drop (Z.to_nat (off + 512)) l).
  enough (step 512 d1 (step 0 d0 (b_data b)) = d0 ++ d1) as HL by exact (f_equal (fun l => b <| b_data := l |>) HL).
  unfold step, lenz in *. change (Z.to_nat 0) with 0%nat. rewrite take_0, app_nil_l.
  rewrite (take_app_length' d0) by lia. rewrite (drop_ge (d0 ++ _)) by (rewrite length_app, length_drop; lia).
  by rewrite app_nil_r.
Qed.

Lemma end_req_put d cur r bh b r' b' k : end_req d cur r bh b (put_req cur r' (put_bh bh b' k)) = end_req d cur r bh b k.
Proof.
  exact (f_equal2 (fun l l' => k <| request := l |> <| bhs := l' |>
    <| blk_dev ::= fun l => setz l HD_MAJOR (d <| current_request := r_next r |>) |>
    <| woken ::= fun w => wait_for_request :: b_wait bh :: w |>) (setz_setz (request k) cur _ _) (setz_setz (bhs k) bh _ _)).
Qed.

Lemma end_req_put' d cur r bh b r' k : end_req d cur r bh b (put_req cur r' k) = end_req d cur r bh b k.
Proof.
  exact (f_equal (fun l => k <| request := l |> <| bhs ::= fun l => setz l bh (b <| b_uptodate := 1 |> <| b_lock := 0 |>) |>
    <| blk_dev ::= fun l => setz l HD_MAJOR (d <| current_request := r_next r |>) |>
    <| woken ::= fun w => wait_for_request :: b_wait bh :: w |>) (setz_setz (request k) cur _ _)).
Qed.

(** An empty queue leaves the driver alone. *)
Lemma do_hd_request_none s d :
  getz (blk_dev (kern s)) HD_MAJOR = Some d -> current_request d = None -> do_hd_request s = Ok tt s.
Proof.
  intros Hd Hn. unfold do_hd_request.
  replace (Z.to_nat (NR_REQUEST * MAX_ERRORS + 1)) with (Datatypes.S (Z.to_nat (NR_REQUEST * MAX_ERRORS))) by done.
  cbn [hd_request_loop]. unfold hd_request_round. rewrite bind_assoc, (bind_ok _ _ s None s); [done|].
  rewrite <- (kern_id s) at 2. apply on_kernel_ok. unfold check_request, get_dev, bind, gets. rewrite Hd. cbn. by rewrite Hn.
Qed.

(** The kernel after a request of two sectors is served. *)
Definition served (k : kernel) (d : blk_dev_struct) (cur : Z) (r : request_t) (bh : Z) (b : buffer_head) (data : list Z) : kernel :=
  end_req d cur (r <| r_errors := 0 |> <| r_start_sector := u32 (r_start_sector r + 2) |> <| r_nr_sectors := 0 |>
                   <| r_buffer := Some (bh, 1024) |>)
    bh (b <| b_data := data |>) k.

Lemma read_twice r bh :
  r_nr_sectors r = 2 -> r_buffer r = Some (bh, 0) ->
  read_one (read_one r) = r <| r_errors := 0 |> <| r_start_sector := u32 (r_start_sector r + 2) |> <| r_nr_sectors := 0 |>
                            <| r_buffer := Some (bh, 1024) |>.
Proof.
  intros Hk Hb. destruct r as [dev cmd errs start nr buf w h nx]. cbn in Hk, Hb. subst nr buf.
  transitivity (Request dev cmd 0 (u32 (u32 (start + 1) + 1)) 0 (Some (bh, 1024)) w h nx); [reflexivity|].
  transitivity (Request dev cmd 0 (u32 (start + 2)) 0 (Some (bh, 1024)) w h nx); [|reflexivity].
  f_equal. unfold u32. rewrite Zplus_mod_idemp_l. f_equal. lia.
Qed.

(** ** The claim *)

(** C13: a read of a block. On a controller that does what an AT disk controller
    does, [do_hd_request] gives the command for the request at the head of the
    queue, with cylinder, head and sector computed from the sector of the
    partition, and the two interrupts that follow bring the two sectors. Then
    the buffer holds what is on the medium at that place, is up to date and
    unlocked, those who wait for it and for a request are woken, the request is
    free and the queue goes on with the next one, as [do_hd_request] finds it;
    nothing else of the kernel, the driver or the medium changes. *)
Theorem hd_read_block s d cur r bh b drive n :
  current_is (kern s) d cur r -> locked_for (kern s) r bh b -> in_partition s r drive n ->
  r_cmd r = READ -> r_nr_sectors r = 2 -> r_buffer r = Some (bh, 0) -> lenz (b_data b) = 1024 ->
  reset s = 0 -> recalibrate s = 0 -> idle (trace s) ->
  exists t, let s' := s <| kern := served (kern s) d cur r bh b (medium (trace s) drive n ++ medium (trace s) drive (n + 1)) |>
                        <| trace := t |> <| do_hd := None |> in
    (do! do_hd_request in do! hd_interrupt in hd_interrupt) s = do_hd_request s' /\
    idle t /\ (forall d n, medium t d n = medium (trace s) d n) /\ (r_next r = None -> do_hd_request s' = Ok tt s').
Proof.
  intros Hc Hl Hp Hcmd Hk Hbuf Hlen Hres Hrec Hi. pose proof Hl as [_ Hrb Hbh _].
  destruct (do_hd_request_read s d cur r bh b drive n) as (t0 & H0 & HR & HM); try done; [lia|]. rewrite Hk in HR.
  rewrite (bind_ok _ _ _ _ _ H0).
  set (s1 := s <| trace := acknowledged t0 |> <| do_hd := None |>).
  assert (reading (trace s1) drive n 2) as HR1 by (apply reading_other; [apply reading_other; [done|auto]|auto]).
  destruct (read_intr_ok s1 d cur r bh b 0 drive n) as (Hm0 & Hi0 & HR2); try done; [lia|lia|by rewrite Hk|].
  set (r1 := read_one r) in *. assert (r_nr_sectors r1 = 1) as Hk1 by (unfold r1; change (u32 (r_nr_sectors r - 1) = 1); by rewrite Hk).
  rewrite Hk1 in Hi0. rewrite Hk in HR2. cbn [istrue Z.eqb negb] in Hi0.
  set (b1 := put_data b 0 (medium (trace s1) drive n)) in *. set (t1 := Insw HD_DATA :: In HD_STATUS :: trace s1) in *.
  set (k1 := put_req cur r1 (put_bh bh b1 (kern s1))) in *.
  set (s2 := s1 <| trace := t1 |> <| kern := k1 |> <| do_hd := Some read_intr_p |>).
  rewrite (bind_ok _ _ _ tt s2) by (rewrite (hd_interrupt_ok _ read_intr_p) by done; exact Hi0).
  rewrite (hd_interrupt_ok _ read_intr_p) by done. set (s3 := s2 <| trace := _ |> <| do_hd := None |>).
  assert (reading (trace s3) drive (n + 1) 1) as HR3 by (apply reading_other; [apply reading_other; [exact HR2|auto]|auto]).
  assert (getz (bhs (kern s3)) bh = Some b1) as Hbh3 by (apply getz_setz_eq; by apply getz_Some_lt in Hbh).
  assert (current_is (kern s3) d cur r1) as Hc3 by (apply (current_put _ d cur r); destruct Hc; split; done).
  assert (r_buffer r1 = Some (bh, 512)) as Hbuf1 by (unfold r1; change (fmap (fun p => (p.1, p.2 + 512)) (r_buffer r) = Some (bh, 512)); by rewrite Hbuf).
  destruct (read_intr_ok s3 d cur r1 bh b1 512 drive (n + 1)) as (Hm1 & Hi1 & HR4); try done;
    [unfold b1; rewrite lenz_put_data; lia|lia|by rewrite Hk1|].
  assert (forall d n, medium (trace s1) d n = medium (trace s) d n) as HM1
    by (intros; change (trace s1) with (acknowledged t0); unfold acknowledged; rewrite !medium_kept by done; apply HM).
  assert (forall d n, medium (trace s3) d n = medium (trace s) d n) as HM3
    by (intros; change (trace s3) with (acknowledged t1); unfold acknowledged, t1; rewrite !medium_kept by done; apply HM1).
  rewrite Hi1. unfold r1, b1. rewrite (read_twice r bh), (put_data_twice b), HM1, HM3 by done. cbn [istrue].
  set (r2 := r <| r_errors := 0 |> <| r_start_sector := _ |> <| r_nr_sectors := 0 |> <| r_buffer := _ |>).
  set (b2 := b <| b_data := _ |>). set (t := Insw HD_DATA :: In HD_STATUS :: trace s3).
  set (k2 := put_req cur r2 (put_bh bh b2 (kern s3))).
  exists t. cbv zeta. split; [|split; [|split]].
  - assert (current_is k2 d cur r2) as Hc4 by (apply (current_put _ d cur r1); destruct Hc3; split; done).
    assert (getz (bhs k2) bh = Some b2) as Hb2 by (apply getz_setz_eq; by apply getz_Some_lt in Hbh3).
    change (istrue (r_nr_sectors r2)) with false. cbn match.
    set (s4 := s3 <| trace := t |> <| kern := k2 |>).
    pose proof (on_kernel_ok _ s4 _ _ (end_request_ok k2 d cur r2 bh b2 Hc4 Hrb Hb2)) as He.
    rewrite (bind_ok _ _ _ _ _ He).
    f_equal. unfold k2. rewrite end_req_put. change (kern s3) with k1. unfold k1. by rewrite end_req_put.
  - rewrite Hk1 in HR4. exact HR4.
  - intros d' n'. unfold t. rewrite !medium_kept by done. apply HM3.
  - intros Hnone. eapply do_hd_request_none; [apply getz_setz_eq|exact Hnone]. by destruct Hc as [Hdev _ _]; apply getz_Some_lt in Hdev.
Qed.
(** ** Writing a block *)

(** The bytes that go out from [off] in a buffer. *)
Definition sector_of (b : buffer_head) (off : Z) : list Z := take 512 (drop (Z.to_nat off) (b_data b)).

Lemma sector_of_bytes b off : 0 <= off -> off + 512 <= lenz (b_data b) -> Forall is_u8 (b_data b) ->
  lenz (sector_of b off) = 512 /\ Forall is_u8 (sector_of b off).
Proof.
  intros H0 Ho Hb. unfold sector_of, lenz in *. rewrite length_take, length_drop. split; [lia|].
  by apply Forall_take, Forall_drop.
Qed.

Lemma write_sector_ok s d cur r bh b off :
  current_is (kern s) d cur r -> r_buffer r = Some (bh, off) -> getz (bhs (kern s)) bh = Some b ->
  off + 512 <= lenz (b_data b) ->
  write_sector s = Ok tt (s <| trace ::= cons (Outsw (sector_of b off) HD_DATA) |>).
Proof.
  intros Hc Hb Hbh Ho. unfold write_sector. rewrite (bind_ok _ _ _ _ _ (current_req_ok _ _ _ _ Hc)). cbv beta iota.
  rewrite Hb. cbn [valid]. rewrite (bind_ok _ _ s (bh, off) s) by done.
  rewrite (bind_ok _ _ s (sector_of b off) s); [done|].
  rewrite <- (kern_id s) at 2. apply on_kernel_ok. unfold load_buffer. cbn [fst snd].
  rewrite (bind_ok _ _ _ _ _ (get_bh_ok _ _ _ Hbh)). by rewrite (proj2 (Z.ltb_ge _ _)) by lia.
Qed.

(** The driver waits until the controller asks for data. *)
Lemma drq_loop_ok d m k n r s : writing (trace s) d m k ->
  (exists j, (j < n)%nat /\
    Z.land (u8 (port_byte (Nat.iter j (cons (In HD_STATUS)) (trace s)) HD_STATUS)) DRQ_STAT <> 0) ->
  exists v t, drq_loop n r s = Ok v (s <| trace := t |>) /\ istrue v = true /\ writing t d m k /\
    forall d n, medium t d n = medium (trace s) d n.
Proof.
  revert r s. induction n as [|n IH]; intros r s Hw (j & Hj & Hd); [lia|]. cbn [drq_loop].
  rewrite (bind_ok _ _ _ _ _ (hd_in_ok _ _)). destruct (istrue _) eqn:Hv.
  - eexists _, (In HD_STATUS :: trace s). split; [reflexivity|]. split; [done|]. split; [by apply writing_status|].
    intros. by rewrite medium_kept.
  - destruct j as [|j]; [unfold istrue in Hv; cbn in Hd; by apply negb_false_iff, Z.eqb_eq in Hv|].
    destruct (IH (Z.land (u8 (port_byte (trace s) HD_STATUS)) DRQ_STAT) (s <| trace ::= cons (In HD_STATUS) |>))
      as (v & t & He & Hv' & Hw' & Hm).
    + by apply writing_status.
    + exists j. split; [lia|]. by rewrite Nat.iter_succ_r in Hd.
    + exists v, t. split; [exact He|]. split; [done|]. split; [done|]. intros. rewrite Hm. by apply (medium_kept (In HD_STATUS)).
Qed.

(** From [t] to [t'] sector [n] gets [data], and nothing else changes. *)
Definition medium_put (t t' : list access) (drive n : Z) (data : list Z) : Prop :=
  medium t' drive n = data /\ forall d' n', (d', n') <> (drive, n) -> medium t' d' n' = medium t d' n'.

Lemma do_hd_request_write s d cur r bh b off drive n :
  current_is (kern s) d cur r -> locked_for (kern s) r bh b -> in_partition s r drive n ->
  r_cmd r = WRITE -> 0 < r_nr_sectors r < 256 -> reset s = 0 -> recalibrate s = 0 -> idle (trace s) ->
  r_buffer r = Some (bh, off) -> 0 <= off -> off + 512 <= lenz (b_data b) -> Forall is_u8 (b_data b) ->
  exists t, do_hd_request s = Ok tt (s <| trace := t |> <| do_hd := Some write_intr_p |>) /\
    storing t drive (n + 1) (r_nr_sectors r - 1) /\ medium_put (trace s) t drive n (sector_of b off).
Proof.
  intros Hc Hl Hp Hcmd Hk Hres Hrec Hi Hbuf H0 Hlen Hb8.
  destruct (hd_request_ok s d cur r bh b drive n) as (info & Hinfo & Hd & Hh & Hs & Hh16 & Hs256 & Hn & He); try done.
  destruct (hd_out_ok s info drive n (r_nr_sectors r) WIN_WRITE write_intr_p)
    as (hd & ch & cl & sec & p & c & Ho & Hi' & Hcl & Hch & Hhd & Hsec & Hnum); try done.
  pose proof (write_command _ c p (r_nr_sectors r) sec cl ch drive hd Hi' Hd Hcl Hch Hhd Hsec Hk) as HW. rewrite Hnum in HW.
  set (t0 := commanded _ _ _ _ _ _ _ _ _ _) in *. set (s0 := s <| trace := t0 |> <| do_hd := Some write_intr_p |>) in *.
  destruct (drq_loop_ok drive n (r_nr_sectors r) (Z.to_nat 3000) 0 s0) as (v & t1 & Hq & Hv & HW1 & HM1);
    [exact HW|exact (writing_ready _ _ _ _ HW)|].
  destruct (sector_of_bytes b off H0 Hlen Hb8) as [Hsl Hs8].
  destruct (writing_data t1 drive n (r_nr_sectors r) (sector_of b off) HW1 ltac:(lia) Hsl Hs8) as (Hput & Hother & Hst).
  eexists. split; [|split; [exact Hst|split; [exact Hput|]]].
  - apply do_hd_request_once. rewrite He, Hcmd. cbn [Z.eqb Pos.eqb WRITE]. rewrite (bind_ok _ _ _ _ _ Ho), (bind_ok _ _ _ _ _ Hq), Hv.
    assert (current_is (kern (s0 <| trace := t1 |>)) d cur r) as Hc1 by exact Hc.
    cbn [negb]. by rewrite (bind_ok _ _ _ _ _ (write_sector_ok _ d cur r bh b off Hc1 Hbuf (lf_entry _ _ _ _ Hl) Hlen)).
  - intros d' n' Hne. rewrite Hother, HM1 by done. change (medium t0 d' n' = medium (trace s) d' n'). unfold t0, commanded. by rewrite !medium_kept by done.
Qed.

Lemma win_result_stored s drive n k t : storing t drive n k -> 0 <= k -> trace s = acknowledged t ->
  win_result s = Ok 0 (s <| trace ::= cons (In HD_STATUS) |>).
Proof.
  intros Hst Hk Ht. destruct (storing_stored _ _ _ _ Hst Hk) as [Hs _].
  unfold win_result. rewrite (bind_ok _ _ _ _ _ (hd_in_ok _ _)), Ht.
  change (Z.lor BUSY_STAT _) with 0xf1. by rewrite Hs.
Qed.

Definition write_one (r : request_t) : request_t := next_sector (r <| r_nr_sectors ::= fun n => u32 (n - 1) |>).

(** The interrupt after a sector that is not the last: the next one goes out. *)
Lemma write_intr_more s t d cur r bh b off drive n :
  current_is (kern s) d cur r -> r_buffer r = Some (bh, off) -> getz (bhs (kern s)) bh = Some b ->
  off + 1024 <= lenz (b_data b) -> 1 < r_nr_sectors r < 256 ->
  storing t drive n (r_nr_sectors r - 1) -> trace s = acknowledged t ->
  write_intr s = Ok tt (s <| kern := put_req cur (write_one r) (kern s) |> <| do_hd := Some write_intr_p |>
                          <| trace := Outsw (sector_of b (off + 512)) HD_DATA :: In HD_STATUS :: acknowledged t |>).
Proof.
  intros Hc Hb Hbh Ho Hk Hst Ht. unfold write_intr.
  rewrite (bind_ok _ _ _ _ _ (win_result_stored _ _ _ _ _ Hst ltac:(lia) Ht)). cbn [istrue Z.eqb negb].
  set (s1 := s <| trace ::= cons (In HD_STATUS) |>). assert (current_is (kern s1) d cur r) as Hc1 by exact Hc.
  rewrite (bind_ok _ _ _ _ _ (update_req_ok s1 d cur r _ Hc1)).
  set (r1 := r <| r_nr_sectors ::= fun n => u32 (n - 1) |>). set (s2 := s1 <| kern ::= put_req cur r1 |>).
  assert (current_is (kern s2) d cur r1) as Hc2 by (eapply current_put, Hc1).
  rewrite (bind_ok _ _ _ _ _ (current_req_ok s2 _ _ _ Hc2)). cbv beta iota.
  assert (istrue (r_nr_sectors r1) = true) as ->.
  { change (istrue (u32 (r_nr_sectors r - 1)) = true). rewrite u32_id by (unfold is_u32; lia). unfold istrue.
    by rewrite (proj2 (Z.eqb_neq _ 0)) by lia. }
  rewrite (bind_ok _ _ _ _ _ (update_req_ok s2 d cur r1 _ Hc2)).
  set (s3 := s2 <| kern ::= put_req cur (write_one r) |> <| do_hd := Some write_intr_p |>).
  rewrite (bind_ok _ _ _ tt s3) by done.
  assert (current_is (kern s3) d cur (write_one r)) as Hc3 by (eapply current_put, Hc2).
  assert (r_buffer (write_one r) = Some (bh, off + 512)) as Hb3
    by (change (fmap (fun p => (p.1, p.2 + 512)) (r_buffer r) = Some (bh, off + 512)); by rewrite Hb).
  rewrite (write_sector_ok s3 d cur (write_one r) bh b (off + 512) Hc3 Hb3 Hbh) by lia. f_equal.
  rewrite <- Ht, <- (put_put cur r1 (write_one r) (kern s)). subst s3 s2 s1. by destruct s.
Qed.

(** The interrupt after the last one. *)
Lemma write_intr_last s t d cur r bh b drive n :
  current_is (kern s) d cur r -> r_bh r = Some bh -> getz (bhs (kern s)) bh = Some b ->
  r_nr_sectors r = 1 -> storing t drive n 0 -> trace s = acknowledged t ->
  write_intr s = do_hd_request (s <| trace := In HD_STATUS :: acknowledged t |>
                                  <| kern := end_req d cur (r <| r_nr_sectors := 0 |>) bh b (kern s) |>).
Proof.
  intros Hc Hb Hbh Hk Hst Ht. unfold write_intr.
  rewrite (bind_ok _ _ _ _ _ (win_result_stored _ _ _ _ _ Hst ltac:(lia) Ht)). cbn [istrue Z.eqb negb].
  set (s1 := s <| trace ::= cons (In HD_STATUS) |>). assert (current_is (kern s1) d cur r) as Hc1 by exact Hc.
  rewrite (bind_ok _ _ _ _ _ (update_req_ok s1 d cur r _ Hc1)).
  replace (r <| r_nr_sectors ::= fun n => u32 (n - 1) |>) with (r <| r_nr_sectors := 0 |>)
    by (destruct r; cbn in Hk; by subst).
  set (r1 := r <| r_nr_sectors := 0 |>). set (s2 := s1 <| kern ::= put_req cur r1 |>).
  assert (current_is (kern s2) d cur r1) as Hc2 by (eapply current_put, Hc1).
  rewrite (bind_ok _ _ _ _ _ (current_req_ok s2 _ _ _ Hc2)). cbv beta iota. change (istrue (r_nr_sectors r1)) with false. cbn match.
  rewrite (bind_ok _ _ _ _ _ (on_kernel_ok _ s2 _ _ (end_request_ok (kern s2) d cur r1 bh b Hc2 Hb Hbh))).
  f_equal. rewrite <- Ht, <- (end_req_put' d cur r1 bh b r1 (kern s)). subst s2 s1. by destruct s.
Qed.

(** The kernel after a block is written. *)
Definition written (k : kernel) (d : blk_dev_struct) (cur : Z) (r : request_t) (bh : Z) (b : buffer_head) : kernel :=
  end_req d cur (r <| r_start_sector := u32 (r_start_sector r + 1) |> <| r_nr_sectors := 0 |> <| r_buffer := Some (bh, 512) |>) bh b k.

Lemma write_one_of_two r bh :
  r_nr_sectors r = 2 -> r_buffer r = Some (bh, 0) ->
  write_one r = r <| r_start_sector := u32 (r_start_sector r + 1) |> <| r_nr_sectors := 1 |> <| r_buffer := Some (bh, 512) |>.
Proof. intros Hk Hb. destruct r as [dev cmd errs start nr buf w h nx]. cbn in Hk, Hb. by subst. Qed.

(** C14: a write of a block. On a controller that does what an AT disk controller
    does, [do_hd_request] gives the command for the request at the head of the
    queue, waits until data are asked for and sends the first sector; the first
    interrupt sends the second. After the second interrupt the two sectors of the
    medium hold the buffer, every other sector of every drive is as before, the
    buffer is up to date and unlocked, those who wait are woken, the request is
    free and the queue goes on with the next one; nothing else of the kernel or
    the driver changes. *)
Theorem hd_write_block s d cur r bh b drive n :
  current_is (kern s) d cur r -> locked_for (kern s) r bh b -> in_partition s r drive n ->
  r_cmd r = WRITE -> r_nr_sectors r = 2 -> r_buffer r = Some (bh, 0) ->
  lenz (b_data b) = 1024 -> Forall is_u8 (b_data b) ->
  reset s = 0 -> recalibrate s = 0 -> idle (trace s) ->
  exists t, let s' := s <| kern := written (kern s) d cur r bh b |> <| trace := t |> <| do_hd := None |> in
    (do! do_hd_request in do! hd_interrupt in hd_interrupt) s = do_hd_request s' /\
    idle t /\ medium t drive n ++ medium t drive (n + 1) = b_data b /\
    (forall d' n', d' <> drive \/ n' <> n /\ n' <> n + 1 -> medium t d' n' = medium (trace s) d' n') /\
    (r_next r = None -> do_hd_request s' = Ok tt s').
Proof.
  intros Hc Hl Hp Hcmd Hk Hbuf Hlen Hb8 Hres Hrec Hi. pose proof Hl as [_ Hrb Hbh _].
  destruct (do_hd_request_write s d cur r bh b 0 drive n) as (t0 & H0 & HS & HM & HO); try done; [lia|lia|].
  rewrite (bind_ok _ _ _ _ _ H0). set (s0 := s <| trace := t0 |> <| do_hd := Some write_intr_p |>).
  set (s0' := s0 <| trace := acknowledged t0 |> <| do_hd := None |>).
  pose proof (write_intr_more s0' t0 d cur r bh b 0 drive (n + 1)
    Hc Hbuf Hbh ltac:(lia) ltac:(lia) HS eq_refl) as H1. 
  assert (hd_interrupt s0 = write_intr s0') as Hi0 by exact (hd_interrupt_ok s0 write_intr_p eq_refl).
  rewrite <- Hi0 in H1.
  rewrite (bind_ok _ _ _ _ _ H1).
  destruct (storing_stored _ _ _ _ HS ltac:(lia)) as [_ HW]. rewrite Hk in HW. cbn [Z.eqb Z.sub] in HW.
  destruct (sector_of_bytes b 512 ltac:(lia) ltac:(lia) Hb8) as [Hsl Hs8].
  destruct (writing_data _ _ _ _ _ HW ltac:(done) Hsl Hs8) as (Hput & Hother & HS1).
  set (t1 := Outsw _ _ :: In HD_STATUS :: acknowledged t0) in *. rewrite (write_one_of_two r bh) by done.
  set (r1 := r <| r_start_sector := _ |> <| r_nr_sectors := 1 |> <| r_buffer := _ |>).
  match goal with |- context [hd_interrupt ?x] => set (s1 := x) end.
  assert (current_is (kern s1) d cur r1) as Hc1 by (eapply current_put, Hc).
  rewrite (hd_interrupt_ok _ write_intr_p) by done.
  rewrite (write_intr_last _ t1 d cur r1 bh b drive (n + 1 + 1)) by done.
  destruct (storing_stored _ _ _ _ HS1 ltac:(done)) as [_ HI].
  exists (In HD_STATUS :: acknowledged t1). cbv zeta. split; [|split; [exact HI|split; [|split]]].
  - f_equal. unfold written. rewrite <- (end_req_put' d cur _ bh b r1 (kern s)). subst s1 s0' s0. by destruct s.
  - unfold acknowledged. rewrite !medium_kept by done. rewrite Hput, Hother by (intros [=]; lia).
    unfold acknowledged. rewrite !medium_kept by done. rewrite HM. unfold sector_of.
    change (Z.to_nat 512) with 512%nat. rewrite drop_0, (take_ge (drop 512 _)) by (rewrite length_drop; unfold lenz in Hlen; lia).
    apply take_drop.
  - intros d' n' Hne. unfold acknowledged. rewrite !medium_kept by done. rewrite Hother by (intros [=]; lia).
    unfold acknowledged. rewrite !medium_kept by done. apply HO. intros [=]; lia.
  - intros Hnone. eapply do_hd_request_none; [apply getz_setz_eq|exact Hnone]. by destruct Hc as [Hdev _ _]; apply getz_Some_lt in Hdev.
Qed.
End steps.

(** ** A disk controller, and the driver on it

    A controller that keeps the laws of [AtDisk], for the claims about the hard
    disk at a concrete request. *)

(** ** The controller: its registers, and the command it is in *)

Inductive mode := Waits | Reads (d n k : Z) | Writes (d n k : Z) | Stores (d n k : Z).
Record controller := Controller {
  c_count : Z; c_sector : Z; c_low : Z; c_high : Z; c_current : Z; c_mode : mode
}.

(** Drive and sector number of a command. *)
Definition c_place (c : controller) : Z * Z :=
  ((c_current c - 0xa0) / 16,
   ((c_low c + 256 * c_high c) * 4 + (c_current c - 0xa0) mod 16) * 17 + (c_sector c - 1)).
Definition to_mode (m : mode) (c : controller) : controller :=
  Controller (c_count c) (c_sector c) (c_low c) (c_high c) (c_current c) m.

Definition access_step (a : access) (c : controller) : controller :=
  match a with
  | Out v port =>
    if port =? 0x1f2 then Controller v (c_sector c) (c_low c) (c_high c) (c_current c) (c_mode c) else
    if port =? 0x1f3 then Controller (c_count c) v (c_low c) (c_high c) (c_current c) (c_mode c) else
    if port =? 0x1f4 then Controller (c_count c) (c_sector c) v (c_high c) (c_current c) (c_mode c) else
    if port =? 0x1f5 then Controller (c_count c) (c_sector c) (c_low c) v (c_current c) (c_mode c) else
    if port =? 0x1f6 then Controller (c_count c) (c_sector c) (c_low c) (c_high c) v (c_mode c) else
    if (port =? 0x1f7) && (v =? WIN_READ) then to_mode (Reads (c_place c).1 (c_place c).2 (c_count c)) c else
    if (port =? 0x1f7) && (v =? WIN_WRITE) then to_mode (Writes (c_place c).1 (c_place c).2 (c_count c)) c
    else c
  | In port =>
    match c_mode c with
    | Stores d n k => if port =? HD_STATUS then to_mode (if k =? 0 then Waits else Writes d n k) c else c
    | _ => c
    end
  | Insw _ =>
    match c_mode c with
    | Reads d n k => to_mode (if k =? 1 then Waits else Reads d (n + 1) (k - 1)) c
    | _ => c
    end
  | Outsw _ port =>
    match c_mode c with
    | Writes d n k => if port =? HD_DATA then to_mode (Stores d (n + 1) (k - 1)) c else c
    | _ => c
    end
  end.
Definition controller_of (t : list access) : controller := foldr access_step (Controller 0 0 0 0 0 Waits) t.

(** What is stored: at first, sector [n] of drive [d] is filled with one byte. *)
Fixpoint stored (t : list access) (d n : Z) : list Z :=
  match t with
  | [] => replicate 512 (u8 (16 * d + n))
  | Outsw data port :: t =>
    match c_mode (controller_of t) with
    | Writes d' n' _ => if (port =? HD_DATA) && ((d =? d') && (n =? n')) then data else stored t d n
    | _ => stored t d n
    end
  | _ :: t => stored t d n
  end.
Definition stored_byte (t : list access) (d n k : Z) : Z := default 0 (getz (stored t d n) k).

#[global] Instance at_machine : Machine := {|
  port_byte t port :=
    if port =? HD_STATUS then match c_mode (controller_of t) with Writes _ _ _ => 0x58 | _ => 0x50 end else 0;
  port_words t port k := match c_mode (controller_of t) with Reads d n _ => stored_byte t d n k | _ => 0 end
|}.

Lemma bytes_again data : lenz data = 512 -> Forall is_u8 data ->
  (fun k => u8 (default 0 (getz data k))) <$> seqZ 0 512 = data.
Proof.
  intros Hl Hb. apply list_eq. intros i. rewrite list_lookup_fmap. unfold lenz in Hl.
  destruct (decide (i < 512)%nat) as [Hi|Hi].
  - rewrite lookup_seqZ_lt by lia. cbn. unfold getz. rewrite (proj2 (Z.ltb_ge _ 0)) by lia.
    replace (Z.to_nat (0 + Z.of_nat i)) with i by lia.
    destruct (lookup_lt_is_Some_2 data i ltac:(lia)) as [x Hx]. rewrite Hx. cbn. f_equal.
    apply u8_id. exact (Forall_lookup_1 _ _ _ _ Hb Hx).
  - rewrite lookup_seqZ_ge by lia. cbn. symmetry. apply lookup_ge_None_2. lia.
Qed.

(** What happens next in a mode that is known. *)
Ltac in_mode H := cbn; try rewrite H; try (unfold controller_of in *; cbn; rewrite H); try done.

#[global] Program Instance at_disk : AtDisk at_machine := {|
  heads _ := 4;
  sectors_per_track _ := 17;
  medium t d n := (fun k => u8 (stored_byte t d n k)) <$> seqZ 0 512;
  idle t := c_mode (controller_of t) = Waits;
  reading t d n k := c_mode (controller_of t) = Reads d n k;
  writing t d n k := c_mode (controller_of t) = Writes d n k;
  storing t d n k := c_mode (controller_of t) = Stores d n k
|}.
Next Obligation.
  intros a t d n Ha. unfold stored_byte. enough (stored (a :: t) d n = stored t d n) as -> by done.
  destruct a as [| | |data port]; [done..|]. cbn. destruct (c_mode _); try done.
  destruct (Z.eqb_spec port HD_DATA) as [->|]; [by destruct (Ha data)|done].
Qed.
Next Obligation. intros t Hi. split; in_mode Hi. Qed.
Next Obligation.
  intros t c p n sec cl ch drive head Hi Hd Hcl Hch Hh Hsec Hn. cbn -[Z.mul Z.add Z.sub Z.div Z.modulo].
  replace (0xa0 + 16 * drive + head - 0xa0) with (head + drive * 16) by lia.
  rewrite Z.div_add, Z.div_small, Z_mod_plus_full, Z.mod_small by lia. done.
Qed.
Next Obligation.
  intros t c p n sec cl ch drive head Hi Hd Hcl Hch Hh Hsec Hn. cbn -[Z.mul Z.add Z.sub Z.div Z.modulo].
  replace (0xa0 + 16 * drive + head - 0xa0) with (head + drive * 16) by lia.
  rewrite Z.div_add, Z.div_small, Z_mod_plus_full, Z.mod_small by lia. done.
Qed.
Next Obligation. intros t d n k Hw. in_mode Hw. Qed.
Next Obligation. intros t d n k Hw. exists 0%nat. split; [lia|]. in_mode Hw. Qed.
Next Obligation.
  intros t d n k data Hw Hk Hl Hb. split; [|split].
  - unfold stored_byte. cbn [stored]. rewrite Hw, !Z.eqb_refl. cbn [andb]. by apply bytes_again.
  - intros d' n' Hne. unfold stored_byte. cbn [stored]. rewrite Hw. destruct (Z.eqb_spec d' d); destruct (Z.eqb_spec n' n); try done. by subst.
  - in_mode Hw.
Qed.
Next Obligation.
  intros t d n k Hs Hk. split; [in_mode Hs|]. destruct (k =? 0) eqn:Hk0; in_mode Hs; by rewrite Hk0.
Qed.
Next Obligation. intros t d n k Hr Hk. split; in_mode Hr. Qed.
Next Obligation.
  intros t d n k Hr Hk. split.
  - unfold words_at. apply list_fmap_ext. intros i x _. cbn. by rewrite Hr.
  - unfold controller_of in *. destruct (k =? 1) eqn:Hk1; cbn [foldr access_step]; rewrite Hr, Hk1; done.
Qed.
Next Obligation. intros t d n k v port Hr [-> | ->]; exact Hr. Qed.

(** ** A request *)

(** A request for block 5 of the first partition, which starts at sector 1, into
    the first of four buffers. *)
Definition disk_request : request_t := Request 0x301 READ 0 10 2 (Some (0, 0)) None (Some 0) None.
Definition one_disk : hd_kernel :=
  HdKernel
    (four_buffers <| request ::= fun l => setz l 0 disk_request |>
                  <| blk_dev ::= fun l => setz l HD_MAJOR (BlkDev interrupt_driver (Some 0)) |>
                  <| bhs ::= fun l => match l with b :: l => b <| b_lock := 1 |> :: l | [] => [] end |>)
    [] 0 0 [HdInfo 615 4 17 300 615 8; HdInfo 0 0 0 0 0 0] 1
    [HdPart 0 41820; HdPart 1 20000; HdPart 20001 10000; HdPart 0 0; HdPart 0 0; HdPart 0 0] None 0.
Definition first_buffer (s : hd_kernel) : buffer_head :=
  default (Bh [] 0 0 0 0 0 0 None None None None) (getz (bhs (kern s)) 0).

Lemma hd_read_block_witness :
  exists s, (do! do_hd_request in do! hd_interrupt in hd_interrupt) one_disk = Ok tt s /\
    b_data (first_buffer s) = medium [] 0 11 ++ medium [] 0 12 /\ idle (trace s).
Proof.
  destruct (hd_read_block one_disk (BlkDev interrupt_driver (Some 0)) 0 disk_request 0 (first_buffer one_disk) 0 11)
    as (t & He & Hi & _ & Hn).
  - split; vm_compute; reflexivity.
  - split; [vm_compute; reflexivity..|vm_compute; discriminate].
  - split; [reflexivity|discriminate| |reflexivity|].
    + exists (HdPart 1 20000). repeat split; vm_compute; congruence.
    + exists (HdInfo 615 4 17 300 615 8). repeat split; vm_compute; congruence.
  - reflexivity.
  - reflexivity.
  - reflexivity.
  - vm_compute. reflexivity.
  - reflexivity.
  - reflexivity.
  - reflexivity.
  - eexists. rewrite He. split; [apply Hn; reflexivity|]. split; [vm_compute; reflexivity|exact Hi].
Defined.

(** The same block written, from a buffer full of one byte. *)
Definition disk_write : hd_kernel :=
  one_disk <| kern ::= fun k =>
    k <| request ::= fun l => setz l 0 (disk_request <| r_cmd := WRITE |>) |>
      <| bhs ::= fun l => match l with b :: l => b <| b_data := replicate 1024 0xe5 |> :: l | [] => [] end |> |>.

Lemma hd_write_block_witness :
  exists s, (do! do_hd_request in do! hd_interrupt in hd_interrupt) disk_write = Ok tt s /\
    medium (trace s) 0 11 ++ medium (trace s) 0 12 = replicate 1024 0xe5 /\
    medium (trace s) 0 13 = medium [] 0 13 /\ idle (trace s).
Proof.
  destruct (hd_write_block disk_write (BlkDev interrupt_driver (Some 0)) 0 (disk_request <| r_cmd := WRITE |>) 0
    (first_buffer disk_write) 0 11) as (t & He & Hi & Hm & Ho & Hn).
  - split; vm_compute; reflexivity.
  - split; [vm_compute; reflexivity..|vm_compute; discriminate].
  - split; [reflexivity|discriminate| |reflexivity|].
    + exists (HdPart 1 20000). repeat split; vm_compute; congruence.
    + exists (HdInfo 615 4 17 300 615 8). repeat split; vm_compute; congruence.
  - reflexivity.
  - reflexivity.
  - reflexivity.
  - vm_compute. reflexivity.
  - apply Forall_replicate. vm_compute. split; congruence.
  - reflexivity.
  - reflexivity.
  - reflexivity.
  - eexists. rewrite He. split; [apply Hn; reflexivity|].
    split; [exact Hm|]. split; [|exact Hi]. apply (Ho 0 13). right. split; discriminate.
Defined.

(** The seventh error of the last request: the driver looks at the request that
    is current then, and there is none. *)
Definition last_try : hd_kernel :=
  one_disk <| kern ::= fun k => k <| request ::= fun l => setz l 0 (disk_request <| r_errors := 6 |>) |> |>.
Example seventh_error_faults : exists s, bad_rw_intr last_try = Fault s.
Proof. eexists. vm_compute. reflexivity. Qed.
