(* ===== verification/Cpu.v ===== *)
(** * The processor as inline assembly sees it

    The registers, flags and memory that the string routines of
    include/string.h use, and the instructions they are made of, one definition
    each. A byte of memory is looked up modulo 2^32; [ram] need not list the
    bytes that are zero. *)

From Stdlib Require Import ZArith Lia.
From stdpp Require Import base numbers list gmap strings.
From S2P Require Import Prelude.

Record cpu := Cpu {
  eax : Z; ebx : Z; ecx : Z; edx : Z; esi : Z; edi : Z;
  ZF : bool; SF : bool; OF : bool; DF : bool;
  ram : gmap Z Z
}.
#[global] Instance cpu_fields : Fields cpu := fun x => Cpu
  (eax x) (ebx x) (ecx x) (edx x) (esi x) (edi x) (ZF x) (SF x) (OF x) (DF x) (ram x).
#[global] Instance set_eax : Setter eax := ltac:(solve_setter).
#[global] Instance set_ebx : Setter ebx := ltac:(solve_setter).
#[global] Instance set_ecx : Setter ecx := ltac:(solve_setter).
#[global] Instance set_edx : Setter edx := ltac:(solve_setter).
#[global] Instance set_esi : Setter esi := ltac:(solve_setter).
#[global] Instance set_edi : Setter edi := ltac:(solve_setter).
#[global] Instance set_ZF : Setter ZF := ltac:(solve_setter).
#[global] Instance set_SF : Setter SF := ltac:(solve_setter).
#[global] Instance set_OF : Setter OF := ltac:(solve_setter).
#[global] Instance set_DF : Setter DF := ltac:(solve_setter).
#[global] Instance set_ram : Setter ram := ltac:(solve_setter).

(** ** Memory and registers *)

Definition byte_at (m : gmap Z Z) (a : Z) : Z := u8 (default 0 (m !! u32 a)).
Definition put_byte (a v : Z) (m : gmap Z Z) : gmap Z Z := <[u32 a := u8 v]> m.

Definition al (x : Z) : Z := u8 x.
Definition ah (x : Z) : Z := u8 (x / 256).
Definition with_al (v x : Z) : Z := x - u8 x + u8 v.
Definition with_ah (v x : Z) : Z := x - 256 * ah x + 256 * u8 v.

(** A string instruction moves its pointers up, or down when [DF] is set. *)
Definition delta (s : cpu) : Z := if DF s then -1 else 1.

(** ** Flags *)

(** [SF] and [ZF] of a result of [n] bits, [OF] as given. *)
Definition flags8 (x : Z) (o : bool) (s : cpu) : cpu :=
  s <| ZF := u8 x =? 0 |> <| SF := Z.testbit (u8 x) 7 |> <| OF := o |>.
Definition flags32 (x : Z) (o : bool) (s : cpu) : cpu :=
  s <| ZF := u32 x =? 0 |> <| SF := Z.testbit (u32 x) 31 |> <| OF := o |>.
(** [cmpb y, x]: the flags of [x - y]. *)
Definition cmp8 (x y : Z) : cpu -> cpu :=
  let d := s8 x - s8 y in flags8 (x - y) ((d <? -128) || (127 <? d)).

(** ** Instructions *)

Definition cld : M cpu unit := modify (fun s => s <| DF := false |>).
Definition std : M cpu unit := modify (fun s => s <| DF := true |>).
Definition lodsb : M cpu unit := modify (fun s =>
  s <| eax ::= with_al (byte_at (ram s) (esi s)) |> <| esi := u32 (esi s + delta s) |>).
Definition stosb : M cpu unit := modify (fun s =>
  s <| ram ::= put_byte (edi s) (al (eax s)) |> <| edi := u32 (edi s + delta s) |>).
Definition movsb : M cpu unit := modify (fun s =>
  s <| ram ::= put_byte (edi s) (byte_at (ram s) (esi s)) |>
    <| esi := u32 (esi s + delta s) |> <| edi := u32 (edi s + delta s) |>).
Definition scasb : M cpu unit := modify (fun s =>
  (cmp8 (al (eax s)) (byte_at (ram s) (edi s)) s) <| edi := u32 (edi s + delta s) |>).
Definition cmpsb : M cpu unit := modify (fun s =>
  (cmp8 (byte_at (ram s) (esi s)) (byte_at (ram s) (edi s)) s)
    <| esi := u32 (esi s + delta s) |> <| edi := u32 (edi s + delta s) |>).
Definition testb_al : M cpu unit := modify (fun s => flags8 (al (eax s)) false s).

(** Operations on a whole register, which the routine names. *)
Section register.
Context (r : cpu -> Z) `{!Setter r}.
Definition movl (v : Z) : M cpu unit := modify (fun s => s <| r := u32 v |>).
Definition movl_from (q : cpu -> Z) : M cpu unit := modify (fun s => s <| r := q s |>).
Definition incl : M cpu unit := modify (fun s =>
  (flags32 (r s + 1) (u32 (r s + 1) =? 0x80000000) s) <| r := u32 (r s + 1) |>).
Definition decl : M cpu unit := modify (fun s =>
  (flags32 (r s - 1) (u32 (r s) =? 0x80000000) s) <| r := u32 (r s - 1) |>).
Definition notl : M cpu unit := modify (fun s => s <| r := u32 (-1 - r s) |>).
Definition negl : M cpu unit := modify (fun s =>
  (flags32 (- r s) (u32 (r s) =? 0x80000000) s) <| r := u32 (- r s) |>).
Definition xorl_self : M cpu unit := modify (fun s => (flags32 0 false s) <| r := 0 |>).
Definition testl_self : M cpu unit := modify (fun s => flags32 (r s) false s).
(** [cmpb $0, d(r)] and [movb $0, (r)] *)
Definition cmpb_zero (d : Z) : M cpu unit := modify (fun s => cmp8 (byte_at (ram s) (r s + d)) 0 s).
Definition movb_zero : M cpu unit := modify (fun s => s <| ram ::= put_byte (r s) 0 |>).
End register.
Definition movb_al_ah : M cpu unit := modify (fun s => s <| eax ::= fun x => with_ah (al x) x |>).
Definition cmpb_ah_al : M cpu unit := modify (fun s => cmp8 (al (eax s)) (ah (eax s)) s).
Definition xchgl_eax_esi : M cpu unit := modify (fun s => s <| eax := esi s |> <| esi := eax s |>).

(** ** Conditional jumps and loops *)

Definition je (s : cpu) : bool := ZF s.
Definition jne (s : cpu) : bool := negb (ZF s).
Definition js (s : cpu) : bool := SF s.
Definition jl (s : cpu) : bool := xorb (SF s) (OF s).

(** [1: body]: the body says by which way it leaves, or jumps back to 1. *)
Fixpoint loop {A} (fuel : nat) (body : M cpu (option A)) : M cpu A :=
  match fuel with
  | O => blocked
  | S n => let! out := body in match out with None => loop n body | Some a => ret a end
  end.
(** The last jump of a loop: back if [c] holds, on otherwise. *)
Definition back_if {A} (c : cpu -> bool) (a : A) : M cpu (option A) := gets (fun s => if c s then None else Some a).
(** A jump out of a loop if [c] holds. *)
Definition out_if {A} (c : cpu -> bool) (a : A) (k : M cpu (option A)) : M cpu (option A) :=
  let! b := gets c in if b then ret (Some a) else k.

(** At most [p] times, as long as [step] says so. *)
Fixpoint rep_pos (p : positive) (step : M cpu bool) : M cpu bool :=
  match p with
  | xH => step
  | xO p => let! b := rep_pos p step in if b then rep_pos p step else ret false
  | xI p => let! b := step in if b then (let! b := rep_pos p step in if b then rep_pos p step else ret false) else ret false
  end.

(** The prefixes: [ecx] counts, and [go] is the test of [repe] and [repne],
    after each step; nothing is done, no flag changed, when [ecx] is 0. *)
Definition rep_step (go : cpu -> bool) (i : M cpu unit) : M cpu bool :=
  do! i in do! modify (fun s => s <| ecx := u32 (ecx s - 1) |>) in gets go.
Definition rep_while (go : cpu -> bool) (i : M cpu unit) : M cpu unit :=
  let! n := gets ecx in
  match n with Zpos p => do! rep_pos p (rep_step go i) in ret tt | _ => ret tt end.
Definition rep : M cpu unit -> M cpu unit := rep_while (fun _ => true).
Definition repe : M cpu unit -> M cpu unit := rep_while je.
Definition repne : M cpu unit -> M cpu unit := rep_while jne.
