(* ===== verification/CString.v ===== *)
(** * The string and memory routines of include/string.h

    Each routine is its assembly, instruction by instruction: the registers
    are loaded with the operands, the labels are the bodies of [loop], and the
    jumps their ways out. [fuel] bounds the loops that end with a zero byte or
    a counter; the [rep] prefixes end by themselves. A [char *] is an address,
    an [int] is read back from its register with [s32]. *)

From Stdlib Require Import ZArith Lia.
From stdpp Require Import base numbers list gmap strings.
From S2P Require Import Prelude Cpu.

Definition ALL_ONES : Z := 0xffffffff.

Section code.
Variable fuel : nat.

(** ** Copies *)

Definition strcpy (dest src : Z) : M cpu Z :=
  do! movl esi src in do! movl edi dest in
  do! cld in
  do! loop fuel (do! lodsb in do! stosb in do! testb_al in back_if jne tt) in
  ret dest.

Definition strncpy (dest src count : Z) : M cpu Z :=
  do! movl esi src in do! movl edi dest in do! movl ecx count in
  do! cld in
  let! ended := loop fuel (do! decl ecx in out_if js false
    (do! lodsb in do! stosb in do! testb_al in back_if jne true)) in
  do! when ended (rep stosb) in
  ret dest.

Definition strcat (dest src : Z) : M cpu Z :=
  do! movl esi src in do! movl edi dest in do! movl eax 0 in do! movl ecx ALL_ONES in
  do! cld in
  do! repne scasb in
  do! decl edi in
  do! loop fuel (do! lodsb in do! stosb in do! testb_al in back_if jne tt) in
  ret dest.

Definition strncat (dest src count : Z) : M cpu Z :=
  do! movl esi src in do! movl edi dest in do! movl eax 0 in do! movl ecx ALL_ONES in
  do! cld in
  do! repne scasb in
  do! decl edi in
  do! movl ecx count in
  do! loop fuel (do! decl ecx in out_if js tt
    (do! lodsb in do! stosb in do! testb_al in back_if jne tt)) in
  do! xorl_self eax in do! stosb in
  ret dest.

(** ** Comparisons *)

(** What follows a comparison that found a difference:
    [movl $1, %eax; jl 1f; negl %eax; 1:]. *)
Definition sign_of_difference : M cpu unit :=
  do! movl eax 1 in
  let! less := gets jl in
  when (negb less) (negl eax).

Definition strcmp (cs ct : Z) : M cpu Z :=
  do! movl edi cs in do! movl esi ct in
  do! cld in
  let! same := loop fuel (do! lodsb in do! scasb in out_if jne false (do! testb_al in back_if jne true)) in
  do! if same then xorl_self eax else sign_of_difference in
  let! res := gets eax in ret (s32 res).

Definition strncmp (cs ct count : Z) : M cpu Z :=
  do! movl edi cs in do! movl esi ct in do! movl ecx count in
  do! cld in
  let! same := loop fuel (do! decl ecx in out_if js true
    (do! lodsb in do! scasb in out_if jne false (do! testb_al in back_if jne true))) in
  do! if same then xorl_self eax else sign_of_difference in
  let! res := gets eax in ret (s32 res).

(** ** Searches for a character *)

Definition strchr (s c : Z) : M cpu Z :=
  do! movl esi s in do! movl eax c in
  do! cld in
  do! movb_al_ah in
  let! found := loop fuel (do! lodsb in do! cmpb_ah_al in out_if je true (do! testb_al in back_if jne false)) in
  do! when (negb found) (movl esi 1) in
  do! movl_from eax esi in
  do! decl eax in
  gets eax.

Definition strrchr (s c : Z) : M cpu Z :=
  do! movl edx 0 in do! movl esi s in do! movl eax c in
  do! cld in
  do! movb_al_ah in
  do! loop fuel (do! lodsb in do! cmpb_ah_al in
    let! other := gets jne in
    do! when (negb other) (do! movl_from edx esi in decl edx) in
    do! testb_al in back_if jne tt) in
  gets edx.

Definition strlen (s : Z) : M cpu Z :=
  do! movl edi s in do! movl eax 0 in do! movl ecx ALL_ONES in
  do! cld in
  do! repne scasb in
  do! notl ecx in
  do! decl ecx in
  let! res := gets ecx in ret (s32 res).

(** ** Searches for the characters of a string *)

(** [movl %4, %edi; repne; scasb; notl %ecx; decl %ecx]: the length of [ct]. *)
Definition count_set (ct : Z) : M cpu unit :=
  do! movl edi ct in do! repne scasb in do! notl ecx in decl ecx.
(** [movl %4, %edi; movl %edx, %ecx; repne; scasb]: is the character in [ct]? *)
Definition scan_set (ct : Z) : M cpu unit :=
  do! movl edi ct in do! movl_from ecx edx in repne scasb.

(** The beginning of [strspn], [strcspn] and [strpbrk], and the loop, which
    goes on while [again] holds of the result of the search. *)
Definition span_loop (again : cpu -> bool) (cs ct : Z) : M cpu bool :=
  do! movl eax 0 in do! movl ecx ALL_ONES in do! movl esi cs in
  do! cld in
  do! count_set ct in
  do! movl_from edx ecx in
  loop fuel (do! lodsb in do! testb_al in out_if je false (do! scan_set ct in back_if again true)).

Definition strspn (cs ct : Z) : M cpu Z :=
  do! span_loop je cs ct in
  do! decl esi in
  let! res := gets esi in ret (s32 (res - cs)).

Definition strcspn (cs ct : Z) : M cpu Z :=
  do! span_loop jne cs ct in
  do! decl esi in
  let! res := gets esi in ret (s32 (res - cs)).

Definition strpbrk (cs ct : Z) : M cpu Z :=
  let! found := span_loop jne cs ct in
  do! (if found then decl esi else xorl_self esi) in
  gets esi.

Definition strstr (cs ct : Z) : M cpu Z :=
  do! movl eax 0 in do! movl ecx ALL_ONES in do! movl esi cs in
  do! cld in
  do! count_set ct in
  do! movl_from edx ecx in
  let! found := loop fuel (
    do! movl edi ct in do! movl_from eax esi in do! movl_from ecx edx in
    do! repe cmpsb in
    out_if je true
      (do! xchgl_eax_esi in do! incl esi in do! cmpb_zero eax (-1) in back_if jne false)) in
  do! when (negb found) (xorl_self eax) in
  gets eax.

(** The token that label 2 finds, and label 3 ends. *)
Definition strtok_token (ct : Z) : M cpu unit :=
  let! more := loop fuel (do! lodsb in do! testb_al in out_if je false (do! scan_set ct in back_if je true)) in
  if negb more then ret tt else
  do! decl esi in do! cmpb_zero esi 0 in
  let! nothing := gets je in
  if nothing then ret tt else
  do! movl_from ebx esi in
  let! delimiter := loop fuel (do! lodsb in do! testb_al in out_if je false (do! scan_set ct in back_if jne true)) in
  let! last :=
    if negb delimiter then ret true else
    do! decl esi in do! cmpb_zero esi 0 in gets je in
  do! (if last : bool then xorl_self esi else do! movb_zero esi in incl esi) in
  do! cmpb_zero ebx 0 in
  let! token := gets jne in
  when (negb token) (xorl_self ebx).

(** Labels 1 to 7, with the string in [esi]. *)
Definition strtok_from (ct : Z) : M cpu unit :=
  do! xorl_self ebx in do! movl ecx (-1) in do! xorl_self eax in
  do! cld in
  do! count_set ct in
  let! empty := gets je in
  do! (if empty : bool then ret tt else do! movl_from edx ecx in strtok_token ct) in
  do! testl_self ebx in
  let! token := gets jne in
  when (negb token) (movl_from esi ebx).

(** [token_at] is the variable [___strtok]; the result and its new value. *)
Definition strtok (token_at s ct : Z) : M cpu (Z * Z) :=
  do! movl ebx token_at in do! movl esi s in
  do! testl_self esi in
  let! first := gets jne in
  do! (if first : bool then strtok_from ct else
    do! testl_self ebx in
    let! none := gets je in
    if none : bool then ret tt else do! movl_from esi ebx in strtok_from ct) in
  let! res := gets ebx in let! next := gets esi in
  ret (res, next).
End code.

(** ** Memory *)

Definition memcpy (dest src n : Z) : M cpu Z :=
  do! movl ecx n in do! movl esi src in do! movl edi dest in
  do! cld in
  do! rep movsb in
  ret dest.

Definition memmove (dest src n : Z) : M cpu Z :=
  do! (if dest <? src then
    do! movl ecx n in do! movl esi src in do! movl edi dest in
    do! cld in
    rep movsb
  else
    do! movl ecx n in do! movl esi (src + n - 1) in do! movl edi (dest + n - 1) in
    do! std in
    rep movsb) in
  ret dest.

Definition memcmp (cs ct count : Z) : M cpu Z :=
  do! movl eax 0 in do! movl edi cs in do! movl esi ct in do! movl ecx count in
  do! cld in
  do! repe cmpsb in
  let! same := gets je in
  do! when (negb same) sign_of_difference in
  let! res := gets eax in ret (s32 res).

Definition memchr (cs c count : Z) : M cpu Z :=
  if count =? 0 then ret 0 else
  do! movl eax c in do! movl edi cs in do! movl ecx count in
  do! cld in
  do! repne scasb in
  let! found := gets je in
  do! when (negb found) (movl edi 1) in
  do! decl edi in
  gets edi.

Definition memset (s c count : Z) : M cpu Z :=
  do! movl eax c in do! movl edi s in do! movl ecx count in
  do! cld in
  do! rep stosb in
  ret s.
