(* ===== verification/CStringProofs.v ===== *)
(** * What the string routines compute

    Each routine of CString against its meaning on the bytes of memory, and
    where that is not the meaning of the C library. *)

From Stdlib Require Import ZArith Lia.
From stdpp Require Import base numbers list gmap strings.
From S2P Require Import Prelude Cpu CString.

(** ** Bytes *)

Lemma u32_idemp x : u32 (u32 x) = u32 x.
Proof. unfold u32. dmlia. Qed.
Lemma u8_idemp x : u8 (u8 x) = u8 x.
Proof. unfold u8. dmlia. Qed.
Lemma u32_add x y : u32 (u32 x + y) = u32 (x + y).
Proof. unfold u32. dmlia. Qed.
Lemma byte_at_u32 m a : byte_at m (u32 a) = byte_at m a.
Proof. unfold byte_at. by rewrite u32_idemp. Qed.
Lemma byte_at_range m a : is_u8 (byte_at m a).
Proof. apply u8_range. Qed.
Lemma put_byte_u32 a v m : put_byte (u32 a) v m = put_byte a v m.
Proof. unfold put_byte. by rewrite u32_idemp. Qed.
Lemma byte_put_eq m a v : byte_at (put_byte a v m) a = u8 v.
Proof. unfold byte_at, put_byte. rewrite lookup_insert, decide_True by done. apply u8_idemp. Qed.
Lemma byte_put_ne m a b v : u32 a <> u32 b -> byte_at (put_byte a v m) b = byte_at m b.
Proof. intros H. unfold byte_at, put_byte. by rewrite lookup_insert_ne. Qed.
Lemma al_with_al v x : al (with_al v x) = u8 v.
Proof. unfold al, with_al, u8. dmlia. Qed.

(** The string [l] is at [a]: its characters, then a zero byte. *)
Fixpoint cstr (m : gmap Z Z) (a : Z) (l : list Z) : Prop :=
  match l with [] => byte_at m a = 0 | c :: l => byte_at m a = c /\ c <> 0 /\ cstr m (a + 1) l end.

Lemma cstr_u32 m a l : cstr m (u32 a) l <-> cstr m a l.
Proof.
  revert a. induction l as [|c l IH]; intros a; cbn; rewrite byte_at_u32; [done|].
  rewrite <- (IH (u32 a + 1)), <- (IH (a + 1)). by rewrite u32_add.
Qed.

(** ** Running a routine *)

Lemma wp_step {A B} (m : M cpu A) (k : A -> M cpu B) (Q : B -> cpu -> Prop) s a s' :
  m s = Ok a s' -> wp (k a) Q s' -> wp (bind m k) Q s.
Proof. unfold wp, bind. by intros ->. Qed.

(** One instruction, or a test of a flag, on a state that is spelt out. *)
Ltac asm1 :=
  lazymatch goal with
  | |- wp (bind ?m ?k) ?Q ?s =>
    let r := eval cbv -[u8 u32 s8 s32 byte_at put_byte al ah with_al with_ah delta loop rep_while
      Z.add Z.sub Z.opp Z.eqb Z.ltb Z.leb Z.testbit ALL_ONES lenz] in (m s) in
    lazymatch r with Ok ?a ?s' => refine (wp_step m k Q s a s' eq_refl _); cbv beta iota end
  end.

(** Spells out a state, under names that do not hide the registers. *)
Ltac fields := cbn [eax ebx ecx edx esi edi ZF SF OF DF ram] in *.
Ltac spell s :=
  let ra := fresh "ra" in let rb := fresh "rb" in let rc := fresh "rc" in let rd := fresh "rd" in
  let rsi := fresh "rsi" in let rdi := fresh "rdi" in let fz := fresh "fz" in let fs := fresh "fs" in
  let fo := fresh "fo" in let fd := fresh "fd" in let m := fresh "m" in
  destruct s as [ra rb rc rd rsi rdi fz fs fo fd m]; fields.

(** A loop that ends is one pass after another. *)
Lemma wp_loop {A} n (body : M cpu (option A)) (Q : A -> cpu -> Prop) s :
  wp body (fun out s' => match out with None => wp (loop n body) Q s' | Some a => Q a s' end) s ->
  wp (loop (S n) body) Q s.
Proof. intros H. cbn [loop]. apply wp_bind. eapply wp_mono; [exact H|]. by intros [a|] s'. Qed.

(** ** Repeated instructions *)

(** [rep_pos] with a count of its own. *)
Fixpoint rep_nat (n : nat) (step : M cpu bool) : M cpu bool :=
  match n with O => ret true | S n => let! b := step in if b then rep_nat n step else ret false end.

Lemma rep_nat_add n m step s :
  rep_nat (n + m) step s = (let! b := rep_nat n step in if b then rep_nat m step else ret false) s.
Proof.
  revert s. induction n as [|n IH]; intros s; [done|]. cbn [rep_nat Nat.add]. unfold bind in *.
  destruct (step s) as [[] s1| | | |]; try done; try apply IH.
Qed.

Lemma rep_pos_nat p step s : rep_pos p step s = rep_nat (Pos.to_nat p) step s.
Proof.
  revert s. induction p as [p IH|p IH|]; intros s; cbn [rep_pos].
  - rewrite Pos2Nat.inj_xI. cbn [rep_nat]. unfold bind at 1 3. destruct (step s) as [[] s1| | | |]; [|done..].
    replace (2 * Pos.to_nat p)%nat with (Pos.to_nat p + Pos.to_nat p)%nat by lia. rewrite rep_nat_add.
    unfold bind. rewrite IH. destruct (rep_nat (Pos.to_nat p) step s1) as [[] s2| | | |]; rewrite ?IH; done.
  - rewrite Pos2Nat.inj_xO. replace (2 * Pos.to_nat p)%nat with (Pos.to_nat p + Pos.to_nat p)%nat by lia.
    rewrite rep_nat_add. unfold bind. rewrite IH. destruct (rep_nat (Pos.to_nat p) step s) as [[] s1| | | |]; rewrite ?IH; done.
  - change (Pos.to_nat 1) with 1%nat. cbn [rep_nat]. unfold bind, ret. destruct (step s) as [[] s1| | | |]; done.
Qed.

Lemma wp_rep_while go i (Q : unit -> cpu -> Prop) s :
  wp (rep_nat (Z.to_nat (ecx s)) (rep_step go i)) (fun _ s' => Q tt s') s -> wp (rep_while go i) Q s.
Proof.
  intros H. unfold rep_while. apply wp_bind, wp_gets. destruct (ecx s) as [|p|p] eqn:E; try exact H.
  apply wp_bind. unfold wp at 1. rewrite rep_pos_nat. change (Pos.to_nat p) with (Z.to_nat (Z.pos p)).
  unfold wp in H. by destruct (rep_nat _ _ s).
Qed.

(** ** Copying memory *)

(** [n] bytes copied one after another, the addresses going by [d]. *)
Fixpoint copy_bytes (n : nat) (d dest src : Z) (m : gmap Z Z) : gmap Z Z :=
  match n with O => m | S n => copy_bytes n d (dest + d) (src + d) (put_byte dest (byte_at m src) m) end.

Lemma copy_bytes_u32 n d dest src m : copy_bytes n d (u32 dest) (u32 src) m = copy_bytes n d dest src m.
Proof.
  revert dest src m. induction n as [|n IH]; intros dest src m; [done|]. cbn [copy_bytes].
  rewrite <- IH, !u32_add, IH. by rewrite put_byte_u32, byte_at_u32.
Qed.

Lemma rep_nat_step n go i s s' :
  i s = Ok tt s' ->
  rep_nat (S n) (rep_step go i) s =
  (if go (s' <| ecx ::= fun c => u32 (c - 1) |>) then rep_nat n (rep_step go i) (s' <| ecx ::= fun c => u32 (c - 1) |>)
   else Ok false (s' <| ecx ::= fun c => u32 (c - 1) |>)).
Proof. intros H. cbn [rep_nat]. unfold rep_step at 1. rewrite bind_assoc, (bind_ok _ _ _ _ _ H). unfold bind, modify, gets. by destruct go. Qed.

Lemma rep_movsb n s :
  ecx s = Z.of_nat n -> is_u32 (ecx s) ->
  wp (rep movsb) (fun _ s' => ram s' = copy_bytes n (delta s) (edi s) (esi s) (ram s) /\ DF s' = DF s) s.
Proof.
  intros Hn Hr. apply wp_rep_while. rewrite Hn, Nat2Z.id. revert s Hn Hr. induction n as [|n IH]; intros s Hn Hr; [done|].
  unfold wp. erewrite rep_nat_step by done. cbv iota.
  set (s1 := over ecx _ _). assert (ecx s1 = Z.of_nat n) as H1.
  { unfold s1. upd. rewrite Hn. unfold is_u32 in *. rewrite u32_id by (unfold is_u32; lia). lia. }
  specialize (IH s1 H1 ltac:(unfold is_u32 in *; lia)). eapply wp_mono in IH; [exact IH|]. intros _ s' [Hm Hd].
  change (delta s1) with (delta s) in Hm. unfold s1 in Hm. upd_in Hm. rewrite copy_bytes_u32 in Hm. split; [exact Hm|exact Hd].
Qed.

(** Forwards with the destination below the source or after all of it, or
    backwards with it above: each byte is read before it is written over. *)
Lemma copy_bytes_up n dest src m a :
  0 <= dest -> 0 <= src -> dest < src \/ src + Z.of_nat n <= dest ->
  src + Z.of_nat n <= 4294967296 -> dest + Z.of_nat n <= 4294967296 -> is_u32 a ->
  byte_at (copy_bytes n 1 dest src m) a =
  if decide (dest <= a < dest + Z.of_nat n) then byte_at m (src + (a - dest)) else byte_at m a.
Proof.
  revert dest src m. induction n as [|n IH]; intros dest src m Hd Hs Hapart Hsn Hdn Ha; cbn [copy_bytes].
  { rewrite decide_False by lia. done. }
  rewrite IH by (lia || done). set (m' := put_byte _ _ _).
  assert (forall b, is_u32 b -> b <> dest -> byte_at m' b = byte_at m b) as Hm.
  { intros b Hb Hne. apply byte_put_ne. rewrite !u32_id by (done || unfold is_u32; lia). congruence. }
  unfold is_u32 in *. repeat case_decide; try lia.
  - rewrite Hm by lia. f_equal. lia.
  - replace a with dest by lia. rewrite Z.sub_diag, Z.add_0_r. unfold m'. rewrite byte_put_eq.
    apply u8_id, byte_at_range.
  - apply Hm; lia.
Qed.

Lemma copy_bytes_down n dest src m a :
  0 <= src <= dest -> dest < 4294967296 -> Z.of_nat n <= src + 1 -> is_u32 a ->
  byte_at (copy_bytes n (-1) dest src m) a =
  if decide (dest - Z.of_nat n < a <= dest) then byte_at m (src - (dest - a)) else byte_at m a.
Proof.
  revert dest src m. induction n as [|n IH]; intros dest src m Hd Hs Hn Ha; cbn [copy_bytes].
  { rewrite decide_False by lia. done. }
  set (m' := put_byte _ _ _). assert (forall b, is_u32 b -> b <> dest -> byte_at m' b = byte_at m b) as Hm.
  { intros b Hb Hne. apply byte_put_ne. rewrite !u32_id by (done || unfold is_u32; lia). congruence. }
  unfold is_u32 in *. assert (byte_at m' dest = byte_at m src) as He.
  { unfold m'. rewrite byte_put_eq. apply u8_id, byte_at_range. }
  destruct n as [|n'].
  { cbn [copy_bytes]. case_decide; [replace a with dest by lia; rewrite He; f_equal; lia|apply Hm; lia]. }
  rewrite IH by lia. repeat case_decide; try lia.
  - rewrite Hm by lia. f_equal. lia.
  - replace a with dest by lia. rewrite He. f_equal. lia.
  - apply Hm; lia.
Qed.

(** What a copy leaves. *)
Definition copied (dest src n : Z) (m m' : gmap Z Z) : Prop :=
  forall a, is_u32 a -> byte_at m' a = if decide (dest <= a < dest + n) then byte_at m (src + (a - dest)) else byte_at m a.

Lemma movsb_up dest src n s :
  0 <= n < 4294967296 -> ecx s = u32 n -> esi s = u32 src -> edi s = u32 dest -> DF s = false ->
  0 <= dest -> 0 <= src -> dest < src \/ src + n <= dest -> src + n <= 4294967296 -> dest + n <= 4294967296 ->
  wp (rep movsb) (fun _ s' => copied dest src n (ram s) (ram s') /\ DF s' = false) s.
Proof.
  intros Hn Hc Hsi Hdi Hdf Hd Hs Hapart Hsn Hdn. rewrite u32_id in Hc by (unfold is_u32; lia).
  eapply wp_mono; [apply (rep_movsb (Z.to_nat n)); [lia|unfold is_u32; lia]|]. intros _ s' [Hm Hdf']. split; [|congruence].
  intros a Ha. rewrite Hm. unfold delta. rewrite Hdf, Hsi, Hdi, copy_bytes_u32, copy_bytes_up by (lia || done).
  by rewrite Z2Nat.id by lia.
Qed.

Lemma movsb_down dest src n s :
  0 <= n < 4294967296 -> ecx s = u32 n -> esi s = u32 (src + n - 1) -> edi s = u32 (dest + n - 1) -> DF s = true ->
  0 <= src <= dest -> dest + n <= 4294967296 ->
  wp (rep movsb) (fun _ s' => copied dest src n (ram s) (ram s') /\ DF s' = true) s.
Proof.
  intros Hn Hc Hsi Hdi Hdf Hs Hdn. rewrite u32_id in Hc by (unfold is_u32; lia).
  eapply wp_mono; [apply (rep_movsb (Z.to_nat n)); [lia|unfold is_u32; lia]|]. intros _ s' [Hm Hdf']. split; [|congruence].
  intros a Ha. rewrite Hm. unfold delta. rewrite Hdf, Hsi, Hdi, copy_bytes_u32. destruct (decide (n = 0)) as [-> | Hn0].
  { cbn. rewrite decide_False by lia. done. }
  rewrite copy_bytes_down by (lia || done). rewrite Z2Nat.id by lia. repeat case_decide; try lia; f_equal; lia.
Qed.

Lemma memcpy_ok dest src n s :
  0 <= n < 4294967296 -> 0 <= dest -> 0 <= src -> dest < src \/ src + n <= dest ->
  src + n <= 4294967296 -> dest + n <= 4294967296 ->
  wp (memcpy dest src n) (fun r s' => r = dest /\ DF s' = false /\ copied dest src n (ram s) (ram s')) s.
Proof.
  intros. unfold memcpy. repeat asm1. apply wp_bind. eapply wp_mono; [by apply (movsb_up dest src n)|].
  by intros [] s' [Hm Hd].
Qed.

(** C30: [memmove] moves the bytes of any two places, however they overlap: each
    byte of the destination is the byte that was at its place in the source, no
    other byte changes, and the routine ends. But when it goes from the end it
    leaves the direction flag set, which the compiler takes to be clear. *)
Theorem memmove_spec dest src n s :
  0 <= n < 4294967296 -> 0 <= dest -> 0 <= src -> src + n <= 4294967296 -> dest + n <= 4294967296 ->
  exists s', memmove dest src n s = Ok dest s' /\ DF s' = negb (dest <? src) /\
    forall a, is_u32 a -> byte_at (ram s') a =
      if decide (dest <= a < dest + n) then byte_at (ram s) (src + (a - dest)) else byte_at (ram s) a.
Proof.
  intros Hn Hd Hs Hsn Hdn. enough (wp (memmove dest src n) (fun r s' => r = dest /\ DF s' = negb (dest <? src) /\ copied dest src n (ram s) (ram s')) s) as H.
  { apply wp_ok in H as (r & s' & E & -> & H1 & H2). by exists s'. }
  unfold memmove. apply wp_bind. destruct (Z.ltb_spec dest src).
  - repeat asm1. eapply wp_mono; [by apply (movsb_up dest src n); try lia|]. by intros [] s' [Hm Hdf].
  - repeat asm1. eapply wp_mono; [by apply (movsb_down dest src n); try lia|]. by intros [] s' [Hm Hdf].
Qed.

(** ** Searching memory *)

(** After [k] steps of [scasb]. *)
Record scanned (s : cpu) (k : Z) (s' : cpu) : Prop := {
  sc_eax : eax s' = eax s; sc_ebx : ebx s' = ebx s; sc_edx : edx s' = edx s; sc_esi : esi s' = esi s;
  sc_DF : DF s' = false; sc_ram : ram s' = ram s; sc_ecx : ecx s' = ecx s - k; sc_edi : u32 (edi s') = u32 (edi s + k)
}.

Lemma u8_eqb x y : is_u8 x -> is_u8 y -> (u8 (x - y) =? 0) = (x =? y).
Proof. unfold is_u8, u8. intros Hx Hy. apply eq_true_iff_eq. rewrite !Z.eqb_eq. dmlia. Qed.

(** The byte [k] steps ahead. *)
Definition ahead (s : cpu) (k : Z) : Z := byte_at (ram s) (edi s + k).

Lemma ahead_scanned s i s' k : scanned s i s' -> ahead s' k = ahead s (i + k).
Proof.
  intros H. unfold ahead. rewrite (sc_ram _ _ _ H), <- byte_at_u32, <- u32_add, (sc_edi _ _ _ H), u32_add, byte_at_u32.
  f_equal. lia.
Qed.
Lemma scanned_trans s i s1 j s2 : scanned s i s1 -> scanned s1 j s2 -> scanned s (i + j) s2.
Proof.
  intros [H1 H2 H3 H4 H5 H6 H7 H8] [G1 G2 G3 G4 G5 G6 G7 G8]. split; try congruence; [lia|].
  rewrite G8, <- u32_add, H8, u32_add. f_equal. lia.
Qed.

Lemma scasb_step s :
  0 < ecx s < 4294967296 -> DF s = false ->
  exists s', (forall n, rep_nat (S n) (rep_step jne scasb) s = if ahead s 0 =? al (eax s) then Ok false s' else rep_nat n (rep_step jne scasb) s') /\
    scanned s 1 s' /\ ZF s' = (ahead s 0 =? al (eax s)).
Proof.
  intros Hc Hdf. set (s1 := (cmp8 (al (eax s)) (byte_at (ram s) (edi s)) s) <| edi := u32 (edi s + delta s) |>).
  assert (scasb s = Ok tt s1) as E by done. set (s2 := s1 <| ecx ::= fun c => u32 (c - 1) |>).
  assert (ZF s2 = (ahead s 0 =? al (eax s))) as Hz.
  { unfold ahead. rewrite Z.add_0_r, Z.eqb_sym. apply u8_eqb; [apply u8_range|apply byte_at_range]. }
  exists s2. split; [|split; [|exact Hz]].
  - intros n. rewrite (rep_nat_step _ _ _ _ _ E). fold s2. unfold jne. rewrite Hz. by destruct (ahead s 0 =? _).
  - split; try done.
    + change (ecx s2) with (u32 (ecx s - 1)). apply u32_id. unfold is_u32. lia.
    + change (edi s2) with (u32 (edi s + delta s)). unfold delta. rewrite Hdf. apply u32_idemp.
Qed.

(** [repne scasb] stops after the first byte that is [al]... *)
Lemma scan_found k n s :
  0 <= k < Z.of_nat n -> Z.of_nat n = ecx s -> is_u32 (ecx s) -> DF s = false ->
  (forall j, 0 <= j < k -> ahead s j <> al (eax s)) -> ahead s k = al (eax s) ->
  exists s', rep_nat n (rep_step jne scasb) s = Ok false s' /\ scanned s (k + 1) s' /\ ZF s' = true.
Proof.
  revert k s. induction n as [|n IH]; intros k s Hk Hn Hc Hdf Hb Hf; [lia|]. unfold is_u32 in Hc.
  destruct (scasb_step s) as (s1 & E & H1 & Hz); [lia|done|]. rewrite E. destruct (decide (k = 0)) as [-> | Hk0].
  { rewrite Hf, Z.eqb_refl in *. by exists s1. }
  rewrite (proj2 (Z.eqb_neq _ _) (Hb 0 ltac:(lia))).
  destruct (IH (k - 1) s1) as (s' & E' & H' & Hz'); rewrite ?(sc_ecx _ _ _ H1), ?(sc_eax _ _ _ H1), ?(sc_DF _ _ _ H1); try done; try (unfold is_u32; lia).
  - intros j Hj. rewrite (ahead_scanned _ _ _ _ H1). apply Hb. lia.
  - rewrite (ahead_scanned _ _ _ _ H1). by replace (1 + (k - 1)) with k by lia.
  - exists s'. split; [done|]. split; [|done]. replace (k + 1) with (1 + (k - 1 + 1)) by lia. by apply (scanned_trans _ _ s1).
Qed.

(** ... or when the count is at its end; of no bytes the flags stay. *)
Lemma scan_none n s :
  Z.of_nat n = ecx s -> is_u32 (ecx s) -> DF s = false -> (forall j, 0 <= j < ecx s -> ahead s j <> al (eax s)) ->
  exists s', rep_nat n (rep_step jne scasb) s = Ok true s' /\ scanned s (ecx s) s' /\ ZF s' = if n is O then ZF s else false.
Proof.
  revert s. induction n as [|n IH]; intros s Hn Hc Hdf Hb.
  { exists s. split; [done|]. split; [|done]. split; try done; [lia|f_equal; lia]. }
  unfold is_u32 in Hc. destruct (scasb_step s) as (s1 & E & H1 & Hz); [lia|done|]. rewrite E.
  rewrite (proj2 (Z.eqb_neq _ _) (Hb 0 ltac:(lia))) in *.
  destruct (IH s1) as (s' & E' & H' & Hz'); rewrite ?(sc_ecx _ _ _ H1), ?(sc_eax _ _ _ H1), ?(sc_DF _ _ _ H1); try done; try (unfold is_u32; lia).
  - intros j Hj. rewrite (ahead_scanned _ _ _ _ H1). apply Hb. lia.
  - exists s'. split; [done|]. split; [|by destruct n; rewrite Hz'].
    replace (ecx s) with (1 + ecx s1) by (rewrite (sc_ecx _ _ _ H1); lia). by apply (scanned_trans _ _ s1).
Qed.

(** A string has its zero byte after its characters. *)
Lemma cstr_byte m a l k : cstr m a l -> 0 <= k <= lenz l -> byte_at m (a + k) = default 0 (getz l k) /\ (k < lenz l -> byte_at m (a + k) <> 0).
Proof.
  revert a k. induction l as [|c l IH]; intros a k.
  - cbn. unfold lenz. cbn. intros H Hk. replace k with 0 by lia. rewrite Z.add_0_r, H. split; [done|lia].
  - cbn [cstr]. intros (Hc & Hc0 & Hl) Hk. rewrite lenz_cons in *. destruct (decide (k = 0)) as [-> | Hk0].
    + rewrite Z.add_0_r. split; [done|]. by rewrite Hc.
    + destruct (IH (a + 1) (k - 1) Hl ltac:(lia)) as [H1 H2]. assert (a + 1 + (k - 1) = a + k) as Hak by lia. rewrite Hak in H1, H2.
      split; [|intros; apply H2; lia]. by rewrite H1, getz_cons_S by lia.
Qed.

Lemma repne_zero l s :
  cstr (ram s) (edi s) l -> lenz l < ecx s -> is_u32 (ecx s) -> al (eax s) = 0 -> DF s = false ->
  wp (repne scasb) (fun _ s' => scanned s (lenz l + 1) s' /\ ZF s' = true) s.
Proof.
  intros Hl Hn Hc Ha Hdf. apply wp_rep_while. pose proof (lenz_nonneg l).
  destruct (scan_found (lenz l) (Z.to_nat (ecx s)) s) as (s' & E & H1 & H2); [lia|lia|done|done|..].
  - intros j Hj. rewrite Ha. apply (cstr_byte _ _ _ j Hl); lia.
  - rewrite Ha. destruct (cstr_byte _ _ _ (lenz l) Hl ltac:(lia)) as [E _]. unfold ahead. by rewrite E, getz_end.
  - unfold wp. by rewrite E.
Qed.

Lemma strlen_ok a l s :
  cstr (ram s) a l -> lenz l < 2147483648 ->
  wp (strlen a) (fun r s' => r = lenz l /\ ram s' = ram s) s.
Proof.
  spell s. intros Hl Hn. unfold strlen. repeat asm1. apply wp_bind. pose proof (lenz_nonneg l).
  eapply wp_mono; [apply (repne_zero l); [by apply cstr_u32|change (lenz l < 0xffffffff); lia|by vm_compute|done|done]|].
  intros _ s' [[_ _ _ _ _ Hm Hc _] _]. spell s'. repeat asm1. subst. split; [|done].
  change (u32 ALL_ONES) with 0xffffffff. unfold s32, u32. dmlia.
Qed.

(** ** The characters of a string *)

(** What searching a set of characters leaves as it was. *)
Record kept (s s' : cpu) : Prop := {
  kp_eax : eax s' = eax s; kp_ebx : ebx s' = ebx s; kp_edx : edx s' = edx s; kp_esi : esi s' = esi s;
  kp_DF : DF s' = false; kp_ram : ram s' = ram s
}.

Lemma count_set_ok p ct s :
  cstr (ram s) ct p -> lenz p < ALL_ONES -> ecx s = ALL_ONES -> al (eax s) = 0 -> DF s = false ->
  wp (count_set ct) (fun _ s' => kept s s' /\ ecx s' = lenz p /\ ZF s' = (lenz p =? 0)) s.
Proof.
  spell s. intros Hp Hn -> Ha ->. unfold count_set. asm1. apply wp_bind. pose proof (lenz_nonneg p). unfold ALL_ONES in Hn.
  eapply wp_mono; [apply (repne_zero p); [by apply cstr_u32|exact Hn|by vm_compute|exact Ha|done]|].
  intros _ s' [[] _]. spell s'. subst. apply (wp_step _ _ _ _ _ _ eq_refl). unfold decl, wp, modify. upd. fields.
  replace (-1 - (ALL_ONES - (lenz p + 1))) with (lenz p + 1 - 2 ^ 32) by (unfold ALL_ONES; lia).
  replace (u32 (lenz p + 1 - 2 ^ 32)) with (lenz p + 1) by (unfold u32; dmlia).
  split; [done|]. replace (lenz p + 1 - 1) with (lenz p) by lia. rewrite u32_id by (unfold is_u32; lia).
  split; [done|]. change (ZF _) with (u32 (lenz p) =? 0). by rewrite u32_id by (unfold is_u32; lia).
Qed.

Lemma elem_of_byte m a p c :
  cstr m a p -> c ∈ p <-> exists k, 0 <= k < lenz p /\ byte_at m (a + k) = c.
Proof.
  revert a. induction p as [|d p IH]; intros a H.
  - split; [by intros ?%elem_of_nil|]. intros (k & Hk & _). change (lenz []) with 0 in Hk. lia.
  - destruct H as (Hd & _ & H). rewrite elem_of_cons, (IH _ H), lenz_cons. split.
    + intros [-> | (k & Hk & Hc)]; [exists 0; rewrite Z.add_0_r; pose proof (lenz_nonneg p); split; [lia|done]|].
      exists (k + 1). split; [lia|]. rewrite <- Hc. f_equal. lia.
    + intros (k & Hk & Hc). destruct (decide (k = 0)) as [-> | Hk0]; [rewrite Z.add_0_r in Hc; left; congruence|].
      right. exists (k - 1). split; [lia|]. rewrite <- Hc. f_equal. lia.
Qed.

(** The first of the bytes ahead with some property. *)
Lemma first_ahead s n c : (forall k, 0 <= k < Z.of_nat n -> ahead s k <> c) \/
  exists k, 0 <= k < Z.of_nat n /\ ahead s k = c /\ forall j, 0 <= j < k -> ahead s j <> c.
Proof.
  induction n as [|n [IH | (k & Hk & H)]]; [left; lia| |right; exists k; split; [lia|done]].
  destruct (decide (ahead s (Z.of_nat n) = c)) as [E | E].
  - right. exists (Z.of_nat n). split; [lia|]. split; [done|]. intros j Hj. by apply IH.
  - left. intros k Hk. destruct (decide (k = Z.of_nat n)) as [-> | ]; [done|]. apply IH. lia.
Qed.

Lemma scan_ok s :
  is_u32 (ecx s) -> DF s = false -> ZF s = false ->
  wp (repne scasb) (fun _ s' => kept s s' /\ (ZF s' = true <-> exists k, 0 <= k < ecx s /\ ahead s k = al (eax s))) s.
Proof.
  intros Hc Hdf Hz. apply wp_rep_while. unfold is_u32 in Hc.
  destruct (first_ahead s (Z.to_nat (ecx s)) (al (eax s))) as [Hb | (k & Hk & Hk' & Hb)].
  - destruct (scan_none (Z.to_nat (ecx s)) s) as (s' & E & [] & Hz'); [lia|done|done|intros j Hj; apply Hb; lia|].
    unfold wp. rewrite E. split; [done|]. rewrite Hz'. split; [by destruct (Z.to_nat _); rewrite ?Hz|].
    intros (k & Hk & Hk'). by destruct (Hb k ltac:(lia)).
  - destruct (scan_found k (Z.to_nat (ecx s)) s) as (s' & E & [] & Hz'); [lia|lia|done..|].
    unfold wp. rewrite E. split; [done|]. rewrite Hz'. split; [|done]. intros _. exists k. split; [lia|done].
Qed.

Lemma scan_set_ok p ct s :
  cstr (ram s) ct p -> lenz p < 4294967296 -> edx s = lenz p -> DF s = false -> ZF s = false ->
  wp (scan_set ct) (fun _ s' => kept s s' /\ ZF s' = bool_decide (al (eax s) ∈ p)) s.
Proof.
  spell s. intros Hp Hn -> -> ->. unfold scan_set. do 2 asm1. pose proof (lenz_nonneg p). apply (cstr_u32 _ ct) in Hp.
  eapply wp_mono; [apply scan_ok; try done; unfold is_u32; cbn; lia|]. intros _ s' [[] Hz]. unfold ahead in Hz. fields.
  split; [done|]. rewrite <- (elem_of_byte _ _ _ _ Hp) in Hz. apply eq_true_iff_eq. by rewrite bool_decide_eq_true.
Qed.

(** The length of the longest beginning whose characters all satisfy [f]. *)
Fixpoint span (f : Z -> bool) (l : list Z) : Z :=
  match l with [] => 0 | c :: l => if f c then 1 + span f l else 0 end.

Lemma span_range f l : 0 <= span f l <= lenz l.
Proof. induction l as [|c l IH]; cbn; [done|]. rewrite lenz_cons. case_match; lia. Qed.

(** Reading a character and testing it for zero. *)
Lemma wp_next_char {A} (k : unit -> M cpu A) (Q : A -> cpu -> Prop) s :
  DF s = false ->
  (forall s', al (eax s') = byte_at (ram s) (esi s) -> ZF s' = (byte_at (ram s) (esi s) =? 0) ->
     ebx s' = ebx s -> ecx s' = ecx s -> edx s' = edx s -> esi s' = u32 (esi s + 1) -> edi s' = edi s ->
     DF s' = false -> ram s' = ram s -> wp (k tt) Q s') ->
  wp (do! lodsb in bind testb_al k) Q s.
Proof.
  spell s. intros -> Hk. do 2 asm1. assert (al (with_al (byte_at m rsi) ra) = byte_at m rsi) as Hal.
  { rewrite al_with_al. apply u8_id, byte_at_range. }
  rewrite Hal. apply Hk; try done. by fields; rewrite u8_id by apply byte_at_range.
Qed.

(** The loop of the span routines: it leaves with [true] at the first character
    for which it does not go on, with [false] at the end. *)
Definition set_loop (fuel : nat) (again : cpu -> bool) (ct : Z) : M cpu bool :=
  loop fuel (do! lodsb in do! testb_al in out_if je false (do! scan_set ct in back_if again true)).

Lemma set_loop_ok again g (p : list Z) ct (l : list Z) fuel s (f := fun c : Z => g (bool_decide (c ∈ p))) :
  (forall s, again s = g (ZF s)) -> cstr (ram s) ct p -> lenz p < 4294967296 -> edx s = lenz p -> DF s = false ->
  cstr (ram s) (esi s) l -> (length l < fuel)%nat ->
  wp (set_loop fuel again ct) (fun b s' => b = (span f l <? lenz l) /\ u32 (esi s') = u32 (esi s + (span f l + 1)) /\
    ebx s' = ebx s /\ edx s' = edx s /\ DF s' = false /\ ram s' = ram s) s.
Proof.
  intros Hag. unfold set_loop. revert s fuel. induction l as [|c l IH]; intros s [|fuel] Hp Hn Hd Hdf Hl Hf; try (cbn in Hf; lia);
    apply wp_loop, wp_next_char; try done; intros s1 Ha Hz Hb Hc Hd1 Hsi Hdi Hdf1 Hm.
  - cbn in Hl. rewrite Hl in Hz. unfold out_if, wp, bind, gets, je. rewrite Hz. cbn.
    split; [done|]. split; [by rewrite Hsi, u32_idemp|]. by rewrite Hb, Hd1, Hm.
  - destruct Hl as (Hc0 & Hne & Hl). rewrite Hc0 in *. rewrite (proj2 (Z.eqb_neq c 0) Hne) in Hz.
    unfold out_if. apply wp_bind, wp_gets. unfold je. rewrite Hz. apply wp_bind.
    eapply wp_mono; [apply (scan_set_ok p); congruence|]. intros _ s2 [[H1 H2 H3 H4 H5 H6] Hz2]. rewrite Ha in Hz2.
    unfold back_if. apply wp_gets. rewrite Hag, Hz2. cbn [span]. fold (f c). rewrite lenz_cons. pose proof (span_range f l).
    destruct (f c) eqn:Hfc.
    + eapply wp_mono; [apply IH; try congruence; [by rewrite H6, Hm, H4, Hsi, cstr_u32|cbn in Hf; lia]|].
      intros b s3 (G1 & G2 & G3 & G4 & G5 & G6). cbv beta in G1, G2. split; [rewrite G1; apply eq_true_iff_eq; rewrite !Z.ltb_lt; lia|].
      split; [rewrite G2, H4, Hsi, u32_add; f_equal; lia|]. split_and!; congruence.
    + split; [symmetry; apply Z.ltb_lt; lia|]. split; [by rewrite H4, Hsi, u32_idemp|]. split_and!; congruence.
Qed.

Lemma span_loop_ok fuel again g (p : list Z) cs ct (l : list Z) s (f := fun c : Z => g (bool_decide (c ∈ p))) :
  (forall s, again s = g (ZF s)) -> cstr (ram s) ct p -> lenz p < ALL_ONES -> cstr (ram s) cs l -> (length l < fuel)%nat ->
  wp (span_loop fuel again cs ct) (fun b s' => b = (span f l <? lenz l) /\ u32 (esi s') = u32 (cs + (span f l + 1)) /\ ram s' = ram s) s.
Proof.
  spell s. intros Hag Hp Hn Hl Hf. unfold span_loop. do 4 asm1. apply wp_bind. unfold ALL_ONES in Hn.
  eapply wp_mono; [by apply (count_set_ok p)|]. intros _ s1 [[] [Hc _]]. spell s1. subst. asm1.
  eapply wp_mono; [apply (set_loop_ok _ g p ct l); try done; [lia|by apply cstr_u32]|].
  intros b s2 (H1 & H2 & _ & _ & _ & H3). fields. rewrite u32_add in H2. done.
Qed.

Lemma decl_esi a k s :
  u32 (esi s) = u32 (a + (k + 1)) ->
  wp (decl esi) (fun _ s' => esi s' = u32 (a + k) /\ ebx s' = ebx s /\ edx s' = edx s /\ DF s' = DF s /\ ram s' = ram s) s.
Proof.
  intros H. apply wp_modify. split_and!; try done. change (u32 (esi s - 1) = u32 (a + k)).
  replace (esi s - 1) with (esi s + -1) by lia. rewrite <- u32_add, H, u32_add. f_equal. lia.
Qed.

Lemma distance cs k : 0 <= k < 2147483648 -> s32 (u32 (cs + k) - cs) = k.
Proof. intros Hk. unfold s32, u32. dmlia. Qed.

Section span.
Context (fuel : nat) (cs ct : Z) (l p : list Z) (s : cpu).
Context (Hl : cstr (ram s) cs l) (Hp : cstr (ram s) ct p) (Hp32 : lenz p < ALL_ONES) (Hf : (length l < fuel)%nat).
Let in_set (c : Z) : bool := bool_decide (c ∈ p).
Let not_in_set (c : Z) : bool := negb (bool_decide (c ∈ p)).

(** [strspn] and [strcspn]: how many characters at the beginning of [cs] are in
    [ct], or are not. *)
Lemma strspn_ok : lenz l < 2147483648 -> wp (strspn fuel cs ct) (fun r s' => r = span in_set l /\ ram s' = ram s) s.
Proof.
  intros Hn. pose proof (span_range in_set l). unfold strspn. apply wp_bind.
  eapply wp_mono; [by apply (span_loop_ok fuel je (fun b => b) p cs ct l)|]. intros b s1 (_ & H2 & Hm). apply wp_bind.
  eapply wp_mono; [apply (decl_esi _ _ _ H2)|]. intros [] s2 (Hsi & _ & _ & _ & Hm'). apply wp_bind, wp_gets, wp_ret.
  split; [|congruence]. rewrite Hsi. apply distance. fold in_set. lia.
Qed.

Lemma strcspn_ok : lenz l < 2147483648 -> wp (strcspn fuel cs ct) (fun r s' => r = span not_in_set l /\ ram s' = ram s) s.
Proof.
  intros Hn. pose proof (span_range not_in_set l). unfold strcspn. apply wp_bind.
  eapply wp_mono; [by apply (span_loop_ok fuel jne negb p cs ct l)|]. intros b s1 (_ & H2 & Hm). apply wp_bind.
  eapply wp_mono; [apply (decl_esi _ _ _ H2)|]. intros [] s2 (Hsi & _ & _ & _ & Hm'). apply wp_bind, wp_gets, wp_ret.
  split; [|congruence]. rewrite Hsi. apply distance. fold not_in_set. lia.
Qed.

(** [strpbrk]: the address of the first character that is in [ct]. *)
Lemma strpbrk_ok :
  wp (strpbrk fuel cs ct) (fun r s' => r = (if span not_in_set l <? lenz l then u32 (cs + span not_in_set l) else 0) /\ ram s' = ram s) s.
Proof.
  unfold strpbrk. apply wp_bind. eapply wp_mono; [by apply (span_loop_ok fuel jne negb p cs ct l)|].
  fold not_in_set. intros b s1 (-> & H2 & Hm). fold not_in_set in H2. apply wp_bind. destruct (span not_in_set l <? lenz l).
  - eapply wp_mono; [apply (decl_esi _ _ _ H2)|]. intros [] s2 (Hsi & _ & _ & _ & Hm'). apply wp_gets. split; congruence.
  - apply wp_modify, wp_gets. by split.
Qed.
End span.

(** ** One string in another *)

Lemma cmpsb_step s (x := byte_at (ram s) (esi s)) (y := byte_at (ram s) (edi s)) :
  0 < ecx s < 4294967296 -> DF s = false ->
  exists s', (forall n, rep_nat (S n) (rep_step je cmpsb) s = if x =? y then rep_nat n (rep_step je cmpsb) s' else Ok false s') /\
    ZF s' = (x =? y) /\ eax s' = eax s /\ ebx s' = ebx s /\ ecx s' = ecx s - 1 /\ edx s' = edx s /\
    esi s' = u32 (esi s + 1) /\ edi s' = u32 (edi s + 1) /\ DF s' = false /\ ram s' = ram s.
Proof.
  intros Hc Hdf. set (s1 := (cmp8 x y s) <| esi := u32 (esi s + delta s) |> <| edi := u32 (edi s + delta s) |>).
  assert (cmpsb s = Ok tt s1) as E by done. set (s2 := s1 <| ecx ::= fun c => u32 (c - 1) |>).
  assert (ZF s2 = (x =? y)) as Hz by (apply u8_eqb; apply byte_at_range). assert (delta s = 1) as Hd by (unfold delta; by rewrite Hdf).
  exists s2. split; [intros n; rewrite (rep_nat_step _ _ _ _ _ E); fold s2; unfold je; by rewrite Hz|].
  split; [exact Hz|]. split_and!; try done; unfold s2, s1; upd; rewrite ?Hd; try done. change (u32 (ecx s - 1) = ecx s - 1).
  apply u32_id. unfold is_u32. lia.
Qed.

(** [repe cmpsb] of a string [p] against the string [l]: it is the beginning of
    [l], or they differ at some place; at the end of [l], [p] is the longer one. *)
Lemma compare_ok p l s :
  cstr (ram s) (edi s) p -> cstr (ram s) (esi s) l -> ecx s = lenz p -> lenz p < 4294967296 -> DF s = false ->
  (p = [] -> ZF s = true) ->
  wp (repe cmpsb) (fun _ s' => eax s' = eax s /\ edx s' = edx s /\ DF s' = false /\ ram s' = ram s /\
    (p `prefix_of` l /\ ZF s' = true \/
     ~ p `prefix_of` l /\ ZF s' = false /\ exists j, 0 <= j <= lenz l /\ u32 (esi s') = u32 (esi s + (j + 1)) /\ (j = lenz l -> lenz l < lenz p))) s.
Proof.
  intros Hp Hl Hc Hn Hdf Hz. apply wp_rep_while. rewrite Hc. unfold lenz at 1. rewrite Nat2Z.id.
  revert l s Hp Hl Hc Hdf Hz. induction p as [|c p IH]; intros l s Hp Hl Hc Hdf Hz.
  { unfold wp. cbn [length rep_nat ret]. split_and!; try done. left. split; [by apply prefix_nil|by apply Hz]. }
  rewrite lenz_cons in *. pose proof (lenz_nonneg p). destruct Hp as (Hc0 & Hne & Hp).
  destruct (cmpsb_step s) as (s1 & E & Hz1 & G1 & G2 & G3 & G4 & G5 & G6 & G7 & G8); [lia|done|].
  unfold wp. cbn [length]. rewrite E. rewrite Hc0 in *. destruct l as [|d l].
  - cbn in Hl. rewrite Hl in *. rewrite (proj2 (Z.eqb_neq 0 c)) in * by congruence. split_and!; try done. right.
    split; [by intros [? ?]|]. split; [done|]. exists 0. split; [done|]. split; [by rewrite G5, u32_idemp|]. change (lenz []) with 0. lia.
  - destruct Hl as (Hd & Hdne & Hl). rewrite Hd in *. rewrite lenz_cons. pose proof (lenz_nonneg l). destruct (Z.eqb_spec d c) as [-> | Hdc].
    + specialize (IH ltac:(lia) l s1). rewrite G8, G6, G5, !cstr_u32, G3, Hz1 in IH. specialize (IH Hp Hl ltac:(lia) G7 ltac:(done)).
      unfold wp in IH. destruct (rep_nat _ _ s1) as [b s2| | | |]; try done. destruct IH as (I1 & I2 & I3 & I4 & I5). split_and!; try congruence.
      destruct I5 as [[I5 I6] | (I5 & I6 & j & Hj & Hj' & Hj'')]; [left; split; [by apply prefix_cons|done]|].
      right. split; [by intros ?%prefix_cons_inv_2|]. split; [done|]. exists (j + 1). split; [lia|]. split; [|lia].
      rewrite Hj', u32_add. f_equal. lia.
    + split_and!; try done. right. split; [intros ?%prefix_cons_inv_1; congruence|]. split; [done|]. exists 0. split; [lia|].
      split; [by rewrite G5, u32_idemp|lia].
Qed.

(** [l1] is what is before the first occurrence of [p] in [l]. *)
Definition first_at (p l l1 : list Z) : Prop :=
  (exists l2, l = l1 ++ p ++ l2) /\ forall l1' l2', l = l1' ++ p ++ l2' -> lenz l1 <= lenz l1'.
Definition occurs (p l : list Z) : Prop := exists l1 l2, l = l1 ++ p ++ l2.

Lemma first_at_nil p l : p `prefix_of` l -> first_at p l [].
Proof. intros [l2 ->]. split; [by exists l2|]. intros. apply lenz_nonneg. Qed.
Lemma first_at_cons p c l l1 : ~ p `prefix_of` c :: l -> first_at p l l1 -> first_at p (c :: l) (c :: l1).
Proof.
  intros Hp [[l2 ->] H]. split; [by exists l2|]. intros [|d l1'] l2' E; [destruct Hp; by exists l2'|].
  injection E as <- E. rewrite !lenz_cons. specialize (H _ _ E). lia.
Qed.
Lemma occurs_cons p c l : occurs p (c :: l) <-> p `prefix_of` c :: l \/ occurs p l.
Proof.
  split.
  - intros ([|d l1] & l2 & E); [left; by exists l2|]. injection E as <- ->. right. by exists l1, l2.
  - intros [[l2 ->] | (l1 & l2 & ->)]; [by exists [], l2|by exists (c :: l1), l2].
Qed.
Lemma occurs_length p l : occurs p l -> lenz p <= lenz l.
Proof. intros (l1 & l2 & ->). rewrite !lenz_app. pose proof (lenz_nonneg l1). pose proof (lenz_nonneg l2). lia. Qed.

Definition strstr_loop (fuel : nat) (ct : Z) : M cpu bool :=
  loop fuel (
    do! movl edi ct in do! movl_from eax esi in do! movl_from ecx edx in
    do! repe cmpsb in
    out_if je true
      (do! xchgl_eax_esi in do! incl esi in do! cmpb_zero eax (-1) in back_if jne false)).

(** What follows a difference at the character [j] of the string at [a]. *)
Lemma strstr_next s l a j (Q : option bool -> cpu -> Prop) :
  cstr (ram s) a l -> u32 (esi s) = u32 (a + (j + 1)) -> u32 (eax s) = u32 a -> 0 <= j <= lenz l ->
  (forall s', eax s' = esi s -> esi s' = u32 (a + 1) -> edx s' = edx s -> DF s' = DF s -> ram s' = ram s ->
     Q (if j <? lenz l then None else Some false) s') ->
  wp (do! xchgl_eax_esi in do! incl esi in do! cmpb_zero eax (-1) in back_if jne false) Q s.
Proof.
  spell s. intros Hl Hsi Ha Hj HQ. do 3 asm1. apply wp_gets. cbv beta. unfold jne at 1. fields.
  assert (byte_at m (rsi + -1) = byte_at m (a + j)) as Hb.
  { rewrite <- byte_at_u32, <- u32_add, Hsi, u32_add, byte_at_u32. f_equal. lia. }
  assert ((u8 (byte_at m (rsi + -1) - 0) =? 0) = negb (j <? lenz l)) as Hz.
  { rewrite Hb, u8_eqb by (apply byte_at_range || by vm_compute). destruct (cstr_byte _ _ _ j Hl Hj) as [H1 H2].
    destruct (Z.ltb_spec j (lenz l)); [by apply Z.eqb_neq, H2|]. assert (j = lenz l) as -> by lia. by rewrite H1, getz_end. }
  rewrite Hz, negb_involutive. apply HQ; try done. fields. rewrite <- u32_add, Ha. apply u32_add.
Qed.

Lemma strstr_loop_ok fuel p ct l a s :
  cstr (ram s) ct p -> lenz p < 4294967296 -> edx s = lenz p -> DF s = false -> (p = [] -> ZF s = true) ->
  cstr (ram s) a l -> esi s = u32 a -> (length l < fuel)%nat ->
  wp (strstr_loop fuel ct) (fun b s' => ram s' = ram s /\
    (b = true /\ (exists l1, first_at p l l1 /\ eax s' = u32 (a + lenz l1)) \/ b = false /\ ~ occurs p l)) s.
Proof.
  intros Hp Hn. revert fuel l a s Hp. unfold strstr_loop. induction fuel as [|fuel IH]; intros l a s Hp Hd Hdf Hz Hl Ha Hf; [lia|].
  apply wp_loop. apply (wp_step _ _ _ _ _ _ eq_refl), (wp_step _ _ _ _ _ _ eq_refl), (wp_step _ _ _ _ _ _ eq_refl), wp_bind.
  eapply wp_mono; [apply (compare_ok p l); upd; try done|].
  - by apply cstr_u32.
  - by rewrite Ha, cstr_u32.
  - intros [] s1 (G1 & G2 & G3 & G4 & Hc). upd_in G1. upd_in G2. upd_in G4. upd_in Hc. apply wp_bind, wp_gets. unfold je.
    destruct Hc as [[Hpre ->] | (Hpre & -> & j & Hj & Hj' & Hend)].
    + cbn. split; [done|]. left. split; [done|]. exists []. split; [by apply first_at_nil|]. rewrite G1, Ha.
      change (lenz []) with 0. f_equal. lia.
    + assert (u32 (esi s1) = u32 (a + (j + 1))) as Hsi by (by rewrite Hj', Ha, u32_add).
      apply (strstr_next _ l a j); try done; [congruence|rewrite G1, Ha; apply u32_idemp|]. intros s2 F1 F2 F3 F4 F5.
      destruct (Z.ltb_spec j (lenz l)) as [Hlt | Hge]; cycle 1.
      * split; [congruence|]. right. split; [done|]. intros Ho%occurs_length. lia.
      * destruct l as [|c l]; [change (lenz []) with 0 in *; lia|]. destruct Hl as (_ & _ & Hl).
        eapply wp_mono; [apply (IH l (a + 1)); try congruence; [intros ->; by destruct Hpre; apply prefix_nil|cbn in Hf; lia]|].
        intros b s3 [Hm [[-> (l1 & H1 & H2)] | [-> Ho]]]; (split; [congruence|]); [left|right]; (split; [done|]).
        -- exists (c :: l1). split; [by apply first_at_cons|]. rewrite H2, lenz_cons. f_equal. lia.
        -- rewrite occurs_cons. tauto.
Qed.

(** C16: [strstr] finds the first occurrence of one string in another, and gives
    the null pointer if there is none; the empty string is found at once. It
    reads memory only, and ends after at most as many rounds as there are
    characters in the first string. *)
Theorem strstr_spec fuel cs ct l p s :
  cstr (ram s) cs l -> cstr (ram s) ct p -> lenz p < 4294967295 -> (length l < fuel)%nat ->
  exists r s', strstr fuel cs ct s = Ok r s' /\ ram s' = ram s /\
    ((exists l1, first_at p l l1 /\ r = u32 (cs + lenz l1)) \/ (~ occurs p l /\ r = 0)).
Proof.
  intros Hl Hp Hn Hf.
  enough (wp (strstr fuel cs ct) (fun r s' => ram s' = ram s /\
    ((exists l1, first_at p l l1 /\ r = u32 (cs + lenz l1)) \/ (~ occurs p l /\ r = 0))) s) as H by (apply wp_ok in H as (r & s' & H); by exists r, s').
  spell s. unfold strstr. do 4 asm1. apply wp_bind.
  eapply wp_mono; [by apply (count_set_ok p)|]. intros _ s1 [[] [Hc Hz]]. spell s1. subst. asm1.
  apply wp_bind. eapply wp_mono; [apply (strstr_loop_ok fuel p ct l cs); try done; [lia|]|].
  - by intros ->.
  - intros b s2 [Hm [[-> (l1 & H1 & H2)] | [-> Ho]]]; [|by apply wp_bind, wp_modify, wp_gets; split; [|right]].
    apply wp_bind, wp_ret, wp_gets. split; [exact Hm|]. left. exists l1. split; [exact H1|exact H2].
Qed.
