(* ===== verification/CStringMore.v ===== *)
(** * More of the string routines

    Comparing, copying and splitting strings, and where the routines differ
    from those of the C library. *)

From Stdlib Require Import ZArith Lia.
From stdpp Require Import base numbers list gmap strings.
From S2P Require Import Prelude Cpu CString CStringProofs.

(** ** Comparing *)

(** 0 for equal strings; otherwise the sign of the first difference, the
    characters taken as signed, the end of a string as 0. *)
Fixpoint order (l1 l2 : list Z) : Z :=
  let sign x y := if s8 y <? s8 x then 1 else -1 in
  match l1, l2 with
  | [], [] => 0
  | x :: l1, y :: l2 => if x =? y then order l1 l2 else sign x y
  | x :: _, [] => sign x 0
  | [], y :: _ => sign 0 y
  end.

(** The flags of a comparison give the order of signed bytes. *)
Definition less8 (x y : Z) : bool :=
  let d := s8 x - s8 y in xorb (Z.testbit (u8 (x - y)) 7) ((d <? -128) || (127 <? d)).

Lemma less8_all : forallb (fun x => forallb (fun y => Bool.eqb (less8 x y) (s8 x <? s8 y)) (seqZ 0 256)) (seqZ 0 256) = true.
Proof. vm_compute. reflexivity. Qed.

Lemma less8_ok x y : is_u8 x -> is_u8 y -> less8 x y = (s8 x <? s8 y).
Proof.
  intros Hx Hy. pose proof less8_all as H. rewrite forallb_forall in H.
  specialize (H x ltac:(apply list_elem_of_In, elem_of_seqZ; unfold is_u8 in Hx; lia)). rewrite forallb_forall in H.
  apply Bool.eqb_prop, H, list_elem_of_In, elem_of_seqZ. unfold is_u8 in Hy. lia.
Qed.

Lemma sign_ok x y s :
  is_u8 x -> is_u8 y -> jl s = less8 x y ->
  wp (sign_of_difference) (fun _ s' => s32 (eax s') = (if s8 x <? s8 y then 1 else -1) /\ ram s' = ram s) s.
Proof.
  intros Hx Hy Hj. unfold sign_of_difference. asm1. apply wp_bind, wp_gets. change (jl _) with (jl s).
  rewrite Hj, less8_ok by done. destruct (s8 x <? s8 y); by split.
Qed.

Definition strcmp_loop (fuel : nat) : M cpu bool :=
  loop fuel (do! lodsb in do! scasb in out_if jne false (do! testb_al in back_if jne true)).

Lemma strcmp_round n s (x := byte_at (ram s) (edi s)) (y := byte_at (ram s) (esi s)) (Q : bool -> cpu -> Prop) :
  DF s = false ->
  (forall s', ram s' = ram s -> x <> y -> jl s' = less8 y x -> Q false s') ->
  (forall s', ram s' = ram s -> x = y -> esi s' = u32 (esi s + 1) -> edi s' = u32 (edi s + 1) -> DF s' = false ->
     if y =? 0 then Q true s' else wp (strcmp_loop n) Q s') ->
  wp (strcmp_loop (S n)) Q s.
Proof.
  spell s. intros -> Hne Heq. apply wp_loop. do 2 asm1. apply wp_bind, wp_gets. unfold jne at 1. fields.
  assert (is_u8 x /\ is_u8 y) as [Rx Ry] by (split; apply byte_at_range). fold x y. clearbody x y.
  assert (al (with_al y ra) = y) as Hal by (rewrite al_with_al; by apply u8_id).
  rewrite Hal, u8_eqb by done. destruct (Z.eqb_spec y x) as [E | E]; cbn [negb].
  - asm1. apply wp_gets. unfold jne. fields. rewrite Hal, u8_id by done.
    match goal with |- context [wp (loop n _) Q ?s'] => specialize (Heq s' eq_refl (eq_sym E) eq_refl eq_refl eq_refl) end.
    by destruct (y =? 0).
  - cbn. apply Hne; [done|congruence|]. reflexivity.
Qed.

(** What a string has at its beginning. *)
Lemma cstr_head m a l : cstr m a l -> byte_at m a = default 0 (head l).
Proof. by destruct l; [|intros [? _]]. Qed.

Lemma order_sign l1 l2 : default 0 (head l1) <> default 0 (head l2) ->
  order l1 l2 = if s8 (default 0 (head l2)) <? s8 (default 0 (head l1)) then 1 else -1.
Proof. destruct l1 as [|x l1], l2 as [|y l2]; cbn; try done. by intros H%Z.eqb_neq; rewrite H. Qed.

Lemma strcmp_loop_ok fuel l1 l2 s :
  cstr (ram s) (edi s) l1 -> cstr (ram s) (esi s) l2 -> DF s = false -> (length l1 < fuel)%nat ->
  wp (strcmp_loop fuel) (fun b s' => ram s' = ram s /\ if b then l1 = l2 else
    exists x y, is_u8 x /\ is_u8 y /\ jl s' = less8 y x /\ order l1 l2 = if s8 y <? s8 x then 1 else -1) s.
Proof.
  revert fuel l2 s. induction l1 as [|x l1 IH]; intros [|fuel] l2 s H1 H2 Hdf Hf; try (cbn in Hf; lia);
    pose proof (cstr_head _ _ _ H1) as Hx; pose proof (cstr_head _ _ _ H2) as Hy;
    (apply strcmp_round; [done|intros s' Hm Hne Hj; split; [done|]; eexists _, _; split; [apply byte_at_range|];
      split; [apply byte_at_range|]; split; [exact Hj|]; rewrite Hx, Hy in *; by apply order_sign|intros s' Hm Heq Hsi Hdi Hd]).
  - rewrite Hy. rewrite Hx, Hy in Heq. destruct l2 as [|y l2]; [by split|]. cbn in Heq. by destruct H2 as (_ & ? & _).
  - rewrite Hy. rewrite Hx, Hy in Heq. destruct H1 as (_ & Hx0 & H1). cbn in Heq. destruct l2 as [|y l2]; [done|].
    cbn in Heq. subst y. destruct H2 as (_ & _ & H2). cbn. rewrite (proj2 (Z.eqb_neq x 0) Hx0), Z.eqb_refl.
    eapply wp_mono; [apply (IH fuel l2 s'); rewrite ?Hm, ?Hsi, ?Hdi, ?cstr_u32; try done; cbn in Hf; lia|].
    intros b s2 [Hm2 Hb]. split; [congruence|]. destruct b; [congruence|done].
Qed.

Lemma order_refl l : order l l = 0.
Proof. induction l as [|x l IH]; cbn; [done|]. by rewrite Z.eqb_refl. Qed.

(** [strcmp] gives the order of the strings, of their characters as signed
    numbers: the C library compares them as unsigned ones. *)
Lemma strcmp_ok fuel cs ct l1 l2 s :
  cstr (ram s) cs l1 -> cstr (ram s) ct l2 -> (length l1 < fuel)%nat ->
  wp (strcmp fuel cs ct) (fun r s' => r = order l1 l2 /\ ram s' = ram s) s.
Proof.
  spell s. intros H1 H2 Hf. unfold strcmp. do 3 asm1. apply wp_bind.
  eapply wp_mono; [apply (strcmp_loop_ok fuel l1 l2); try done; by apply cstr_u32|].
  intros [] s1 [Hm Hb]; cbn [ram] in Hm; apply wp_bind.
  - subst l2. rewrite order_refl. apply wp_modify, wp_bind, wp_gets. by split.
  - destruct Hb as (x & y & Rx & Ry & Hj & ->). eapply wp_mono; [by apply (sign_ok y x)|].
    intros [] s2 [E Hm2]. apply wp_bind, wp_gets. split; congruence.
Qed.

(** [memcmp] of no bytes compares what the flags held before: with the zero flag
    clear it says that the places differ. *)
Lemma memcmp_nothing cs ct s :
  exists s', memcmp cs ct 0 s = Ok (if ZF s then 0 else if jl s then 1 else -1) s'.
Proof. unfold memcmp, jl. spell s. destruct fz; [eexists; reflexivity|]. destruct fs, fo; eexists; reflexivity. Qed.

(** ** Copying *)

Fixpoint put_bytes (l : list Z) (a : Z) (m : gmap Z Z) : gmap Z Z :=
  match l with [] => m | c :: l => put_bytes l (a + 1) (put_byte a c m) end.

Lemma put_bytes_u32 l a m : put_bytes l (u32 a) m = put_bytes l a m.
Proof.
  revert a m. induction l as [|c l IH]; intros a m; [done|]. cbn [put_bytes].
  by rewrite <- IH, u32_add, IH, put_byte_u32.
Qed.
Lemma put_bytes_app l1 l2 a m : put_bytes (l1 ++ l2) a m = put_bytes l2 (a + lenz l1) (put_bytes l1 a m).
Proof.
  revert a m. induction l1 as [|c l1 IH]; intros a m; cbn [app put_bytes].
  - change (lenz []) with 0. by rewrite Z.add_0_r.
  - rewrite IH, lenz_cons. f_equal. lia.
Qed.

Lemma cstr_put_ne m a l b v : (forall k, 0 <= k <= lenz l -> u32 b <> u32 (a + k)) -> cstr m a l -> cstr (put_byte b v m) a l.
Proof.
  revert a. induction l as [|c l IH]; intros a Hb; cbn [cstr].
  - change (lenz []) with 0 in Hb. specialize (Hb 0 ltac:(lia)). rewrite Z.add_0_r in Hb. by rewrite byte_put_ne.
  - rewrite lenz_cons in Hb. pose proof (lenz_nonneg l). intros (Hc & Hne & Hl). rewrite byte_put_ne.
    2:{ specialize (Hb 0 ltac:(lia)). by rewrite Z.add_0_r in Hb. }
    split_and!; try done. apply IH; [|done]. intros k Hk. replace (a + 1 + k) with (a + (1 + k)) by lia. apply Hb. lia.
Qed.

Lemma byte_put_bytes_ne l a m b : (forall k, 0 <= k < lenz l -> u32 (a + k) <> u32 b) -> byte_at (put_bytes l a m) b = byte_at m b.
Proof.
  revert a m. induction l as [|c l IH]; intros a m H; [done|]. cbn [put_bytes]. rewrite lenz_cons in H. pose proof (lenz_nonneg l).
  rewrite IH; [apply byte_put_ne; specialize (H 0 ltac:(lia)); by rewrite Z.add_0_r in H|].
  intros k Hk. replace (a + 1 + k) with (a + (1 + k)) by lia. apply H. lia.
Qed.

(** The string is then at the place it was copied to. *)
Lemma cstr_put_bytes l a m :
  Forall (fun c => is_u8 c /\ c <> 0) l -> lenz l < 4294967295 -> cstr (put_bytes (l ++ [0]) a m) a l.
Proof.
  revert a m. induction l as [|c l IH]; intros a m Hl Hn; cbn [app put_bytes cstr].
  - by rewrite byte_put_eq.
  - apply Forall_cons in Hl as [[Hc Hne] Hl]. rewrite lenz_cons in Hn. pose proof (lenz_nonneg l). split; [|split; [done|apply IH; [done|lia]]].
    rewrite byte_put_bytes_ne, byte_put_eq; [by apply u8_id|]. intros k Hk. rewrite lenz_app in Hk. change (lenz [0]) with 1 in Hk. unfold u32. dmlia.
Qed.

(** No character is written over before it is read. *)
Definition read_first (src dest n : Z) : Prop := forall j k, 0 <= j -> j < k -> k <= n -> u32 (dest + j) <> u32 (src + k).

Definition copy_loop (fuel : nat) : M cpu unit :=
  loop fuel (do! lodsb in do! stosb in do! testb_al in back_if jne tt).

Lemma copy_loop_ok fuel l s :
  cstr (ram s) (esi s) l -> DF s = false -> (length l < fuel)%nat -> read_first (esi s) (edi s) (lenz l) ->
  wp (copy_loop fuel) (fun _ s' => ram s' = put_bytes (l ++ [0]) (edi s) (ram s)) s.
Proof.
  revert fuel s. induction l as [|c l IH]; intros [|fuel] s; try (cbn; lia); spell s; intros Hl -> Hf Hr; apply wp_loop; do 3 asm1; apply wp_gets;
    unfold jne at 1; fields; assert (al (with_al (byte_at m rsi) ra) = byte_at m rsi) as Hal by (rewrite al_with_al; apply u8_id, byte_at_range);
    rewrite Hal, u8_id by apply byte_at_range.
  - by rewrite Hl.
  - destruct Hl as (-> & Hne & Hl). rewrite (proj2 (Z.eqb_neq c 0) Hne). cbn [negb]. rewrite lenz_cons in Hr. pose proof (lenz_nonneg l).
    eapply wp_mono; [apply IH; fields; rewrite ?cstr_u32; try done|].
    + apply cstr_put_ne; [|done]. intros k Hk. specialize (Hr 0 (k + 1) ltac:(lia) ltac:(lia) ltac:(lia)).
      rewrite Z.add_0_r in Hr. change (delta _) with 1. by replace (rsi + 1 + k) with (rsi + (k + 1)) by lia.
    + cbn in Hf. lia.
    + intros j k Hj Hjk Hk. rewrite !u32_add. specialize (Hr (j + 1) (k + 1) ltac:(lia) ltac:(lia) ltac:(lia)).
      change (delta _) with 1. replace (rdi + 1 + j) with (rdi + (j + 1)) by lia. by replace (rsi + 1 + k) with (rsi + (k + 1)) by lia.
    + intros [] s2 Hm2. fields. rewrite Hm2. cbn [app put_bytes]. change (delta _) with 1. by rewrite put_bytes_u32.
Qed.

Lemma strcpy_ok fuel dest src l s :
  cstr (ram s) src l -> (length l < fuel)%nat -> read_first src dest (lenz l) ->
  wp (strcpy fuel dest src) (fun r s' => r = dest /\ ram s' = put_bytes (l ++ [0]) dest (ram s)) s.
Proof.
  spell s. intros Hl Hf Hr. unfold strcpy. do 3 asm1. apply wp_bind. eapply wp_mono; [apply (copy_loop_ok fuel l); fields; try done; [by apply cstr_u32|]|].
  - intros j k ? ? ?. rewrite !u32_add. by apply Hr.
  - intros [] s' Hm. fields. rewrite put_bytes_u32 in Hm. by apply wp_ret.
Qed.

(** ** Splitting a string *)

Lemma span_app f l1 l2 : Forall (fun c => f c = true) l1 -> span f (l1 ++ l2) = lenz l1 + span f l2.
Proof. induction 1 as [|c l1 Hc _ IH]; [done|]. cbn [app span]. rewrite Hc, IH, lenz_cons. lia. Qed.
Lemma span_stop (f : Z -> bool) l : match l with [] => True | c :: _ => f c = false end -> span f l = 0.
Proof. destruct l as [|c l]; cbn; [done|]. by intros ->. Qed.
Lemma span_all f l : Forall (fun c => f c = true) l -> span f l = lenz l.
Proof. intros H. rewrite <- (app_nil_r l) at 1. rewrite span_app by done. cbn. lia. Qed.

Lemma cstr_app m a l1 l2 : cstr m a (l1 ++ l2) -> cstr m (a + lenz l1) l2.
Proof.
  revert a. induction l1 as [|c l1 IH]; intros a; cbn [app cstr].
  - change (lenz []) with 0. by rewrite Z.add_0_r.
  - intros (_ & _ & H%IH). rewrite lenz_cons. by replace (a + (1 + lenz l1)) with (a + 1 + lenz l1) by lia.
Qed.
(** A zero byte ends the string before it. *)
Lemma cstr_cut m a l1 l2 : lenz l1 < 4294967296 -> cstr m a (l1 ++ l2) -> cstr (put_byte (a + lenz l1) 0 m) a l1.
Proof.
  intros Hn H. assert (forall b l, lenz l <= lenz l1 -> b + lenz l = a + lenz l1 -> cstr m b (l ++ l2) -> cstr (put_byte (a + lenz l1) 0 m) b l) as Hg.
  { intros b l. revert b. induction l as [|c l IH]; intros b Hl Hb; cbn [app cstr].
    - change (lenz []) with 0 in *. intros _. replace b with (a + lenz l1) by lia. by rewrite byte_put_eq.
    - rewrite lenz_cons in *. pose proof (lenz_nonneg l). intros (Hc & Hne & Hl2). rewrite byte_put_ne by (unfold u32; dmlia).
      split_and!; try done. apply IH; [lia|lia|done]. }
  by apply Hg.
Qed.

(** [cmpb $0] against a byte of memory changes flags only. *)
Lemma test_zero r `{!Setter r} d s :
  wp (cmpb_zero r d) (fun _ s' => ZF s' = (byte_at (ram s) (r s + d) =? 0) /\
    ebx s' = ebx s /\ edx s' = edx s /\ esi s' = esi s /\ DF s' = DF s /\ ram s' = ram s) s.
Proof.
  apply wp_modify. split; [|done]. apply (u8_eqb _ 0); [apply byte_at_range|by vm_compute].
Qed.
Lemma cut_ok s :
  wp (do! movb_zero esi in incl esi) (fun _ s' => ebx s' = ebx s /\ esi s' = u32 (esi s + 1) /\ ram s' = put_byte (esi s) 0 (ram s)) s.
Proof. spell s. by asm1. Qed.
Lemma cstr_nonzero m a l : l <> [] -> cstr m a l -> (byte_at m (u32 a + 0) =? 0) = false.
Proof.
  destruct l as [|c l]; [done|]. intros _ (Hc & Hne & _). rewrite Z.add_0_r, byte_at_u32, Hc. by apply Z.eqb_neq.
Qed.

(** Label 5 and what follows: the token that begins at [ebx] stays. *)
Section strtok.
Context (p : list Z) (ct : Z).
Let in_set (c : Z) : bool := bool_decide (c ∈ p).

(** [l]: delimiters [d], then a token [t], then nothing or a delimiter. *)
Record split_at (l d t r : list Z) : Prop := {
  sp_all : l = d ++ t ++ r;
  sp_delims : Forall (fun c => in_set c = true) d;
  sp_token : Forall (fun c => in_set c = false) t;
  sp_some : t <> [];
  sp_rest : match r with [] => True | c :: _ => in_set c = true end
}.

Lemma token_none fuel l a s :
  cstr (ram s) ct p -> lenz p < 4294967296 -> edx s = lenz p -> DF s = false -> ebx s = 0 ->
  cstr (ram s) a l -> esi s = u32 a -> (length l < fuel)%nat -> Forall (fun c => in_set c = true) l ->
  wp (strtok_token fuel ct) (fun _ s' => ebx s' = 0 /\ ram s' = ram s) s.
Proof.
  intros Hp Hn Hd Hdf Hb Hl Ha Hf Hall. unfold strtok_token. apply wp_bind.
  eapply wp_mono; [apply (set_loop_ok je (fun b => b) p ct l); try done; by rewrite Ha, cstr_u32|]. cbv beta zeta. fold in_set.
  rewrite span_all by done. rewrite Z.ltb_irrefl. intros b s1 (-> & _ & H1 & _ & _ & H2). cbn [negb]. apply wp_ret. split; congruence.
Qed.

Lemma token_kept (Q : unit -> cpu -> Prop) s :
  byte_at (ram s) (ebx s + 0) <> 0 ->
  (forall s', ebx s' = ebx s -> esi s' = esi s -> ram s' = ram s -> Q tt s') ->
  wp (do! cmpb_zero ebx 0 in let! token := gets jne in when (negb token) (xorl_self ebx)) Q s.
Proof.
  intros Hb HQ. apply wp_bind. eapply wp_mono; [apply (test_zero ebx)|]. intros [] s1 (Hz & H1 & _ & H2 & _ & H3).
  apply wp_bind, wp_gets. unfold jne. rewrite Hz, (proj2 (Z.eqb_neq _ _) Hb). by apply wp_ret, HQ.
Qed.

(** From label 3 on, the token at [b]. *)
Definition token_end (fuel : nat) : M cpu unit :=
  let! delimiter := set_loop fuel jne ct in
  let! last :=
    if negb delimiter then ret true else
    do! decl esi in do! cmpb_zero esi 0 in gets je in
  do! (if last : bool then xorl_self esi else do! movb_zero esi in incl esi) in
  do! cmpb_zero ebx 0 in
  let! token := gets jne in
  when (negb token) (xorl_self ebx).

Lemma token_end_ok fuel t r b s :
  cstr (ram s) ct p -> lenz p < 4294967296 -> edx s = lenz p -> DF s = false -> t <> [] ->
  Forall (fun c => in_set c = false) t -> match r with [] => True | c :: _ => in_set c = true end ->
  cstr (ram s) b (t ++ r) -> esi s = u32 b -> ebx s = u32 b -> (length (t ++ r) < fuel)%nat -> lenz t < 4294967295 ->
  wp (token_end fuel) (fun _ s' => ebx s' = u32 b /\
    match r with
    | [] => esi s' = 0 /\ ram s' = ram s
    | _ => esi s' = u32 (b + lenz t + 1) /\ ram s' = put_byte (b + lenz t) 0 (ram s)
    end) s.
Proof.
  intros Hp Hn Hdx Hdf Hne Ht Hr Hl Ha Hb Hf Htl. assert (0 < lenz t) as Ht0 by (destruct t as [|? t]; [done|rewrite lenz_cons; pose proof (lenz_nonneg t); lia]).
  unfold token_end. apply wp_bind.
  eapply wp_mono; [apply (set_loop_ok jne negb p ct (t ++ r)); try done; by rewrite Ha, cstr_u32|]. cbv beta zeta.
  assert (span (fun c => negb (bool_decide (c ∈ p))) (t ++ r) = lenz t) as ->.
  { rewrite span_app by (eapply Forall_impl; [exact Ht|]; intros c Hc; cbv beta; unfold in_set in Hc; by rewrite Hc).
    rewrite span_stop; [lia|]. destruct r; [done|]. unfold in_set in Hr. by rewrite Hr. }
  rewrite lenz_app. intros d s1 (-> & Hsi & Hb1 & Hdx1 & Hdf1 & Hm1).
  assert (forall m, (forall a, a <> u32 (b + lenz t) -> m !! a = ram s !! a) -> byte_at m (u32 b + 0) <> 0) as Hkeep.
  { intros m Hm. rewrite Z.add_0_r, byte_at_u32. destruct t as [|c t]; [done|]. destruct Hl as (Hc & Hc0 & _). unfold byte_at in *.
    rewrite Hm; [by rewrite Hc|]. unfold u32. dmlia. }
  destruct r as [|c r].
  - change (lenz []) with 0. rewrite (proj2 (Z.ltb_ge _ _)) by lia. cbn [negb]. apply wp_bind, wp_ret, wp_bind, wp_modify.
    set (s2 := over esi _ _). assert (ebx s2 = ebx s1 /\ esi s2 = 0 /\ ram s2 = ram s1) as (G1 & G2 & G3) by done. clearbody s2.
    apply token_kept; [rewrite G1, G3, Hm1, Hb1, Hb; by apply Hkeep|]. intros s3 F1 F2 F3. split_and!; congruence.
  - rewrite lenz_cons. pose proof (lenz_nonneg r). rewrite (proj2 (Z.ltb_lt _ _)) by lia. cbn [negb]. rewrite Ha, u32_add in Hsi. do 2 apply wp_bind.
    eapply wp_mono; [apply (decl_esi b (lenz t)); exact Hsi|]. intros [] s2 (Hsi2 & Hb2 & _ & _ & Hm2).
    pose proof (cstr_app _ _ _ _ Hl) as Hlc. apply wp_bind. eapply wp_mono; [apply (test_zero esi)|]. intros [] s3 (Hz3 & Hb3 & _ & Hsi3 & _ & Hm3).
    rewrite Hsi2, Hm2, Hm1, (cstr_nonzero _ _ (c :: r)) in Hz3 by done. apply wp_gets. unfold je. rewrite Hz3.
    apply wp_bind. eapply wp_mono; [apply cut_ok|]. intros [] s4 (Hb4 & Hsi4 & Hm4).
    assert (ram s4 = put_byte (b + lenz t) 0 (ram s)) as Hm by (rewrite Hm4, Hsi3, Hsi2, put_byte_u32; congruence).
    assert (ebx s4 = u32 b) as Hbb by congruence. apply token_kept.
    + rewrite Hm, Hbb. apply Hkeep. intros a Hne'. unfold put_byte. by rewrite lookup_insert_ne.
    + intros s5 G1 G2 G3. split; [congruence|]. rewrite G2, G3. split; [|done]. rewrite Hsi4, Hsi3, Hsi2. apply u32_add.
Qed.

Lemma token_some fuel l d t r a s :
  split_at l d t r -> cstr (ram s) ct p -> lenz p < 4294967296 -> edx s = lenz p -> DF s = false ->
  cstr (ram s) a l -> esi s = u32 a -> (length l < fuel)%nat -> lenz l < 4294967295 ->
  wp (strtok_token fuel ct) (fun _ s' => ebx s' = u32 (a + lenz d) /\
    match r with
    | [] => esi s' = 0 /\ ram s' = ram s
    | _ => esi s' = u32 (a + lenz d + lenz t + 1) /\ ram s' = put_byte (a + lenz d + lenz t) 0 (ram s)
    end) s.
Proof.
  intros [-> Hd Ht Hne Hr] Hp Hn Hdx Hdf Hl Ha Hf Hll. rewrite !lenz_app in *. rewrite !length_app in Hf. pose proof (lenz_nonneg d).
  pose proof (lenz_nonneg r). assert (0 < lenz t) as Htn by (destruct t as [|? t]; [done|rewrite lenz_cons; pose proof (lenz_nonneg t); lia]).
  unfold strtok_token. apply wp_bind.
  eapply wp_mono; [apply (set_loop_ok je (fun b => b) p ct (d ++ t ++ r)); try done; [by rewrite Ha, cstr_u32|rewrite !length_app; lia]|]. cbv beta zeta. fold in_set.
  assert (span in_set (d ++ t ++ r) = lenz d) as ->.
  { rewrite span_app by done. rewrite span_stop; [lia|]. destruct t as [|c t]; [done|]. by apply Forall_cons in Ht as [? _]. }
  rewrite !lenz_app, (proj2 (Z.ltb_lt (lenz d) _)) by lia. intros b s1 (-> & Hsi & Hb1 & Hdx1 & Hdf1 & Hm1). cbn [negb].
  apply wp_bind. eapply wp_mono; [apply (decl_esi a (lenz d)); rewrite Hsi, Ha; apply u32_add|]. intros [] s2 (Hsi2 & _ & Hdx2 & Hdf2 & Hm2).
  apply cstr_app in Hl. apply wp_bind. eapply wp_mono; [apply (test_zero esi)|]. intros [] s3 (Hz3 & _ & Hdx3 & Hsi3 & Hdf3 & Hm3).
  rewrite Hsi2, Hm2, Hm1, (cstr_nonzero _ _ (t ++ r)) in Hz3 by (done || by destruct t).
  apply wp_bind, wp_gets. unfold je at 1. rewrite Hz3. assert (ram s3 = ram s) as Hm by congruence. rewrite <- Hm in Hp, Hl |- *.
  apply wp_bind, wp_modify. set (s4 := over ebx _ _).
  assert (ebx s4 = esi s3 /\ esi s4 = esi s3 /\ edx s4 = edx s3 /\ DF s4 = DF s3 /\ ram s4 = ram s3) as (G1 & G2 & G3 & G4 & G5) by done. clearbody s4.
  rewrite <- G5 in Hp, Hl |- *. apply (token_end_ok fuel t r (a + lenz d)); try done; try congruence; [rewrite length_app; lia|lia].
Qed.
Lemma strtok_from_ok fuel l a s (P : Z -> Z -> gmap Z Z -> Prop) :
  p <> [] -> cstr (ram s) ct p -> lenz p < 4294967295 -> cstr (ram s) a l -> esi s = u32 a ->
  (forall s1, DF s1 = false -> ebx s1 = 0 -> edx s1 = lenz p -> esi s1 = u32 a -> ram s1 = ram s ->
     wp (strtok_token fuel ct) (fun _ s' => is_u32 (ebx s') /\ P (ebx s') (if ebx s' =? 0 then 0 else esi s') (ram s')) s1) ->
  wp (strtok_from fuel ct) (fun _ s' => P (ebx s') (esi s') (ram s')) s.
Proof.
  spell s. intros Hpe Hp Hn Hl Ha Hk. unfold strtok_from. do 4 asm1. apply wp_bind.
  eapply wp_mono; [by apply (count_set_ok p)|]. intros [] s1 [[K1 K2 K3 K4 K5 K6] [Hc Hz]]. fields.
  assert ((lenz p =? 0) = false) as Hp0 by (destruct p; [done|apply Z.eqb_neq; rewrite lenz_cons; pose proof (lenz_nonneg l0); lia]).
  apply wp_bind, wp_gets. unfold je. rewrite Hz, Hp0. apply wp_bind, wp_bind, wp_modify.
  eapply wp_mono; [apply Hk; upd; congruence|]. cbv beta. intros [] s2 [Hr HP]. apply wp_bind, wp_modify, wp_bind, wp_gets.
  assert (jne (flags32 (ebx s2) false s2) = negb (ebx s2 =? 0)) as -> by (change (negb (u32 (ebx s2) =? 0) = negb (ebx s2 =? 0)); by rewrite u32_id).
  destruct (Z.eqb_spec (ebx s2) 0) as [E | E]; cbn [negb].
  - apply wp_modify. change (P (ebx s2) (ebx s2) (ram s2)). by rewrite E in *.
  - by apply wp_ret.
Qed.

Lemma strtok_start fuel token_at s0 s (Q : Z * Z -> cpu -> Prop) (a := if u32 s0 =? 0 then u32 token_at else u32 s0) :
  (a = 0 -> forall s', ram s' = ram s -> Q (0, 0) s') ->
  (a <> 0 -> forall s', ram s' = ram s -> esi s' = a -> wp (strtok_from fuel ct) (fun _ s' => Q (ebx s', esi s') s') s') ->
  wp (strtok fuel token_at s0 ct) Q s.
Proof.
  intros H0 Ha. spell s. unfold strtok. do 3 asm1. apply wp_bind, wp_gets, wp_bind. unfold jne at 1. cbn [ZF]. rewrite u32_idemp.
  assert (forall s', ram s' = m -> esi s' = a -> a <> 0 ->
    wp (strtok_from fuel ct) (fun _ s' => wp (let! res := gets ebx in let! next := gets esi in ret (res, next)) Q s') s') as Hend.
  { intros s' Hm Hsi Hne. eapply wp_mono; [by apply Ha|]. by intros [] s2 HQ. }
  subst a. destruct (Z.eqb_spec (u32 s0) 0) as [E | E]; cbn [negb]; [|by apply Hend].
  asm1. apply wp_bind, wp_gets. unfold je. cbn [ZF]. rewrite u32_idemp. destruct (Z.eqb_spec (u32 token_at) 0) as [E' | E'].
  - apply wp_ret. do 2 apply wp_bind, wp_gets. apply wp_ret. fields. rewrite E, E'. by apply H0.
  - asm1. by apply Hend.
Qed.

(** The string that is split: at [s0], or where the last call left off. *)
Record at_string (fuel : nat) (l : list Z) (a token_at s0 : Z) (s : cpu) : Prop := {
  as_start : a = if u32 s0 =? 0 then u32 token_at else u32 s0;
  as_set : p <> [];
  as_delims : cstr (ram s) ct p;
  as_short : lenz p < 4294967295;
  as_pos : 0 < a;
  as_string : cstr (ram s) a l;
  as_end : a + lenz l < 4294967296;
  as_fuel : (length l < fuel)%nat
}.

Lemma strtok_none fuel l a token_at s0 s :
  at_string fuel l a token_at s0 s -> Forall (fun c => in_set c = true) l ->
  wp (strtok fuel token_at s0 ct) (fun res s' => res = (0, 0) /\ ram s' = ram s) s.
Proof.
  intros [Ea Hpe Hp Hn Ha Hl Hal Hf] Hall. pose proof (lenz_nonneg l). apply strtok_start; rewrite <- Ea; [lia|]. intros _ s1 Hm Hsi.
  rewrite <- Hm in *. assert (a = u32 a) as Ra by (symmetry; apply u32_id; unfold is_u32; lia).
  eapply wp_mono; [apply (strtok_from_ok fuel l a s1 (fun e n m => e = 0 /\ n = 0 /\ m = ram s1)); try done; [congruence|]|].
  - intros s2 Hdf Hb Hdx Hsi2 Hm2. rewrite <- Hm2 in Hp, Hl |- *.
    eapply wp_mono; [by apply (token_none fuel l a); try lia|]. intros _ s3 [-> ->]. done.
  - cbv beta. intros _ s3 (-> & -> & E). done.
Qed.

Lemma strtok_some fuel l a token_at s0 s d t r :
  at_string fuel l a token_at s0 s -> split_at l d t r ->
  wp (strtok fuel token_at s0 ct) (fun res s' => fst res = a + lenz d /\
    if r is [] then snd res = 0 /\ ram s' = ram s
    else snd res = a + lenz d + lenz t + 1 /\ ram s' = put_byte (a + lenz d + lenz t) 0 (ram s)) s.
Proof.
  intros [Ea Hpe Hp Hn Ha Hl Hal Hf] Hs. pose proof (lenz_nonneg d). pose proof (lenz_nonneg t). pose proof (lenz_nonneg r).
  assert (lenz l = lenz d + lenz t + lenz r) as Hlen by (destruct Hs as [-> _ _ _ _]; rewrite !lenz_app; lia).
  assert (forall x, 0 <= x <= lenz l -> u32 (a + x) = a + x) as R by (intros x Hx; apply u32_id; unfold is_u32; lia).
  assert (a = u32 a) as Ra by (symmetry; apply u32_id; unfold is_u32; lia).
  apply strtok_start; rewrite <- Ea; [lia|]. intros _ s1 Hm Hsi. rewrite <- Hm in *.
  eapply wp_mono; [apply (strtok_from_ok fuel l a s1 (fun e n m => e = a + lenz d /\
    if r is [] then n = 0 /\ m = ram s1 else n = a + lenz d + lenz t + 1 /\ m = put_byte (a + lenz d + lenz t) 0 (ram s1))); try done; [congruence|]|].
  - intros s2 Hdf Hb Hdx Hsi2 Hm2. rewrite <- Hm2 in Hp, Hl |- *.
    eapply wp_mono; [by apply (token_some fuel l d t r a); try lia|]. intros _ s3 [-> H3]. cbv beta. rewrite R by lia.
    split; [unfold is_u32; lia|]. rewrite (proj2 (Z.eqb_neq _ 0)) by lia. split; [done|]. destruct r as [|c r]; [done|].
    destruct H3 as [-> ->]. rewrite lenz_cons in *. pose proof (lenz_nonneg r).
    replace (a + lenz d + lenz t + 1) with (a + (lenz d + lenz t + 1)) by lia. by rewrite R by lia.
  - cbv beta. intros _ s3 H3. exact H3.
Qed.
End strtok.

(** C29: one call of [strtok]. On a string of delimiters only it gives the null
    pointer, and will on the next calls. Otherwise the result is the first
    character that is no delimiter; the token that begins there is then a string
    of its own, for which at most one byte was changed, the delimiter after it;
    and the next call continues with what follows that, or, when the string
    ended with the token, finds nothing. *)
Theorem strtok_spec fuel p ct l a token_at s0 s :
  at_string p ct fuel l a token_at s0 s ->
  (Forall (fun c => bool_decide (c ∈ p) = true) l -> exists s', strtok fuel token_at s0 ct s = Ok (0, 0) s' /\ ram s' = ram s) /\
  (forall d t r, split_at p l d t r -> exists next s',
     strtok fuel token_at s0 ct s = Ok (a + lenz d, next) s' /\ cstr (ram s') (a + lenz d) t /\
     match r with
     | [] => next = 0 /\ ram s' = ram s
     | _ :: r => next = a + lenz d + lenz t + 1 /\ cstr (ram s') next r /\ ram s' = put_byte (a + lenz d + lenz t) 0 (ram s)
     end).
Proof.
  intros A. split.
  - intros Hall. destruct (proj1 (wp_ok _ _ _) (strtok_none _ _ _ _ _ _ _ _ A Hall)) as (res & s' & E & -> & Hm). by exists s'.
  - intros d t r Hs. destruct (proj1 (wp_ok _ _ _) (strtok_some _ _ _ _ _ _ _ _ _ _ _ A Hs)) as ([x next] & s' & E & Hx & Hm).
    cbn [fst snd] in *. subst x. exists next, s'. split; [done|]. destruct A as [_ _ _ _ Ha Hl Hal _], Hs as [-> _ _ _ _].
    rewrite !lenz_app in Hal. pose proof (lenz_nonneg d). pose proof (lenz_nonneg t). pose proof (lenz_nonneg r). apply cstr_app in Hl.
    destruct r as [|c r].
    + destruct Hm as [-> Hm]. rewrite app_nil_r in Hl. rewrite Hm. done.
    + destruct Hm as [-> Hm]. rewrite Hm. split; [apply cstr_cut with (l2 := c :: r); [rewrite lenz_cons in *; lia|done]|]. split; [done|]. split; [|done].
      rewrite lenz_cons in Hal. pose proof (lenz_nonneg r). apply cstr_app in Hl as (_ & _ & Hl).
      apply cstr_put_ne; [|done]. intros k Hk. unfold u32. dmlia.
Qed.

(** ** Strings in a concrete memory *)

(** "a,b;;ab" at 100, ",;" at 120 and "b;" at 130. *)
Definition text : list Z := [97; 44; 98; 59; 59; 97; 98].
Definition delimiters : list Z := [44; 59].
Definition needle : list Z := [98; 59].
Definition some_text : cpu :=
  Cpu 0 0 0 0 0 0 false false false false
    (put_bytes (needle ++ [0]) 130 (put_bytes (delimiters ++ [0]) 120 (put_bytes (text ++ [0]) 100 ∅))).

Lemma text_at : cstr (ram some_text) 100 text.
Proof. repeat split; try (intros ?; discriminate); vm_compute; reflexivity. Qed.
Lemma delimiters_at : cstr (ram some_text) 120 delimiters.
Proof. repeat split; try (intros ?; discriminate); vm_compute; reflexivity. Qed.
Lemma needle_at : cstr (ram some_text) 130 needle.
Proof. repeat split; try (intros ?; discriminate); vm_compute; reflexivity. Qed.

(** Seven bytes go two places up, over themselves. *)
Lemma memmove_spec_witness :
  exists s', memmove 102 100 7 some_text = Ok 102 s' /\ DF s' = true /\
    forall a, is_u32 a -> byte_at (ram s') a = if decide (102 <= a < 109) then byte_at (ram some_text) (100 + (a - 102)) else byte_at (ram some_text) a.
Proof. apply (memmove_spec 102 100 7 some_text); lia. Defined.

Lemma strstr_spec_witness :
  exists r s', strstr 20 100 130 some_text = Ok r s' /\
    ((exists l1, first_at needle text l1 /\ r = u32 (100 + lenz l1)) \/ (~ occurs needle text /\ r = 0)).
Proof.
  destruct (strstr_spec 20 100 130 text needle some_text text_at needle_at) as (r & s' & E & _ & H);
    [vm_compute; reflexivity|vm_compute; lia|]. by exists r, s'.
Defined.

(** The first token is "a", and the next call goes on after the comma. *)
Lemma strtok_spec_witness :
  exists s', strtok 20 0 100 120 some_text = Ok (100, 102) s' /\ cstr (ram s') 100 [97].
Proof.
  destruct (strtok_spec 20 delimiters 120 text 100 0 100 some_text) as [_ H].
  - split; [reflexivity|discriminate|exact delimiters_at|reflexivity|reflexivity|exact text_at|reflexivity|vm_compute; lia].
  - destruct (H [] [97] [44; 98; 59; 59; 97; 98]) as (next & s' & E & Ht & Hn & _).
    + split; [reflexivity|constructor|repeat constructor|discriminate|reflexivity].
    + exists s'. rewrite Hn in E. split; [exact E|exact Ht].
Defined.

(** [strncat] of a string shorter than its bound writes a second zero byte,
    after the one that ends the string. *)
Lemma strncat_two_zeros :
  exists s s', strncat 20 100 130 8 s = Ok 100 s' /\ cstr (ram s') 100 (text ++ needle) /\
    byte_at (ram s) 110 = 33 /\ byte_at (ram s') 110 = 0.
Proof.
  exists (some_text <| ram ::= put_byte 110 33 |>). eexists. split; [vm_compute; reflexivity|].
  split; [|split; vm_compute; reflexivity]. repeat split; try (intros ?; discriminate); vm_compute; reflexivity.
Qed.

(** A character above 127 comes before a letter. *)
Lemma strcmp_signed : order [200] [97] = -1 /\ order [100] [97] = 1.
Proof. split; reflexivity. Qed.
