(* ===== verification/Floppy.v ===== *)
(** * The floppy disk driver: kernel/blk_drv/floppy.c, include/linux/fdreg.h

    The driver's state besides the kernel's: the flags of its error handling,
    the data of the current request, the routine the next interrupt goes to,
    and what passed through the ports. [current_DOR], [selected] and the timers
    are in the state of sched.c. The DMA chip moves the data: what it moves is
    a step of its own, [dma_done], to the place it was told. *)

From Stdlib Require Import ZArith Lia.
From stdpp Require Import base numbers list gmap strings.
From S2P Require Import Prelude Memory Task Sched Kernel Blk Ports Motor.

Definition FLOPPY_MAJOR : Z := 2.
Definition FD_STATUS : Z := 0x3f4.
Definition FD_DATA : Z := 0x3f5.
Definition FD_DOR : Z := 0x3f2.
Definition FD_DCR : Z := 0x3f7.
Definition STATUS_BUSY : Z := 0x10.
Definition STATUS_DIR : Z := 0x40.
Definition STATUS_READY : Z := 0x80.
Definition FD_RECALIBRATE : Z := 0x07.
Definition FD_SEEK : Z := 0x0F.
Definition FD_READ : Z := 0xE6.
Definition FD_WRITE : Z := 0xC5.
Definition FD_SENSEI : Z := 0x08.
Definition FD_SPECIFY : Z := 0x03.
Definition DMA_READ : Z := 0x46.
Definition DMA_WRITE : Z := 0x4A.
Definition FD_MAX_ERRORS : Z := 8.
Definition MAX_REPLIES : Z := 7.

Record floppy_struct := FloppyType {
  ft_size : Z; ft_sect : Z; ft_head : Z; ft_track : Z; ft_stretch : Z; ft_gap : Z; ft_rate : Z; ft_spec1 : Z
}.
Definition floppy_type : list floppy_struct := [
  FloppyType 0 0 0 0 0 0x00 0x00 0x00;
  FloppyType 720 9 2 40 0 0x2A 0x02 0xDF;
  FloppyType 2400 15 2 80 0 0x1B 0x00 0xDF;
  FloppyType 720 9 2 40 1 0x2A 0x02 0xDF;
  FloppyType 1440 9 2 80 0 0x2A 0x02 0xDF;
  FloppyType 720 9 2 40 1 0x23 0x01 0xDF;
  FloppyType 1440 9 2 80 0 0x23 0x01 0xDF;
  FloppyType 2880 18 2 80 0 0x1B 0x00 0xCF
].

(** The routines [do_floppy] may point to, and where the DMA chip puts data: in
    the buffer of the request or in [tmp_floppy_area]. *)
Inductive fd_intr := rw_interrupt_p | seek_interrupt_p | recal_interrupt_p | reset_interrupt_p.
Inductive dma_place := in_buffer (p : Z * Z) | in_tmp_area.

(** [floppy] is an index into [floppy_type]. *)
Record fd_kernel := FdKernel {
  fkern : kernel; ftrace : list access; recalibrate : Z; reset : Z; seek : Z; reply_buffer : list Z;
  cur_spec1 : Z; cur_rate : Z; floppy : Z; current_drive : Z; sector : Z; head : Z; track : Z;
  seek_track : Z; current_track : Z; command : Z; do_floppy : option fd_intr;
  tmp_floppy_area : list Z; dma : option dma_place
}.
#[global] Instance fd_kernel_fields : Fields fd_kernel := fun x => FdKernel
  (fkern x) (ftrace x) (recalibrate x) (reset x) (seek x) (reply_buffer x) (cur_spec1 x) (cur_rate x)
  (floppy x) (current_drive x) (sector x) (head x) (track x) (seek_track x) (current_track x) (command x)
  (do_floppy x) (tmp_floppy_area x) (dma x).
#[global] Instance set_fkern : Setter fkern := ltac:(solve_setter).
#[global] Instance set_ftrace : Setter ftrace := ltac:(solve_setter).
#[global] Instance set_recalibrate : Setter recalibrate := ltac:(solve_setter).
#[global] Instance set_reset : Setter reset := ltac:(solve_setter).
#[global] Instance set_seek : Setter seek := ltac:(solve_setter).
#[global] Instance set_reply_buffer : Setter reply_buffer := ltac:(solve_setter).
#[global] Instance set_cur_spec1 : Setter cur_spec1 := ltac:(solve_setter).
#[global] Instance set_cur_rate : Setter cur_rate := ltac:(solve_setter).
#[global] Instance set_floppy : Setter floppy := ltac:(solve_setter).
#[global] Instance set_current_drive : Setter current_drive := ltac:(solve_setter).
#[global] Instance set_sector : Setter sector := ltac:(solve_setter).
#[global] Instance set_head : Setter head := ltac:(solve_setter).
#[global] Instance set_track : Setter track := ltac:(solve_setter).
#[global] Instance set_seek_track : Setter seek_track := ltac:(solve_setter).
#[global] Instance set_current_track : Setter current_track := ltac:(solve_setter).
#[global] Instance set_command : Setter command := ltac:(solve_setter).
#[global] Instance set_do_floppy : Setter do_floppy := ltac:(solve_setter).
#[global] Instance set_tmp_floppy_area : Setter tmp_floppy_area := ltac:(solve_setter).
#[global] Instance set_dma : Setter dma := ltac:(solve_setter).

(** The addresses of the data of buffers, which [buffer_init] gives out, and of
    [tmp_floppy_area], below 1 MB. *)
Class Placement := { data_address : Z * Z -> Z; tmp_area_address : Z }.

Definition on_kernel {A} (m : M kernel A) : M fd_kernel A := zoom fkern (fun k s => s <| fkern := k |>) m.
Definition on_ports {A} (m : M (list access) A) : M fd_kernel A := zoom ftrace (fun t s => s <| ftrace := t |>) m.

Section floppy.
Context {E : Env} {H : Machine} {P : Placement}.

Definition fd_in (port : Z) : M fd_kernel Z := on_ports (in_b port).
Definition fd_outb (v port : Z) : M fd_kernel unit := on_ports (out_b v port).

(** [CURRENT_REQ->...]: a fault when the queue is empty. *)
Definition fd_current : M fd_kernel (Z * request_t) :=
  on_kernel (let! d := get_dev FLOPPY_MAJOR in let! cur := valid (current_request d) in
             let! r := get_req cur in ret (cur, r)).
Definition CURRENT_DEV : M fd_kernel Z := let! '(_, r) := fd_current in ret (Z.land (r_dev r) 3).
(** [end_request], with [DEVICE_OFF]. *)
Definition fd_end_request (uptodate : Z) : M fd_kernel unit :=
  let! nr := CURRENT_DEV in
  do! on_kernel (on_sched (floppy_off nr)) in
  on_kernel (end_request FLOPPY_MAJOR uptodate).

Definition floppy_data : M fd_kernel floppy_struct :=
  let! i := gets floppy in valid (getz floppy_type i).
Definition dor : M fd_kernel Z := on_kernel (on_sched (gets current_DOR)).

(** ** The DMA chip *)

Definition setup_DMA : M fd_kernel unit :=
  let! '(_, r) := fd_current in
  let! p := valid (r_buffer r) in
  let! cmd := gets command in
  let far := 0x100000 <=? data_address p in
  do! when (far && (cmd =? FD_WRITE))
    (let! data := on_kernel (load_buffer p BLOCK_SIZE) in modify (fun s => s <| tmp_floppy_area := data |>)) in
  let addr := if far then tmp_area_address else data_address p in
  do! modify (fun s => s <| dma := Some (if far then in_tmp_area else in_buffer p) |>) in
  let mode := if cmd =? FD_READ then DMA_READ else DMA_WRITE in
  on_ports (outs_b [(6, 10); (mode, 12); (mode, 11); (addr, 4); (Z.shiftr addr 8, 4); (Z.shiftr addr 16, 0x81);
                    (0xff, 5); (3, 5); (2, 10)]).

(** What the chip read from the disk is in memory before the interrupt. *)
Definition dma_done (data : list Z) : M fd_kernel unit :=
  let! o := gets dma in
  match o with
  | Some (in_buffer p) => on_kernel (store_buffer p data)
  | Some in_tmp_area => modify (fun s => s <| tmp_floppy_area := data |>)
  | None => ret tt
  end.

(** ** The controller *)

(** The rest of the 10000 times the status is asked for. *)
Fixpoint output_loop (n : nat) (byte : Z) : M fd_kernel unit :=
  match n with
  | O => modify (fun s => s <| reset := 1 |>)
  | Datatypes.S n =>
    let! v := fd_in FD_STATUS in
    if Z.land v (Z.lor STATUS_READY STATUS_DIR) =? STATUS_READY then fd_outb byte FD_DATA else output_loop n byte
  end.
Definition output_byte (byte : Z) : M fd_kernel unit :=
  let! r := gets reset in
  if istrue r then ret tt else output_loop (Z.to_nat 10000) byte.
Fixpoint output_bytes (l : list Z) : M fd_kernel unit :=
  match l with [] => ret tt | b :: l => do! output_byte b in output_bytes l end.

Definition no_result : M fd_kernel Z := do! modify (fun s => s <| reset := 1 |>) in ret (-1).
Fixpoint result_loop (n : nat) (i : Z) : M fd_kernel Z :=
  match n with
  | O => no_result
  | Datatypes.S n =>
    let! v := fd_in FD_STATUS in
    let status := Z.land v (Z.lor STATUS_DIR (Z.lor STATUS_READY STATUS_BUSY)) in
    if status =? STATUS_READY then ret i else
    if status =? Z.lor STATUS_DIR (Z.lor STATUS_READY STATUS_BUSY) then
      if MAX_REPLIES <=? i then no_result else
      let! b := fd_in FD_DATA in
      let! l := gets reply_buffer in
      let! _ := valid (getz l i) in
      do! modify (fun s => s <| reply_buffer := setz l i b |>) in
      result_loop n (i + 1)
    else result_loop n i
  end.
Definition result : M fd_kernel Z :=
  let! r := gets reset in
  if istrue r then ret (-1) else result_loop (Z.to_nat 10000) 0.
Definition reply (i : Z) : M fd_kernel Z := let! l := gets reply_buffer in valid (getz l i).

Definition bad_flp_intr : M fd_kernel unit :=
  let! '(cur, r) := fd_current in
  do! on_kernel (set_req cur (fun r => r <| r_errors ::= fun e => s32 (e + 1) |>)) in
  let! '(_, r) := fd_current in
  do! when (FD_MAX_ERRORS <? r_errors r)
    (let! d := gets current_drive in
     do! on_kernel (floppy_deselect d) in
     fd_end_request 0) in
  let! '(_, r) := fd_current in
  modify (fun s => if FD_MAX_ERRORS ÷ 2 <? r_errors r then s <| reset := 1 |> else s <| recalibrate := 1 |>).

(** reset is done by pulling bit 2 of DOR low for a while. *)
Definition reset_floppy : M fd_kernel unit :=
  do! modify (fun s => s <| reset := 0 |> <| cur_spec1 := -1 |> <| cur_rate := -1 |> <| recalibrate := 1 |>
                         <| do_floppy := Some reset_interrupt_p |>) in
  let! d := dor in
  do! fd_outb (Z.land d (Z.lnot 4)) FD_DOR in
  fd_outb d FD_DOR.

(** The routines a timer calls, as sched.c knows them. *)
Definition transfer_fn : Z := 2.
Definition floppy_on_interrupt_fn : Z := 3.

(** [add_timer] calls a routine whose time has come at once. *)
Definition fd_add_timer (ticks fn : Z) (routine : M fd_kernel unit) : M fd_kernel unit :=
  if ticks <=? 0 then routine else on_kernel (on_sched (add_timer ticks fn)).

(** ** Starting a request

    [do_fd_request] is called again by what it calls; [again] is that call. *)
Section again.
Variable again : M fd_kernel unit.

Definition request_if_reset : M fd_kernel unit := let! r := gets reset in when (istrue r) again.

(** [head << 2 | current_drive] *)
Definition drive_byte : M fd_kernel Z :=
  let! h := gets head in let! d := gets current_drive in ret (Z.lor (Z.shiftl h 2) d).

Definition setup_rw_floppy : M fd_kernel unit :=
  do! setup_DMA in
  do! modify (fun s => s <| do_floppy := Some rw_interrupt_p |>) in
  let! cmd := gets command in
  let! d := drive_byte in
  let! t := gets track in
  let! h := gets head in
  let! sec := gets sector in
  let! ft := floppy_data in
  do! output_bytes [cmd; d; t; h; sec; 2; ft_sect ft; ft_gap ft; 0xFF] in
  request_if_reset.

Definition transfer : M fd_kernel unit :=
  let! ft := floppy_data in
  let! spec := gets cur_spec1 in
  do! when (negb (spec =? ft_spec1 ft))
    (do! modify (fun s => s <| cur_spec1 := ft_spec1 ft |>) in
     output_bytes [FD_SPECIFY; ft_spec1 ft; 6]) in
  let! rate := gets cur_rate in
  do! when (negb (rate =? ft_rate ft))
    (do! modify (fun s => s <| cur_rate := ft_rate ft |>) in
     fd_outb (ft_rate ft) FD_DCR) in
  let! r := gets reset in
  if istrue r then again else
  let! sk := gets seek in
  if negb (istrue sk) then setup_rw_floppy else
  do! modify (fun s => s <| do_floppy := Some seek_interrupt_p |>) in
  let! st := gets seek_track in
  let! d := drive_byte in
  do! (if istrue st then output_bytes [FD_SEEK; d; st] else output_bytes [FD_RECALIBRATE; d]) in
  request_if_reset.

Definition recalibrate_floppy : M fd_kernel unit :=
  do! modify (fun s => s <| recalibrate := 0 |> <| current_track := 0 |> <| do_floppy := Some recal_interrupt_p |>) in
  do! output_byte FD_RECALIBRATE in
  let! d := CURRENT_DEV in
  do! modify (fun s => s <| current_drive := d |>) in
  let! b := drive_byte in
  do! output_byte b in
  request_if_reset.

Definition floppy_on_interrupt : M fd_kernel unit :=
  do! on_kernel (on_sched (modify (fun s => s <| selected := 1 |>))) in
  let! drive := gets current_drive in
  let! d := dor in
  if negb (drive =? Z.land d 3) then
    let d := Z.lor (Z.land d 0xFC) drive in
    do! on_kernel (on_sched (modify (fun s => s <| current_DOR := d |>))) in
    do! fd_outb d FD_DOR in
    fd_add_timer 2 transfer_fn transfer
  else transfer.

(** Sector, head and track of a block number, and the track to seek. *)
Definition fd_chs (ft : floppy_struct) (block : Z) : M fd_kernel (Z * Z * Z) :=
  if (ft_sect ft =? 0) || (ft_head ft =? 0) then fault else
  let b := block / ft_sect ft in
  ret (u8 (u8 (block mod ft_sect ft) + 1), u8 (b mod ft_head ft), u8 (b / ft_head ft)).

(** From [repeat], for the request [r]: true when it is started. *)
Definition start_request (r : request_t) : M fd_kernel bool :=
  do! modify (fun s => s <| floppy := Z.shiftr (MINOR (r_dev r)) 2 |>) in
  let! drive := gets current_drive in
  do! when (negb (drive =? Z.land (r_dev r) 3)) (modify (fun s => s <| seek := 1 |>)) in
  do! modify (fun s => s <| current_drive := Z.land (r_dev r) 3 |>) in
  let block := r_start_sector r in
  let! ft := floppy_data in
  if ft_size ft <? u32 (block + 2) then do! fd_end_request 0 in ret false else
  let! '(sec, h, t) := fd_chs ft block in
  let st := u8 (Z.shiftl t (ft_stretch ft)) in
  do! modify (fun s => s <| sector := sec |> <| head := h |> <| track := t |> <| seek_track := st |>) in
  let! cur := gets current_track in
  do! when (negb (st =? cur)) (modify (fun s => s <| seek := 1 |>)) in
  do! (if r_cmd r =? READ then modify (fun s => s <| command := FD_READ |>)
       else if r_cmd r =? WRITE then modify (fun s => s <| command := FD_WRITE |>)
       else panic "do_fd_request: unknown command") in
  ret true.

Fixpoint fd_request_loop (fuel : nat) : M fd_kernel unit :=
  match fuel with
  | O => Prelude.blocked
  | Datatypes.S fuel =>
    let! o := on_kernel (check_request FLOPPY_MAJOR) in
    match o with
    | None => ret tt
    | Some r =>
      let! started := start_request r in
      if started : bool then
        let! drive := gets current_drive in
        let! ticks := on_kernel (on_sched (ticks_to_floppy_on drive)) in
        fd_add_timer ticks floppy_on_interrupt_fn floppy_on_interrupt
      else fd_request_loop fuel
    end
  end.

(** A queue has at most [NR_REQUEST] entries, so one more round is enough. *)
Definition fd_request_body : M fd_kernel unit :=
  do! modify (fun s => s <| seek := 0 |>) in
  let! r := gets reset in
  if istrue r then reset_floppy else
  let! rc := gets recalibrate in
  if istrue rc then recalibrate_floppy else
  fd_request_loop (Z.to_nat (NR_REQUEST + 1)).
End again.

(** A call from inside a call has [reset] set, and makes no third one. *)
Fixpoint do_fd_request_n (depth : nat) : M fd_kernel unit :=
  match depth with O => Prelude.blocked | Datatypes.S n => fd_request_body (do_fd_request_n n) end.
Definition do_fd_request : M fd_kernel unit := do_fd_request_n 2.

(** ** Interrupts *)

Definition rw_interrupt : M fd_kernel unit :=
  let! n := result in
  let! st0 := reply 0 in let! st1 := reply 1 in let! st2 := reply 2 in
  if negb (n =? 7) || istrue (Z.land st0 0xf8) || istrue (Z.land st1 0xbf) || istrue (Z.land st2 0x73) then
    do! (if istrue (Z.land st1 0x02) then
           let! d := gets current_drive in
           do! on_kernel (floppy_deselect d) in
           fd_end_request 0
         else bad_flp_intr) in
    do_fd_request
  else
    let! cmd := gets command in
    do! when (cmd =? FD_READ)
      (let! '(_, r) := fd_current in
       match r_buffer r with
       | Some p => when (0x100000 <=? data_address p) (let! data := gets tmp_floppy_area in on_kernel (store_buffer p data))
       | None => ret tt
       end) in
    let! d := gets current_drive in
    do! on_kernel (floppy_deselect d) in
    do! fd_end_request 1 in
    do_fd_request.

Definition seek_interrupt : M fd_kernel unit :=
  do! output_byte FD_SENSEI in
  let! n := result in
  let! st0 := reply 0 in let! st1 := reply 1 in
  let! st := gets seek_track in
  if negb (n =? 2) || negb (Z.land st0 0xF8 =? 0x20) || negb (st1 =? st) then
    do! bad_flp_intr in do_fd_request
  else
    do! modify (fun s => s <| current_track := st1 |>) in
    setup_rw_floppy do_fd_request.

(** [result() != 2 || (ST0 & 0xE0) == 0x60] after a sense command. *)
Definition sense_failed : M fd_kernel bool :=
  do! output_byte FD_SENSEI in
  let! n := result in
  let! st0 := reply 0 in
  ret (negb (n =? 2) || (Z.land st0 0xE0 =? 0x60)).

Definition recal_interrupt : M fd_kernel unit :=
  let! failed := sense_failed in
  do! modify (fun s => if failed : bool then s <| reset := 1 |> else s <| recalibrate := 0 |>) in
  do_fd_request.

Definition unexpected_floppy_interrupt : M fd_kernel unit :=
  let! failed := sense_failed in
  modify (fun s => if failed : bool then s <| reset := 1 |> else s <| recalibrate := 1 |>).

Definition reset_interrupt : M fd_kernel unit :=
  do! output_byte FD_SENSEI in
  let! _ := result in
  do! output_byte FD_SPECIFY in
  let! spec := gets cur_spec1 in
  do! output_byte spec in
  do! output_byte 6 in
  do_fd_request.

(** [floppy_interrupt] of kernel/system_call.s. *)
Definition floppy_interrupt : M fd_kernel unit :=
  do! fd_outb 0x20 0x20 in
  let! intr := gets do_floppy in
  do! modify (fun s => s <| do_floppy := None |>) in
  match intr with
  | Some rw_interrupt_p => rw_interrupt
  | Some seek_interrupt_p => seek_interrupt
  | Some recal_interrupt_p => recal_interrupt
  | Some reset_interrupt_p => reset_interrupt
  | None => unexpected_floppy_interrupt
  end.

(** The clock calls the routines whose time has come. *)
Definition timer_routine (fn : Z) : M fd_kernel unit :=
  if fn =? transfer_fn then transfer do_fd_request
  else if fn =? floppy_on_interrupt_fn then floppy_on_interrupt do_fd_request
  else ret tt.

Definition floppy_init : M fd_kernel unit :=
  do! on_kernel (set_dev FLOPPY_MAJOR (fun d => d <| request_fn := interrupt_driver |>)) in
  let! v := fd_in 0x21 in
  fd_outb (Z.land v 0xbf) 0x21.
End floppy.
