(* ===== verification/FloppyProofs.v ===== *)
(** * Requests to the floppy end, and name the right sectors *)

From Stdlib Require Import ZArith Lia.
From stdpp Require Import base numbers list gmap strings.
From S2P Require Import Prelude Memory Task Sched Kernel Blk CacheExamples Motor Ports Floppy.

(** ** Sectors

    A request is for the two sectors of a block. The controller goes on to the
    other head at the end of a track, and no further. *)

Definition chs_ok (ft : floppy_struct) (k : Z) : bool :=
  let b := 2 * k in
  match b / ft_sect ft, u8 (u8 (b mod ft_sect ft) + 1) with
  | q, sec =>
    let h := u8 (q mod ft_head ft) in let t := u8 (q / ft_head ft) in
    (1 <=? sec) && (sec <=? ft_sect ft) && (h <? ft_head ft) && (t <? ft_track ft) &&
    ((t * ft_head ft + h) * ft_sect ft + (sec - 1) =? b) &&
    (((b + 1) / ft_sect ft / ft_head ft =? t)) && (u8 (Z.shiftl t (ft_stretch ft)) =? t * 2 ^ ft_stretch ft)
  end.

Lemma chs_all : forallb (fun ft => forallb (chs_ok ft) (seqZ 0 (ft_size ft / 2))) floppy_type = true.
Proof. vm_compute. reflexivity. Qed.

Definition at_sector (ft : floppy_struct) (t h sec : Z) : Z := (t * ft_head ft + h) * ft_sect ft + (sec - 1).

(** The sector, head and track of a block, for every kind of disk the
    driver knows and every block the disk has: they are in range although they
    are computed as bytes, they name the block's first sector, the track to
    seek is the track, doubled where the drive needs it, and the second sector
    of the block is on the same track, under this head or the next one. *)
Theorem fd_chs_spec ft k s :
  ft ∈ floppy_type -> 0 <= k -> 2 * k + 2 <= ft_size ft ->
  exists sec h t, fd_chs ft (2 * k) s = Ok (sec, h, t) s /\
    1 <= sec <= ft_sect ft /\ 0 <= h < ft_head ft /\ 0 <= t < ft_track ft /\
    at_sector ft t h sec = 2 * k /\ (2 * k + 1) / ft_sect ft / ft_head ft = t /\
    u8 (Z.shiftl t (ft_stretch ft)) = t * 2 ^ ft_stretch ft.
Proof.
  intros Hft Hk Hs. pose proof chs_all as Hall. rewrite forallb_forall in Hall.
  assert (chs_ok ft k = true) as Hc.
  { apply list_elem_of_In in Hft. specialize (Hall _ Hft). rewrite forallb_forall in Hall.
    apply Hall, list_elem_of_In, elem_of_seqZ. dmlia. }
  assert ((ft_sect ft =? 0) || (ft_head ft =? 0) = false) as Hz.
  { destruct (orb_false_iff (ft_sect ft =? 0) (ft_head ft =? 0)) as [_ ?]. unfold floppy_type in Hft. set_unfold.
    destruct_or! Hft; subst ft; cbn in *; (done || lia). }
  unfold fd_chs. rewrite Hz. unfold chs_ok in Hc. unfold at_sector. eexists _, _, _. split; [reflexivity|].
  repeat (apply andb_true_iff in Hc as [Hc ?]). breflect. pose proof (u8_range (2 * k / ft_sect ft mod ft_head ft)).
  pose proof (u8_range (2 * k / ft_sect ft / ft_head ft)). unfold is_u8 in *. split_and!; lia || congruence.
Qed.

(** ** Nothing waits for ever *)

(** The run is no endless loop: it returns, panics or faults. *)
Definition ends {S A} (m : M S A) (s : S) : Prop := match m s with Blocked _ => False | _ => True end.
(** It ends, and [Q] holds of what it returns. *)
Definition ends_with {S A} (m : M S A) (Q : A -> S -> Prop) (s : S) : Prop :=
  match m s with Ok a s' => Q a s' | Blocked _ => False | _ => True end.

Lemma ends_bind {S A B} (m : M S A) (k : A -> M S B) (Q : B -> S -> Prop) s :
  ends_with m (fun a s' => ends_with (k a) Q s') s -> ends_with (bind m k) Q s.
Proof. unfold ends_with, bind. by destruct (m s). Qed.
Lemma ends_mono {S A} (m : M S A) (Q Q' : A -> S -> Prop) s :
  ends_with m Q s -> (forall a s', Q a s' -> Q' a s') -> ends_with m Q' s.
Proof. unfold ends_with. intros H HQ. destruct (m s); auto. Qed.
Lemma ends_ret {S A} (a : A) (Q : A -> S -> Prop) s : Q a s -> ends_with (ret a) Q s.
Proof. done. Qed.
Lemma ends_modify {S} (f : S -> S) (Q : unit -> S -> Prop) s : Q tt (f s) -> ends_with (modify f) Q s.
Proof. done. Qed.
Lemma ends_gets {S A} (f : S -> A) (Q : A -> S -> Prop) s : Q (f s) s -> ends_with (gets f) Q s.
Proof. done. Qed.
Lemma ends_valid {S A} (o : option A) (Q : A -> S -> Prop) s : (forall a, o = Some a -> Q a s) -> ends_with (valid o) Q s.
Proof. destruct o; unfold ends_with; cbn; auto. Qed.
Lemma ends_when {S} (b : bool) (m : M S unit) (Q : unit -> S -> Prop) s :
  (b = true -> ends_with m Q s) -> (b = false -> Q tt s) -> ends_with (when b m) Q s.
Proof. destruct b; intros; [auto|by apply ends_ret; auto]. Qed.
Lemma ends_zoom {S T A} (get : S -> T) (put : T -> S -> S) (m : M T A) (Q : A -> S -> Prop) s :
  ends_with m (fun a t => Q a (put t s)) (get s) -> ends_with (zoom get put m) Q s.
Proof. unfold ends_with, zoom. by destruct (m (get s)). Qed.

(** Routines that end from every state. *)
Definition always {S A} (m : M S A) : Prop := forall s, ends m s.

Lemma always_bind {S A B} (m : M S A) (k : A -> M S B) : always m -> (forall a, always (k a)) -> always (bind m k).
Proof. intros Hm Hk s. specialize (Hm s). unfold ends, bind in *. destruct (m s); try done. apply Hk. Qed.
Lemma always_ret {S A} (a : A) : always (S := S) (ret a).
Proof. done. Qed.
Lemma always_gets {S A} (f : S -> A) : always (gets f).
Proof. done. Qed.
Lemma always_modify {S} (f : S -> S) : always (modify f).
Proof. done. Qed.
Lemma always_panic {S A} msg : always (S := S) (A := A) (panic msg).
Proof. done. Qed.
Lemma always_fault {S A} : always (S := S) (A := A) fault.
Proof. done. Qed.
Lemma always_valid {S A} (o : option A) : always (S := S) (valid o).
Proof. by destruct o. Qed.
Lemma always_when {S} b (m : M S unit) : always m -> always (when b m).
Proof. by destruct b. Qed.
Lemma always_if {S A} (b : bool) (m m' : M S A) : always m -> always m' -> always (if b then m else m').
Proof. by destruct b. Qed.
Lemma always_zoom {S T A} (get : S -> T) (put : T -> S -> S) (m : M T A) : always m -> always (zoom get put m).
Proof. intros Hm s. specialize (Hm (get s)). unfold ends, zoom in *. by destruct (m (get s)). Qed.
Lemma always_in_b `{Machine} port : always (in_b port).
Proof. done. Qed.
Lemma always_outs_b l : always (outs_b l).
Proof. intros t. unfold ends. by rewrite outs_b_ok. Qed.
Lemma always_with {S A} (m : M S A) s : always m -> ends_with m (fun _ _ => True) s.
Proof. intros Hm. exact (Hm s). Qed.
Create HintDb ends.
#[local] Hint Resolve always_ret always_gets always_modify always_panic always_fault always_valid always_in_b always_outs_b : ends.

(** Goes through a routine. *)
Ltac always :=
  repeat first
    [ solve [auto with ends nocore]
    | apply always_bind; [|intros ?] | apply always_when | apply always_if | apply always_zoom
    | match goal with |- always (match ?x with _ => _ end) => destruct x end ].

Section fd.
Context {E : Env} {H : Machine} {P : Placement}.

Lemma always_fd_in port : always (fd_in port).
Proof. unfold fd_in, on_ports. always. Qed.
Lemma always_fd_outb v port : always (fd_outb v port).
Proof. unfold fd_outb, on_ports. apply always_zoom. done. Qed.
#[local] Hint Resolve always_fd_in always_fd_outb : ends.
Lemma always_get_req i : always (get_req i).
Proof. unfold get_req. always. Qed.
Lemma always_set_req i f : always (set_req i f).
Proof. unfold set_req, get_req. always. Qed.
Lemma always_set_bh i f : always (set_bh i f).
Proof. unfold set_bh, get_bh. always. Qed.
Lemma always_get_dev m : always (get_dev m).
Proof. unfold get_dev. always. Qed.
Lemma always_set_dev m f : always (set_dev m f).
Proof. unfold set_dev, get_dev. always. Qed.
#[local] Hint Resolve always_get_req always_set_req always_set_bh always_get_dev always_set_dev : ends.
Lemma always_end_request m u : always (end_request m u).
Proof. unfold end_request, unlock_buffer, wake_up. always. Qed.
Lemma always_load_buffer p n : always (load_buffer p n).
Proof. unfold load_buffer, get_bh. always. Qed.
Lemma always_store_buffer p d : always (store_buffer p d).
Proof. unfold store_buffer, get_bh. always. Qed.
Lemma always_floppy_off nr : always (floppy_off nr).
Proof. unfold floppy_off. always. Qed.
Lemma always_check_request m : always (check_request m).
Proof. unfold check_request, buffer_locked, get_bh. always. Qed.
#[local] Hint Resolve always_end_request always_load_buffer always_store_buffer always_floppy_off always_check_request : ends.
Lemma always_fd_current : always fd_current.
Proof. unfold fd_current, on_kernel. always. Qed.
#[local] Hint Resolve always_fd_current : ends.
Lemma always_CURRENT_DEV : always CURRENT_DEV.
Proof. unfold CURRENT_DEV. always. Qed.
#[local] Hint Resolve always_CURRENT_DEV : ends.
Lemma always_fd_end_request u : always (fd_end_request u).
Proof. unfold fd_end_request, on_kernel, on_sched. always. Qed.
Lemma always_floppy_data : always floppy_data.
Proof. unfold floppy_data. always. Qed.
Lemma always_setup_DMA : always setup_DMA.
Proof. unfold setup_DMA, on_kernel, on_ports. always. Qed.
Lemma always_output_loop n byte : always (output_loop n byte).
Proof. induction n as [|n IH]; cbn [output_loop]; always. Qed.
#[local] Hint Resolve always_output_loop : ends.
Lemma always_output_byte byte : always (output_byte byte).
Proof. unfold output_byte. always. Qed.
#[local] Hint Resolve always_output_byte : ends.
Lemma always_output_bytes l : always (output_bytes l).
Proof. induction l as [|b l IH]; cbn [output_bytes]; always. Qed.
#[local] Hint Resolve always_fd_end_request always_floppy_data always_setup_DMA always_output_bytes : ends.
Lemma always_result_loop n i : always (result_loop n i).
Proof. revert i. induction n as [|n IH]; intros i; cbn [result_loop]; unfold no_result; always. Qed.
#[local] Hint Resolve always_result_loop : ends.
Lemma always_result : always result.
Proof. unfold result. always. Qed.
Lemma always_reply i : always (reply i).
Proof. unfold reply. always. Qed.
Lemma always_dor : always dor.
Proof. unfold dor, on_kernel, on_sched. always. Qed.
#[local] Hint Resolve always_result always_reply always_dor : ends.
Lemma always_reset_floppy : always reset_floppy.
Proof. unfold reset_floppy. always. Qed.
Lemma always_add_timer j fn : always (add_timer j fn).
Proof. unfold add_timer. always. Qed.
Lemma always_ticks nr : always (ticks_to_floppy_on nr).
Proof. unfold ticks_to_floppy_on. cbv zeta. always. Qed.
#[local] Hint Resolve always_reset_floppy always_add_timer always_ticks : ends.

(** A call of [do_fd_request] from inside: it ends whenever [reset] is set. *)
Definition ends_on_reset (again : M fd_kernel unit) : Prop := forall s, reset s <> 0 -> ends again s.

Section again.
Context (again : M fd_kernel unit) (Hagain : ends_on_reset again).

Lemma always_request_if_reset : always (request_if_reset again).
Proof.
  intros s. unfold request_if_reset, ends, bind, gets, when, istrue. destruct (Z.eqb_spec (reset s) 0) as [|Hr]; [done|].
  by apply Hagain.
Qed.
#[local] Hint Resolve always_request_if_reset : ends.
Lemma always_drive_byte : always drive_byte.
Proof. unfold drive_byte. always. Qed.
#[local] Hint Resolve always_drive_byte : ends.
Lemma always_setup_rw_floppy : always (setup_rw_floppy again).
Proof. unfold setup_rw_floppy. always. Qed.
#[local] Hint Resolve always_setup_rw_floppy : ends.

Lemma always_if_reset (m : M fd_kernel unit) : always m -> always (let! r := gets reset in if istrue r then again else m).
Proof.
  intros Hm s. unfold ends, bind, gets, istrue. destruct (Z.eqb_spec (reset s) 0) as [|Hr]; [apply Hm|by apply Hagain].
Qed.
Lemma always_transfer : always (transfer again).
Proof.
  unfold transfer. do 4 (apply always_bind; [always|intros ?]). apply always_bind; [always|intros []]. apply always_if_reset. always.
Qed.
#[local] Hint Resolve always_transfer : ends.
Lemma always_recalibrate_floppy : always (recalibrate_floppy again).
Proof. unfold recalibrate_floppy. always. Qed.
Lemma always_floppy_on_interrupt : always (floppy_on_interrupt again).
Proof. unfold floppy_on_interrupt, fd_add_timer, on_kernel, on_sched. always. Qed.
#[local] Hint Resolve always_recalibrate_floppy always_floppy_on_interrupt : ends.

(** ** The queue of requests *)

(** The head of the queue, and the list of the [next] pointers. *)
Definition queue_head (k : kernel) : option Z := getz (blk_dev k) FLOPPY_MAJOR ≫= current_request.
Fixpoint ends_in (n : nat) (l : list request_t) (cur : option Z) : Prop :=
  match cur with
  | None => True
  | Some c => match n with O => False | Datatypes.S n => match getz l c with Some r => ends_in n l (r_next r) | None => True end end
  end.
Definition queue_ends (n : nat) (s : fd_kernel) : Prop := ends_in n (request (fkern s)) (queue_head (fkern s)).

Lemma ends_in_next n l l' cur : r_next <$> l' = r_next <$> l -> ends_in n l cur -> ends_in n l' cur.
Proof.
  intros Hl. revert cur. induction n as [|n IH]; intros [c|]; cbn; try done. intros Hc.
  assert (r_next <$> getz l' c = r_next <$> getz l c) as Hn.
  { unfold getz. destruct (c <? 0); [done|]. by rewrite <- !list_lookup_fmap, Hl. }
  destruct (getz l' c), (getz l c); cbn in Hn; try done. injection Hn as ->. by apply IH.
Qed.

Lemma nexts_set l c r r' : getz l c = Some r -> r_next r' = r_next r -> r_next <$> setz l c r' = r_next <$> l.
Proof.
  intros Hc Hr. unfold setz, getz in *. destruct (c <? 0); [done|]. rewrite list_fmap_insert, Hr. apply list_insert_id.
  by rewrite list_lookup_fmap, Hc.
Qed.

(** A kernel with the same requests in the same queue. *)
Definition same_queue (k k' : kernel) : Prop := blk_dev k' = blk_dev k /\ request k' = request k.

Lemma same_queue_ends n s s' : same_queue (fkern s) (fkern s') -> queue_ends n s -> queue_ends n s'.
Proof. intros [Hb Hr]. unfold queue_ends, queue_head. by rewrite Hb, Hr. Qed.

Lemma end_request_next u n k :
  ends_in (Datatypes.S n) (request k) (queue_head k) ->
  ends_with (end_request FLOPPY_MAJOR u) (fun _ k' => ends_in n (request k') (queue_head k')) k.
Proof.
  intros Hq. unfold end_request. apply ends_bind. unfold get_dev at 1. apply ends_bind, ends_gets, ends_valid. intros d Hd.
  apply ends_bind, ends_valid. intros c Hc. apply ends_bind. unfold get_req at 1. apply ends_bind, ends_gets, ends_valid. intros r Hr.
  assert (ends_in n (request k) (r_next r)) as Hn.
  { unfold queue_head in Hq. rewrite Hd in Hq. cbn in Hq. by rewrite Hc, Hr in Hq. }
  apply ends_bind. apply (ends_mono _ (fun _ => same_queue k)).
  { destruct (r_bh r); [|by apply ends_ret]. unfold set_bh, unlock_buffer, get_bh, wake_up. apply ends_bind, ends_bind, ends_bind, ends_gets, ends_valid.
    intros b Hb. apply ends_modify, ends_bind. unfold set_bh, get_bh. apply ends_bind, ends_bind, ends_gets, ends_valid. intros b' Hb'. by apply ends_modify, ends_modify. }
  intros [] k1 [Hb1 Hr1]. apply ends_bind, ends_modify. upd. apply ends_bind. unfold set_req, get_req. apply ends_bind, ends_bind, ends_gets, ends_valid. upd.
  rewrite Hr1, Hr. intros _ [= <-]. apply ends_modify, ends_bind, ends_bind, ends_gets, ends_valid. upd. rewrite Hr1.
  rewrite getz_setz_eq by (by apply getz_Some_lt in Hr). intros _ [= <-]. unfold set_dev, get_dev. apply ends_bind, ends_bind, ends_gets, ends_valid. upd.
  rewrite Hb1, Hd. intros _ [= <-]. apply ends_modify. upd. unfold queue_head. upd. rewrite Hb1, getz_setz_eq by (by apply getz_Some_lt in Hd). cbn.
  apply (ends_in_next _ (request k)); [|exact Hn]. rewrite Hr1. by apply (nexts_set _ _ r).
Qed.

Lemma fd_end_request_next u n s :
  queue_ends (Datatypes.S n) s -> ends_with (fd_end_request u) (fun _ s' => queue_ends n s') s.
Proof.
  intros Hq. unfold fd_end_request. apply ends_bind. apply (ends_mono _ (fun _ s' => s' = s)).
  { unfold CURRENT_DEV, fd_current, on_kernel. apply ends_bind, ends_zoom. unfold get_dev, get_req.
    apply ends_bind, ends_bind, ends_gets, ends_valid. intros d Hd. apply ends_bind, ends_valid. intros c Hc.
    apply ends_bind, ends_bind, ends_gets, ends_valid. intros r Hr. do 2 apply ends_ret. by destruct s. }
  intros nr _ ->. apply ends_bind. unfold on_kernel, on_sched, floppy_off. apply ends_zoom, ends_zoom, ends_modify, ends_zoom.
  eapply ends_mono; [apply (end_request_next u n); exact Hq|]. intros [] k' Hk. exact Hk.
Qed.

(** A request that is not started is taken out of the queue. *)
Lemma start_request_next r n s :
  queue_ends (Datatypes.S n) s -> ends_with (start_request r) (fun started s' => started = false -> queue_ends n s') s.
Proof.
  intros Hq. unfold start_request. apply ends_bind, ends_modify. apply ends_bind, ends_gets. apply ends_bind.
  apply (ends_mono _ (fun _ s' => fkern s' = fkern s)); [apply ends_when; intros _; done|]. intros [] s1 H1.
  apply ends_bind, ends_modify, ends_bind. unfold floppy_data. apply ends_bind, ends_gets, ends_valid. intros ft _.
  case_match.
  - apply ends_bind. eapply ends_mono; [apply fd_end_request_next|].
    + apply (same_queue_ends _ s); [|exact Hq]. split; upd; by rewrite H1.
    + intros [] s2 Hs2. by apply ends_ret.
  - match goal with |- ends_with ?m _ ?s => assert (ends_with m (fun b _ => b = true) s) as Ht end; [|eapply ends_mono; [exact Ht|by intros ? ? ->]].
    clear. apply ends_bind. unfold fd_chs. case_match; [done|]. apply ends_ret. cbv zeta. apply ends_bind, ends_modify, ends_bind, ends_gets, ends_bind, ends_when;
      intros _; [apply ends_modify|]; apply ends_bind; repeat case_match; by try (apply ends_modify, ends_ret).
Qed.

Lemma check_request_same k :
  ends_with (check_request FLOPPY_MAJOR) (fun o k' => k' = k /\ (queue_head k = None -> o = None)) k.
Proof.
  unfold check_request, get_dev. apply ends_bind, ends_bind, ends_gets, ends_valid. intros d Hd.
  assert (queue_head k = current_request d) as -> by (unfold queue_head; by rewrite Hd).
  destruct (current_request d) as [c|]; [|by apply ends_ret]. unfold get_req. apply ends_bind, ends_bind, ends_gets, ends_valid. intros r Hr.
  case_match; [done|]. destruct (r_bh r); [|by apply ends_ret]. unfold buffer_locked, get_bh.
  apply ends_bind, ends_bind, ends_bind, ends_gets, ends_valid. intros b Hb. apply ends_ret. case_match; [done|by apply ends_ret].
Qed.

Lemma always_start : always (let! drive := gets current_drive in
  let! ticks := on_kernel (on_sched (ticks_to_floppy_on drive)) in
  fd_add_timer ticks floppy_on_interrupt_fn (floppy_on_interrupt again)).
Proof. unfold fd_add_timer, on_kernel, on_sched. always. Qed.

Lemma fd_request_loop_ends n s : queue_ends n s -> ends (fd_request_loop again (Datatypes.S n)) s.
Proof.
  revert s. induction n as [|n IH]; intros s Hq.
  all: match goal with |- ends ?m ?s0 => change (ends_with m (fun _ _ => True) s0) end.
  all: cbn [fd_request_loop]; apply ends_bind; unfold on_kernel at 1; apply ends_zoom.
  all: (eapply ends_mono; [apply check_request_same|]); intros o k' [-> Ho]; assert (s <| fkern := fkern s |> = s) as -> by (by destruct s).
  - rewrite Ho; [done|]. unfold queue_ends in Hq. by destruct (queue_head (fkern s)).
  - destruct o as [r|]; [|done]. apply ends_bind. eapply ends_mono; [by apply start_request_next|].
    intros [] s' Hs'; [apply always_start|]. apply IH. by apply Hs'.
Qed.

Lemma fd_request_body_ends s : queue_ends 32 s -> ends (fd_request_body again) s.
Proof.
  intros Hq. match goal with |- ends ?m ?s0 => change (ends_with m (fun _ _ => True) s0) end. unfold fd_request_body.
  apply ends_bind, ends_modify, ends_bind, ends_gets. destruct (istrue _); [apply always_with, always_reset_floppy|].
  apply ends_bind, ends_gets. destruct (istrue _); [apply always_with, always_recalibrate_floppy|].
  apply (fd_request_loop_ends 32). exact Hq.
Qed.
End again.

Lemma do_fd_request_reset n : ends_on_reset (do_fd_request_n (Datatypes.S n)).
Proof.
  intros s Hr. cbn [do_fd_request_n]. unfold fd_request_body, ends, bind, modify, gets. upd.
  unfold istrue. rewrite (proj2 (Z.eqb_neq _ 0) Hr). apply always_reset_floppy.
Qed.

Lemma do_fd_request_ok s : queue_ends 32 s -> ends do_fd_request s.
Proof. exact (fd_request_body_ends _ (do_fd_request_reset 0) s). Qed.

(** ** Interrupts leave the queue one that ends *)

Definition keeps {A} (m : M fd_kernel A) : Prop := forall s, queue_ends 32 s -> ends_with m (fun _ s' => queue_ends 32 s') s.

Lemma keeps_bind {A B} (m : M fd_kernel A) (k : A -> M fd_kernel B) : keeps m -> (forall a, keeps (k a)) -> keeps (bind m k).
Proof. intros Hm Hk s Hs. apply ends_bind. eapply ends_mono; [by apply Hm|]. intros a s' Hs'. by apply Hk. Qed.
Lemma keeps_same {A} (m : M fd_kernel A) : (forall s, ends_with m (fun _ s' => fkern s' = fkern s) s) -> keeps m.
Proof. intros Hm s Hs. eapply ends_mono; [apply Hm|]. intros a s' E'. unfold queue_ends. by rewrite E'. Qed.
Lemma keeps_ret {A} (a : A) : keeps (ret a).
Proof. by intros s Hs. Qed.
Lemma keeps_gets {A} (f : fd_kernel -> A) : keeps (gets f).
Proof. by intros s Hs. Qed.
Lemma keeps_valid {A} (o : option A) : keeps (valid o).
Proof. intros s Hs. by destruct o. Qed.
Lemma keeps_modify f : (forall s, fkern (f s) = fkern s) -> keeps (modify f).
Proof. intros Hf. apply keeps_same. intros s. by apply ends_modify. Qed.
Lemma keeps_when b (m : M fd_kernel unit) : keeps m -> keeps (when b m).
Proof. intros Hm. destruct b; [exact Hm|apply keeps_ret]. Qed.
Lemma keeps_if {A} (b : bool) (m m' : M fd_kernel A) : keeps m -> keeps m' -> keeps (if b then m else m').
Proof. intros H1 H2. destruct b; assumption. Qed.
Lemma keeps_ports {A} (m : M (list access) A) : always m -> keeps (on_ports m).
Proof. intros Hm. apply keeps_same. intros s. unfold on_ports. apply ends_zoom. eapply ends_mono; [by apply always_with|]. done. Qed.
(** A routine of the kernel that does not touch the queue. *)
Lemma keeps_kernel {A} (m : M kernel A) : (forall k, ends_with m (fun _ k' => same_queue k k') k) -> keeps (on_kernel m).
Proof. intros Hm s Hs. unfold on_kernel. apply ends_zoom. eapply ends_mono; [apply Hm|]. intros a k' Hk. by apply (same_queue_ends _ s). Qed.
Create HintDb keeps.
#[local] Hint Resolve keeps_ret keeps_gets keeps_valid : keeps.

Ltac keeps :=
  repeat first
    [ solve [auto with keeps nocore] | apply keeps_modify; (intros ?; repeat case_match; done)
    | apply keeps_bind; [|intros ?] | apply keeps_when | apply keeps_if
    | match goal with |- keeps (match ?x with _ => _ end) => destruct x end ].

Lemma ends_in_S n l cur : ends_in n l cur -> ends_in (Datatypes.S n) l cur.
Proof.
  revert cur. induction n as [|n IH]; intros [c|]; cbn [ends_in]; try done. destruct (getz l c); [|done]. apply IH.
Qed.
Lemma keeps_fd_end_request u : keeps (fd_end_request u).
Proof. intros s Hs. eapply ends_mono; [by apply (fd_end_request_next u 31)|]. intros a s' Hs'. by apply ends_in_S. Qed.
Lemma keeps_fd_current : keeps fd_current.
Proof.
  unfold fd_current. apply keeps_kernel. intros k. unfold get_dev, get_req. apply ends_bind, ends_bind, ends_gets, ends_valid. intros d _.
  apply ends_bind, ends_valid. intros c _. by apply ends_bind, ends_bind, ends_gets, ends_valid.
Qed.
Lemma keeps_deselect nr : keeps (on_kernel (floppy_deselect nr)).
Proof. apply keeps_kernel. intros k. done. Qed.
Lemma keeps_stored_buffer p data : keeps (on_kernel (store_buffer p data)).
Proof.
  apply keeps_kernel. intros k. unfold store_buffer, set_bh, get_bh. apply ends_bind, ends_bind, ends_gets, ends_valid. intros b _.
  case_match; [done|]. by apply ends_bind, ends_bind, ends_gets, ends_valid.
Qed.
Lemma keeps_count_error cur : keeps (on_kernel (set_req cur (fun r => r <| r_errors ::= fun e => s32 (e + 1) |>))).
Proof.
  intros s Hs. unfold on_kernel, set_req, get_req. apply ends_zoom, ends_bind, ends_bind, ends_gets, ends_valid. intros r Hr. apply ends_modify.
  apply (ends_in_next _ (request (fkern s))); [by apply (nexts_set _ _ r)|exact Hs].
Qed.
#[local] Hint Resolve keeps_fd_end_request keeps_fd_current keeps_deselect keeps_stored_buffer keeps_count_error : keeps.
Lemma keeps_fd_in port : keeps (fd_in port).
Proof. by apply keeps_ports. Qed.
Lemma keeps_fd_outb v port : keeps (fd_outb v port).
Proof. by apply keeps_ports. Qed.
#[local] Hint Resolve keeps_fd_in keeps_fd_outb : keeps.
Lemma keeps_output_loop n byte : keeps (output_loop n byte).
Proof. induction n as [|n IH]; cbn [output_loop]; keeps. Qed.
#[local] Hint Resolve keeps_output_loop : keeps.
Lemma keeps_output_byte byte : keeps (output_byte byte).
Proof. unfold output_byte. keeps. Qed.
Lemma keeps_result_loop n i : keeps (result_loop n i).
Proof. revert i. induction n as [|n IH]; intros i; cbn [result_loop]; unfold no_result; keeps. Qed.
#[local] Hint Resolve keeps_output_byte keeps_result_loop : keeps.
Lemma keeps_result : keeps result.
Proof. unfold result. keeps. Qed.
Lemma keeps_reply i : keeps (reply i).
Proof. unfold reply. keeps. Qed.
Lemma keeps_bad_flp_intr : keeps bad_flp_intr.
Proof. unfold bad_flp_intr. keeps. Qed.
#[local] Hint Resolve keeps_result keeps_reply keeps_bad_flp_intr : keeps.
Lemma keeps_sense_failed : keeps sense_failed.
Proof. unfold sense_failed. keeps. Qed.
#[local] Hint Resolve keeps_sense_failed : keeps.

(** ** The driver's entries *)

Definition finishes {A} (m : M fd_kernel A) : Prop := forall s, queue_ends 32 s -> ends m s.

Lemma finishes_always {A} (m : M fd_kernel A) : always m -> finishes m.
Proof. intros Hm s _. exact (Hm s). Qed.
Lemma finishes_bind {A B} (m : M fd_kernel A) (k : A -> M fd_kernel B) : keeps m -> (forall a, finishes (k a)) -> finishes (bind m k).
Proof.
  intros Hm Hk s Hs. specialize (Hm s Hs). unfold ends_with in Hm. unfold ends, bind. destruct (m s) as [a s'| | | |]; try done. by apply Hk.
Qed.
Lemma finishes_if {A} (b : bool) (m m' : M fd_kernel A) : finishes m -> finishes m' -> finishes (if b then m else m').
Proof. intros H1 H2. destruct b; assumption. Qed.
Lemma finishes_request : finishes do_fd_request.
Proof. exact do_fd_request_ok. Qed.
Lemma finishes_setup : finishes (setup_rw_floppy do_fd_request).
Proof. apply finishes_always, always_setup_rw_floppy, (do_fd_request_reset 1). Qed.
#[local] Hint Resolve finishes_request finishes_setup : keeps.
Ltac finishes :=
  repeat first [ solve [auto with keeps nocore] | apply finishes_bind; [keeps|intros ?] | apply finishes_if
    | match goal with |- finishes (match ?x with _ => _ end) => destruct x end ].

Lemma rw_interrupt_finishes : finishes rw_interrupt.
Proof. unfold rw_interrupt. finishes. Qed.
Lemma seek_interrupt_finishes : finishes seek_interrupt.
Proof. unfold seek_interrupt. finishes. Qed.
Lemma recal_interrupt_finishes : finishes recal_interrupt.
Proof. unfold recal_interrupt. finishes. Qed.
Lemma reset_interrupt_finishes : finishes reset_interrupt.
Proof. unfold reset_interrupt. finishes. Qed.
Lemma unexpected_finishes : finishes unexpected_floppy_interrupt.
Proof. apply finishes_always. unfold unexpected_floppy_interrupt, sense_failed. always. Qed.
#[local] Hint Resolve rw_interrupt_finishes seek_interrupt_finishes recal_interrupt_finishes reset_interrupt_finishes unexpected_finishes : keeps.

(** C15: nothing in the floppy driver waits for ever. From every state in which
    the queue of requests has an end, a call of [do_fd_request], an interrupt of
    the controller, whichever routine it goes to, and a routine called by the
    clock all end, whatever the controller answers: they return, or find the
    kernel's data broken. The status is asked for a bounded number of times for
    each byte, a request that cannot be served is gone through once, and a
    call of [do_fd_request] from what it calls only starts a reset. *)
Theorem floppy_ends s :
  queue_ends 32 s -> forall s',
  do_fd_request s <> Prelude.Blocked s' /\ floppy_interrupt s <> Prelude.Blocked s' /\
  forall fn, timer_routine fn s <> Prelude.Blocked s'.
Proof.
  intros Hq s'. assert (forall m, finishes m -> m s <> @Prelude.Blocked fd_kernel unit s') as Hm.
  { intros m Hm Hb. specialize (Hm s Hq). unfold ends in Hm. by rewrite Hb in Hm. }
  split; [apply Hm, finishes_request|]. split; [apply Hm|intros fn; apply Hm].
  - unfold floppy_interrupt. finishes.
  - unfold timer_routine. apply finishes_if; [|apply finishes_if]; apply finishes_always; [|..|apply always_ret];
      [apply always_transfer|apply always_floppy_on_interrupt]; exact (do_fd_request_reset 1).
Qed.
End fd.

(** ** A concrete floppy drive *)

(** A controller that always wants a byte, and buffers below one megabyte. *)
#[local] Instance eager : Machine := {| port_byte := fun _ _ => 0x80; port_words := fun _ _ _ => 0 |}.
#[local] Instance low : Placement := {| data_address := fun _ => 0x90000; tmp_area_address := 0x8000 |}.
#[local] Existing Instance quiet.

(** The last block of a 1.44 MB disk. *)
Lemma fd_chs_spec_witness :
  exists s, fd_chs (FloppyType 2880 18 2 80 0 0x1B 0x00 0xCF) 2878 (s : fd_kernel) = Ok (17, 1, 79) s.
Proof.
  exists (FdKernel bare [] 0 0 0 (replicate 7 0) (-1) (-1) 0 0 0 0 0 0 255 0 None (replicate 1024 0) None).
  destruct (fd_chs_spec (FloppyType 2880 18 2 80 0 0x1B 0x00 0xCF) 1439
    (FdKernel bare [] 0 0 0 (replicate 7 0) (-1) (-1) 0 0 0 0 0 0 255 0 None (replicate 1024 0) None))
    as (sec & h & t & E & _); [repeat constructor|lia|cbn; lia|].
  vm_compute in E. injection E as <- <- <-. reflexivity.
Defined.

(** A request for it in the queue, the last of its nine tries failing. *)
Definition floppy_request (errors : Z) : fd_kernel :=
  FdKernel (bare <| request ::= fun l => setz l 3 (Request 0x21c READ errors 2878 2 (Some (0, 0)) None None None) |>
                 <| blk_dev ::= fun l => setz l 2 (BlkDev interrupt_driver (Some 3)) |>)
    [] 0 0 0 (replicate 7 0) (-1) (-1) 0 0 0 0 0 0 255 0 None (replicate 1024 0) None.

Lemma floppy_ends_witness :
  queue_ends 32 (floppy_request 0) /\ forall s', do_fd_request (floppy_request 0) <> Prelude.Blocked s'.
Proof.
  assert (queue_ends 32 (floppy_request 0)) as Hq by (vm_compute; exact I).
  split; [exact Hq|]. intros s'. exact (proj1 (floppy_ends (floppy_request 0) Hq s')).
Defined.

(** The motor is not on yet: the drive's routine waits for the clock. *)
Lemma floppy_starts : exists s, do_fd_request (floppy_request 0) = Ok tt s /\
  (sector s, head s, track s, command s) = (17, 1, 79, FD_READ) /\ moff_timer (sch (fkern s)) = [10000; 0; 0; 0].
Proof. eexists. split; [vm_compute; reflexivity|]. split; reflexivity. Qed.

(** The last error of the last request: the request is ended, and its errors
    are looked at when there is none any more. *)
Lemma bad_flp_intr_null : exists s, bad_flp_intr (floppy_request 8) = Fault s /\
  getz (blk_dev (fkern s)) 2 = Some (BlkDev interrupt_driver None).
Proof. eexists. split; [vm_compute; reflexivity|reflexivity]. Qed.
