(* ===== verification/Gates.v ===== *)
(** * Interrupts: the gates, and the masks of the interrupt controllers

    The gates of include/asm/system.h, the table boot/head.s fills and
    kernel/traps.c and the drivers complete, and the part of every driver's
    start that lets its interrupt through. *)

From Stdlib Require Import ZArith Lia.
From stdpp Require Import base numbers list.
From S2P Require Import Prelude Task Ports.

(** The entry points of interrupts: asm.s, system_call.s, mm/page.s,
    rs_io.s, kb.S and head.s. *)
Inductive isr :=
| ignore_int | divide_error | debug | nmi | int3 | overflow | bounds | invalid_op | device_not_available
| double_fault | coprocessor_segment_overrun | invalid_TSS | segment_not_present | stack_segment
| general_protection | page_fault | reserved | coprocessor_error | irq13 | parallel_interrupt
| serial1_interrupt | serial2_interrupt | keyboard_interrupt | timer_interrupt | system_call
| hd_interrupt | floppy_interrupt.

Record tables := Tables { idt : list descriptor; bus : list access }.
#[global] Instance tables_fields : Fields tables := fun x => Tables (idt x) (bus x).
#[global] Instance set_idt : Setter idt := ltac:(solve_setter).
#[global] Instance set_bus : Setter bus := ltac:(solve_setter).

(** [movw %%dx, %%ax] puts the low half of the address under the selector,
    [movw $flags, %%dx] the flags under its high half. *)
Definition gate_words (type DPL addr : Z) : descriptor :=
  Desc (Z.lor 0x00080000 (Z.land addr 0xffff))
       (Z.lor (Z.ldiff addr 0xffff) (u16 (0x8000 + Z.shiftl DPL 13 + Z.shiftl type 8))).

Section code.
Context `{Machine} (addr : isr -> Z).

Definition on_bus {A} (m : M (list access) A) : M tables A := zoom bus (fun t s => s <| bus := t |>) m.

Definition set_gate (n type DPL : Z) (ISR : isr) : M tables unit :=
  modify (fun s => s <| idt ::= fun l => setz l n (gate_words type DPL (addr ISR)) |>).
Definition set_intr_gate (n : Z) : isr -> M tables unit := set_gate n 14 0.
Definition set_trap_gate (n : Z) : isr -> M tables unit := set_gate n 15 0.
Definition set_system_gate (n : Z) : isr -> M tables unit := set_gate n 15 3.

(** [outb(inb_p(port) & mask, port)] *)
Definition unmask (mask port : Z) : M tables unit :=
  on_bus (let! v := in_b port in out_b (Z.land v mask) port).

(** [setup_idt] of head.s: 256 interrupt gates. *)
Definition setup_idt : M tables unit :=
  modify (fun s => s <| idt := replicate 256 (Desc (Z.lor 0x00080000 (Z.land (addr ignore_int) 0xffff))
                                                  (Z.lor (Z.ldiff (addr ignore_int) 0xffff) 0x8e00)) |>).

Definition trap_init : M tables unit :=
  do! set_trap_gate 0 divide_error in
  do! set_trap_gate 1 debug in
  do! set_trap_gate 2 nmi in
  do! set_system_gate 3 int3 in
  do! set_system_gate 4 overflow in
  do! set_system_gate 5 bounds in
  do! set_trap_gate 6 invalid_op in
  do! set_trap_gate 7 device_not_available in
  do! set_trap_gate 8 double_fault in
  do! set_trap_gate 9 coprocessor_segment_overrun in
  do! set_trap_gate 10 invalid_TSS in
  do! set_trap_gate 11 segment_not_present in
  do! set_trap_gate 12 stack_segment in
  do! set_trap_gate 13 general_protection in
  do! set_trap_gate 14 page_fault in
  do! set_trap_gate 15 reserved in
  do! set_trap_gate 16 coprocessor_error in
  do! for_range 17 31 (fun i => set_trap_gate i reserved) in
  do! set_trap_gate 45 irq13 in
  do! unmask 0xfb 0x21 in
  do! unmask 0xdf 0xa1 in
  set_trap_gate 39 parallel_interrupt.

(** The gates and masks of [serial_init], [console_init] (with the reset of the
    keyboard), [schedule_init] (with the timer chip), [hd_init] and
    [floppy_init]; the rest of each is with its component. *)
Definition LATCH : Z := 1193180 / HZ.

Definition serial_init_irq : M tables unit :=
  do! set_intr_gate 0x24 serial1_interrupt in
  do! set_intr_gate 0x23 serial2_interrupt in
  unmask 0xe7 0x21.
Definition console_init_irq : M tables unit :=
  do! set_trap_gate 0x21 keyboard_interrupt in
  do! unmask 0xfd 0x21 in
  on_bus (let! tmp := in_b 0x61 in do! out_b (Z.lor tmp 0x80) 0x61 in out_b tmp 0x61).
Definition schedule_init_irq : M tables unit :=
  do! on_bus (outs_b [(0x36, 0x43); (Z.land LATCH 0xff, 0x40); (Z.shiftr LATCH 8, 0x40)]) in
  do! set_intr_gate 0x20 timer_interrupt in
  do! unmask 0xfe 0x21 in
  set_system_gate 0x80 system_call.
Definition hd_init_irq : M tables unit :=
  do! set_intr_gate 0x2e hd_interrupt in
  do! unmask 0xfb 0x21 in
  unmask 0xbf 0xa1.
Definition floppy_init_irq : M tables unit :=
  do! set_trap_gate 0x26 floppy_interrupt in
  unmask 0xbf 0x21.

(** The interrupts' side of the start, in the order of [start_kernel]. *)
Definition start_irqs : M tables unit :=
  do! setup_idt in
  do! trap_init in
  do! serial_init_irq in
  do! console_init_irq in
  do! schedule_init_irq in
  do! hd_init_irq in
  floppy_init_irq.
End code.

(** ** What the processor makes of a gate *)

Definition KERNEL_CODE_SEG : Z := 0x08.

Record gate := Gate { g_offset : Z; g_selector : Z; g_present : bool; g_dpl : Z; g_type : Z }.

Definition gate_of (d : descriptor) : gate :=
  Gate (Z.lor (Z.ldiff (desc_b d) 0xffff) (Z.land (desc_a d) 0xffff)) (Z.shiftr (desc_a d) 16)
       (Z.testbit (desc_b d) 15) (Z.land (Z.shiftr (desc_b d) 13) 3) (Z.land (Z.shiftr (desc_b d) 8) 0x1f).

(** The mask register of an 8259 holds what was written last; setup.s writes
    0xff to both. *)
Fixpoint imr (port : Z) (t : list access) : Z :=
  match t with
  | [] => 0xff
  | Out v p :: t => if p =? port then v else imr port t
  | _ :: t => imr port t
  end.
Class Controllers `{Machine} := {
  mask_read1 : forall t, port_byte t 0x21 = imr 0x21 t;
  mask_read2 : forall t, port_byte t 0xa1 = imr 0xa1 t
}.
Definition let_through (irq : Z) (t : list access) : bool :=
  if irq <? 8 then negb (Z.testbit (imr 0x21 t) irq) else negb (Z.testbit (imr 0xa1 t) (irq - 8)).

(** ** What a gate says *)

Lemma land_cleared x m k : Z.ldiff k m = 0 -> Z.land (Z.ldiff x m) k = 0.
Proof.
  intros E. apply Z.bits_inj'. intros n Hn. apply (f_equal (fun v => Z.testbit v n)) in E.
  rewrite Z.ldiff_spec, Z.bits_0 in E. rewrite Z.land_spec, Z.ldiff_spec, Z.bits_0.
  by destruct (Z.testbit x n), (Z.testbit m n), (Z.testbit k n).
Qed.

Lemma low_half n : 0 <= n -> Z.testbit 0xffff n = (n <? 16).
Proof. intros Hn. change 0xffff with (Z.ones 16). rewrite Z.testbit_ones_nonneg by lia. done. Qed.

(** The parts of the high word are the parts of its flags. *)
Lemma flags_field x f k m : Z.ldiff m (Z.shiftr 0xffff k) = 0 ->
  Z.land (Z.shiftr (Z.lor (Z.ldiff x 0xffff) f) k) m = Z.land (Z.shiftr f k) m.
Proof.
  intros E. rewrite Z.shiftr_lor, Z.shiftr_ldiff, Z.land_lor_distr_l, land_cleared by done. apply Z.lor_0_l.
Qed.

Lemma offset_kept x f : 0 <= f < 65536 ->
  Z.lor (Z.ldiff (Z.lor (Z.ldiff x 0xffff) f) 0xffff) (Z.land (Z.lor 0x00080000 (Z.land x 0xffff)) 0xffff) = x.
Proof.
  intros Hf. apply Z.bits_inj'. intros n Hn.
  rewrite !Z.lor_spec, !Z.ldiff_spec, !Z.land_spec, !Z.lor_spec, !Z.ldiff_spec, !Z.land_spec, low_half by done.
  destruct (Z.ltb_spec n 16) as [Hlt|Hge]; cbn; rewrite ?andb_true_r, ?andb_false_r, ?orb_false_r; cbn.
  - replace (Z.testbit 0x80000 n) with false; [done|]. symmetry.
    change 0x80000 with (2 ^ 19). apply Z.pow2_bits_false. lia.
  - rewrite (Z.bits_above_log2 f n), orb_false_r; [done|lia|].
    destruct (decide (f = 0)) as [->|]; [cbn; lia|]. apply Z.log2_lt_pow2; [lia|].
    apply Z.lt_le_trans with (2 ^ 16); [lia|]. apply Z.pow_le_mono_r; lia.
Qed.

Lemma gate_of_words type DPL addr : type = 14 \/ type = 15 -> DPL = 0 \/ DPL = 3 ->
  gate_of (gate_words type DPL addr) = Gate addr KERNEL_CODE_SEG true DPL type.
Proof.
  intros Ht Hd. unfold gate_of, gate_words. cbn [desc_a desc_b].
  rewrite offset_kept, Z.shiftr_lor, Z.shiftr_land, !flags_field, Z.lor_spec, Z.ldiff_spec
    by (done || (destruct Ht as [->| ->], Hd as [->| ->]; vm_compute; intuition congruence)).
  change (Z.shiftr 65535 16) with 0. rewrite Z.land_0_r.
  change (Z.testbit 0xffff 15) with true. rewrite andb_false_r.
  destruct Ht as [->| ->], Hd as [->| ->]; reflexivity.
Qed.

(** ** The gates after the start *)

(** A gate to be installed: its number, type, privilege level and routine. *)
Definition install (addr : isr -> Z) (l : list descriptor) (gates : list (Z * (Z * Z * isr))) : list descriptor :=
  foldl (fun l '(n, (type, DPL, h)) => setz l n (gate_words type DPL (addr h))) l gates.

(** The last one that is installed under a number. *)
Fixpoint last_gate (gates : list (Z * (Z * Z * isr))) (default : Z * Z * isr) (n : Z) : Z * Z * isr :=
  match gates with
  | [] => default
  | (k, g) :: gates => last_gate gates (if k =? n then g else default) n
  end.

Definition words_of (addr : isr -> Z) (g : Z * Z * isr) : descriptor := gate_words g.1.1 g.1.2 (addr g.2).

Lemma getz_install addr gates l n g : getz l n = Some (words_of addr g) ->
  getz (install addr l gates) n = Some (words_of addr (last_gate gates g n)).
Proof.
  revert l g. induction gates as [|[k [[type DPL] h]] gates IH]; intros l g Hl; [done|]. cbn.
  apply IH. destruct (Z.eqb_spec k n) as [->|Hne].
  - by rewrite getz_setz_eq by (by eapply getz_Some_lt, Hl).
  - by rewrite getz_setz_ne.
Qed.

Definition trap_gates : list (Z * (Z * Z * isr)) :=
  [(0, (15, 0, divide_error)); (1, (15, 0, debug)); (2, (15, 0, nmi)); (3, (15, 3, int3));
   (4, (15, 3, overflow)); (5, (15, 3, bounds)); (6, (15, 0, invalid_op)); (7, (15, 0, device_not_available));
   (8, (15, 0, double_fault)); (9, (15, 0, coprocessor_segment_overrun)); (10, (15, 0, invalid_TSS));
   (11, (15, 0, segment_not_present)); (12, (15, 0, stack_segment)); (13, (15, 0, general_protection));
   (14, (15, 0, page_fault)); (15, (15, 0, reserved)); (16, (15, 0, coprocessor_error))] ++
  ((fun n => (n, (15, 0, reserved))) <$> seqZ 17 31) ++
  [(45, (15, 0, irq13)); (39, (15, 0, parallel_interrupt))].
Definition device_gates : list (Z * (Z * Z * isr)) :=
  [(0x24, (14, 0, serial1_interrupt)); (0x23, (14, 0, serial2_interrupt)); (0x21, (15, 0, keyboard_interrupt));
   (0x20, (14, 0, timer_interrupt)); (0x80, (15, 3, system_call)); (0x2e, (14, 0, hd_interrupt));
   (0x26, (15, 0, floppy_interrupt))].

Section theorems.
Context `{Controllers} (addr : isr -> Z).

Definition idt_final : list descriptor := install addr (replicate 256 (words_of addr (14, 0, ignore_int))) (trap_gates ++ device_gates).

Lemma in_b_mask1 t : in_b 0x21 t = Ok (u8 (imr 0x21 t)) (In 0x21 :: t).
Proof. unfold in_b. by rewrite mask_read1. Qed.
Lemma in_b_mask2 t : in_b 0xa1 t = Ok (u8 (imr 0xa1 t)) (In 0xa1 :: t).
Proof. unfold in_b. by rewrite mask_read2. Qed.

Lemma unmask_ok mask port l t : port = 0x21 \/ port = 0xa1 ->
  unmask mask port (Tables l t) =
  Ok tt (Tables l (Out (u8 (Z.land (u8 (imr port t)) mask)) port :: In port :: t)).
Proof.
  unfold unmask, on_bus, zoom, bind. cbn [bus]. intros [->| ->]; rewrite ?in_b_mask1, ?in_b_mask2; done.
Qed.

(** A routine that installs [gates] and leaves the masks as [f] makes them. *)
Definition installs (m : M tables unit) (gates : list (Z * (Z * Z * isr))) (f : Z * Z -> Z * Z) : Prop :=
  forall l t, exists t', m (Tables l t) = Ok tt (Tables (install addr l gates) t') /\
    (imr 0x21 t', imr 0xa1 t') = f (imr 0x21 t, imr 0xa1 t).

Definition masked1 (mask : Z) (x : Z * Z) : Z * Z := (u8 (Z.land (u8 x.1) mask), x.2).
Definition masked2 (mask : Z) (x : Z * Z) : Z * Z := (x.1, u8 (Z.land (u8 x.2) mask)).

Lemma installs_seq m1 m2 g1 g2 f1 f2 : installs m1 g1 f1 -> installs m2 g2 f2 ->
  installs (bind m1 (fun _ => m2)) (g1 ++ g2) (fun x => f2 (f1 x)).
Proof.
  intros H1 H2 l t. destruct (H1 l t) as (t1 & E1 & F1). destruct (H2 (install addr l g1) t1) as (t2 & E2 & F2).
  exists t2. unfold bind. rewrite E1, E2, F2, F1. unfold install. by rewrite foldl_app.
Qed.
Lemma installs_gate n type DPL h : installs (set_gate addr n type DPL h) [(n, (type, DPL, h))] id.
Proof. by intros l t; exists t. Qed.
Lemma installs_mask1 mask : installs (unmask mask 0x21) [] (masked1 mask).
Proof. intros l t. rewrite unmask_ok by auto. by eexists. Qed.
Lemma installs_mask2 mask : installs (unmask mask 0xa1) [] (masked2 mask).
Proof. intros l t. rewrite unmask_ok by auto. by eexists. Qed.
Lemma installs_reserved i n :
  installs (for_range i n (fun i => set_trap_gate addr i reserved)) ((fun n => (n, (15, 0, reserved))) <$> seqZ i (Z.of_nat n)) id.
Proof.
  revert i. induction n as [|n IH]; intros i; [by intros l t; exists t|].
  rewrite seqZ_cons by lia. replace (Z.pred (Z.of_nat (Datatypes.S n))) with (Z.of_nat n) by lia.
  apply (installs_seq _ _ [_] _ id id); [apply installs_gate|apply IH].
Qed.

Lemma installs_eq m g g' f f' : installs m g f -> g = g' -> (forall x, f x = f' x) -> installs m g' f'.
Proof. intros Hm <- Hf l t. destruct (Hm l t) as (t' & E & F). exists t'. by rewrite <- Hf. Qed.

(** Accesses that leave the masks alone. *)
Definition quiet_bus (m : M (list access) unit) : Prop :=
  forall t, exists t', m t = Ok tt t' /\ imr 0x21 t' = imr 0x21 t /\ imr 0xa1 t' = imr 0xa1 t.
Lemma installs_quiet m : quiet_bus m -> installs (on_bus m) [] id.
Proof.
  intros Hm l t. destruct (Hm t) as (t' & E & F1 & F2). exists t'.
  unfold on_bus, zoom. cbn [bus]. rewrite E, F1, F2. done.
Qed.
Lemma quiet_keyboard : quiet_bus (let! tmp := in_b 0x61 in do! out_b (Z.lor tmp 0x80) 0x61 in out_b tmp 0x61).
Proof. intros t. by eexists. Qed.
Lemma quiet_timer : quiet_bus (outs_b [(0x36, 0x43); (Z.land LATCH 0xff, 0x40); (Z.shiftr LATCH 8, 0x40)]).
Proof. intros t. by eexists. Qed.

Ltac installs :=
  lazymatch goal with
  | |- installs (bind _ (fun _ => _)) _ _ => eapply installs_seq; [installs|installs]
  | |- installs (for_range _ _ _) _ _ => apply installs_reserved
  | |- installs (unmask _ 0x21) _ _ => apply installs_mask1
  | |- installs (unmask _ 0xa1) _ _ => apply installs_mask2
  | |- installs (on_bus _) _ _ => apply installs_quiet, quiet_keyboard || apply installs_quiet, quiet_timer
  | |- installs _ _ _ => apply installs_gate
  end.

Definition trap_masks (x : Z * Z) : Z * Z := masked2 0xdf (masked1 0xfb x).
Lemma trap_init_ok : installs (trap_init addr) trap_gates trap_masks.
Proof. eapply installs_eq; [unfold trap_init; installs|reflexivity|reflexivity]. Qed.

Definition device_masks (x : Z * Z) : Z * Z :=
  masked1 0xbf (masked2 0xbf (masked1 0xfb (masked1 0xfe (masked1 0xfd (masked1 0xe7 x))))).
Lemma devices_ok : installs
  (do! serial_init_irq addr in do! console_init_irq addr in do! schedule_init_irq addr in
   do! hd_init_irq addr in floppy_init_irq addr) device_gates device_masks.
Proof.
  unfold serial_init_irq, console_init_irq, schedule_init_irq, hd_init_irq, floppy_init_irq.
  eapply installs_eq; [installs|reflexivity|reflexivity].
Qed.

Lemma start_irqs_ok : exists t, start_irqs addr (Tables [] []) = Ok tt (Tables idt_final t) /\
  imr 0x21 t = 0xa0 /\ imr 0xa1 t = 0x9f.
Proof.
  destruct (installs_seq _ _ _ _ _ _ trap_init_ok devices_ok (replicate 256 (words_of addr (14, 0, ignore_int))) [])
    as (t & E & F).
  exists t. split; [exact E|]. by injection F as -> ->.
Qed.

(** The routine behind each interrupt line in use. *)
Definition irq_handlers : list (Z * isr) :=
  [(0, timer_interrupt); (1, keyboard_interrupt); (3, serial2_interrupt); (4, serial1_interrupt);
   (6, floppy_interrupt); (13, irq13); (14, hd_interrupt)].

Definition known (g : Z * Z * isr) : Prop := (g.1.1 = 14 \/ g.1.1 = 15) /\ (g.1.2 = 0 \/ g.1.2 = 3).
Lemma last_gate_Forall (P : Z * Z * isr -> Prop) gates g n :
  P g -> Forall (fun x => P x.2) gates -> P (last_gate gates g n).
Proof.
  revert g. induction gates as [|[k g'] gates IH]; intros g Hg Hall; [done|].
  apply Forall_cons in Hall as [Hg' Hall]. cbn. apply IH; [|done]. by destruct (k =? n).
Qed.
Lemma all_known : Forall (fun x => known x.2) (trap_gates ++ device_gates).
Proof.
  unfold trap_gates, device_gates, known. rewrite !Forall_app, Forall_fmap.
  repeat split; [|apply Forall_true; intros; cbn; lia|..]; repeat (constructor; [cbn; lia|]); constructor.
Qed.

(** The gate of each number. *)
Definition final_gate (n : Z) : Z * Z * isr := last_gate (trap_gates ++ device_gates) (14, 0, ignore_int) n.

Lemma idt_final_gate n : 0 <= n < 256 -> exists d, getz idt_final n = Some d /\
  gate_of d = Gate (addr (final_gate n).2) KERNEL_CODE_SEG true (final_gate n).1.2 (final_gate n).1.1.
Proof.
  intros Hn. exists (words_of addr (final_gate n)). split; [by apply getz_install, getz_replicate|].
  destruct (last_gate_Forall known (trap_gates ++ device_gates) (14, 0, ignore_int) n) as [Ht Hd];
    [unfold known; cbn; lia|apply all_known|].
  by apply gate_of_words.
Qed.

Lemma final_gate_dpl n : 0 <= n < 256 -> (final_gate n).1.2 = 3 <-> n ∈ [3; 4; 5; 0x80].
Proof.
  intros Hn.
  assert (Forall (fun n => @eq bool (bool_decide ((final_gate n).1.2 = 3)) (bool_decide (n ∈ [3; 4; 5; 0x80]))) (seqZ 0 256)) as Hall
    by (apply (bool_decide_eq_true _); vm_compute; reflexivity).
  rewrite Forall_forall in Hall. specialize (Hall n ltac:(apply elem_of_seqZ; lia)).
  by rewrite <- (bool_decide_eq_true ((final_gate n).1.2 = 3)), Hall, bool_decide_eq_true.
Qed.

Lemma let_through_ok irq t : imr 0x21 t = 0xa0 -> imr 0xa1 t = 0x9f -> 0 <= irq < 16 ->
  let_through irq t = true <-> irq = 2 \/ irq ∈ irq_handlers.*1.
Proof.
  intros E1 E2 Hirq. unfold let_through. rewrite E1, E2.
  assert (Forall (fun irq => @eq bool (if irq <? 8 then negb (Z.testbit 0xa0 irq) else negb (Z.testbit 0x9f (irq - 8)))
    (bool_decide (irq = 2 \/ irq ∈ irq_handlers.*1))) (seqZ 0 16)) as Hall
    by (apply (bool_decide_eq_true _); vm_compute; reflexivity).
  rewrite Forall_forall in Hall. rewrite (Hall irq ltac:(apply elem_of_seqZ; lia)). by rewrite bool_decide_eq_true.
Qed.

Lemma irq_gates : Forall (fun x => (final_gate (0x20 + x.1)).2 = x.2) irq_handlers.
Proof. repeat (constructor; [reflexivity|]). constructor. Qed.
End theorems.

(** ** What holds when interrupts are switched on *)

(** C21: When [start_kernel] comes to [sti], every gate is present and leads into
    the kernel's code; a user program may call exactly int3, overflow, bounds
    and the system call; and the interrupt lines the controllers let through
    are the cascade and those whose driver has put its routine behind them. *)
Theorem start_irqs_ready `{Controllers} (addr : isr -> Z) :
  exists s, start_irqs addr (Tables [] []) = Ok tt s /\
  (forall n, 0 <= n < 256 -> exists d h, getz (idt s) n = Some d /\
    g_offset (gate_of d) = addr h /\ g_selector (gate_of d) = KERNEL_CODE_SEG /\ g_present (gate_of d) = true /\
    (g_dpl (gate_of d) = 3 <-> n ∈ [3; 4; 5; 0x80])) /\
  (forall irq, 0 <= irq < 16 -> let_through irq (bus s) = true <-> irq = 2 \/ irq ∈ irq_handlers.*1) /\
  (forall irq h, (irq, h) ∈ irq_handlers -> exists d, getz (idt s) (0x20 + irq) = Some d /\
    g_offset (gate_of d) = addr h).
Proof.
  destruct (start_irqs_ok addr) as (t & E & M1 & M2). eexists. split; [exact E|]. cbn [idt bus]. split_and!.
  - intros n Hn. destruct (idt_final_gate addr n Hn) as (d & Hd & G). exists d, (final_gate n).2.
    rewrite G. repeat (split; [done|]). by apply final_gate_dpl.
  - intros irq. by apply let_through_ok.
  - intros irq h Hin. pose proof irq_gates as Hall. rewrite Forall_forall in Hall.
    specialize (Hall _ Hin). cbn in Hall. subst h.
    destruct (idt_final_gate addr (0x20 + irq)) as (d & Hd & G).
    { assert (Forall (fun x => 0 <= x.1 < 16) irq_handlers) as Hr by (repeat (constructor; [cbn; lia|]); constructor).
      rewrite Forall_forall in Hr. specialize (Hr _ Hin). cbn in Hr. lia. }
    exists d. by rewrite G.
Qed.

(** Two 8259s that answer as they were told. *)
Definition board : Machine := {| port_byte t port := imr port t; port_words _ _ _ := 0 |}.
Lemma start_irqs_ready_witness : exists s, start_irqs (H := board) (fun _ => 0x7000) (Tables [] []) = Ok tt s /\
  let_through 0 (bus s) = true /\ let_through 5 (bus s) = false.
Proof.
  destruct (@start_irqs_ready board (Build_Controllers board (fun _ => eq_refl) (fun _ => eq_refl)) (fun _ => 0x7000))
    as (s & E & _ & L & _).
  exists s. split; [exact E|]. split; [apply L; [lia|right; apply (bool_decide_eq_true _); reflexivity]|].
  apply not_true_iff_false. rewrite L by lia. apply (bool_decide_eq_false _). reflexivity.
Defined.
