(* ===== verification/Traps.v ===== *)
(** * Traps: kernel/traps.c, printk.c, panic.c and math/math_emulate.c

    A trap's routine is called from asm.s with the address of the words the
    processor pushed: eip, cs, eflags, and the esp and ss of a user program.
    They are [esp], a list. *)

From Stdlib Require Import ZArith Lia.
From stdpp Require Import base numbers list gmap strings.
From S2P Require Import Prelude Memory Task Sched TtyData Kernel Buffer TtyIo Exit Ports Gates.
From S2P Require Vsprintf.

(** ** [printk] *)

(** A string literal as the compiler stores it. *)
Fixpoint unescape (l : list Z) : list Z :=
  match l with
  | 92 :: 110 :: l => 10 :: unescape l
  | 92 :: 114 :: l => 13 :: unescape l
  | 92 :: 116 :: l => 9 :: unescape l
  | c :: l => c :: unescape l
  | [] => []
  end.
Definition chars (s : string) : list Z :=
  unescape ((fun a => Z.of_nat (Ascii.nat_of_ascii a)) <$> String.list_ascii_of_string s).

(** [static char buf[1024]] at address 0 of a memory of its own. *)
Definition buf_size : Z := 1024.
Definition buf_memory (text : list Z) : gmap Z Z := list_to_map (zip (seqZ 0 (lenz text)) text).

Section code.
Context {E : Env}.

(** [mem] gives the strings behind the arguments of %s. No message uses %n.
    [tty_write] reads behind fs, which is the kernel's data for the time being. *)
Definition printk (mem : Z -> list Z) (fmt : string) (args : list Z) : M kernel Z :=
  match Vsprintf.vsprintf mem (chars fmt) args with
  | None => fault
  | Some (text, _, i) =>
    if buf_size <? lenz text then fault else
    let! fs := gets user in
    do! modify (fun s => s <| user := buf_memory text |>) in
    let! r := tty_write 0 0 i in
    do! modify (fun s => s <| user := fs |>) in
    ret i
  end.
Definition say (fmt : string) (args : list Z) : M kernel unit :=
  let! i := printk (fun _ => []) fmt args in ret tt.

(** ** [panic]

    A routine that panics ends with the outcome [Panic] and its message; what
    [panic] does then is [kernel_panic], and it never comes back. *)
Definition kernel_panic (msg : string) : M kernel unit :=
  let! _ := printk (fun _ => chars msg) "Kernel panic: %s\n" [0] in
  let! nr := on_sched (gets current) in
  do! (if nr =? 0 then say "In swapper task - not syncing\n" [] else let! _ := sys_sync in ret tt) in
  Prelude.blocked.

(** A routine, with what follows its panic. *)
Definition with_panic {A} (m : M kernel A) : M kernel A := fun s =>
  match m s with
  | Panic msg s' => (do! kernel_panic msg in Prelude.blocked) s'
  | o => o
  end.

(** ** [die] *)

(** [seg_byte seg a]: the byte at an address of a segment, as the processor
    reads it; [fs] is the selector in the register. *)
Context (seg_byte : Z -> Z -> Z) (fs : Z).
Definition get_seg_byte (seg a : Z) : Z := s8 (seg_byte seg (u32 a)).
Definition get_seg_long (seg a : Z) : Z :=
  seg_byte seg (u32 a) + seg_byte seg (u32 (a + 1)) * 256 + seg_byte seg (u32 (a + 2)) * 65536 +
  seg_byte seg (u32 (a + 3)) * 16777216.

Fixpoint say_each (fmt : string) (f : Z -> Z) (i : Z) (n : nat) : M kernel unit :=
  match n with
  | O => ret tt
  | Datatypes.S n => do! say fmt [f i] in say_each fmt f (i + 1) n
  end.

Definition die (str : string) (esp : list Z) (nr : Z) : M kernel unit :=
  let! _ := printk (fun _ => chars str) "%s: %04x\n\r" [0; Z.land nr 0xffff] in
  let! eip := valid (getz esp 0) in
  let! cs := valid (getz esp 1) in
  let! eflags := valid (getz esp 2) in
  let! sp := valid (getz esp 3) in
  let! ss := valid (getz esp 4) in
  do! say "EIP:\t%04x:%p\nEFLAGS:\t%p\nESP:\t%04x:%p\n" [cs; eip; eflags; ss; sp] in
  do! say "fs: %04x\n" [fs] in
  let! t := on_sched get_current in
  let! d1 := valid (getz (ldt t) 1) in
  let! d2 := valid (getz (ldt t) 2) in
  do! say "base: %p, limit: %p\n" [get_base d1; get_limit d2] in
  do! when (ss =? 0x17)
    (do! say "Stack: " [] in
     do! say_each "%p " (fun i => get_seg_long 0x17 (sp + 4 * i)) 0 4 in
     say "\n" []) in
  let! i := on_sched (gets current) in
  let! t := on_sched get_current in
  do! say "Pid: %d, process nr: %d\n\r" [pid t; Z.land 0xffff i] in
  do! say_each "%02x " (fun i => Z.land 0xff (get_seg_byte cs (eip + i))) 0 10 in
  do! say "\n\r" [] in
  let! err := do_exit (A := Z) 11 in
  ret tt.

(** ** The routines asm.s calls *)

Definition do_double_fault (esp : list Z) (error_code : Z) : M kernel unit := die "double fault" esp error_code.
Definition do_general_protection (esp : list Z) (error_code : Z) : M kernel unit :=
  die "general protection" esp error_code.
Definition do_divide_error (esp : list Z) (error_code : Z) : M kernel unit := die "divide error" esp error_code.

(** [regs]: the words above the two arguments, from [fs] to [eax]; [tr] is the
    task register, [at_esp] the value of the pointer [esp]. *)
Definition do_int3 (esp : list Z) (at_esp tr : Z) (regs : list Z) : M kernel unit :=
  let reg i := valid (getz regs i) in
  let! rfs := reg 0 in let! res := reg 1 in let! rds := reg 2 in
  let! rebp := reg 3 in let! resi := reg 4 in let! redi := reg 5 in
  let! redx := reg 6 in let! recx := reg 7 in let! rebx := reg 8 in let! reax := reg 9 in
  let! eip := valid (getz esp 0) in
  let! cs := valid (getz esp 1) in
  let! eflags := valid (getz esp 2) in
  do! say "eax\t\tebx\t\tecx\t\tedx\n\r%8x\t%8x\t%8x\t%8x\n\r" [reax; rebx; recx; redx] in
  do! say "esi\t\tedi\t\tebp\t\tesp\n\r%8x\t%8x\t%8x\t%8x\n\r" [resi; redi; rebp; at_esp] in
  do! say "\n\rds\tes\tfs\ttr\n\r%4x\t%4x\t%4x\t%4x\n\r" [rds; res; rfs; tr] in
  say "EIP: %8x   CS: %4x  EFLAGS: %8x\n\r" [eip; cs; eflags].

Definition do_nmi (esp : list Z) (error_code : Z) : M kernel unit := die "nmi" esp error_code.
Definition do_debug (esp : list Z) (error_code : Z) : M kernel unit := die "debug" esp error_code.
Definition do_overflow (esp : list Z) (error_code : Z) : M kernel unit := die "overflow" esp error_code.
Definition do_bounds (esp : list Z) (error_code : Z) : M kernel unit := die "bounds" esp error_code.
Definition do_invalid_op (esp : list Z) (error_code : Z) : M kernel unit := die "invalid operand" esp error_code.
Definition do_device_not_available (esp : list Z) (error_code : Z) : M kernel unit :=
  die "device not available" esp error_code.
Definition do_coprocessor_segment_overrun (esp : list Z) (error_code : Z) : M kernel unit :=
  die "coprocessor segment overrun" esp error_code.
Definition do_invalid_TSS (esp : list Z) (error_code : Z) : M kernel unit := die "invalid TSS" esp error_code.
Definition do_segment_not_present (esp : list Z) (error_code : Z) : M kernel unit :=
  die "segment not present" esp error_code.
Definition do_stack_segment (esp : list Z) (error_code : Z) : M kernel unit := die "stack segment" esp error_code.
Definition do_coprocessor_error (esp : list Z) (error_code : Z) : M kernel unit :=
  let! s := on_sched (gets id) in
  if bool_decide (last_task_used_math s = Some (current s)) then die "coprocessor error" esp error_code else ret tt.
Definition do_reserved (esp : list Z) (error_code : Z) : M kernel unit :=
  die "reserved (15,17-47) error" esp error_code.

(** ** The entries of asm.s

    [no_error_code] pushes 0 where the processor pushes no error code. The
    entry of the debug trap pushes the address of [do_int3]. The entries that
    are not here do not come through traps.c. *)
Definition trap (i : isr) (esp : list Z) (error_code at_esp tr : Z) (regs : list Z) : option (M kernel unit) :=
  match i with
  | divide_error => Some (do_divide_error esp 0)
  | debug => Some (do_int3 esp at_esp tr regs)
  | nmi => Some (do_nmi esp 0)
  | int3 => Some (do_int3 esp at_esp tr regs)
  | overflow => Some (do_overflow esp 0)
  | bounds => Some (do_bounds esp 0)
  | invalid_op => Some (do_invalid_op esp 0)
  | coprocessor_segment_overrun => Some (do_coprocessor_segment_overrun esp 0)
  | reserved => Some (do_reserved esp 0)
  | double_fault => Some (do_double_fault esp error_code)
  | invalid_TSS => Some (do_invalid_TSS esp error_code)
  | segment_not_present => Some (do_segment_not_present esp error_code)
  | stack_segment => Some (do_stack_segment esp error_code)
  | general_protection => Some (do_general_protection esp error_code)
  | _ => None
  end.

(** ** The coprocessor: kernel/math/math_emulate.c *)

Definition SIGFPE : Z := 8.

Definition raise_fpe (n : Z) : M kernel unit :=
  on_sched (update_task n (fun t => t <| signal ::= fun x => Z.lor x (sigbit SIGFPE) |>)).

(** The eip of the frame is advanced, where the program goes on: it is the result. *)
Definition math_emulate (eip cs : Z) : M kernel Z :=
  if negb (cs =? 0x000F) then
    do! say "math_emulate: %04x:%08x\n\r" [cs; eip] in
    panic "Math emulation needed in kernel"
  else
    let! first := get_fs_byte eip in
    let eip := u32 (eip + 1) in
    let! second := get_fs_byte eip in
    let eip := u32 (eip + 1) in
    do! say "%04x:%08x %02x %02x\n\r" [cs; u32 (eip - 2); first; second] in
    let! c := on_sched (gets current) in
    do! raise_fpe c in
    ret eip.

Definition math_error : M kernel unit :=
  let! o := on_sched (gets last_task_used_math) in
  match o with Some n => raise_fpe n | None => ret tt end.
End code.

#[global] Instance isr_eq_dec : EqDecision isr.
Proof. solve_decision. Defined.

(** ** What a trap comes to *)

Section theorems.
Context {E : Env} (seg_byte : Z -> Z -> Z) (fs : Z).

Lemma wlp_any {A} (m : M kernel A) s : wlp m (fun _ _ => True) s.
Proof. unfold wlp. by destruct (m s). Qed.
Lemma wlp_then {A B} (m : M kernel A) (k : A -> M kernel B) (Q : B -> kernel -> Prop) s :
  (forall a s, wlp (k a) Q s) -> wlp (bind m k) Q s.
Proof. intros Hk. apply wlp_bind. eapply wlp_mono; [apply wlp_any|]. intros a s' _. apply Hk. Qed.

(** A panic does not come back, and nothing else is changed by it. *)
Lemma kernel_panic_ends msg s : wlp (kernel_panic msg) (fun _ _ => False) s.
Proof. unfold kernel_panic. repeat (apply wlp_then; intros). done. Qed.
Lemma with_panic_ok {A} (m : M kernel A) a s s' : with_panic m s = Ok a s' <-> m s = Ok a s'.
Proof.
  unfold with_panic. split; [|by intros ->]. destruct (m s) as [|msg s1| | |]; try done.
  intros Hok. assert (wlp (do! kernel_panic msg in Prelude.blocked : M kernel A) (fun _ _ => False) s1) as Hw.
  { apply wlp_bind. eapply wlp_mono; [apply kernel_panic_ends|done]. }
  unfold wlp in Hw. by rewrite Hok in Hw.
Qed.

(** [do_exit] does not come back. *)
Lemma do_exit_ends {A} code s : wlp (do_exit (A := A) code) (fun _ _ => False) s.
Proof. unfold do_exit. repeat (apply wlp_then; intros). done. Qed.

Lemma die_ends str esp nr s : wlp (die seg_byte fs str esp nr) (fun _ _ => False) s.
Proof.
  unfold die. do 18 (apply wlp_then; intros). apply wlp_bind. eapply wlp_mono; [apply do_exit_ends|]. by intros.
Qed.

Lemma trap_ends i esp nr at_esp tr regs : i ∉ [debug; int3] ->
  match trap seg_byte fs i esp nr at_esp tr regs with
  | Some m => forall s, wlp m (fun _ _ => False) s
  | None => True
  end.
Proof.
  intros Hi. destruct i; cbn [trap]; try exact I.
  all: lazymatch goal with
       | |- context [do_int3] => destruct Hi; apply (bool_decide_eq_true _); reflexivity
       | |- _ => intros s; exact (die_ends _ _ _ s)
       end.
Qed.
Definition has_routine (i : isr) : bool :=
  match trap seg_byte fs i [] 0 0 0 [] with Some _ => true | None => false end.
Lemma has_routine_ok i esp nr at_esp tr regs : has_routine i = true ->
  exists m, trap seg_byte fs i esp nr at_esp tr regs = Some m.
Proof. destruct i; cbn; intros H; try discriminate H; by eexists. Qed.

(** Of the exceptions of the processor all but the two of a debugger, the page
    fault and the two of the coprocessor end the task: none of them goes back
    to the instruction that caused it. *)
Theorem exceptions_end n esp nr at_esp tr regs : 0 <= n < 32 -> n ∉ [1; 3; 7; 14; 16] ->
  exists m, trap seg_byte fs (final_gate n).2 esp nr at_esp tr regs = Some m /\
  forall s, wlp m (fun _ _ => False) s.
Proof.
  intros Hn Hnot.
  assert (Forall (fun n => n ∈ [1; 3; 7; 14; 16] \/ (has_routine (final_gate n).2 = true /\ (final_gate n).2 ∉ [debug; int3]))
    (seqZ 0 32)) as Hall.
  { repeat (constructor; [first [left; apply (bool_decide_eq_true _); reflexivity
      | right; split; [reflexivity|apply (bool_decide_eq_true _); reflexivity]]|]). constructor. }
  rewrite Forall_forall in Hall. destruct (Hall n ltac:(apply elem_of_seqZ; lia)) as [Hin|[Hr Hd]]; [done|].
  destruct (has_routine_ok _ esp nr at_esp tr regs Hr) as [m Hm]. exists m. split; [done|].
  pose proof (trap_ends _ esp nr at_esp tr regs Hd) as He. by rewrite Hm in He.
Qed.
End theorems.
