(* ===== verification/SystemCall.v ===== *)
(** * From user mode into the kernel and back: kernel/system_call.s, include/unistd.h

    The entry of the system call with its table, what is done before it goes
    back to the program, and the macros and routines of lib/ that programs
    call. *)

From Stdlib Require Import ZArith Lia.
From stdpp Require Import base numbers list gmap strings.
From S2P Require Import Prelude Memory Task Sched TtyData Kernel CharDev Signal SysCalls.
From S2P Require Import Bitmap BitmapSearch UserMem TaskProofs FileCounts Termios ExecStack.

(** What the processor pushed when the program was interrupted. *)
Record user_frame := UserFrame {
  u_eip : Z; u_cs : Z; u_eflags : Z; u_esp : Z; u_ss : Z
}.

Definition nr_system_calls : Z := 72.

Section code.
Context {E : Env}.

Definition ret_from_sys_call (eax ecx edx : Z) (f : user_frame) : M kernel frame :=
  let back := Frame (u_eip f) (u_esp f) in
  let! c := on_sched (gets current) in
  if c =? 0 then ret back else
  if u16 (u_cs f) =? 0x08 then ret back else
  if u16 (u_ss f) =? 0x10 then ret back else
  let! t := on_sched get_current in
  match bsfl (Z.land (signal t) (u32 (Z.lnot (blocked t)))) with
  | None => ret back
  | Some n =>
    do! on_sched (update_current (fun t => t <| signal ::= fun x => Z.clearbit x n |>)) in
    do_signal (n + 1) eax ecx edx (u_eip f) (u_eflags f) (u_esp f)
  end.

(** [elsewhere nr a b c]: setup, fork and execve, which need registers the
    table does not pass on. *)
Context (elsewhere : Z -> Z -> Z -> Z -> M kernel Z).

Definition reschedule : M kernel unit :=
  let! t := on_sched get_current in
  when (negb (state t =? 0) || (counter t =? 0)) schedule.

Definition call_entry (nr ebx ecx edx : Z) : M kernel Z :=
  let! e := valid (getz sys_call_table nr) in
  match e with
  | InSched f => on_sched (f ebx ecx edx)
  | InKernel f => f ebx ecx edx
  | Elsewhere => elsewhere nr ebx ecx edx
  end.

(** The value in eax when the program goes on, and where it does. *)
Definition system_call (eax ebx ecx edx : Z) (f : user_frame) : M kernel (Z * frame) :=
  if nr_system_calls - 1 <? u32 eax then ret (-1, Frame (u_eip f) (u_esp f)) else
  let! r := call_entry (u32 eax) ebx ecx edx in
  do! reschedule in
  let! back := ret_from_sys_call r ecx edx f in
  ret (r, back).
End code.

(** ** Signals are delivered on the way back *)

(** The words a handler finds at its stack pointer. *)
Definition signal_words (sa : sigaction_t) (signr mask eax ecx edx eflags eip : Z) : list Z :=
  sa_restorer sa :: signr :: (if istrue (Z.land (sa_flags sa) SA_NOMASK) then [] else [mask]) ++ [eax; ecx; edx; eflags; eip].

Lemma push_longs_ok l a s : push_longs l a s = Ok tt (s <| user ::= write_user (words l) a |>).
Proof.
  revert a s. induction l as [|w l IH]; intros a s; cbn [push_longs]; [by destruct s|].
  rewrite (bind_ok _ _ _ _ _ (put_fs_long_ok _ _ _)), IH. f_equal. apply upd_words_cons.
Qed.

Lemma on_sched_gets {A} (f : sched -> A) s : on_sched (gets f) s = Ok (f (sch s)) s.
Proof. by destruct s. Qed.

(** [verify_area] looks at the descriptors of the task only. *)
Lemma verify_area_with_current a n s s' t t' :
  current_task (sch s) = Some t -> ldt t' = ldt t -> verify_area a n s = Ok tt s' ->
  exists x, s' = s <| memory := x |> /\
    verify_area a n (s <| sch ::= with_current t' |>) = Ok tt (s <| sch ::= with_current t' |> <| memory := x |>).
Proof.
  intros Ht Hl. assert (current_task (sch (s <| sch ::= with_current t' |>)) = Some t') as Ht'
    by (apply current_with_current; by rewrite Ht).
  unfold verify_area. rewrite (bind_ok _ _ _ _ _ (on_sched_current _ _ Ht)), (bind_ok _ _ _ _ _ (on_sched_current _ _ Ht')), Hl.
  destruct (getz (ldt t) 2) as [d|]; [|done]. cbn [valid]. run_step. run_step. cbv zeta.
  unfold on_memory, zoom. change (memory (s <| sch ::= with_current t' |>)) with (memory s).
  destruct (verify_pages _ _ (memory s)) as [[] m'| | | |]; try done. intros [= <-]. exists m'. by destruct s.
Qed.

Definition after_oneshot (signr : Z) (sa : sigaction_t) (t : task_struct) : task_struct :=
  if istrue (Z.land (sa_flags sa) SA_ONESHOT)
  then t <| sigaction ::= fun l => setz l (signr - 1) (sa <| sa_handler := 0 |>) |> else t.

Lemma action_of_ok s t signr sa : current_task (sch s) = Some t -> getz (sigaction t) (signr - 1) = Some sa ->
  on_sched (action_of signr) s = Ok sa s.
Proof.
  intros Ht Ha. unfold on_sched, zoom, action_of. rewrite (bind_ok _ _ _ _ _ (get_current_ok _ _ Ht)), Ha. by destruct s.
Qed.

Lemma oneshot_ok s t signr sa : current_task (sch s) = Some t -> getz (sigaction t) (signr - 1) = Some sa ->
  when (istrue (Z.land (sa_flags sa) SA_ONESHOT)) (on_sched (set_action signr (fun a => a <| sa_handler := 0 |>))) s =
  Ok tt (s <| sch ::= with_current (after_oneshot signr sa t) |>).
Proof.
  intros Ht Ha. unfold after_oneshot. destruct (istrue _); cbn [when].
  - unfold on_sched, zoom, set_action, action_of. rewrite bind_assoc, (bind_ok _ _ _ _ _ (get_current_ok _ _ Ht)), Ha.
    cbn [valid]. run_step. by rewrite (update_current_ok _ _ _ Ht).
  - unfold ret. f_equal. symmetry. transitivity (s <| sch := sch s |>); [|by destruct s].
    exact (f_equal (fun x => s <| sch := x |>) (with_current_id _ _ Ht)).
Qed.

Lemma do_signal_ok `{Env} s t signr sa eax ecx edx eip eflags esp s' :
  current_task (sch s) = Some t -> getz (sigaction t) (signr - 1) = Some sa ->
  sa_handler sa <> 0 -> sa_handler sa <> 1 ->
  let l := signal_words sa signr (blocked t) eax ecx edx eflags eip in
  let sp := u32 (esp - 4 * lenz l) in
  verify_area sp (4 * lenz l) s = Ok tt s' ->
  exists x, s' = s <| memory := x |> /\
  do_signal signr eax ecx edx eip eflags esp s =
  Ok (Frame (sa_handler sa) sp)
     (s <| memory := x |> <| user ::= write_user (words l) sp |>
        <| sch ::= with_current ((after_oneshot signr sa t) <| blocked ::= fun b => Z.lor b (sa_mask sa) |>) |>).
Proof.
  intros Ht Ha H0 H1 l sp Hv. set (t1 := after_oneshot signr sa t).
  assert (ldt t1 = ldt t /\ blocked t1 = blocked t) as [Hldt Hbl] by (unfold t1, after_oneshot; by destruct (istrue _)).
  destruct (verify_area_with_current _ _ _ _ _ t1 Ht Hldt Hv) as (x & Hs' & Hv1). exists x. split; [done|].
  unfold do_signal. rewrite (bind_ok _ _ _ _ _ (action_of_ok _ _ _ _ Ht Ha)).
  rewrite (proj2 (Z.eqb_neq _ 1) H1), (proj2 (Z.eqb_neq _ 0) H0). cbn [andb].
  rewrite (bind_ok _ _ _ _ _ (oneshot_ok _ _ _ _ Ht Ha)). fold t1. cbv zeta.
  assert ((if istrue (Z.land (sa_flags sa) SA_NOMASK) then 7 else 8) = lenz l) as -> by (unfold l, signal_words; by destruct (istrue _)).
  fold sp. rewrite (Z.mul_comm (lenz l) 4). rewrite (bind_ok _ _ _ _ _ Hv1).
  set (s2 := s <| sch ::= with_current t1 |> <| memory := x |>).
  assert (current_task (sch s2) = Some t1) as Ht2 by (apply current_with_current; by rewrite Ht).
  rewrite (bind_ok _ _ _ _ _ (on_sched_current _ _ Ht2)), Hbl. fold (signal_words sa signr (blocked t) eax ecx edx eflags eip). fold l.
  rewrite (bind_ok _ _ _ _ _ (push_longs_ok _ _ _)).
  assert (current_task (sch (s2 <| user ::= write_user (words l) sp |>)) = Some t1) as Ht3 by done.
  rewrite (bind_ok _ _ _ _ _ (on_sched_update _ _ _ Ht3)). unfold ret. f_equal.
  exact (f_equal (fun c => s <| memory := x |> <| user ::= write_user (words l) sp |> <| sch := c |>)
    (with_current_twice t1 (t1 <| blocked ::= fun b => Z.lor b (sa_mask sa) |>) (sch s))).
Qed.

(** C22: On the way back to a program with a signal that is pending and not blocked,
    the lowest-numbered one is no longer pending, and is delivered: the program
    goes on in its handler, with the signal's frame on its stack - the restorer,
    the number, the old mask unless the handler asked not to be masked, the
    registers, and the place it was interrupted at - and with the handler's mask
    added; a one-shot handler is gone. *)
Theorem signal_delivered `{Env} s t n sa eax ecx edx f s' :
  current_task (sch s) = Some t -> current (sch s) <> 0 -> u16 (u_cs f) <> 0x08 -> u16 (u_ss f) <> 0x10 ->
  let pending := Z.land (signal t) (u32 (Z.lnot (blocked t))) in
  0 <= n < 32 -> Z.testbit pending n = true -> (forall k, 0 <= k < n -> Z.testbit pending k = false) ->
  getz (sigaction t) n = Some sa -> sa_handler sa <> 0 -> sa_handler sa <> 1 ->
  let l := signal_words sa (n + 1) (blocked t) eax ecx edx (u_eflags f) (u_eip f) in
  let sp := u32 (u_esp f - 4 * lenz l) in
  verify_area sp (4 * lenz l) s = Ok tt s' ->
  exists t', t' = (after_oneshot (n + 1) sa (t <| signal ::= fun x => Z.clearbit x n |>))
                    <| blocked ::= fun b => Z.lor b (sa_mask sa) |> /\
  ret_from_sys_call eax ecx edx f s =
  Ok (Frame (sa_handler sa) sp) (s' <| user ::= write_user (words l) sp |> <| sch ::= with_current t' |>).
Proof.
  intros Ht Hc Hcs Hss pending Hn Hbit Hlow Ha H0 H1 l sp Hv. eexists. split; [reflexivity|].
  unfold ret_from_sys_call. run (on_sched_gets current s).
  rewrite (proj2 (Z.eqb_neq _ 0) Hc), (proj2 (Z.eqb_neq _ 0x08) Hcs), (proj2 (Z.eqb_neq _ 0x10) Hss).
  run (on_sched_current _ _ Ht). fold pending.
  assert (bsfl pending = Some n) as ->.
  { unfold bsfl. pose proof (bsfl_from_spec 32 0 pending) as Hspec. destruct (bsfl_from 32 0 pending) as [k|].
    - destruct Hspec as (Hk & Hbk & Hlk). f_equal. destruct (Z.lt_trichotomy k n) as [Hlt|[->|Hgt]]; [|done|].
      + by rewrite Hlow in Hbk by lia.
      + by rewrite Hlk in Hbit by lia.
    - by rewrite Hspec in Hbit by lia. }
  run (on_sched_update _ _ (fun t => t <| signal ::= fun x => Z.clearbit x n |>) Ht).
  set (t1 := t <| signal ::= _ |>). set (s1 := s <| sch ::= _ |>).
  assert (current_task (sch s1) = Some t1) as Ht1 by (apply current_with_current; by rewrite Ht).
  destruct (verify_area_with_current _ _ _ _ _ t1 Ht eq_refl Hv) as (x & -> & Hv1).
  assert (getz (sigaction t1) (n + 1 - 1) = Some sa) as Ha1 by (by replace (n + 1 - 1) with n by lia).
  destruct (do_signal_ok s1 t1 (n + 1) sa eax ecx edx (u_eip f) (u_eflags f) (u_esp f) _ Ht1 Ha1 H0 H1 Hv1) as (y & Ey & ->).
  apply (f_equal memory) in Ey. change (x = y) in Ey. subst y. f_equal.
  set (t2 := (after_oneshot (n + 1) sa t1) <| blocked ::= fun b => Z.lor b (sa_mask sa) |>).
  exact (f_equal (fun c => s <| memory := x |> <| user ::= write_user (words l) sp |> <| sch := c |>)
    (with_current_twice t1 t2 (sch s))).
Qed.
