(* ===== verification/Unistd.v ===== *)
(** * System calls as programs make them: include/unistd.h and lib/

    A program is the kernel together with the program's own [errno]; its
    memory is the one behind fs. *)

From Stdlib Require Import ZArith Lia.
From stdpp Require Import base numbers list gmap strings.
From S2P Require Import Prelude Memory Task Sched TtyData Kernel CharDev Signal SysCalls SystemCall.

Definition __NR_setup : Z := 0.
Definition __NR_exit : Z := 1.
Definition __NR_fork : Z := 2.
Definition __NR_read : Z := 3.
Definition __NR_write : Z := 4.
Definition __NR_open : Z := 5.
Definition __NR_close : Z := 6.
Definition __NR_waitpid : Z := 7.
Definition __NR_creat : Z := 8.
Definition __NR_link : Z := 9.
Definition __NR_unlink : Z := 10.
Definition __NR_execve : Z := 11.
Definition __NR_chdir : Z := 12.
Definition __NR_time : Z := 13.
Definition __NR_mknod : Z := 14.
Definition __NR_chmod : Z := 15.
Definition __NR_chown : Z := 16.
Definition __NR_break : Z := 17.
Definition __NR_stat : Z := 18.
Definition __NR_lseek : Z := 19.
Definition __NR_getpid : Z := 20.
Definition __NR_mount : Z := 21.
Definition __NR_umount : Z := 22.
Definition __NR_setuid : Z := 23.
Definition __NR_getuid : Z := 24.
Definition __NR_stime : Z := 25.
Definition __NR_ptrace : Z := 26.
Definition __NR_alarm : Z := 27.
Definition __NR_fstat : Z := 28.
Definition __NR_pause : Z := 29.
Definition __NR_utime : Z := 30.
Definition __NR_stty : Z := 31.
Definition __NR_gtty : Z := 32.
Definition __NR_access : Z := 33.
Definition __NR_nice : Z := 34.
Definition __NR_ftime : Z := 35.
Definition __NR_sync : Z := 36.
Definition __NR_kill : Z := 37.
Definition __NR_rename : Z := 38.
Definition __NR_mkdir : Z := 39.
Definition __NR_rmdir : Z := 40.
Definition __NR_dup : Z := 41.
Definition __NR_pipe : Z := 42.
Definition __NR_times : Z := 43.
Definition __NR_prof : Z := 44.
Definition __NR_brk : Z := 45.
Definition __NR_setgid : Z := 46.
Definition __NR_getgid : Z := 47.
Definition __NR_signal : Z := 48.
Definition __NR_geteuid : Z := 49.
Definition __NR_getegid : Z := 50.
Definition __NR_acct : Z := 51.
Definition __NR_phys : Z := 52.
Definition __NR_lock : Z := 53.
Definition __NR_ioctl : Z := 54.
Definition __NR_fcntl : Z := 55.
Definition __NR_mpx : Z := 56.
Definition __NR_setpgid : Z := 57.
Definition __NR_ulimit : Z := 58.
Definition __NR_uname : Z := 59.
Definition __NR_umask : Z := 60.
Definition __NR_chroot : Z := 61.
Definition __NR_ustat : Z := 62.
Definition __NR_dup2 : Z := 63.
Definition __NR_getppid : Z := 64.
Definition __NR_getpgrp : Z := 65.
Definition __NR_setsid : Z := 66.
Definition __NR_sigaction : Z := 67.
Definition __NR_sgetmask : Z := 68.
Definition __NR_ssetmask : Z := 69.
Definition __NR_setreuid : Z := 70.
Definition __NR_setregid : Z := 71.

Record program := Program { krn : kernel; errno : Z }.
#[global] Instance program_fields : Fields program := fun x => Program (krn x) (errno x).
#[global] Instance set_krn : Setter krn := ltac:(solve_setter).
#[global] Instance set_errno : Setter errno := ltac:(solve_setter).
Definition on_krn {A} (m : M kernel A) : M program A := zoom krn (fun t s => s <| krn := t |>) m.

Section code.
Context {E : Env}.
Context (elsewhere : Z -> Z -> Z -> Z -> M kernel Z).

(** [at_int]: where the program stands with its [int $0x80]; [handler] runs the
    program's signal handler at the frame it was given, and comes back. *)
Context (at_int : user_frame) (handler : frame -> M program unit).

Definition int_0x80 (eax ebx ecx edx : Z) : M program Z :=
  let! '(r, back) := on_krn (system_call elsewhere eax ebx ecx edx at_int) in
  do! when (negb ((fr_eip back =? u_eip at_int) && (fr_esp back =? u_esp at_int))) (handler back) in
  ret r.

(** [if (__res >= 0) return (type)__res; errno = -__res; return -1;] *)
Definition errno_result (__res : Z) : M program Z :=
  if 0 <=? __res then ret __res else
  do! modify (fun s => s <| errno := s32 (- __res) |>) in ret (-1).

(** The registers a macro does not set hold what the compiler left there. *)
Context (junk : Z).
Definition _syscall0 (nr : Z) : M program Z := let! r := int_0x80 nr junk junk junk in errno_result r.
Definition _syscall1 (nr a : Z) : M program Z := let! r := int_0x80 nr a junk junk in errno_result r.
Definition _syscall2 (nr a b : Z) : M program Z := let! r := int_0x80 nr a b junk in errno_result r.
Definition _syscall3 (nr a b c : Z) : M program Z := let! r := int_0x80 nr a b c in errno_result r.

(** lib/ and the calls init/main.c defines for itself. *)
Definition lib_open (filename flag mode : Z) : M program Z :=
  let! res := int_0x80 __NR_open filename flag mode in
  if 0 <=? res then ret res else
  do! modify (fun s => s <| errno := s32 (- res) |>) in ret (-1).
Definition lib_close (fd : Z) : M program Z := _syscall1 __NR_close fd.
Definition lib_dup (fd : Z) : M program Z := _syscall1 __NR_dup fd.
Definition lib_write (fd buf count : Z) : M program Z := _syscall3 __NR_write fd buf count.
Definition lib_execve (file argv envp : Z) : M program Z := _syscall3 __NR_execve file argv envp.
Definition lib_setsid : M program Z := _syscall0 __NR_setsid.
Definition lib_waitpid (pid wait_stat options : Z) : M program Z := _syscall3 __NR_waitpid pid wait_stat options.
Definition lib_wait (wait_stat : Z) : M program Z := lib_waitpid (-1) wait_stat 0.
Definition lib__exit (exit_code : Z) : M program unit := let! _ := int_0x80 __NR_exit exit_code junk junk in ret tt.
Definition lib_fork : M program Z := _syscall0 __NR_fork.
Definition lib_pause : M program Z := _syscall0 __NR_pause.
Definition lib_setup (BIOS : Z) : M program Z := _syscall1 __NR_setup BIOS.
Definition lib_sync : M program Z := _syscall0 __NR_sync.
End code.
