(* ===== verification/Main.v ===== *)
(** * The first programs: init() and the end of start_kernel, init/main.c

    Task 0 makes task 1, which runs [init]; what [fork] gives back decides
    whose run it is. *)

From Stdlib Require Import ZArith Lia.
From stdpp Require Import base numbers list gmap strings.
From S2P Require Import Prelude Memory Task Sched TtyData Kernel CharDev Posix Files Signal SysCalls.
From S2P Require Import TaskProofs FileCounts SystemCall Unistd Traps.
From S2P Require Vsprintf.

Section code.
Context {E : Env}.
Context (elsewhere : Z -> Z -> Z -> Z -> M kernel Z).
Context (at_int : user_frame) (handler : frame -> M program unit) (junk : Z).

(** Where the linker put the strings, tables and variables the program
    names, how many buffers the kernel has, and the bounds of its memory. *)
Context (printbuf hd_info tty0 rc sh argv_rc envp_rc argv envp stat_addr : Z).
Context (NR_BUFFERS memory_start memory_end : Z).

#[local] Abbreviation open := (lib_open elsewhere at_int handler).
#[local] Abbreviation close := (lib_close elsewhere at_int handler junk).
#[local] Abbreviation dup := (lib_dup elsewhere at_int handler junk).
#[local] Abbreviation write := (lib_write elsewhere at_int handler).
#[local] Abbreviation execve := (lib_execve elsewhere at_int handler).
#[local] Abbreviation _exit := (lib__exit elsewhere at_int handler junk).
#[local] Abbreviation fork := (lib_fork elsewhere at_int handler junk).
#[local] Abbreviation wait := (lib_wait elsewhere at_int handler).

Definition printf (fmt : string) (args : list Z) : M program Z :=
  match Vsprintf.vsprintf (fun _ => []) (chars fmt) args with
  | None => fault
  | Some (text, _, i) =>
    if 1024 <? lenz text then fault else
    do! on_krn (put_user text printbuf) in
    let! _ := write 1 printbuf i in
    ret i
  end.

(** The console as standard input, output and error. *)
Definition console_as_std : M program unit :=
  let! _ := open tty0 O_RDWR 0 in
  let! _ := dup 0 in
  let! _ := dup 0 in
  ret tt.

(** [while (pid != wait(&stat))] *)
Fixpoint wait_for (fuel : nat) (pid : Z) : M program unit :=
  match fuel with
  | O => Prelude.blocked
  | Datatypes.S fuel =>
    let! r := wait stat_addr in
    if pid =? r then ret tt else wait_for fuel pid
  end.

(** Task 2, and every later shell. *)
Definition rc_shell : M program unit :=
  let! _ := close 0 in
  let! r := open rc O_RDONLY 0 in
  do! when (negb (r =? 0)) (_exit 1) in
  let! _ := execve sh argv_rc envp_rc in
  _exit 2.
Definition login_shell : M program unit :=
  let! _ := close 0 in
  let! _ := close 1 in
  let! _ := close 2 in
  let! _ := lib_setsid elsewhere at_int handler junk in
  do! console_as_std in
  let! r := execve sh argv envp in
  _exit r.

(** [while (1)]; the inner loop has a bound of its own. *)
Fixpoint respawn (fuel : nat) : M program unit :=
  match fuel with
  | O => Prelude.blocked
  | Datatypes.S fuel' =>
    let! pid := fork in
    if pid <? 0 then let! _ := printf "Fork failed in init\n" [] in respawn fuel' else
    do! when (pid =? 0) login_shell in
    do! wait_for fuel pid in
    let! stat := on_krn (get_fs_long stat_addr) in
    let! _ := printf "\nchild %d died with code %04x\n" [pid; stat] in
    let! _ := lib_sync elsewhere at_int handler junk in
    respawn fuel'
  end.

Definition init (fuel : nat) : M program unit :=
  let! _ := lib_setup elsewhere at_int handler junk hd_info in
  do! console_as_std in
  let! _ := printf "%d buffer_head = %d bytes buffer space\n" [NR_BUFFERS; NR_BUFFERS * 1024] in
  let! _ := printf "Total available memory: %d bytes\n" [memory_end - memory_start] in
  let! pid := fork in
  do! when (pid =? 0) rc_shell in
  do! when (0 <? pid) (wait_for fuel pid) in
  do! respawn fuel in
  _exit 0.

(** [for(;;) pause();] *)
Fixpoint idle (fuel : nat) : M program unit :=
  match fuel with
  | O => Prelude.blocked
  | Datatypes.S fuel => let! _ := lib_pause elsewhere at_int handler junk in idle fuel
  end.
Definition task0 (fuel : nat) : M program unit :=
  let! pid := fork in
  do! when (pid =? 0) (init fuel) in
  idle fuel.
End code.

(** ** A system call of a task that nothing disturbs *)

(** It has time left, and no signal waits. *)
Definition undisturbed (t : task_struct) : Prop :=
  state t = 0 /\ counter t <> 0 /\ Z.land (signal t) (u32 (Z.lnot (blocked t))) = 0.

Section theorems.
Context {E : Env} (elsewhere : Z -> Z -> Z -> Z -> M kernel Z).
Context (at_int : user_frame) (handler : frame -> M program unit) (junk : Z).

Lemma back_undisturbed eax ecx edx s t : current_task (sch s) = Some t -> undisturbed t ->
  ret_from_sys_call eax ecx edx at_int s = Ok (Frame (u_eip at_int) (u_esp at_int)) s.
Proof.
  intros Ht (_ & _ & Hp). unfold ret_from_sys_call. run (on_sched_gets current s).
  destruct (_ =? 0); [done|]. destruct (_ =? 8); [done|]. destruct (_ =? 16); [done|].
  run (on_sched_current _ _ Ht). by rewrite Hp.
Qed.

Lemma system_call_ok nr f a b c r s k t : 0 <= nr < 72 -> getz sys_call_table nr = Some (InKernel f) ->
  f a b c s = Ok r k -> current_task (sch k) = Some t -> undisturbed t ->
  system_call elsewhere nr a b c at_int s = Ok (r, Frame (u_eip at_int) (u_esp at_int)) k.
Proof.
  intros Hnr He Hf Ht Hu. unfold system_call.
  assert (u32 nr = nr) as -> by (apply Z.mod_small; lia). unfold nr_system_calls.
  rewrite (proj2 (Z.ltb_ge (72 - 1) nr)) by lia. unfold call_entry. rewrite He. cbn [valid]. rewrite bind_assoc. run_step.
  run Hf. unfold reschedule. rewrite bind_assoc. run (on_sched_current _ _ Ht).
  destruct Hu as (Hs & Hc & Hp). rewrite Hs, (proj2 (Z.eqb_neq _ 0) Hc). cbn [negb orb Z.eqb when]. run_step.
  by run (back_undisturbed r b c k t Ht (conj Hs (conj Hc Hp))).
Qed.

Lemma int_0x80_ok nr f a b c r s k t : 0 <= nr < 72 -> getz sys_call_table nr = Some (InKernel f) ->
  f a b c (krn s) = Ok r k -> current_task (sch k) = Some t -> undisturbed t ->
  int_0x80 elsewhere at_int handler nr a b c s = Ok r (s <| krn := k |>).
Proof.
  intros Hnr He Hf Ht Hu. unfold int_0x80, on_krn, zoom, bind.
  rewrite (system_call_ok _ _ _ _ _ _ _ _ _ Hnr He Hf Ht Hu). cbn [fr_eip fr_esp]. by rewrite !Z.eqb_refl.
Qed.

(** [free_fd] finds the lowest descriptor that is not in use. *)
Lemma free_fd_lowest n k l : 0 <= k < Z.of_nat n -> getz l k = Some None ->
  (forall j, 0 <= j < k -> exists g, getz l j = Some (Some g)) -> free_fd n 0 l = k.
Proof.
  intros Hk Hnone Hused. destruct (free_fd_spec n 0 l) as (H1 & H2 & H3). cbv zeta in *. set (r := free_fd n 0 l) in *.
  destruct (Z.lt_trichotomy r k) as [Hlt|[->|Hgt]]; [|done|].
  - destruct (Hused r ltac:(lia)) as [g Hg]. by destruct (H3 ltac:(lia) g).
  - destruct (H2 k ltac:(lia)) as [g Hg]. congruence.
Qed.

Lemma dup_lowest s t f k : current_task (sch (krn s)) = Some t -> undisturbed t -> files_ok (krn s) ->
  getz (filp t) 0 = Some (Some f) -> 0 <= k < NR_OPEN -> getz (filp t) k = Some None ->
  (forall j, 0 <= j < k -> exists g, getz (filp t) j = Some (Some g)) ->
  exists x s' t', lib_dup elsewhere at_int handler junk 0 s = Ok k s' /\ errno s' = errno s /\ files_ok (krn s') /\
    current_task (sch (krn s')) = Some t' /\ undisturbed t' /\ filp t' = setz (filp t) k (Some f) /\
    getz (file_table (krn s)) f = Some x /\ f_count x < 1281 /\
    getz (file_table (krn s')) f = Some (x <| f_count := f_count x + 1 |>).
Proof.
  intros Ht Hu Hok H0 Hk Hnone Hused.
  assert (free_fd (Z.to_nat (NR_OPEN - 0)) 0 (filp t) = k) as Hfree by (by apply free_fd_lowest).
  assert (dup_result t 0 0 = k) as Hres.
  { unfold dup_result. rewrite Hfree. cbn [orb]. change ((0 <? 0) || (NR_OPEN <=? 0)) with false. cbn [orb]. rewrite H0. cbn.
    by rewrite (proj2 (Z.leb_gt NR_OPEN k)) by lia. }
  destruct (dupfd_run (krn s) t 0 0 Ht Hok) as [[Hneg _]|(g & x & _ & Hg & Hx & _ & _ & _ & Hrun)]; [lia|].
  rewrite H0 in Hg. injection Hg as <-. rewrite Hres in Hrun.
  set (s1 := redirect (krn s) t k (Some f) f x 1) in *. pose proof (redirect_current (krn s) t k (Some f) f x 1 Ht) as Ht1.
  pose proof (fo_count _ Hok _ _ Hx) as Hc. pose proof (refs_small _ f Hok) as Hsmall.
  eexists x, (s <| krn := s1 |>), _. split_and!.
  - unfold lib_dup, _syscall1. 
    rewrite (bind_ok _ _ _ _ _ (int_0x80_ok __NR_dup (fun a _ _ => sys_dup (u32 a)) 0 junk junk k s s1 _
      ltac:(done) eq_refl Hrun Ht1 Hu)). unfold errno_result. by rewrite (proj2 (Z.leb_le 0 k)) by lia.
  - done.
  - apply (redirect_files_ok _ _ _ _ _ None); try done; [by right|by left|].
    rewrite bool_decide_true by done. by rewrite bool_decide_false.
  - exact Ht1.
  - exact Hu.
  - by upd.
  - done.
  - lia.
  - change (getz (setz (file_table (krn s)) f (x <| f_count ::= fun c => u16 (c + 1) |>)) f = Some (x <| f_count := f_count x + 1 |>)).
    rewrite getz_setz_eq by (by eapply getz_Some_lt). f_equal. unfold over, set_f_count. f_equal. apply u16_id. unfold is_u16. lia.
Qed.

End theorems.
