(* ===== verification/InodeTable.v ===== *)
(** * No inode is in the table twice

    [uniq] says of the table of inodes that no two entries are the same inode
    of the same device.  Every routine below [iget] and [iput] keeps it, since
    no entry changes its inode in them; [iget] keeps it because nothing sleeps
    between the end of its search and the moment the entry gets its name. *)

From Stdlib Require Import ZArith Lia.
From stdpp Require Import base numbers list gmap strings.
From S2P Require Import Prelude Memory Task Sched Kernel Blk Buffer Posix Bitmap Inode.

Definition uniq (l : list m_inode) : Prop :=
  forall i j n m, getz l i = Some n -> getz l j = Some m ->
    i_dev n <> 0 -> i_dev m = i_dev n -> i_num m = i_num n -> i = j.

(** With the size of the table, and the type of [s_dev]. *)
Record table_ok (s : kernel) : Prop := {
  to_uniq : uniq (inode_table s);
  to_size : lenz (inode_table s) <= NR_INODE;
  to_devs : Forall (fun sb => is_u16 (s_dev sb)) (super_block s)
}.

Lemma table_ok_ext s s' : inode_table s' = inode_table s -> super_block s' = super_block s -> table_ok s -> table_ok s'.
Proof. intros E1 E2 [H1 H2 H3]. split; by rewrite ?E1, ?E2. Qed.

(** What it needs of the drivers and of what runs during a sleep. *)
Class Tidy (E : Env) : Prop := {
  interfere_tidy : forall q n s, table_ok s -> table_ok (interfere q n s);
  start_driver_tidy : forall major s, table_ok s -> table_ok (start_driver major s)
}.

Definition kept {A} (m : M kernel A) : Prop := forall s, table_ok s -> wlp m (fun _ s' => table_ok s') s.

(** An entry may be changed when it stays the same inode, or becomes none. *)
Definition same_inode (f : m_inode -> m_inode) : Prop :=
  forall n, i_dev (f n) = 0 \/ (i_dev (f n) = i_dev n /\ i_num (f n) = i_num n).

Lemma uniq_setz l i n n' : uniq l -> getz l i = Some n ->
  i_dev n' = 0 \/ (i_dev n' = i_dev n /\ i_num n' = i_num n) -> uniq (setz l i n').
Proof.
  intros Hl Hi Hn a b x y Ha Hb Hd Hdev Hnum.
  assert (0 <= i < lenz l) as Hr by (by eapply getz_Some_lt).
  destruct (decide (a = i)) as [->|Hai], (decide (b = i)) as [->|Hbi]; [done|..].
  - rewrite getz_setz_eq in Ha by done. rewrite getz_setz_ne in Hb by done. injection Ha as <-.
    destruct Hn as [?|[E1 E2]]; [done|]. apply (Hl i b n y); congruence.
  - rewrite getz_setz_ne in Ha by done. rewrite getz_setz_eq in Hb by done. injection Hb as <-.
    destruct Hn as [?|[E1 E2]]; [congruence|]. apply (Hl a i x n); congruence.
  - rewrite getz_setz_ne in Ha, Hb by done. by apply (Hl a b x y).
Qed.

(** ** The routines of the monad *)

Lemma kept_ret {A} (a : A) : kept (ret a).
Proof. by intros s Hs. Qed.
Lemma kept_blocked {A} : kept (Prelude.blocked : M kernel A).
Proof. by intros s Hs. Qed.
Lemma kept_fault {A} : kept (fault : M kernel A).
Proof. by intros s Hs. Qed.
Lemma kept_panic {A} msg : kept (panic msg : M kernel A).
Proof. by intros s Hs. Qed.
Lemma kept_gets {A} (f : kernel -> A) : kept (gets f).
Proof. by intros s Hs. Qed.
Lemma kept_valid {A} (o : option A) : kept (valid o).
Proof. by destruct o; intros s Hs. Qed.
Lemma kept_modify f : (forall s, inode_table (f s) = inode_table s /\ super_block (f s) = super_block s) -> kept (modify f).
Proof. intros Hf s Hs. unfold wlp, modify. destruct (Hf s). by apply (table_ok_ext s). Qed.
Lemma kept_bind {A B} (m : M kernel A) (k : A -> M kernel B) : kept m -> (forall a, kept (k a)) -> kept (bind m k).
Proof. intros Hm Hk s Hs. apply wlp_bind. eapply wlp_mono; [by apply Hm|]. intros a s' Hs'. by apply Hk. Qed.
Lemma kept_when b (m : M kernel unit) : kept m -> kept (when b m).
Proof. destruct b; [done|]. intros _. apply kept_ret. Qed.
Lemma kept_for_range n lo (body : Z -> M kernel unit) : (forall i, kept (body i)) -> kept (for_range lo n body).
Proof.
  intros Hb. revert lo. induction n as [|n IH]; intros lo; [apply kept_ret|]. by apply kept_bind.
Qed.
Lemma kept_zoom {T A} (get : kernel -> T) (put : T -> kernel -> kernel) (m : M T A) :
  (forall t s, inode_table (put t s) = inode_table s /\ super_block (put t s) = super_block s) -> kept (zoom get put m).
Proof.
  intros Hp s Hs. unfold wlp, zoom. destruct (m (get s)) as [a t| | | |]; try done. destruct (Hp t s).
  by apply (table_ok_ext s).
Qed.
Lemma kept_on_sched {A} (m : M sched A) : kept (on_sched m).
Proof. by apply kept_zoom. Qed.
Lemma kept_on_memory {A} (m : M mm A) : kept (on_memory m).
Proof. by apply kept_zoom. Qed.
Lemma kept_wake_up q : kept (wake_up q).
Proof. by apply kept_modify. Qed.

Lemma table_ok_setz s i n n' : table_ok s -> getz (inode_table s) i = Some n -> uniq (setz (inode_table s) i n') ->
  table_ok (s <| inode_table ::= fun l => setz l i n' |>).
Proof. intros [H1 H2 H3] Hn Hu. split; [done| |done]. upd. by rewrite lenz_setz. Qed.

Lemma wlp_set_inode i f (Q : unit -> kernel -> Prop) s :
  (forall n, getz (inode_table s) i = Some n -> Q tt (s <| inode_table ::= fun l => setz l i (f n) |>)) ->
  wlp (set_inode i f) Q s.
Proof.
  intros HQ. unfold set_inode, get_inode, wlp, bind, gets, modify.
  destruct (getz (inode_table s) i) as [n|] eqn:Hn; [|done]. by apply HQ.
Qed.
Lemma kept_set_inode i f : same_inode f -> kept (set_inode i f).
Proof.
  intros Hf s Hs. apply wlp_set_inode. intros n Hn. apply table_ok_setz with n; [done..|].
  apply uniq_setz with n; [apply Hs|done|apply Hf].
Qed.

Section tidy.
Context {E : Env} {HE : Tidy E}.

Lemma kept_sleep_on q : kept (sleep_on q).
Proof. intros s Hs. apply interfere_tidy. by apply (table_ok_ext s). Qed.
Lemma kept_start_driver major : kept (modify (start_driver major)).
Proof. intros s Hs. by apply start_driver_tidy. Qed.
Lemma kept_wait_while fuel locked q : kept locked -> kept (wait_while fuel locked q).
Proof.
  intros Hl. induction fuel as [|fuel IH]; [apply kept_blocked|]. apply kept_bind; [done|].
  intros []; [|apply kept_ret]. apply kept_bind; [apply kept_sleep_on|done].
Qed.
End tidy.

Create HintDb kept discriminated.
#[export] Hint Constants Opaque : kept.
#[export] Hint Resolve kept_ret kept_blocked kept_fault kept_panic kept_gets kept_valid kept_on_sched kept_on_memory
  kept_wake_up kept_sleep_on kept_start_driver : kept.

(** A routine is taken apart along its binds and case distinctions. *)
Ltac kept_step :=
  first
  [ solve [eauto 2 with kept]
  | lazymatch goal with
    | |- kept (bind _ _) => apply kept_bind; [|intros ?; cbv beta]
    | |- kept (when _ _) => apply kept_when
    | |- kept (for_range _ _ _) => apply kept_for_range; intros ?; cbv beta
    | |- kept (wait_while _ _ _) => apply kept_wait_while
    | |- kept (sleep_while _ _) => apply kept_wait_while
    | |- kept (modify _) => apply kept_modify; by intros []
    | |- kept (set_inode _ _) => apply kept_set_inode; let n := fresh in intros n; first [by right | by left]
    | |- kept (if ?b then _ else _) => destruct b
    | |- kept (match ?x with _ => _ end) => destruct x
    | |- kept (let x := _ in _) => cbv zeta
    end ].
Ltac kept := repeat kept_step.

Section routines.
Context {E : Env} {HE : Tidy E}.

(** ** Requests *)

Lemma kept_get_bh i : kept (get_bh i).
Proof. unfold get_bh. kept. Qed.
Lemma kept_get_inode i : kept (get_inode i).
Proof. unfold get_inode. kept. Qed.
Lemma kept_get_sb i : kept (get_sb i).
Proof. unfold get_sb. kept. Qed.
Lemma kept_get_req i : kept (get_req i).
Proof. unfold get_req. kept. Qed.
Lemma kept_get_dev i : kept (get_dev i).
Proof. unfold get_dev. kept. Qed.
Hint Resolve kept_get_bh kept_get_inode kept_get_sb kept_get_req kept_get_dev : kept.

Lemma kept_set_bh i f : kept (set_bh i f).
Proof. unfold set_bh. kept. Qed.
Lemma kept_set_req i f : kept (set_req i f).
Proof. unfold set_req. kept. Qed.
Lemma kept_set_dev i f : kept (set_dev i f).
Proof. unfold set_dev. kept. Qed.
Hint Resolve kept_set_bh kept_set_req kept_set_dev : kept.

Lemma kept_buffer_locked bh : kept (buffer_locked bh).
Proof. unfold buffer_locked. kept. Qed.
Hint Resolve kept_buffer_locked : kept.
Lemma kept_unlock_buffer bh : kept (unlock_buffer bh).
Proof. unfold unlock_buffer. kept. Qed.
Lemma kept_lock_buffer bh : kept (lock_buffer bh).
Proof. unfold lock_buffer. kept. Qed.
Hint Resolve kept_unlock_buffer kept_lock_buffer : kept.

Lemma kept_end_request major u : kept (end_request major u).
Proof. unfold end_request. kept. Qed.
Lemma kept_check_request major : kept (check_request major).
Proof. unfold check_request. kept. Qed.
Hint Resolve kept_end_request kept_check_request : kept.
Lemma kept_ramdisk_write a l : kept (ramdisk_write a l).
Proof. unfold ramdisk_write. kept. Qed.
Lemma kept_ramdisk_read a n : kept (ramdisk_read a n).
Proof. unfold ramdisk_read. kept. Qed.
Lemma kept_load_buffer p n : kept (load_buffer p n).
Proof. unfold load_buffer. kept. Qed.
Lemma kept_store_buffer p l : kept (store_buffer p l).
Proof. unfold store_buffer. kept. Qed.
Hint Resolve kept_ramdisk_write kept_ramdisk_read kept_load_buffer kept_store_buffer : kept.
Lemma kept_ramdisk_request r : kept (ramdisk_request r).
Proof. unfold ramdisk_request. kept. Qed.
Hint Resolve kept_ramdisk_request : kept.
Lemma kept_ramdisk_loop n : kept (ramdisk_loop n).
Proof. induction n as [|n IH]; cbn [ramdisk_loop]; kept. Qed.
Hint Resolve kept_ramdisk_loop : kept.
Lemma kept_call_request_fn major : kept (call_request_fn major).
Proof. unfold call_request_fn, do_ramdisk_request. kept. Qed.
Lemma kept_elevator n t r : kept (elevator n t r).
Proof. revert t. induction n as [|n IH]; intros t; cbn [elevator]; kept. Qed.
Hint Resolve kept_call_request_fn kept_elevator : kept.
Lemma kept_add_request major req : kept (add_request major req).
Proof. unfold add_request. kept. Qed.
Lemma kept_get_request n rw ahead : kept (get_request n rw ahead).
Proof. induction n as [|n IH]; cbn [get_request]; kept. Qed.
Hint Resolve kept_add_request kept_get_request : kept.
Lemma kept_make_request major rw bh : kept (make_request major rw bh).
Proof. unfold make_request. kept. Qed.
Hint Resolve kept_make_request : kept.
Lemma kept_ll_rw_block rw bh : kept (ll_rw_block rw bh).
Proof. unfold ll_rw_block. kept. Qed.
Hint Resolve kept_ll_rw_block : kept.

(** ** The cache *)

Lemma kept_wait_on_buffer bh : kept (wait_on_buffer bh).
Proof. unfold wait_on_buffer. kept. Qed.
Lemma kept_get_hash dev block : kept (get_hash dev block).
Proof. unfold get_hash. kept. Qed.
Lemma kept_set_hash dev block v : kept (set_hash dev block v).
Proof. unfold set_hash. kept. Qed.
Lemma kept_set_bh_opt p f : kept (set_bh_opt p f).
Proof. unfold set_bh_opt. kept. Qed.
Hint Resolve kept_wait_on_buffer kept_get_hash kept_set_hash kept_set_bh_opt : kept.
Lemma kept_remove_from_queues bh : kept (remove_from_queues bh).
Proof. unfold remove_from_queues, remove_from_hash, remove_from_free. kept. Qed.
Lemma kept_insert_into_queues bh : kept (insert_into_queues bh).
Proof. unfold insert_into_queues, insert_in_free, insert_in_hash. kept. Qed.
Hint Resolve kept_remove_from_queues kept_insert_into_queues : kept.
Lemma kept_find_in_chain n l dev block : kept (find_in_chain n l dev block).
Proof. revert l. induction n as [|n IH]; intros []; cbn [find_in_chain]; kept. Qed.
Hint Resolve kept_find_in_chain : kept.
Lemma kept_find_buffer dev block : kept (find_buffer dev block).
Proof. unfold find_buffer. kept. Qed.
Hint Resolve kept_find_buffer : kept.
Lemma kept_get_from_hash_table dev block : kept (get_from_hash_table dev block).
Proof.
  unfold get_from_hash_table. induction (Datatypes.S patience) as [|n IH]; cbn [get_from_hash_loop]; kept.
Qed.
Lemma kept_brelse b : kept (brelse b).
Proof. unfold brelse. kept. Qed.
Lemma kept_free_scan n first tmp best : kept (free_scan n first tmp best).
Proof. revert tmp best. induction n as [|n IH]; intros tmp best; cbn [free_scan]; kept. Qed.
Lemma kept_clean_buffer n sync bh : (forall dev, kept (sync dev)) -> kept (clean_buffer n sync bh).
Proof. intros Hs. induction n as [|n IH]; cbn [clean_buffer]; kept. Qed.
Lemma kept_take_buffer bh dev block : kept (take_buffer bh dev block).
Proof. unfold take_buffer. kept. Qed.
Hint Resolve kept_get_from_hash_table kept_brelse kept_free_scan kept_clean_buffer kept_take_buffer : kept.
Lemma kept_getblk_loop n sync dev block : (forall dev, kept (sync dev)) -> kept (getblk_loop n sync dev block).
Proof. intros Hs. induction n as [|n IH]; cbn [getblk_loop]; unfold getblk_pass; kept. Qed.
Lemma kept_bread_with get dev block : (forall dev block, kept (get dev block)) -> kept (bread_with get dev block).
Proof. intros Hg. unfold bread_with. kept. Qed.

(** ** Inodes and super blocks *)

Lemma kept_wait_on_super i : kept (wait_on_super i).
Proof. unfold wait_on_super, super_locked. kept. Qed.
Hint Resolve kept_wait_on_super : kept.
Lemma kept_get_super dev : kept (get_super dev).
Proof.
  unfold get_super. destruct (dev =? 0); [kept|]. generalize (Z.to_nat (NR_SUPER + 1) * Datatypes.S patience)%nat as n.
  intros n. generalize 0 as i. induction n as [|n IH]; intros i; cbn [get_super_loop]; kept.
Qed.
Lemma kept_wait_on_inode i : kept (wait_on_inode i).
Proof. unfold wait_on_inode, inode_locked. kept. Qed.
Lemma kept_lock_inode i : kept (lock_inode i).
Proof. unfold lock_inode, inode_locked. kept. Qed.
Lemma kept_unlock_inode i : kept (unlock_inode i).
Proof. unfold unlock_inode. kept. Qed.
Hint Resolve kept_get_super kept_wait_on_inode kept_lock_inode kept_unlock_inode : kept.

Lemma kept_write_inode_with read i : (forall dev block, kept (read dev block)) -> kept (write_inode_with read i).
Proof. intros Hr. unfold write_inode_with. kept. Qed.
Lemma kept_sync_dev_with (write : Z -> M kernel unit) dev : (forall i, kept (write i)) ->
  kept (sync_dev_with (sync_inodes_with write) dev).
Proof. intros Hw. unfold sync_dev_with, sync_buffers, sync_inodes_with. kept. Qed.
Lemma kept_getblk dev block : kept (getblk dev block).
Proof.
  unfold getblk. generalize (Datatypes.S nesting) as n. intros n. revert dev block.
  induction n as [|n IH]; intros dev block; cbn [getblk_n]; [kept|].
  apply kept_getblk_loop. intros d. apply kept_sync_dev_with. intros i. apply kept_write_inode_with. intros d' b.
  by apply kept_bread_with.
Qed.
Hint Resolve kept_getblk : kept.
Lemma kept_bread dev block : kept (bread dev block).
Proof. apply kept_bread_with. kept. Qed.
Hint Resolve kept_bread : kept.
Lemma kept_write_inode i : kept (write_inode i).
Proof. apply kept_write_inode_with. kept. Qed.
Hint Resolve kept_write_inode : kept.
Lemma kept_sync_dev dev : kept (sync_dev dev).
Proof. apply kept_sync_dev_with. kept. Qed.
Hint Resolve kept_sync_dev : kept.

(** ** Truncation and release *)

Lemma kept_set_bit nr addr : kept (set_bit nr addr).
Proof. unfold set_bit. kept. Qed.
Lemma kept_clear_bit nr addr : kept (clear_bit nr addr).
Proof. unfold clear_bit. kept. Qed.
Lemma kept_map_slot m i : kept (map_slot m i).
Proof. unfold map_slot. kept. Qed.
Hint Resolve kept_set_bit kept_clear_bit kept_map_slot : kept.
Lemma kept_free_block dev block : kept (free_block dev block).
Proof. unfold free_block. kept. Qed.
Hint Resolve kept_free_block : kept.
Lemma kept_free_inode i : kept (free_inode i).
Proof. unfold free_inode. kept. Qed.
Lemma kept_zone_entry bh i : kept (zone_entry bh i).
Proof. unfold zone_entry. kept. Qed.
Hint Resolve kept_free_inode kept_zone_entry : kept.
Lemma kept_free_indirect free dev block : (forall dev p, kept (free dev p)) -> kept (free_indirect free dev block).
Proof. intros Hf. unfold free_indirect. kept. Qed.
Lemma kept_free_ind dev block : kept (free_ind dev block).
Proof. apply kept_free_indirect. kept. Qed.
Hint Resolve kept_free_ind : kept.
Lemma kept_free_dind dev block : kept (free_dind dev block).
Proof. apply kept_free_indirect. kept. Qed.
Lemma kept_get_zone inode i : kept (get_zone inode i).
Proof. unfold get_zone. kept. Qed.
Lemma kept_set_zone inode i v : kept (set_zone inode i v).
Proof. unfold set_zone. kept. Qed.
Hint Resolve kept_free_dind kept_get_zone kept_set_zone : kept.
Lemma kept_truncate i : kept (truncate i).
Proof. unfold truncate. kept. Qed.
Hint Resolve kept_truncate : kept.
Lemma kept_iput o : kept (iput o).
Proof.
  unfold iput. destruct o as [i|]; [|kept].
  assert (forall n, kept (iput_loop n i)) as Hloop by (intros n; induction n as [|n IH]; cbn [iput_loop]; kept).
  kept.
Qed.
Lemma kept_empty_scan n found : kept (empty_scan n found).
Proof. revert found. induction n as [|n IH]; intros found; cbn [empty_scan]; kept. Qed.
Lemma kept_clean_inode n i : kept (clean_inode n i).
Proof. induction n as [|n IH]; cbn [clean_inode]; kept. Qed.
Hint Resolve kept_iput kept_empty_scan kept_clean_inode : kept.
Lemma kept_get_empty_inode : kept get_empty_inode.
Proof.
  unfold get_empty_inode. generalize (Datatypes.S patience) as n. intros n.
  induction n as [|n IH]; cbn [get_empty_inode_loop]; kept.
Qed.
Hint Resolve kept_get_empty_inode : kept.

(** ** [iget] *)

Lemma wlp_get_inode i (Q : m_inode -> kernel -> Prop) s :
  (forall n, getz (inode_table s) i = Some n -> Q n s) -> wlp (get_inode i) Q s.
Proof.
  intros HQ. unfold get_inode, wlp, bind, gets. destruct (getz (inode_table s) i) as [n|] eqn:Hn; [by apply HQ|done].
Qed.
Lemma wlp_get_bh i (Q : buffer_head -> kernel -> Prop) s : (forall b, Q b s) -> wlp (get_bh i) Q s.
Proof. intros HQ. unfold get_bh, wlp, bind, gets. destruct (getz (bhs s) i); [apply HQ|done]. Qed.

(** What is on the disk does not name the inode. *)
Lemma read_d_inode_id l o n n' : read_d_inode l o n = Some n' -> i_dev n' = i_dev n /\ i_num n' = i_num n.
Proof.
  unfold read_d_inode. intros H.
  repeat (apply bind_Some in H as (? & _ & H)). by injection H as <-.
Qed.

Lemma kept_fill i bh (rest : M kernel unit) : kept rest ->
  kept (let! n := get_inode i in
        let! b := get_bh bh in
        let! n := valid (read_d_inode (b_data b) (inode_offset (i_num n)) n) in
        do! set_inode i (fun _ => n) in rest).
Proof.
  intros Hrest s Hs. apply wlp_bind, wlp_get_inode. intros n Hn. apply wlp_bind, wlp_get_bh. intros b.
  apply wlp_bind, wlp_valid. intros n' Hn'%read_d_inode_id. apply wlp_bind, wlp_set_inode. intros m Hm.
  apply Hrest, table_ok_setz with n; [done..|]. apply uniq_setz with n; [apply Hs|done|by right].
Qed.
Lemma kept_read_inode i : kept (read_inode i).
Proof. unfold read_inode. repeat first [apply kept_fill; kept | kept_step]. Qed.
Hint Resolve kept_read_inode : kept.

Lemma kept_mounted_on i : kept (mounted_on i).
Proof. unfold mounted_on. kept. Qed.
Hint Resolve kept_mounted_on : kept.

(** Entries before [i] are not the inode that is searched for. *)
Definition absent (i dev nr : Z) (s : kernel) : Prop :=
  forall j n, 0 <= j < i -> getz (inode_table s) j = Some n -> i_dev n = dev -> i_num n <> nr.

(** What a search that found nothing leaves. *)
Definition searched (r : Z + Z * Z) (s : kernel) : Prop :=
  table_ok s /\ match r with inl _ => True | inr (dev, nr) => is_u16 dev /\ is_u16 nr /\ absent NR_INODE dev nr s end.

Lemma wlp_found {A} (m : M kernel A) (i : Z) s : kept m -> table_ok s -> wlp (do! m in ret (inl i)) searched s.
Proof. intros Hm Hs. apply wlp_bind. eapply wlp_mono; [by apply Hm|]. by intros a s' Hs'. Qed.

Lemma iget_loop_searched n empty i dev nr s : table_ok s -> is_u16 dev -> is_u16 nr -> absent i dev nr s ->
  wlp (iget_loop n empty i dev nr) searched s.
Proof.
  revert i dev nr s. induction n as [|n IH]; intros i dev nr s Hs Hd Hn Ha; cbn [iget_loop]; [done|].
  assert (forall s, absent 0 dev nr s) as H0 by (intros s' j m Hj; lia).
  destruct (Z.leb_spec NR_INODE i) as [Hi|Hi].
  { split; [done|]. split; [done|]. split; [done|]. intros j m Hj. apply Ha. lia. }
  apply wlp_bind, wlp_get_inode. intros x Hx. destruct (negb (i_dev x =? dev) || negb (i_num x =? nr)) eqn:Hne.
  { apply IH; [done..|]. intros j m Hj Hm Hdev Hnum. destruct (decide (j = i)) as [->|]; [|apply (Ha j m); [lia|done..]].
    rewrite Hx in Hm. injection Hm as <-. by rewrite Hdev, Hnum, !Z.eqb_refl in Hne. }
  apply wlp_bind. eapply wlp_mono; [by apply kept_wait_on_inode|]. intros [] s1 Hs1.
  apply wlp_bind, wlp_get_inode. intros y Hy. destruct (negb (i_dev y =? dev) || negb (i_num y =? nr)); [by apply IH|].
  apply wlp_bind. eapply wlp_mono; [apply kept_set_inode; [by intros z; right|done]|]. intros [] s2 Hs2.
  apply wlp_bind, wlp_get_inode. intros z Hz. destruct (istrue (i_mount z)); [|apply wlp_found; [kept|done]].
  apply wlp_bind. eapply wlp_mono; [by apply kept_mounted_on|]. intros r s3 Hs3.
  destruct r as [[sbi sb]|]; [|apply wlp_found; [kept|done]].
  apply wlp_bind. eapply wlp_mono; [by apply kept_iput|]. intros [] s4 Hs4.
  apply wlp_bind. unfold get_sb, wlp at 1, bind, gets. destruct (getz (super_block s4) sbi) as [sb'|] eqn:Hsb; [|done]. cbn [valid].
  apply IH; [done| |done|intros j m Hj; lia].
  exact (getz_Forall _ _ _ _ (to_devs _ Hs4) Hsb).
Qed.

Lemma uniq_named l e dev nr n n' : uniq l -> getz l e = Some n ->
  (forall j m, getz l j = Some m -> i_dev m = dev -> i_num m <> nr) -> i_dev n' = dev -> i_num n' = nr -> uniq (setz l e n').
Proof.
  intros Hl He Ha <- <- a b x y Hx Hy Hd Hdev Hnum. assert (0 <= e < lenz l) as Hr by (by eapply getz_Some_lt).
  destruct (decide (a = e)) as [->|Hae], (decide (b = e)) as [->|Hbe]; [done|..].
  - rewrite getz_setz_eq in Hx by done. rewrite getz_setz_ne in Hy by done. injection Hx as <-. by destruct (Ha b y).
  - rewrite getz_setz_ne in Hx by done. rewrite getz_setz_eq in Hy by done. injection Hy as <-. by destruct (Ha a x).
  - rewrite getz_setz_ne in Hx, Hy by done. by apply (Hl a b x y).
Qed.

(** Naming the entry when the search found nothing. *)
Lemma name_entry e dev nr (rest : M kernel Z) s : searched (inr (dev, nr)) s -> kept rest ->
  wlp (do! set_inode e (fun n => n <| i_dev := u16 dev |>) in
       do! set_inode e (fun n => n <| i_num := u16 nr |>) in rest) (fun _ s' => table_ok s') s.
Proof.
  intros (Hs & Hd & Hn & Ha) Hrest. apply wlp_bind, wlp_set_inode. intros n Hn0.
  assert (0 <= e < lenz (inode_table s)) as He by (by eapply getz_Some_lt).
  apply wlp_bind, wlp_set_inode. intros m Hm. apply Hrest. upd_in Hm. rewrite getz_setz_eq in Hm by done. injection Hm as <-.
  apply (table_ok_ext (s <| inode_table ::= fun l => setz l e (n <| i_dev := u16 dev |> <| i_num := u16 nr |>) |>));
    [upd; by rewrite setz_setz|done|].
  apply table_ok_setz with n; [done..|]. apply (uniq_named _ _ dev nr n); [apply Hs|done| |by apply u16_id..].
  intros j x Hx Hdev. pose proof (to_size _ Hs). pose proof (getz_Some_lt _ _ _ Hx). apply (Ha j x); [lia|done..].
Qed.

Lemma iget_kept dev nr s : is_u16 dev -> is_u16 nr -> table_ok s -> wlp (iget dev nr) (fun _ s' => table_ok s') s.
Proof.
  intros Hd Hn Hs. unfold iget. destruct (negb _); [done|].
  apply wlp_bind. eapply wlp_mono; [by apply kept_get_empty_inode|]. intros empty s1 Hs1.
  apply wlp_bind. eapply wlp_mono; [apply iget_loop_searched; [done..|intros j m Hj; lia]|].
  intros [i|[dev' nr']] s2 Hs2; [by destruct Hs2|]. apply name_entry; [done|]. kept.
Qed.
End routines.

(** C6: Whatever runs while they sleep, as long as it leaves no inode in the table
    twice, [iget], [iput] and [sync_dev] leave none there twice: two tasks never
    work on two copies of one inode. *)
Theorem inodes_unique `{Env} {HE : Tidy _} s : table_ok s ->
  (forall dev nr, is_u16 dev -> is_u16 nr -> wlp (iget dev nr) (fun _ s' => table_ok s') s) /\
  (forall o, wlp (iput o) (fun _ s' => table_ok s') s) /\
  (forall dev, wlp (sync_dev dev) (fun _ s' => table_ok s') s).
Proof.
  intros Hs. split; [intros dev nr Hd Hn; by apply iget_kept|]. split; [intros o; by apply kept_iput|].
  intros dev. by apply kept_sync_dev.
Qed.

(** Deciding it of a table. *)
Fixpoint uniqb (l : list m_inode) : bool :=
  match l with
  | [] => true
  | n :: l => ((i_dev n =? 0) || forallb (fun m => negb ((i_dev m =? i_dev n) && (i_num m =? i_num n))) l) && uniqb l
  end.
Lemma uniqb_sound l : uniqb l = true -> uniq l.
Proof.
  assert (forall x l j m, forallb (fun m => negb ((i_dev m =? i_dev x) && (i_num m =? i_num x))) l = true ->
    getz l j = Some m -> i_dev m = i_dev x -> i_num m = i_num x -> False) as Hno.
  { intros x l' j m Hall Hm Ed En. rewrite forallb_forall in Hall. unfold getz in Hm. destruct (j <? 0); [done|].
    apply list_elem_of_lookup_2 in Hm. apply list_elem_of_In in Hm. apply Hall in Hm. by rewrite Ed, En, !Z.eqb_refl in Hm. }
  induction l as [|x l IH]; intros H; [intros i j n m Hi; by rewrite (proj2 (getz_None [] i)) in Hi by (unfold lenz; cbn; lia)|].
  cbn in H. apply andb_prop in H as [Hx Hl]. specialize (IH Hl). intros i j n m Hi Hj Hd Hdev Hnum.
  pose proof (getz_Some_lt _ _ _ Hi) as [Hi0 _]. pose proof (getz_Some_lt _ _ _ Hj) as [Hj0 _].
  destruct (decide (i = 0)) as [->|Hi1], (decide (j = 0)) as [->|Hj1]; [done|..].
  - injection Hi as <-. rewrite getz_cons_S in Hj by lia. apply orb_prop in Hx as [Hx|Hx]; [by apply Z.eqb_eq in Hx|].
    by destruct (Hno x l (j - 1) m).
  - injection Hj as <-. rewrite getz_cons_S in Hi by lia. apply orb_prop in Hx as [Hx|Hx]; [apply Z.eqb_eq in Hx; congruence|].
    by destruct (Hno x l (i - 1) n).
  - rewrite getz_cons_S in Hi, Hj by lia. enough (i - 1 = j - 1) by lia. by apply (IH (i - 1) (j - 1) n m).
Qed.
