(* ===== verification/Directory.v ===== *)
(** * Looking up a name in a directory

    A directory is a list of entries, each a number and a name that ends at
    its first zero byte or after 14; number 0 is a free entry.  [find_entry]
    finds the first entry with the name. *)

From Stdlib Require Import ZArith Lia.
From stdpp Require Import base numbers list gmap strings.
From S2P Require Import Prelude Memory Task Sched Kernel Blk Buffer BufferInv.
From S2P Require Import Posix Bitmap Inode Namei CharDev UserMem FileBlocks FileCounts FileRead.

(** A name in its field. *)
Fixpoint cut0 (l : list Z) : list Z :=
  match l with [] => [] | c :: l => if c =? 0 then [] else c :: cut0 l end.

Section slots.
Context (blocks : Z -> list Z).

Definition slot_nr (i : Z) : Z := file_byte blocks (16 * i) + file_byte blocks (16 * i + 1) * 256.
Definition slot_name (i : Z) : list Z := cut0 (file_bytes blocks (16 * i + 2) NAME_LEN).
(** Entry [i] is in use and has the name [nm]. *)
Definition named (nm : list Z) (i : Z) : bool := negb (slot_nr i =? 0) && bool_decide (slot_name i = nm).
End slots.

(** ** Names *)

Lemma cut0_eq l nm : Forall (fun c => c <> 0) nm -> (length nm <= length l)%nat ->
  cut0 l = nm <-> take (length nm) l = nm /\ ((length nm < length l)%nat -> l !! length nm = Some 0).
Proof.
  revert nm. induction l as [|c l IH]; intros [|x nm] Hnm Hl; cbn in *; [naive_solver lia|lia|..].
  - destruct (Z.eqb_spec c 0) as [->|Hc]; [naive_solver|]. split; [done|]. intros [_ H]. specialize (H ltac:(lia)). congruence.
  - apply Forall_cons in Hnm as [Hx Hnm]. destruct (Z.eqb_spec c 0) as [->|Hc]; [naive_solver|].
    specialize (IH nm Hnm ltac:(lia)). split.
    + intros [= -> E]. apply IH in E as [E1 E2]. split; [by rewrite E1|]. intros H. apply E2. lia.
    + intros [[= -> E1] E2]. f_equal. apply IH. split; [done|]. intros H. apply E2. lia.
Qed.

Lemma fmap_eqb {A} (f g : A -> Z) l : forallb (fun x => f x =? g x) l = bool_decide (f <$> l = g <$> l).
Proof.
  apply eq_true_iff_eq. rewrite bool_decide_eq_true. induction l as [|x l IH]; [done|]. cbn.
  rewrite andb_true_iff, IH, Z.eqb_eq. split; [intros [-> ->]|intros [= -> ->]]; done.
Qed.

Section search.
Context {E : Env}.

Definition user_char (s : kernel) (a : Z) : Z := default 0 (user s !! u32 a).

Lemma compare_name_ok n name bh de k b c s :
  getz (bhs s) bh = Some b -> (forall j, k <= j < k + Z.of_nat n -> getz (b_data b) (de + 2 + j) = Some (c j)) ->
  compare_name n name bh de k s = Ok (forallb (fun j => user_char s (name + j) =? c j) (seqZ k (Z.of_nat n))) s.
Proof.
  intros Hb. revert k. induction n as [|n IH]; intros k Hc; [done|]. cbn [compare_name]. unfold get_fs_byte. run_step.
  unfold de_name. rewrite bind_assoc. run (get_bh_ok _ _ _ Hb). rewrite Hc by lia. cbn [valid]. run_step.
  rewrite seqZ_cons by lia. replace (Z.pred (Z.of_nat (Datatypes.S n))) with (Z.of_nat n) by lia. cbn [forallb].
  unfold user_char at 1. destruct (_ =? c k); [|done]. rewrite IH by (intros j Hj; apply Hc; lia).
  by replace (Z.succ k) with (k + 1) by lia.
Qed.

Lemma file_byte_at blocks k o : 0 <= o < 1024 -> file_byte blocks (1024 * k + o) = default 0 (getz (blocks k) o).
Proof.
  intros Ho. unfold file_byte. replace ((1024 * k + o) / 1024) with k by dmlia.
  by replace ((1024 * k + o) mod 1024) with o by dmlia.
Qed.

(** The field of a name, character by character. *)
Lemma slot_field blocks i :
  file_bytes blocks (16 * i + 2) NAME_LEN = (fun o => file_byte blocks (16 * i + 2 + o)) <$> seqZ 0 14.
Proof.
  unfold file_bytes. replace (seqZ (16 * i + 2) NAME_LEN) with (Z.add (16 * i + 2) <$> seqZ 0 14)
    by (rewrite fmap_add_seqZ; f_equal; lia). by rewrite <- list_fmap_compose.
Qed.

Lemma take_seqZ n m : 0 <= n <= m -> take (Z.to_nat n) (seqZ 0 m) = seqZ 0 n.
Proof.
  intros H. replace m with (n + (m - n)) by lia. rewrite seqZ_app by lia. apply take_app_length'. rewrite length_seqZ. lia.
Qed.

(** The test of [match] is equality of names. *)
Lemma slot_name_eqb blocks i namelen (u : Z -> Z) : 0 < namelen <= 14 -> Forall (fun c => c <> 0) (u <$> seqZ 0 namelen) ->
  let c o := file_byte blocks (16 * i + 2 + o) in
  bool_decide (slot_name blocks i = u <$> seqZ 0 namelen) =
  (if namelen <? 14 then c namelen =? 0 else true) && forallb (fun o => u o =? c o) (seqZ 0 namelen).
Proof.
  intros Hlen Hnz c. rewrite fmap_eqb. apply eq_true_iff_eq. rewrite andb_true_iff, !bool_decide_eq_true.
  unfold slot_name. rewrite slot_field. fold c.
  assert (length (u <$> seqZ 0 namelen) = Z.to_nat namelen) as Hl by (by rewrite length_fmap, length_seqZ).
  rewrite cut0_eq by (done || rewrite Hl, length_fmap, length_seqZ; lia). rewrite Hl, length_fmap, length_seqZ.
  rewrite <- fmap_take, take_seqZ by lia. rewrite list_lookup_fmap.
  split.
  - intros [E1 E2]. split; [|done]. destruct (Z.ltb_spec namelen 14) as [Hlt|]; [|done]. apply Z.eqb_eq.
    specialize (E2 ltac:(lia)). rewrite lookup_seqZ_lt in E2 by lia. cbn in E2. injection E2 as E2. rewrite <- E2. f_equal. lia.
  - intros [E1 E2]. split; [done|]. intros Hlt. rewrite lookup_seqZ_lt by lia. cbn. f_equal.
    rewrite (proj2 (Z.ltb_lt namelen 14)) in E1 by lia. apply Z.eqb_eq in E1. rewrite <- E1. f_equal. lia.
Qed.

Lemma match_entry_ok s bh b blocks k j namelen name :
  getz (bhs s) bh = Some b -> b_data b = blocks k -> lenz (blocks k) = 1024 -> 0 <= j < 64 -> 0 < namelen <= NAME_LEN ->
  let nm := read_user (Z.to_nat namelen) name (user s) in Forall (fun c => c <> 0) nm ->
  match_entry namelen name bh (16 * j) s = Ok (named blocks nm (64 * k + j)) s.
Proof.
  intros Hb Hd Hl Hj Hlen nm Hnz. unfold NAME_LEN in *. set (i := 64 * k + j).
  assert (forall o, 0 <= o < 16 -> getz (b_data b) (16 * j + o) = Some (file_byte blocks (16 * i + o))) as Hat.
  { intros o Ho. replace (16 * i + o) with (1024 * k + (16 * j + o)) by lia. rewrite file_byte_at, Hd by lia.
    destruct (getz_is_Some (blocks k) (16 * j + o)) as [c Hc]; [lia|]. by rewrite Hc. }
  assert (le16 (b_data b) (16 * j) = Some (slot_nr blocks i)) as Hnr.
  { unfold le16, slot_nr. rewrite (Hat 1) by lia. specialize (Hat 0 ltac:(lia)). rewrite !Z.add_0_r in Hat. by rewrite Hat. }
  set (c o := file_byte blocks (16 * i + 2 + o)).
  assert (forall o, 0 <= o < 14 -> getz (b_data b) (16 * j + 2 + o) = Some (c o)) as Hc.
  { intros o Ho. replace (16 * j + 2 + o) with (16 * j + (2 + o)) by lia. rewrite Hat by lia. unfold c. do 2 f_equal. lia. }
  unfold match_entry, de_inode_nr. rewrite bind_assoc. run (get_bh_ok _ _ _ Hb). rewrite Hnr. cbn [valid]. run_step. unfold named, istrue.
  rewrite (proj2 (Z.ltb_ge NAME_LEN namelen)) by (unfold NAME_LEN; lia). rewrite orb_false_r, negb_involutive.
  destruct (slot_nr blocks i =? 0); [done|]. cbn [negb andb]. unfold NAME_LEN.
  pose proof (slot_name_eqb blocks i namelen (fun o => user_char s (name + o)) Hlen) as Heq. cbv zeta in Heq. fold c in Heq.
  assert (nm = (fun o => user_char s (name + o)) <$> seqZ 0 namelen) as Enm
    by (unfold nm, read_user; by rewrite Z2Nat.id by lia).
  rewrite Enm, Heq by (by rewrite <- Enm). 
  pose proof (compare_name_ok (Z.to_nat namelen) name bh (16 * j) 0 b c s Hb) as Hcmp.
  rewrite Z2Nat.id in Hcmp by lia. specialize (Hcmp ltac:(intros o Ho; apply Hc; lia)).
  destruct (Z.ltb_spec namelen 14) as [Hlt|Hge].
  - unfold de_name. rewrite !bind_assoc. run (get_bh_ok _ _ _ Hb). rewrite Hc by lia. cbn [valid]. run_step. run_step.
    destruct (c namelen =? 0); [exact Hcmp|done].
  - run_step. exact Hcmp.
Qed.

(** ** The search *)

(** Block [k] of the directory is in the cache, and not a hole; buffer [bh] has
    it. *)
Definition holds_block (l : list buffer_head) (n : m_inode) (k bh : Z) (b : buffer_head) : Prop :=
  exists z, zone_of l n k z /\ z <> 0 /\ usable l (i_dev n) z bh b.
Definition dir_cached (l : list buffer_head) (n : m_inode) (blocks : Z -> list Z) (k : Z) : Prop :=
  k < MAX_BLOCKS /\ lenz (blocks k) = 1024 /\ exists bh b, holds_block l n k bh b /\ b_data b = blocks k.

(** The buffer of the first entry from [i] on that has the name, kept in use;
    or none, and no buffer kept. *)
Definition search_result (s : kernel) (n : m_inode) (blocks : Z -> list Z) (nm : list Z) (i entries : Z)
    (o : outcome kernel (option (Z * Z))) : Prop :=
  (exists m, o = Ok None (released m s) /\ forall j, i <= j < entries -> named blocks nm j = false) \/
  (exists j bh b m, o = Ok (Some (bh, 16 * (j mod 64))) (put_bh bh (held b) (released m s)) /\
    i <= j < entries /\ named blocks nm j = true /\ (forall j', i <= j' < j -> named blocks nm j' = false) /\
    holds_block (bhs s) n (j / 64) bh b /\ b_data b = blocks (j / 64)).

Lemma search_skip s n blocks nm i entries o : named blocks nm i = false ->
  search_result s n blocks nm (i + 1) entries o -> search_result s n blocks nm i entries o.
Proof.
  intros Hi [(m & -> & Hno)|(j & bh & b & m & -> & Hj & Hn & Hno & H)].
  - left. exists m. split; [done|]. intros j Hj. destruct (decide (j = i)) as [->|]; [done|]. apply Hno. lia.
  - right. exists j, bh, b, m. split; [done|]. split; [lia|]. split; [done|]. split; [|done].
    intros j' Hj'. destruct (decide (j' = i)) as [->|]; [done|]. apply Hno. lia.
Qed.

Section loop.
Context (s : kernel) (dir : Z) (n : m_inode) (name namelen entries : Z) (blocks : Z -> list Z).
Hypothesis (Hs : cache_inv s) (Hn : getz (inode_table s) dir = Some n) (Hdev : i_dev n <> 0).
Hypothesis (Hlen : 0 < namelen <= NAME_LEN).
Let nm : list Z := read_user (Z.to_nat namelen) name (user s).
Hypothesis (Hnz : Forall (fun c => c <> 0) nm).
Hypothesis (Hdir : forall k, 0 <= k -> 64 * k < entries -> dir_cached (bhs s) n blocks k).

#[local] Abbreviation loop fuel := (find_entry_loop fuel dir name namelen entries).
#[local] Abbreviation finds := (search_result s n blocks nm).

(** The test of entry [i] in the buffer of its block, and what follows. *)
Lemma find_here fuel i k bh b m (next : M kernel (option (Z * Z))) :
  0 <= k -> 64 * k <= i < 64 * k + 64 -> i < entries -> holds_block (bhs s) n k bh b -> b_data b = blocks k -> lenz (blocks k) = 1024 ->
  next = loop fuel (i + 1) (Some bh) (16 * (i - 64 * k) + DIR_ENTRY_SIZE) ->
  let s1 := put_bh bh (held b) (released m s) in
  finds (i + 1) entries (next s1) ->
  finds i entries ((let! found := match_entry namelen name bh (16 * (i - 64 * k)) in
                     if found : bool then ret (Some (bh, 16 * (i - 64 * k))) else next) s1).
Proof.
  intros Hk Hi Hlt Hb Hd Hl _ s1 Hnext. pose proof Hb as (z & _ & _ & [Hget _ _ _ _ _]).
  assert (getz (bhs s1) bh = Some (held b)) as Hb1 by exact (get_put_bh bh b (held b) (released m s) Hget).
  pose proof (match_entry_ok s1 bh (held b) blocks k (i - 64 * k) namelen name Hb1 Hd Hl ltac:(lia) Hlen Hnz) as Hm.
  run Hm. replace (64 * k + (i - 64 * k)) with i by lia. change (read_user _ _ _) with nm.
  destruct (named blocks nm i) eqn:Hnamed; [|by apply search_skip].
  right. exists i, bh, b, m. assert (i / 64 = k /\ i mod 64 = i - 64 * k) as [-> ->] by (split; dmlia).
  split; [done|]. split; [lia|]. split; [done|]. split; [lia|]. done.
Qed.

Lemma next_block_ok m k : 0 <= k -> 64 * k < entries -> exists m' bh b,
  holds_block (bhs s) n k bh b /\ b_data b = blocks k /\ lenz (blocks k) = 1024 /\
  next_block (bmap dir k) dir (released m s) = Ok (Some bh) (put_bh bh (held b) (released m' s)).
Proof.
  intros Hk He. destruct (Hdir k Hk He) as (Hmax & Hl & bh & b & (z & Hz & Hz0 & Hu) & Hd).
  destruct (_bmap_ok (released m s) dir n k z false Hs Hn Hdev (conj Hk Hmax) Hz (or_introl eq_refl)) as [m' Hm'].
  exists (m' + m)%nat, bh, b. split; [by exists z|]. split; [done|]. split; [done|].
  unfold next_block, bmap. run Hm'. unfold istrue. rewrite (proj2 (Z.eqb_neq z 0) Hz0). cbn [negb]. rewrite released_add.
  assert (getz (inode_table (released (m' + m) s)) dir = Some n) as Hn' by exact Hn. run (get_inode_ok _ _ _ Hn').
  by apply (bread_cached (released (m' + m) s) _ z).
Qed.

Lemma brelse_released k bh b m : holds_block (bhs s) n k bh b ->
  brelse (Some bh) (put_bh bh (held b) (released m s)) = Ok tt (released (1 + m) s).
Proof.
  intros (z & _ & _ & [Hget _ _ _ Hlk Hc]).
  rewrite (brelse_held _ bh b (get_put_bh bh b (held b) (released m s) Hget) Hlk Hc).
  rewrite put_held_id by done. by rewrite released_add.
Qed.

Lemma find_loop_ok fuel i k bh b m : 0 <= k -> 64 * k <= i <= 64 * k + 64 -> 
  i <= entries -> entries - i < Z.of_nat fuel ->
  holds_block (bhs s) n k bh b -> b_data b = blocks k -> lenz (blocks k) = 1024 ->
  finds i entries (loop fuel i (Some bh) (16 * (i - 64 * k)) (put_bh bh (held b) (released m s))).
Proof.
  revert i k bh b m. induction fuel as [|fuel IH]; intros i k bh b m Hk Hi Hmax Hf Hb Hd Hl; [lia|]. cbn [find_entry_loop].
  destruct (Z.leb_spec entries i) as [Hend|Hlt].
  { left. exists (1 + m)%nat. run (brelse_released k bh b m Hb). split; [done|lia]. }
  cbn [valid]. run_step. change BLOCK_SIZE with 1024. change DIR_ENTRIES_PER_BLOCK with 64.
  destruct (Z.leb_spec 1024 (16 * (i - 64 * k))) as [Hde|Hde].
  - assert (i = 64 * (k + 1)) as Ei by lia. run (brelse_released k bh b m Hb).
    replace (i / 64) with (k + 1) by dmlia.
    destruct (next_block_ok (1 + m) (k + 1) ltac:(lia) ltac:(lia)) as (m' & bh' & b' & Hb' & Hd' & Hl' & Hnext).
    run Hnext. pose proof (find_here fuel i (k + 1) bh' b' m' (loop fuel (i + 1) (Some bh') DIR_ENTRY_SIZE) ltac:(lia) ltac:(lia) Hlt Hb' Hd' Hl') as Hhere.
    replace (16 * (i - 64 * (k + 1))) with 0 in Hhere by lia. apply Hhere; [done|].
    replace DIR_ENTRY_SIZE with (16 * (i + 1 - 64 * (k + 1))) by (unfold DIR_ENTRY_SIZE; lia).
    apply IH; [lia..|done|done|done].
  - apply (find_here fuel i k bh b m _ Hk ltac:(lia) Hlt Hb Hd Hl eq_refl).
    replace (16 * (i - 64 * k) + DIR_ENTRY_SIZE) with (16 * (i + 1 - 64 * k)) by (unfold DIR_ENTRY_SIZE; lia).
    apply IH; [lia..|done|done|done].
Qed.
End loop.

Lemma dot_dot_other s dir name namelen :
  read_user (Z.to_nat namelen) name (user s) <> [dot; dot] -> dot_dot dir name namelen s = Ok (dir, namelen) s.
Proof.
  intros Hne. unfold dot_dot. destruct (Z.eqb_spec namelen 2) as [->|]; [|done]. cbn [negb]. unfold get_fs_byte. run_step. run_step.
  destruct (Z.eqb_spec (default 0 (user s !! u32 name)) dot) as [E0|]; [|done].
  destruct (Z.eqb_spec (default 0 (user s !! u32 (name + 1))) dot) as [E1|]; [|done]. destruct Hne.
  unfold read_user. change (seqZ 0 (Z.of_nat (Z.to_nat 2))) with [0; 1]. cbn [fmap list_fmap]. by rewrite Z.add_0_r, E0, E1.
Qed.

Lemma find_entry_ok s dir n name namelen blocks :
  cache_inv s -> getz (inode_table s) dir = Some n -> i_dev n <> 0 -> is_u32 (i_size n) -> 0 < namelen ->
  let len := Z.min namelen NAME_LEN in
  let nm := read_user (Z.to_nat len) name (user s) in
  let entries := i_size n / 16 in
  Forall (fun c => c <> 0) nm -> nm <> [dot; dot] ->
  (forall k, 0 <= k -> k = 0 \/ 64 * k < entries -> dir_cached (bhs s) n blocks k) ->
  (exists m, find_entry dir name namelen s = Ok (dir, None) (released m s) /\
     forall j, 0 <= j < entries -> named blocks nm j = false) \/
  (exists j bh b m, find_entry dir name namelen s = Ok (dir, Some (bh, 16 * (j mod 64))) (put_bh bh (held b) (released m s)) /\
     0 <= j < entries /\ named blocks nm j = true /\ (forall j', 0 <= j' < j -> named blocks nm j' = false) /\
     holds_block (bhs s) n (j / 64) bh b /\ b_data b = blocks (j / 64)).
Proof.
  intros Hs Hn Hdev Hsize Hpos len nm entries Hnz Hdots Hdir. assert (0 < len <= NAME_LEN) as Hlen by (unfold len, NAME_LEN; lia).
  assert (dir_entries n = entries) as He.
  { unfold dir_entries, DIR_ENTRY_SIZE, entries, is_u32 in *. unfold u32. rewrite (Z.mod_small (i_size n)) by lia.
    apply s32_id. unfold is_s32. dmlia. }
  destruct (Hdir 0 ltac:(lia) ltac:(by left)) as (_ & Hl & bh & b & Hb & Hd). pose proof Hb as (z & Hz & Hz0 & Hu).
  assert (0 <= entries) as He0 by (unfold entries, is_u32 in *; dmlia).
  pose proof (find_loop_ok s dir n name len entries blocks Hs Hn Hdev Hlen Hnz
    ltac:(intros k Hk Hlt; apply Hdir; [done|by right]) (Datatypes.S (Z.to_nat entries)) 0 0 bh b 0
    ltac:(lia) ltac:(lia) ltac:(lia) ltac:(lia) Hb Hd Hl) as Hres.
  unfold find_entry, istrue. rewrite (proj2 (Z.eqb_neq namelen 0)) by lia. cbn [negb]. fold len.
  run (get_inode_ok _ _ _ Hn). rewrite He. run (dot_dot_other s dir name len Hdots).
  change (getz (i_zone n) 0 = Some z) in Hz. run (block_zone_ok _ _ _ _ _ Hn Hz). rewrite (proj2 (Z.eqb_neq z 0) Hz0). cbn [negb].
  run (get_inode_ok _ _ _ Hn). run (bread_cached s _ _ _ _ Hs Hdev Hu).
  rewrite released_0 in Hres. change (16 * (0 - 64 * 0)) with 0 in Hres.
  destruct Hres as [(m & Hr & Hno)|(j & bh' & b' & m & Hr & H)].
  - left. exists m. by run Hr.
  - right. exists j, bh', b', m. split; [by run Hr|exact H].
Qed.

(** C10: When the blocks of a directory are in the cache, [find_entry] finds the
    first entry with the name, cut at 14 characters, and nothing when there is
    none, whatever the size of the directory; it keeps the buffer of the entry
    it found and no other, and nothing else changes.  The name is not [..],
    which has rules of its own. *)
Theorem find_entry_spec s dir n name namelen blocks :
  cache_inv s -> getz (inode_table s) dir = Some n -> i_dev n <> 0 -> is_u32 (i_size n) -> 0 < namelen ->
  let len := Z.min namelen NAME_LEN in
  let nm := read_user (Z.to_nat len) name (user s) in
  let entries := i_size n / 16 in
  Forall (fun c => c <> 0) nm -> nm <> [dot; dot] ->
  (forall k, 0 <= k -> k = 0 \/ 64 * k < entries -> dir_cached (bhs s) n blocks k) ->
  (exists m, find_entry dir name namelen s = Ok (dir, None) (released m s) /\
     forall j, 0 <= j < entries -> named blocks nm j = false) \/
  (exists j bh b m, find_entry dir name namelen s = Ok (dir, Some (bh, 16 * (j mod 64))) (put_bh bh (held b) (released m s)) /\
     0 <= j < entries /\ named blocks nm j = true /\ (forall j', 0 <= j' < j -> named blocks nm j' = false) /\
     holds_block (bhs s) n (j / 64) bh b /\ b_data b = blocks (j / 64)).
Proof. apply find_entry_ok. Qed.
End search.
