(* ===== verification/DirectoryAdd.v ===== *)
(** * Entering a name in a directory

    [add_entry] takes the first free entry, also one beyond the size of the
    directory; once it has its number, [find_entry] finds it under its name,
    and all other entries are as they were. *)

From Stdlib Require Import ZArith Lia.
From stdpp Require Import base numbers list gmap strings.
From S2P Require Import Prelude Memory Task Sched Kernel Blk Buffer BufferInv Posix Bitmap Inode Namei CharDev.
From S2P Require Import UserMem DiskInode FileBlocks FileCounts FileRead FileWrite Directory.

(** A name in its field of 14 bytes, and the whole entry. *)
Definition padded (nm : list Z) : list Z := nm ++ replicate (14 - length nm) 0.
Definition is_name (nm : list Z) : Prop := Forall (fun c => 0 < c < 256) nm.

Lemma padded_lenz nm : (length nm <= 14)%nat -> lenz (padded nm) = 14.
Proof. intros H. unfold padded, lenz. rewrite length_app, length_replicate. lia. Qed.

Lemma cut0_padded nm : is_name nm -> (length nm <= 14)%nat -> cut0 (padded nm) = nm.
Proof.
  intros H Hl. apply cut0_eq.
  - eapply Forall_impl; [exact H|]. cbn. lia.
  - unfold padded. rewrite length_app. lia.
  - unfold padded. split; [by rewrite take_app_length|]. rewrite length_app, length_replicate. intros Hlt.
    rewrite lookup_app_r, Nat.sub_diag by lia. apply lookup_replicate. split; [done|lia].
Qed.

Section add.
Context {E : Env}.

(** A loop that writes the bytes [d] to a buffer. *)
Lemma put_list_for_range (body : Z -> M kernel unit) d j s bh b off :
  getz (bhs s) bh = Some b ->
  (forall k c s' b', getz (bhs s') bh = Some b' -> user s' = user s -> getz d (k - j) = Some c -> 0 <= k - j ->
     body k s' = Ok tt (put_bh bh (b' <| b_data ::= fun l => setz l (off + k) c |>) s')) ->
  for_range j (length d) body s = Ok tt (put_bh bh (b <| b_data ::= fun l => put_at l (off + j) d |>) s).
Proof.
  revert j s b. induction d as [|c d IH]; intros j s b Hb Hbody; cbn [for_range length].
  { unfold ret. f_equal. symmetry. transitivity (put_bh bh b s); [by destruct b|by apply put_bh_id]. }
  rewrite (bind_ok _ _ _ _ _ (Hbody j c s b Hb eq_refl ltac:(by rewrite Z.sub_diag) ltac:(lia))).
  set (b1 := b <| b_data ::= _ |>). set (s1 := put_bh bh b1 s).
  rewrite (IH (j + 1) s1 b1); [|exact (get_put_bh _ _ _ _ Hb)|].
  - f_equal. unfold s1. rewrite put_bh_put. by rewrite !Z.add_assoc.
  - intros k c' s' b' H1 H2 H3 H4. apply Hbody; [done|exact H2| |lia]. rewrite getz_cons_S by lia. rewrite <- H3. f_equal. lia.
Qed.

Lemma getz_padded nm i : 0 <= i < 14 -> lenz nm <= 14 ->
  getz (padded nm) i = Some (if i <? lenz nm then default 0 (getz nm i) else 0).
Proof.
  intros Hi Hl. unfold padded, getz, lenz in *. rewrite (proj2 (Z.ltb_ge i 0)) by lia.
  destruct (Z.ltb_spec i (Z.of_nat (length nm))).
  - rewrite lookup_app_l by lia. destruct (lookup_lt_is_Some_2 nm (Z.to_nat i)) as [x Hx]; [lia|]. by rewrite Hx.
  - rewrite lookup_app_r by lia. apply lookup_replicate. split; [done|lia].
Qed.

Lemma copy_name_ok s bh b de name namelen :
  getz (bhs s) bh = Some b -> 0 < namelen <= NAME_LEN ->
  let nm := read_user (Z.to_nat namelen) name (user s) in is_name nm ->
  copy_name bh de name namelen s = Ok tt (put_bh bh (b <| b_data ::= fun l => put_at l (de + 2) (padded nm) |>) s).
Proof.
  intros Hb Hlen nm Hnm. unfold copy_name, NAME_LEN in *.
  assert (lenz nm = namelen) as Hl by (unfold nm, read_user, lenz; rewrite length_fmap, length_seqZ; lia).
  assert (length (padded nm) = Z.to_nat 14) as Hpad by (unfold padded, lenz in *; rewrite length_app, length_replicate; lia).
  rewrite <- Hpad. replace (de + 2) with (de + 2 + 0) by lia. apply put_list_for_range; [done|].
  intros k c s' b' Hb' Hu Hc Hk. rewrite Z.sub_0_r in Hc. pose proof (getz_Some_lt _ _ _ Hc) as Hk14.
  assert (lenz (padded nm) = 14) as Hpl by (unfold lenz; rewrite Hpad; done).
  rewrite getz_padded, Hl in Hc by lia. injection Hc as Hc.
  assert ((if k <? namelen then get_fs_byte (name + k) else ret 0) s' = Ok c s' /\ u8 c = c) as [Hget Hu8].
  { destruct (Z.ltb_spec k namelen) as [Hlt|].
    - pose proof (getz_read_user (Z.to_nat namelen) name (user s) k ltac:(lia)) as Hg. fold nm in Hg. rewrite Hg in Hc. simpl in Hc.
      split; [unfold get_fs_byte, bind, gets, ret; rewrite Hu, <- Hc; done|].
      pose proof (getz_Forall _ _ _ _ Hnm Hg) as Hr. cbn in Hr. apply u8_id. unfold is_u8. lia.
    - subst c. done. }
  rewrite (bind_ok _ _ _ _ _ Hget). unfold set_de_name. rewrite Hu8. by rewrite (set_bh_ok _ _ _ _ Hb').
Qed.

(** ** One entry *)

(** The directory after an entry at [i] was taken. *)
Definition entered (n : m_inode) (i now : Z) : m_inode :=
  (if i_size n <=? 16 * i then n <| i_size := 16 * (i + 1) |> <| i_dirt := 1 |> <| i_ctime := u32 now |> else n)
    <| i_mtime := u32 now |>.

Lemma entered_fields n i now :
  i_zone (entered n i now) = i_zone n /\ i_dev (entered n i now) = i_dev n /\
  i_size (entered n i now) = if i_size n <=? 16 * i then 16 * (i + 1) else i_size n.
Proof. unfold entered. by destruct (i_size n <=? 16 * i). Qed.

(** The block with the name in the entry at [de]. *)
Definition has_entry (old data : list Z) (de : Z) (nm : list Z) : Prop :=
  lenz data = lenz old /\ (forall o, 0 <= o < 14 -> getz data (de + 2 + o) = getz (padded nm) o) /\
  forall o, ~ (de <= o < de + 16) -> getz data o = getz old o.

Lemma padded_entry old data de nm : lenz (padded nm) = 14 -> 0 <= de -> de + 16 <= lenz old ->
  data = put_at old (de + 2) (padded nm) \/ data = put_at (set_le16 old de 0) (de + 2) (padded nm) -> has_entry old data de nm.
Proof.
  intros Hl Hde Hold Hd.
  assert (exists old', data = put_at old' (de + 2) (padded nm) /\ lenz old' = lenz old /\ forall o, ~ (de <= o < de + 2) -> getz old' o = getz old o)
    as (old' & -> & Hlo & Ho).
  { destruct Hd as [->| ->]; [by exists old|]. exists (set_le16 old de 0). split; [done|]. split; [by rewrite lenz_set_le16|].
    intros o H. apply getz_set_le16_ne; lia. }
  split; [by rewrite lenz_put_at|]. split.
  - intros o H. rewrite getz_put_at by lia. rewrite decide_True by lia. f_equal. lia.
  - intros o H. rewrite getz_put_at by lia. rewrite decide_False by lia. apply Ho. lia.
Qed.

Section entry.
Context (dir name namelen : Z).
Context (Hlen : 0 < namelen <= NAME_LEN).

Lemma try_taken s n bh b i de nr :
  getz (inode_table s) dir = Some n -> getz (bhs s) bh = Some b -> le16 (b_data b) de = Some nr -> nr <> 0 ->
  is_u32 (i_size n) -> 0 <= i -> 16 * i < i_size n -> try_entry dir name namelen i bh de s = Ok false s.
Proof.
  intros Hn Hb Hnr Hnr0 Hsz Hi Hlt. unfold try_entry. run (get_inode_ok _ _ _ Hn). unfold DIR_ENTRY_SIZE, is_u32 in *.
  rewrite (u32_id (i_size n)), (u32_id (i * 16)) by (unfold is_u32; lia). rewrite (proj2 (Z.leb_gt _ _)) by lia. cbn [when]. run_step.
  unfold de_inode_nr. rewrite bind_assoc. run (get_bh_ok _ _ _ Hb). rewrite Hnr. cbn [valid]. run_step.
  unfold istrue. by rewrite (proj2 (Z.eqb_neq _ _)).
Qed.

(** The body from the test of the number on, in an entry that is free. *)
Lemma fill_entry s n bh b de :
  let nm := read_user (Z.to_nat namelen) name (user s) in is_name nm ->
  getz (inode_table s) dir = Some n -> getz (bhs s) bh = Some b -> le16 (b_data b) de = Some 0 ->
  (let! nr := de_inode_nr bh de in
   if istrue nr then ret false else
   let! t := gets (fun s => CURRENT_TIME (sch s)) in
   do! set_inode dir (fun n => n <| i_mtime := u32 t |>) in
   do! copy_name bh de name namelen in
   do! set_bh bh (fun b => b <| b_dirt := 1 |>) in
   ret true) s =
  Ok true (put_bh bh (new_data b (put_at (b_data b) (de + 2) (padded nm)))
    (s <| inode_table ::= fun t => setz t dir (n <| i_mtime := u32 (CURRENT_TIME (sch s)) |>) |>)).
Proof using Hlen.
  intros nm Hnm Hn Hb H0. unfold de_inode_nr. rewrite bind_assoc. run (get_bh_ok _ _ _ Hb). rewrite H0. cbn [valid]. run_step.
  cbn [istrue negb Z.eqb]. run_step. run (set_inode_ok s dir n (fun n => n <| i_mtime := u32 (CURRENT_TIME (sch s)) |>) Hn).
  set (s1 := s <| inode_table ::= _ |>). assert (getz (bhs s1) bh = Some b) as Hb1 by exact Hb.
  run (copy_name_ok s1 bh b de name namelen Hb1 Hlen Hnm). change (user s1) with (user s). fold nm.
  set (b2 := b <| b_data ::= _ |>). set (s2 := put_bh bh b2 s1).
  assert (getz (bhs s2) bh = Some b2) as Hb2 by exact (get_put_bh bh b b2 s1 Hb1).
  run (set_bh_ok s2 bh b2 (fun b => b <| b_dirt := 1 |>) Hb2). unfold ret. f_equal. exact (put_bh_put bh b2 _ s1).
Qed.

Lemma try_free s n bh b i de :
  let nm := read_user (Z.to_nat namelen) name (user s) in is_name nm ->
  getz (inode_table s) dir = Some n -> getz (bhs s) bh = Some b -> 0 <= de -> de + 16 <= lenz (b_data b) ->
  is_u32 (i_size n) -> 0 <= i -> 16 * (i + 1) < 4294967296 -> i_size n <= 16 * i \/ le16 (b_data b) de = Some 0 ->
  exists data, has_entry (b_data b) data de nm /\
    try_entry dir name namelen i bh de s =
      Ok true (put_bh bh (new_data b data) (s <| inode_table ::= fun t => setz t dir (entered n i (CURRENT_TIME (sch s))) |>)).
Proof.
  intros nm Hnm Hn Hb Hde Hdl Hsz Hi Hmax Hfree. set (now := CURRENT_TIME (sch s)).
  assert (lenz (padded nm) = 14) as Hpad.
  { apply padded_lenz. unfold nm, read_user. rewrite length_fmap, length_seqZ. unfold NAME_LEN in Hlen. lia. }
  unfold try_entry. run (get_inode_ok _ _ _ Hn). unfold DIR_ENTRY_SIZE, is_u32 in *.
  rewrite (u32_id (i_size n)), (u32_id (i * 16)), (u32_id ((i + 1) * 16)) by (unfold is_u32; lia).
  unfold entered. replace (i_size n <=? 16 * i) with (i_size n <=? i * 16) by (f_equal; lia).
  destruct (Z.leb_spec (i_size n) (i * 16)) as [Hle|Hlt]; cbn [when].
  - exists (put_at (set_le16 (b_data b) de 0) (de + 2) (padded nm)). split; [apply padded_entry; auto|].
    rewrite !bind_assoc. unfold set_de_inode_nr. run (set_bh_ok s bh b (fun b => b <| b_data ::= fun l => set_le16 l de 0 |>) Hb).
    set (b1 := b <| b_data ::= fun l => set_le16 l de 0 |>). set (s1 := put_bh bh b1 s). rewrite bind_assoc. run_step.
    assert (getz (inode_table s1) dir = Some n) as Hn1 by exact Hn. set (n1 := n <| i_size := 16 * (i + 1) |> <| i_dirt := 1 |> <| i_ctime := u32 now |>).
    rewrite (bind_ok _ _ _ tt (s1 <| inode_table ::= fun t => setz t dir n1 |>)).
    2:{ rewrite (set_inode_ok _ _ _ _ Hn1). unfold n1. by replace ((i + 1) * 16) with (16 * (i + 1)) by lia. }
    set (s2 := s1 <| inode_table ::= _ |>).
    assert (getz (inode_table s2) dir = Some n1) as Hn2 by (apply getz_setz_eq; by apply getz_Some_lt in Hn).
    assert (getz (bhs s2) bh = Some b1) as Hb2 by exact (get_put_bh bh b b1 s Hb).
    rewrite (fill_entry s2 n1 bh b1 de Hnm Hn2 Hb2) by (apply le16_set_le16; [lia|lia|unfold is_u16; lia]).
    f_equal. unfold s2, s1.
    transitivity (s <| bhs ::= fun l => setz (setz l bh b1) bh (new_data b1 (put_at (b_data b1) (de + 2) (padded nm))) |>
      <| inode_table ::= fun t => setz (setz t dir n1) dir (n1 <| i_mtime := u32 now |>) |>); [done|].
    exact (f_equal (fun p => s <| bhs := p.1 |> <| inode_table := p.2 |>) (f_equal2 pair (setz_setz (bhs s) bh b1 _) (setz_setz (inode_table s) dir n1 _))).
  - exists (put_at (b_data b) (de + 2) (padded nm)). split; [apply padded_entry; auto|].
    run_step. apply (fill_entry s n bh b de Hnm Hn Hb). destruct Hfree; [lia|done].
Qed.
End entry.

(** ** The loop *)

Lemma slot_le16 blocks k j : lenz (blocks k) = 1024 -> 0 <= j < 64 ->
  le16 (blocks k) (16 * j) = Some (slot_nr blocks (64 * k + j)).
Proof.
  intros Hl Hj. unfold le16, slot_nr.
  replace (16 * (64 * k + j)) with (1024 * k + 16 * j) by lia. replace (1024 * k + 16 * j + 1) with (1024 * k + (16 * j + 1)) by lia.
  rewrite !file_byte_at by lia. destruct (getz_is_Some (blocks k) (16 * j)) as [c ->]; [lia|].
  by destruct (getz_is_Some (blocks k) (16 * j + 1)) as [c' ->]; [lia|].
Qed.

(** Everything before entry [j] is taken, and [j] is free or where the
    directory ends; its blocks are there up to [hi]. *)
Record first_free (n : m_inode) (hi : Z) (blocks : Z -> list Z) (j : Z) : Prop := {
  ff_range : 0 <= j < 64 * hi;
  ff_taken i : 0 <= i < j -> 16 * i < i_size n /\ slot_nr blocks i <> 0;
  ff_free : i_size n <= 16 * j \/ slot_nr blocks j = 0
}.

Section loop.
Context (s : kernel) (dir : Z) (n : m_inode) (name namelen hi : Z) (zones : Z -> Z) (tables blocks : Z -> list Z) (j : Z).
Hypothesis (Hs : cache_inv s) (Hn : getz (inode_table s) dir = Some n) (Hdev : i_dev n <> 0) (Hsize : is_u32 (i_size n)).
Hypothesis (Hmap : file_map (bhs s) n hi zones tables blocks) (Hzones : forall k, 0 <= k < hi -> zones k <> 0).
Hypothesis (Hlen : 0 < namelen <= NAME_LEN) (Hfree : first_free n hi blocks j).
Let nm : list Z := read_user (Z.to_nat namelen) name (user s).
Hypothesis (Hnm : is_name nm).

(** What the call leaves: the buffer of the entry kept, with the name in it. *)
Definition added (o : outcome kernel (option (Z * Z))) : Prop :=
  exists m bh b data,
    o = Ok (Some (bh, 16 * (j mod 64))) (put_bh bh (held (new_data b data))
          (released m (s <| inode_table ::= fun t => setz t dir (entered n j (CURRENT_TIME (sch s))) |>))) /\
    usable (bhs s) (i_dev n) (zones (j / 64)) bh b /\ has_entry (blocks (j / 64)) data (16 * (j mod 64)) nm.

Lemma dir_block k : 0 <= k < hi -> exists bh b, usable (bhs s) (i_dev n) (zones k) bh b /\ b_data b = blocks k /\ lenz (blocks k) = 1024.
Proof using Hmap Hzones.
  intros Hk. destruct (fm_data _ _ _ _ _ _ Hmap k Hk) as [[H _]|(_ & (bh & b & Hu & Hd) & Hl)]; [by destruct (Hzones k Hk)|].
  by exists bh, b.
Qed.

(** The test of entry [i] in the buffer of its block, and what follows. *)
Lemma add_here i k bh b m (next : M kernel (option (Z * Z))) :
  0 <= k < hi -> 64 * k <= i < 64 * k + 64 -> i <= j -> usable (bhs s) (i_dev n) (zones k) bh b -> b_data b = blocks k ->
  lenz (blocks k) = 1024 -> let s1 := put_bh bh (held b) (released m s) in
  (i < j -> added (next s1)) ->
  added ((let! free := try_entry dir name namelen i bh (16 * (i - 64 * k)) in
          if free : bool then ret (Some (bh, 16 * (i - 64 * k))) else next) s1).
Proof using All.
  intros Hk Hi Hij Hu Hd Hl s1 Hnext. pose proof (fm_max _ _ _ _ _ _ Hmap) as Hhi. unfold MAX_BLOCKS in Hhi.
  pose proof Hu as [Hb _ _ _ _ _]. assert (getz (bhs s1) bh = Some (held b)) as Hb1 by exact (get_put_bh bh b (held b) (released m s) Hb).
  assert (getz (inode_table s1) dir = Some n) as Hn1 by exact Hn.
  assert (le16 (b_data (held b)) (16 * (i - 64 * k)) = Some (slot_nr blocks i)) as Hnr.
  { change (b_data (held b)) with (b_data b). rewrite Hd, slot_le16 by lia. do 2 f_equal. lia. }
  destruct Hfree as [Hr Ht Hf]. destruct (decide (i = j)) as [->|Hne].
  - destruct (try_free dir name namelen Hlen s1 n bh (held b) j (16 * (j - 64 * k)) Hnm Hn1 Hb1) as (data & Hdata & Hrun);
      [lia|change (b_data (held b)) with (b_data b); rewrite Hd; lia|done|lia|lia| |].
    { rewrite Hnr. destruct Hf as [?|Hf0]; [by left|]. right. by rewrite Hf0. }
    run Hrun. change (b_data (held b)) with (b_data b) in Hdata. rewrite Hd in Hdata.
    assert (j / 64 = k /\ j mod 64 = j - 64 * k) as [E1 E2] by (split; dmlia).
    exists m, bh, b, data. rewrite E1, E2. split; [|split; [done|exact Hdata]]. unfold ret. f_equal.
    exact (put_bh_put bh (held b) _ (released m (s <| inode_table ::= fun t => setz t dir (entered n j (CURRENT_TIME (sch s))) |>))).
  - destruct (Ht i) as [Hlt Hnr0]; [lia|].
    run (try_taken dir name namelen s1 n bh (held b) i (16 * (i - 64 * k)) _ Hn1 Hb1 Hnr Hnr0 Hsize ltac:(lia) Hlt).
    apply Hnext. lia.
Qed.

Lemma add_loop_ok fuel i k bh b m : 0 <= k < hi -> 64 * k <= i <= 64 * k + 64 -> i <= j -> j - i < Z.of_nat fuel ->
  usable (bhs s) (i_dev n) (zones k) bh b -> b_data b = blocks k -> lenz (blocks k) = 1024 ->
  added (add_entry_loop fuel dir name namelen i (Some bh) (16 * (i - 64 * k)) (put_bh bh (held b) (released m s))).
Proof using All.
  revert i k bh b m. induction fuel as [|fuel IH]; intros i k bh b m Hk Hi Hij Hf Hu Hd Hl; [lia|]. cbn [add_entry_loop].
  cbn [valid]. run_step. change BLOCK_SIZE with 1024. change DIR_ENTRIES_PER_BLOCK with 64.
  pose proof (ff_range _ _ _ _ Hfree) as Hr. pose proof (fm_max _ _ _ _ _ _ Hmap) as Hhi.
  destruct (Z.leb_spec 1024 (16 * (i - 64 * k))) as [Hde|Hde].
  - assert (i = 64 * (k + 1)) as Ei by lia. pose proof Hu as [Hb _ _ _ Hlk Hc].
    destruct (dir_block (k + 1)) as (bh' & b' & Hu' & Hd' & Hl'); [lia|].
    set (s1 := released m s). assert (getz (bhs s1) bh = Some b) as Hb1 by exact Hb.
    rewrite !bind_assoc. run (brelse_held _ bh b (get_put_bh bh b (held b) s1 Hb1) Hlk Hc). rewrite put_held_id by done.
    unfold s1. rewrite released_add. replace (i / 64) with (k + 1) by dmlia.
    destruct (_bmap_ok (released (1 + m) s) dir n (k + 1) (zones (k + 1)) true Hs Hn Hdev) as [m' Hm'];
      [lia|by eapply zone_path_zone, (fm_path _ _ _ _ _ _ Hmap); lia|right; apply Hzones; lia|].
    unfold create_block. rewrite !bind_assoc. run Hm'. rewrite released_add. unfold istrue at 1.
    rewrite (proj2 (Z.eqb_neq _ 0) (Hzones (k + 1) ltac:(lia))). cbn [negb].
    set (s2 := released (m' + (1 + m)) s). assert (getz (inode_table s2) dir = Some n) as Hn2 by exact Hn.
    rewrite !bind_assoc. run (get_inode_ok _ _ _ Hn2).
    assert (usable (bhs s2) (i_dev n) (zones (k + 1)) bh' b') as Hu2 by exact Hu'.
    rewrite !bind_assoc. run (bread_cached s2 _ _ _ _ (released_inv _ s Hs) Hdev Hu2). run_step.
    pose proof (add_here i (k + 1) bh' b' (m' + (1 + m)) (add_entry_loop fuel dir name namelen (i + 1) (Some bh') DIR_ENTRY_SIZE)) as Hhere.
    replace (16 * (i - 64 * (k + 1))) with 0 in Hhere by lia. apply Hhere; [lia|lia|done|done|done|done|]. intros Hlt.
    replace DIR_ENTRY_SIZE with (16 * (i + 1 - 64 * (k + 1))) by (unfold DIR_ENTRY_SIZE; lia).
    apply IH; [lia..|done|done|done].
  - run_step. apply (add_here i k bh b m); [done|lia|done|done|done|done|]. intros Hlt.
    replace (16 * (i - 64 * k) + DIR_ENTRY_SIZE) with (16 * (i + 1 - 64 * k)) by (unfold DIR_ENTRY_SIZE; lia).
    apply IH; [lia..|done|done|done].
Qed.
End loop.

Lemma add_entry_ok s dir n name namelen hi zones tables blocks j :
  cache_inv s -> getz (inode_table s) dir = Some n -> i_dev n <> 0 -> is_u32 (i_size n) ->
  file_map (bhs s) n hi zones tables blocks -> (forall k, 0 <= k < hi -> zones k <> 0) -> 0 < namelen ->
  first_free n hi blocks j -> is_name (read_user (Z.to_nat (Z.min namelen NAME_LEN)) name (user s)) ->
  added s dir n name (Z.min namelen NAME_LEN) zones blocks j (add_entry dir name namelen s).
Proof.
  intros Hs Hn Hdev Hsize Hmap Hz Hpos Hfree Hnm. set (len := Z.min namelen NAME_LEN) in *.
  assert (0 < len <= NAME_LEN) as Hlen by (unfold len, NAME_LEN; lia). pose proof Hfree as [Hr Ht _].
  destruct (dir_block s n hi zones tables blocks Hmap Hz 0 ltac:(lia)) as (bh & b & Hu & Hd & Hl).
  pose proof (fm_path _ _ _ _ _ _ Hmap 0 ltac:(lia)) as [_ Hz0]. pose proof (Hz 0 ltac:(lia)) as Hz0'.
  unfold add_entry. fold len. unfold istrue. rewrite (proj2 (Z.eqb_neq len 0)) by lia. cbn [negb].
  run (block_zone_ok _ _ _ _ _ Hn Hz0). rewrite (proj2 (Z.eqb_neq (zones 0) 0) Hz0'). cbn [negb].
  run (get_inode_ok _ _ _ Hn). run (bread_cached s _ _ _ _ Hs Hdev Hu).
  rewrite <- (released_0 s) at 1.
  pose proof (add_loop_ok s dir n name len hi zones tables blocks j Hs Hn Hdev Hsize Hmap Hz Hlen Hfree Hnm
    (Z.to_nat (dir_entries n + 2)) 0 0 bh b 0) as Hloop.
  change (16 * (0 - 64 * 0)) with 0 in Hloop. apply Hloop; [lia|lia|lia| |done|done|done].
  unfold dir_entries, DIR_ENTRY_SIZE, is_u32 in *. rewrite (u32_id (i_size n)) by done.
  rewrite s32_id by (unfold is_s32; dmlia). destruct (decide (j = 0)) as [->|]; [dmlia|].
  destruct (Ht (j - 1) ltac:(lia)) as [H _]. dmlia.
Qed.

(** ** The entry gets its number, and is found *)

(** What the calls that make a name do with the entry: sys_mknod and sys_link,
    for one. *)
Definition enter (dir name namelen nr : Z) : M kernel unit :=
  let! r := add_entry dir name namelen in
  let! '(bh, de) := valid r in
  do! set_de_inode_nr bh de nr in
  do! set_bh bh (fun b => b <| b_dirt := 1 |>) in
  brelse (Some bh).

(** Entry [j] is the new one, and the others are as before. *)
Definition one_entry_more (blocks blocks' : Z -> list Z) (j nr : Z) (nm : list Z) : Prop :=
  slot_nr blocks' j = nr /\ slot_name blocks' j = nm /\
  forall i, 0 <= i -> i <> j -> slot_nr blocks' i = slot_nr blocks i /\ slot_name blocks' i = slot_name blocks i.

Lemma entry_bytes blocks data j nr nm : 0 <= j -> is_name nm -> (length nm <= 14)%nat -> is_u16 nr ->
  lenz (blocks (j / 64)) = 1024 -> has_entry (blocks (j / 64)) data (16 * (j mod 64)) nm ->
  one_entry_more blocks (fun k => if decide (k = j / 64) then set_le16 data (16 * (j mod 64)) nr else blocks k) j nr nm.
Proof.
  intros Hj Hnm Hlnm Hnr Hl (Hld & Hname & Hout). set (blocks' := fun k => _). set (de := 16 * (j mod 64)) in *.
  assert (lenz (blocks' (j / 64)) = 1024) as Hl' by (unfold blocks'; rewrite decide_True by done; rewrite lenz_set_le16; lia).
  pose proof (Z.mod_pos_bound j 64 ltac:(lia)) as Hmod. pose proof (Z.div_mod j 64 ltac:(lia)) as Hdm.
  pose proof (padded_lenz nm Hlnm) as Hpl.
  assert (forall x, 0 <= x -> ~ (16 * j <= x < 16 * j + 16) -> file_byte blocks' x = file_byte blocks x) as Hsame.
  { intros x Hx Hne. unfold file_byte, blocks'. case_decide as Ek; [|done]. f_equal.
    assert (~ (de <= x mod 1024 < de + 16)) as Hx' by (unfold de; dmlia).
    rewrite getz_set_le16_ne by lia. rewrite Ek. by apply Hout. }
  split_and!.
  - pose proof (slot_le16 blocks' (j / 64) (j mod 64) Hl' Hmod) as H. rewrite <- Hdm in H.
    assert (le16 (blocks' (j / 64)) (16 * (j mod 64)) = Some nr) as H2.
    { unfold blocks'. rewrite decide_True by done. apply le16_set_le16; [lia|rewrite Hld; lia|done]. }
    congruence.
  - unfold slot_name. rewrite slot_field. rewrite <- (cut0_padded nm Hnm Hlnm) at 1. f_equal.
    apply list_eq. intros i. destruct (decide (i < 14)%nat) as [Hi|Hi].
    + rewrite list_lookup_fmap, lookup_seqZ_lt by lia. cbn [fmap option_fmap option_map].
      specialize (Hname (Z.of_nat i) ltac:(lia)). rewrite getz_padded in Hname by (unfold lenz; lia).
      assert (padded nm !! i = getz (padded nm) (Z.of_nat i)) as ->.
      { unfold getz. rewrite (proj2 (Z.ltb_ge _ _)) by lia. by rewrite Nat2Z.id. }
      rewrite getz_padded by (unfold lenz; lia). f_equal.
      replace (16 * j + 2 + (0 + Z.of_nat i)) with (1024 * (j / 64) + (de + 2 + Z.of_nat i)) by (unfold de; lia).
      rewrite file_byte_at by (unfold de; lia). unfold blocks'. rewrite decide_True by done.
      rewrite getz_set_le16_ne by lia. by rewrite Hname.
    + rewrite !lookup_ge_None_2; [done|unfold lenz in Hpl; lia|rewrite length_fmap, length_seqZ; lia].
  - intros i Hi Hne. split.
    + unfold slot_nr. rewrite !Hsame by lia. done.
    + unfold slot_name. rewrite !slot_field. f_equal. apply list_fmap_ext. intros o x Hx. apply lookup_seqZ in Hx.
      apply Hsame; lia.
Qed.

Lemma enter_ok s dir n name namelen nr hi zones tables blocks j :
  cache_inv s -> getz (inode_table s) dir = Some n -> i_dev n <> 0 -> is_u32 (i_size n) ->
  file_map (bhs s) n hi zones tables blocks -> (forall k, 0 <= k < hi -> zones k <> 0) -> 0 < namelen ->
  first_free n hi blocks j -> is_u16 nr ->
  let nm := read_user (Z.to_nat (Z.min namelen NAME_LEN)) name (user s) in is_name nm ->
  let n' := entered n j (CURRENT_TIME (sch s)) in
  exists m l' blocks', enter dir name namelen nr s = Ok tt (released m (wrote l' dir n' s)) /\
    same_links (bhs s) l' /\ file_map l' n' hi zones tables blocks' /\ one_entry_more blocks blocks' j nr nm.
Proof.
  intros Hs Hn Hdev Hsize Hmap Hz Hpos Hfree Hnr nm Hnm n'. pose proof Hfree as [Hr _ _].
  assert (0 <= j / 64 < hi) as Hk by dmlia.
  destruct (add_entry_ok s dir n name namelen hi zones tables blocks j Hs Hn Hdev Hsize Hmap Hz Hpos Hfree Hnm)
    as (m & bh & b & data & Hadd & Hu & Hdata). set (de := 16 * (j mod 64)) in *.
  pose proof (Z.mod_pos_bound j 64 ltac:(lia)) as Hmod.
  destruct (dir_block s n hi zones tables blocks Hmap Hz (j / 64) Hk) as (_ & _ & _ & _ & Hl).
  set (data2 := set_le16 data de nr).
  assert (lenz data2 = 1024) as Hl2 by (unfold data2; rewrite lenz_set_le16, (proj1 Hdata); done).
  assert (length nm <= 14)%nat as Hlnm by (unfold nm, read_user, NAME_LEN; rewrite length_fmap, length_seqZ; lia).
  destruct (entered_fields n j (CURRENT_TIME (sch s))) as (Ez & Ed & _).
  exists (1 + m)%nat, (setz (bhs s) bh (new_data b data2)), (fun k => if decide (k = j / 64) then data2 else blocks k). split_and!.
  - unfold enter. run Hadd. cbn [valid]. run_step. set (s1 := released m _).
    pose proof Hu as [Hb _ _ _ Hlk Hc]. assert (getz (bhs s1) bh = Some b) as Hb1 by exact Hb.
    set (b1 := held (new_data b data)). unfold set_de_inode_nr.
    rewrite (bind_ok _ _ _ tt (put_bh bh (b1 <| b_data ::= fun l => set_le16 l de nr |>) s1)).
    2:{ rewrite (set_bh_ok _ bh b1 _ (get_put_bh bh b b1 s1 Hb1)). f_equal. apply put_bh_put. }
    rewrite (bind_ok _ _ _ tt (put_bh bh (held (new_data b data2)) s1)).
    2:{ rewrite (set_bh_ok _ bh _ (fun b => b <| b_dirt := 1 |>) (get_put_bh bh b _ s1 Hb1)). f_equal. apply put_bh_put. }
    rewrite (brelse_held _ bh (new_data b data2) (get_put_bh bh b _ s1 Hb1) Hlk Hc). f_equal. rewrite put_bh_put.
    unfold s1. rewrite <- released_add. done.
  - apply (same_links_set _ _ b); [apply Hu|done].
  - apply (file_map_inode _ n); [done|done|]. by apply (file_map_new _ _ _ _ _ _ (j / 64) bh b); try apply Hz.
  - apply entry_bytes; [lia|exact Hnm|exact Hlnm|exact Hnr|exact Hl|exact Hdata].
Qed.

(** What a search needs of the blocks. *)
Lemma file_map_dir l n hi zones tables blocks k :
  file_map l n hi zones tables blocks -> (forall k, 0 <= k < hi -> zones k <> 0) -> 0 <= k < hi -> dir_cached l n blocks k.
Proof.
  intros M Hz Hk. pose proof (fm_max _ _ _ _ _ _ M) as Hhi.
  destruct (fm_data _ _ _ _ _ _ M k Hk) as [[H _]|(_ & (bh & b & Hu & Hd) & Hl)]; [by destruct (Hz k Hk)|].
  split; [lia|]. split; [done|]. exists bh, b. split; [|done]. exists (zones k). split; [|split; [by apply Hz|done]].
  by eapply zone_path_zone, (fm_path _ _ _ _ _ _ M).
Qed.

(** C5: A name that is entered is found. In a directory whose blocks are in the
    cache, with a first free entry (inside it, or where it ends), that has no
    entry of the name before, [add_entry] takes that entry; when it has its
    number and is let go, [find_entry] finds it there under the name, with the
    number. All other entries are as they were, the directory is longer by the
    entry if it was at the end, and the cache is in order. *)
Theorem enter_then_find s dir n name namelen nr hi zones tables blocks j :
  cache_inv s -> getz (inode_table s) dir = Some n -> i_dev n <> 0 ->
  is_u32 (i_size n) -> i_size n mod 16 = 0 -> i_size n <= 1024 * hi ->
  file_map (bhs s) n hi zones tables blocks -> (forall k, 0 <= k < hi -> zones k <> 0) -> 0 < namelen ->
  first_free n hi blocks j -> is_u16 nr -> nr <> 0 ->
  let nm := read_user (Z.to_nat (Z.min namelen NAME_LEN)) name (user s) in
  is_name nm -> nm <> [dot; dot] -> (forall i, 0 <= i < j -> slot_name blocks i <> nm) ->
  exists s1 s2 bh n' blocks',
    enter dir name namelen nr s = Ok tt s1 /\
    find_entry dir name namelen s1 = Ok (dir, Some (bh, 16 * (j mod 64))) s2 /\
    de_inode_nr bh (16 * (j mod 64)) s2 = Ok nr s2 /\
    one_entry_more blocks blocks' j nr nm /\
    cache_inv s1 /\ getz (inode_table s1) dir = Some n' /\ file_map (bhs s1) n' hi zones tables blocks' /\
    i_size n' = Z.max (i_size n) (16 * (j + 1)).
Proof.
  intros Hs Hn Hdev Hsize Hs16 Hshi Hmap Hz Hpos Hfree Hnr Hnr0 nm Hnm Hdots Hnot. pose proof Hfree as [Hr Ht Hff].
  destruct (enter_ok s dir n name namelen nr hi zones tables blocks j Hs Hn Hdev Hsize Hmap Hz Hpos Hfree Hnr Hnm)
    as (m & l' & blocks' & He & Hsl & M' & Hone). set (n' := entered n j _) in *. set (s1 := released m (wrote l' dir n' s)) in *.
  destruct (entered_fields n j (CURRENT_TIME (sch s))) as (Ez & Ed & Es). fold n' in Ez, Ed, Es.
  assert (i_size n' = Z.max (i_size n) (16 * (j + 1))) as Esz by (rewrite Es; destruct (Z.leb_spec (i_size n) (16 * j)); dmlia).
  assert (cache_inv s1) as Hs1 by (by apply released_inv, (wrote_inv _ _ n)).
  assert (getz (inode_table s1) dir = Some n') as Hn1 by (apply getz_setz_eq; by apply getz_Some_lt in Hn).
  pose proof (fm_max _ _ _ _ _ _ Hmap) as Hhi. unfold MAX_BLOCKS in Hhi.
  pose proof Hone as (Hnrj & Hnmj & Hoth).
  assert (named blocks' nm j = true) as Hnamed.
  { unfold named. rewrite Hnrj, Hnmj, (proj2 (Z.eqb_neq nr 0)), bool_decide_true by done. done. }
  destruct (find_entry_ok s1 dir n' name namelen blocks' Hs1 Hn1) as [(m' & _ & Hno)|(j' & bh & b & m' & Hf & Hj' & Hn' & Hbef & Hb & Hd)].
  - by rewrite Ed.
  - unfold is_u32 in *. rewrite Esz. lia.
  - done.
  - eapply Forall_impl; [exact Hnm|]. cbn. lia.
  - exact Hdots.
  - intros k Hk Hor. eapply file_map_dir; [exact M'|exact Hz|]. destruct Hor as [->|Hlt]; [lia|]. rewrite Esz in Hlt. dmlia.
  - exfalso. change (user s1) with (user s) in Hno. fold nm in Hno. rewrite (Hno j) in Hnamed; [done|]. rewrite Esz. dmlia.
  - change (user s1) with (user s) in Hn', Hbef. fold nm in Hn', Hbef.
    assert (j' = j) as ->.
    { destruct (Z.lt_trichotomy j' j) as [Hlt|[?|Hgt]]; [|done|by rewrite (Hbef j) in Hnamed by lia].
      exfalso. unfold named in Hn'. apply andb_true_iff in Hn' as [_ Hn']. apply bool_decide_eq_true in Hn'.
      destruct (Hoth j' ltac:(lia) ltac:(lia)) as [_ E2]. rewrite E2 in Hn'. by apply (Hnot j'); [lia|]. }
    eexists s1, _, bh, n', blocks'. split; [exact He|]. split; [exact Hf|]. split_and!; try done.
    destruct Hb as (z & Hzz & _ & [Hget _ _ _ _ _]). set (s2 := released m' s1).
    assert (getz (bhs s2) bh = Some b) as Hg2 by exact Hget.
    unfold de_inode_nr. run (get_bh_ok _ _ _ (get_put_bh bh b (held b) s2 Hg2)). change (b_data (held b)) with (b_data b).
    destruct (file_map_dir _ _ _ _ _ _ (j / 64) M' Hz ltac:(dmlia)) as (_ & Hl & _). rewrite Hd, slot_le16 by (done || dmlia).
    replace (64 * (j / 64) + j mod 64) with j by dmlia. by rewrite Hnrj.
Qed.
End add.
