(* ===== verification/MainExamples.v ===== *)
(** * A program that opens its terminal, one that gets a signal, and the
    table of inodes they use *)

From Stdlib Require Import ZArith Lia.
From stdpp Require Import base numbers list gmap strings.
From S2P Require Import Prelude Memory Task Sched WaitQueue TtyData Kernel CharDev Blk Buffer Posix Inode Files.
From S2P Require Import Signal SysCalls UserMem ExecStack FileCounts SystemCall Unistd Main InodeTable BufferInv Posix Namei FileBlocks FileRead FileWrite Directory DirectoryAdd.
From S2P Require Import CacheExamples FileIoExamples.

#[local] Existing Instances quiet quiet_cooperative.

(** The root directory has one entry, t, which is the file of FileIoExamples. *)
Definition dir_slot (ino : Z) (name : list Z) : list Z := bytes_of 2 ino ++ name ++ replicate (14 - length name) 0.
Definition dir_block : list Z := dir_slot 1 [46] ++ dir_slot 1 [46; 46] ++ dir_slot 12 [116] ++ replicate 976 0.
Definition root_dir : m_inode := Inode 0x41ed 0 48 0 0 2 [5; 0; 0; 0; 0; 0; 0; 0; 0] 0 0 0x301 1 1 0 0 0 0 0 0.
Definition shell_task : task_struct := (plain_task 1 15) <| root := Some 0 |> <| pwd := Some 0 |>.
Definition shell_kernel : kernel :=
  two_blocks
    <| bhs ::= fun l => match l with x :: y :: l => (filled 97 x) <| b_data := dir_block |> :: y :: l | _ => l end |>
    <| inode_table ::= fun l => setz (setz l 0 root_dir) 2 the_file |>
    <| sch := idle_sched [Some (plain_task 0 15); Some shell_task] |>
    <| user := write_user [47; 116; 0] 256 ∅ |>.

Definition no_start (_ _ _ _ : Z) : M kernel Z := Prelude.blocked.
Definition no_handler (_ : frame) : M program unit := Prelude.blocked.
Definition in_shell : user_frame := UserFrame 0x1000 0x0f 0x202 0x8000 0x17.

Definition after_open : program := final (lib_open no_start in_shell no_handler 256 O_RDWR 0 (Program shell_kernel 0)).

Lemma after_open_eq : lib_open no_start in_shell no_handler 256 O_RDWR 0 (Program shell_kernel 0) = Ok 0 after_open.
Proof. vm_compute. reflexivity. Qed.


(** Task 1 has a one-shot handler for SIGINT at 0x1000, and SIGINT and
    SIGTERM are pending. *)
Definition on_int : sigaction_t := SigAction 0x1000 0 SA_ONESHOT 0x2000.
Definition struck_task : task_struct :=
  (plain_task 1 15) <| signal := 0x4002 |> <| sigaction ::= fun l => setz l 1 on_int |>.
Definition struck_kernel : kernel := bare <| Kernel.sch := idle_sched [Some (plain_task 0 15); Some struck_task] |>.
Definition struck_at : user_frame := UserFrame 0x3000 0x0f 0x202 0x8000 0x17.

Lemma signal_delivered_witness : exists s,
  ret_from_sys_call 7 8 9 struck_at struck_kernel = Ok (Frame 0x1000 (0x8000 - 32)) s /\
  (exists t, current_task (sch s) = Some t /\ signal t = 0x4000) /\
  read_user 32 (0x8000 - 32) (user s) = words [0x2000; 2; 0; 7; 8; 9; 0x202; 0x3000].
Proof.
  destruct (signal_delivered struck_kernel struck_task 1 on_int 7 8 9 struck_at
    (final (verify_area (0x8000 - 32) 32 struck_kernel))) as (t & -> & ->).
  - reflexivity.
  - discriminate.
  - discriminate.
  - discriminate.
  - done.
  - reflexivity.
  - intros k Hk. assert (k = 0) as -> by lia. reflexivity.
  - reflexivity.
  - discriminate.
  - discriminate.
  - vm_compute. reflexivity.
  - eexists. split; [reflexivity|]. split; [eexists; split; vm_compute; reflexivity|]. vm_compute. reflexivity.
Defined.

(** The file is in the table, and is found there. *)
#[local] Instance quiet_tidy : Tidy quiet.
Proof. split; intros; by apply (table_ok_ext s). Qed.

Lemma shell_table : table_ok shell_kernel.
Proof.
  split.
  - apply uniqb_sound. vm_compute. reflexivity.
  - vm_compute. congruence.
  - apply (bool_decide_eq_true _). vm_compute. reflexivity.
Qed.

Lemma inodes_unique_witness : exists i s, iget 0x301 12 shell_kernel = Ok i s /\ table_ok s.
Proof.
  apply (wlp_returns (iget 0x301 12) (fun _ s => table_ok s)); [vm_compute; reflexivity|].
  destruct (inodes_unique shell_kernel shell_table) as [Hg _]. exact (Hg 0x301 12 ltac:(by split) ltac:(by split)).
Defined.

(** Its name is the third entry of the root directory. *)
Lemma shell_cache : cache_inv shell_kernel.
Proof.
  unfold shell_kernel. generalize two_blocks two_blocks_inv. intros s Hs. apply (cache_inv_ext s); [|done|done| |done].
  - upd. destruct (bhs s) as [|x [|y l]]; try done. split; [done|]. intros i. unfold getz.
    destruct (i <? 0); [done|]. by destruct (Z.to_nat i) as [|[|k]].
  - apply setz_Forall; [apply setz_Forall; [apply Hs|]|]; vm_compute; split; congruence.
Qed.

Lemma find_entry_spec_witness : exists bh b m,
  find_entry 0 257 1 shell_kernel = Ok (0, Some (bh, 32)) (put_bh bh (held b) (released m shell_kernel)).
Proof.
  destruct (find_entry_spec shell_kernel 0 root_dir 257 1 (fun _ => dir_block)) as [(m & _ & Hno)|(j & bh & b & m & Hf & Hj & Hn & _)].
  - exact shell_cache.
  - vm_compute. reflexivity.
  - discriminate.
  - by split.
  - done.
  - apply (bool_decide_eq_true _). vm_compute. reflexivity.
  - vm_compute. discriminate.
  - intros k Hk [-> | Hlt]; [|change (64 * k < 3) in Hlt; assert (k = 0) as -> by lia].
    all: split; [done|]; split; [reflexivity|].
    all: destruct (getz (bhs shell_kernel) 0) as [b|] eqn:Hb; [|vm_compute in Hb; discriminate].
    all: exists 0, b; vm_compute in Hb; injection Hb as <-; split; [|reflexivity].
    all: exists 5; split; [reflexivity|]; split; [done|]; split; vm_compute; try reflexivity; try congruence; by split.
  - specialize (Hno 2 ltac:(done)). vm_compute in Hno. discriminate Hno.
  - exists bh, b, m. change (0 <= j < 3) in Hj. assert (j = 0 \/ j = 1 \/ j = 2) as [->|[->| ->]] by lia.
    + vm_compute in Hn. discriminate Hn.
    + vm_compute in Hn. discriminate Hn.
    + change (16 * (2 mod 64)) with 32 in Hf. exact Hf.
Defined.

(** A new name, u, for the same file: the directory gets a fourth entry. *)
Definition linking : kernel := shell_kernel <| user := write_user [117] 300 ∅ |>.

Lemma linking_cache : cache_inv linking.
Proof. unfold linking. generalize shell_kernel shell_cache. intros s Hs. by apply (cache_inv_ext s); try apply Hs. Qed.

Lemma linking_map : file_map (bhs linking) root_dir 1 (fun _ => 5) (fun _ => []) (fun _ => dir_block).
Proof.
  split.
  - done.
  - intros k Hk. assert (k = 0) as -> by lia. by split.
  - intros k Hk. right. split; [done|]. split; [|reflexivity].
    destruct (getz (bhs linking) 0) as [b|] eqn:Hb; [|vm_compute in Hb; discriminate].
    exists 0, b. vm_compute in Hb. injection Hb as <-. split; [|reflexivity].
    split; vm_compute; try reflexivity; try congruence. by split.
  - intros k k' Hk Hk'. lia.
  - intros k k' _ _ _ H. by apply elem_of_nil in H.
Qed.

Lemma linking_free : first_free root_dir 1 (fun _ => dir_block) 3.
Proof.
  split; [lia| |by left]. intros i Hi. assert (i = 0 \/ i = 1 \/ i = 2) as [->|[->| ->]] by lia; by split.
Qed.

Lemma enter_then_find_witness : exists s1 s2 bh,
  enter 0 300 1 12 linking = Ok tt s1 /\ find_entry 0 300 1 s1 = Ok (0, Some (bh, 48)) s2 /\ de_inode_nr bh 48 s2 = Ok 12 s2.
Proof.
  destruct (enter_then_find linking 0 root_dir 300 1 12 1 (fun _ => 5) (fun _ => []) (fun _ => dir_block) 3)
    as (s1 & s2 & bh & n' & blocks' & H1 & H2 & H3 & _).
  - exact linking_cache.
  - vm_compute. reflexivity.
  - discriminate.
  - by split.
  - reflexivity.
  - done.
  - exact linking_map.
  - done.
  - done.
  - exact linking_free.
  - by split.
  - done.
  - apply (bool_decide_eq_true _). vm_compute. reflexivity.
  - vm_compute. discriminate.
  - intros i Hi. assert (i = 0 \/ i = 1 \/ i = 2) as [->|[->| ->]] by lia; vm_compute; discriminate.
  - exists s1, s2, bh. split; [exact H1|]. split; [exact H2|exact H3].
Defined.
